(* ===== verification/_CoqProject ===== *)
-Q . S2P
Prelude.v
GoString.v
Meta.v
Logging.v
Codec.v
Effects.v
Handler.v
Backend.v
Steps.v
DiffEngine.v
HandlerSpec.v
Protocol.v
Mutations.v
Budget.v
Outcomes.v
Scenarios.v
BackendLaws.v
Convergence.v
Isolation.v
Machine.v
MachineSpec.v
Owned.v
Pool.v
Partition.v
Parallel.v
Fetch.v
Healing.v
Order.v
SingleFlight.v
FlightLiveness.v
ExactlyOnce.v
StepCount.v
Assertions.v
Recovery.v
KeySets.v
