(* ===== verification/Prelude.v ===== *)
(** * Verification of the module synchronizer of bk-cmdb's admin server

    The program is one Go function,
    [IAMHandler.HandleModuleSync] in
    [src/scene_server/admin_server/synchronizer/handler/module.go].  For one
    business it reads the business's module instances from the CMDB core
    service, lists the module resources the authorization centre (IAM) holds
    for that business, asks IAM by a dry-run registration which identifier
    each CMDB module would get, registers the modules IAM does not know and
    deregisters the IAM resources no CMDB module accounts for.

    ** The model, file by file

    - [Prelude] (this file): the notation scope, the hint databases and the
      lemmas on lists and machine integers the other files share.  Go's
      [int] is 64 bits wide ([wrap64]).
    - [GoString]: the routines of Go's standard library called on strings:
      [strings.Contains] (line 89), [strings.Join] and the ["%s:%s"] format
      of [fmt.Sprintf], with their specifications.
    - [Meta]: the data of the imported packages, with the fields this
      function reads or writes ([BusinessSimplify], [ModuleSimplify],
      [ResourceAttribute], [BackendResource], [ResourceEntity],
      [ScopeInfo], [WorkRequest], the query of lines 38-44), Go errors,
      panics, one constructor of [LogLine] per [blog] call and one
      constructor of [Call] per call to a collaborator.
    - [Logging]: what the source shows of each [blog] call: the function it
      is written with ([severity]), its format string, verbatim
      ([formatString]), and the kinds of its arguments ([arguments]); a
      scanner for the verbs of a format ([verbs]) and the check that verbs
      and arguments agree ([vet], [vet_spec]).
    - [Codec]: [generateIAMResourceKey] and [generateCMDBResourceKey].  The
      two functions are in another file of the Go package, which is not part
      of the sources at hand; the specification describes a key only as a
      string that is equal on both sides for the same entity.  The model
      fixes a format, one [type:id] segment per layer joined by [-]; the
      theorems that depend on the format are those of [Codec] and
      [hit_iff_same_segments], all others use only that the two sides build
      the key from the types and identifiers of the layers
      ([key_sides_agree]).
    - [Effects]: the monad [M] the function body runs in (the state of the
      outside world, a trace of log lines and calls, early [return] and
      panic), the loop combinator [forRange], the interface of the
      collaborators as the type class [Collaborators] (the core service's
      [ReadInstance] and [Parse], the authorizer's [ListResources],
      [DryRunRegisterResource], [RegisterResource],
      [RawDeregisterResource]), equality of computations up to their runs
      ([≡], with the monad laws and [Proper] instances for rewriting under
      a bind), and two small logics over [M]: [adds P m] (all events [m]
      appends satisfy [P]) and [keeps m] ([m] hands the world on
      unchanged).
    - [Handler]: the translation of [HandleModuleSync], one definition per
      statement group of the source, named after what it computes and
      annotated with its lines; [HandleModuleSyncBody] composes them in the
      order of the source and [HandleModuleSync] is what a caller observes:
      an [Outcome] (the returned error or a panic) and the final state.
    - [Backend]: a reference implementation of [Collaborators] on a concrete
      world (raw instances, a registry of resources per business, injected
      faults), and the sample worlds in which the theorems are witnessed.
    - [Steps]: one run equation per step of [Handler]; the extraction loop
      and the filter loop characterised by list functions
      ([extractModules_spec], [filterRealResources_spec]).
    - [DiffEngine]: the hit-count map.  The loop of lines 107-136 interleaves
      dry runs and diff; [diffModules_fusion] separates them, and
      [diff_refines_reference] shows that the state the loop reaches is the
      two-pass reference diff ([toRegister], [toDeregister]) on the resolved
      modules.  Completeness, no double counting, exact 64-bit counts, and
      independence of names follow.
    - [HandlerSpec]: the whole function path by path: the three fatal
      failures, the business without instances, the two panics, the
      successful run with its calls, and the safety theorem
      [no_mutation_unless_nil].
    - [Protocol]: the order of the calls as a state machine ([callStep],
      [steps], the executable [phaseAfter]) and a program logic [moves] that
      follows its phases through the binds of the body;
      [sync_follows_protocol] holds of every run.
    - [Mutations]: what a run asks IAM to change, for all runs at once:
      [mutations_are_grounded], and the scope of the deregistration.
    - [Budget]: a cost logic [spends n m] that counts calls on every path,
      and the bound of the whole function, four calls plus one per instance
      the CMDB returned ([sync_call_budget]).
    - [Outcomes]: the outcome of a run as a function of the answers, the
      converses of the path theorems ([sync_panics_iff], [sync_error_iff]),
      and [errors_are_logged].
    - [Scenarios]: the scenarios of the specification, evaluated against the
      reference backend.
    - [BackendLaws]: the contract [LawfulBackend] the convergence theorems
      assume of the collaborators, and the proof that the reference backend
      satisfies it.
    - [Convergence]: against a lawful backend, a run whose mutations succeed
      makes IAM mirror the CMDB ([sync_establishes_consistency]) and the
      next run is quiet ([second_run_quiet]); a run that fails changes
      nothing ([failed_run_keeps_world]).
    - [Isolation]: against a backend that keeps businesses apart
      ([ScopedBackend]), a run leaves the resources of every other business
      as they were ([sync_leaves_other_businesses]).
    - [Machine]: the function once more, as a transition system: a program
      point ([Point]) per statement group and per loop head, holding the
      local variables that are live there and the index of the loop;
      [stmt] is the code between a point and the next, built from the
      definitions of [Handler]; [step] runs one statement and sends a
      [return] or a panic to the final point.  The machine is
      deterministic, and it terminates ([machine_terminates]).
    - [MachineSpec]: [rest p], what is left of the body at point [p]; a step
      does not change what the run will return, and so the machine started
      at line 33 stops in the outcome and state of [HandleModuleSync], and
      in no other ([machine_refines_function]).
    - [Owned]: well-formedness of the local variables at every point a run
      for business [b] reaches ([step_preserves_owned]).
    - [Pool]: the dispatcher of the specification's section 5: invocations
      of the machine that share one world and take turns under a schedule
      ([turn], [play], [dispatch]); under a fair schedule every invocation
      returns ([every_run_returns]).
    - [Partition]: the contract [PartitionedBackend]: what IAM answers and
      changes for one business does not depend on the others; the reference
      backend satisfies it.
    - [Parallel]: two relational logics over [M], [respects R m] (from
      states alike up to [R], [m] gives the same result and log) and
      [stays R m] ([m] leaves the world [R]-related to what it was), and
      with them the unwinding proof that invocations for different
      businesses do not interfere ([parallel_runs_independent],
      [parallel_sync_consistent]).  Two invocations for the same business
      do: [sample_race_double_registration].
    - [Fetch]: what the query of lines 38-44 and the parse loop read back
      from a CMDB that stores modules ([fetch_roundtrip]).
    - [Healing]: the contract [AtomicBackend] (a mutation that fails has
      changed nothing IAM lists) and the retry the function relies on: a
      later run makes up for the mutations of a run that failed
      ([failed_mutations_heal]).
    - [Order]: the reference diff is [Proper] for permutation of the
      listing and of the modules, and so are the batches of the loop
      ([diff_order_independent]); consistency is decidable.
    - [SingleFlight]: the dispatcher with the lock per business the
      specification asks the caller for: an invocation takes a step only
      while no other invocation for its business is in flight ([allowed],
      [flightTurn], [fly]).  The invariant [flown] follows the invocations
      of a business in the order in which they started; with it the
      invocations of a business are serial ([single_flight_serial]).
    - [FlightLiveness]: at most one invocation per business is in flight
      ([exclusive], [single_flight_exclusive]), the one in flight is never
      refused, and so under a fair schedule every invocation returns
      although turns are refused ([single_flight_returns]).  Fairness to
      the invocation in flight is needed: while it gets no turn, the
      others of its business wait ([stalled_holder_blocks]).
    - [ExactlyOnce]: serialisability and idempotence together: among any
      number of invocations of one task at most one changes IAM
      ([single_flight_once]).
    - [StepCount]: the number of steps of the machine: [fuel] counts for
      a configuration the statements ahead and the elements the loops
      ahead have still to visit, a step uses up at least one unit, and the
      machine has returned after [stepBound] steps, a number linear in the
      answers of the read and of the listing ([machine_step_bound]).  In
      the pool an invocation among invocations for other businesses has
      returned once it has had that many turns ([pool_run_bounded]).
    - [Assertions]: the assertion of every program point, in the style
      of Floyd: where the world is (untouched until line 141, then with
      [needRegister] registered, then with [needDeregister] deregistered)
      and what the loop variables hold (the values of the reference
      functions on the elements visited so far).  A step preserves the
      assertions, so they hold wherever a run gets ([reachable_sound]).
    - [Recovery]: a run stopped between two statements leaves a world the
      next run repairs ([interrupted_run_heals]); and what happens to a
      module that is created between the read and the listing of a run
      ([sample_stale_snapshot]).
    - [KeySets]: the specification of the reconciliation on finite sets of
      keys ([plan], [carry]); the diff computes the plan and a run carries
      it out ([diff_refines_plan], [sync_refines_carry]).

    ** How the files depend on each other

    [Handler] is written against [Collaborators] alone; every theorem
    about the function is proved for all instances of the class, or for
    those that satisfy one of the contracts [LawfulBackend],
    [ScopedBackend], [PartitionedBackend], [AtomicBackend].  [Backend] is
    the one instance of the development; [BackendLaws], [Isolation],
    [Partition] and [Healing] discharge the contracts for it, and the
    witnesses of the theorems evaluate in it.
    [Machine] reuses the step definitions of [Handler], so that the two
    models of the function differ only in how they sequence the steps, and
    [MachineSpec] proves that they agree; [Assertions] and [StepCount] are
    about the machine alone, and [Recovery] uses the assertions to extend
    the theorem of [Healing] from runs that have returned to runs that
    were stopped.  [Pool] interleaves invocations
    of the machine; [SingleFlight] restricts the schedules of [Pool] by the
    lock and leaves its steps as they are, so the theorems of [Owned] and
    [Parallel] about a turn carry over.

    ** Conventions

    - A Go slice is a [list]; a [nil] slice and an empty one are both [[]];
      [append] is [++] with a singleton.
    - The [map[string]int] of line 96 is a [gmap string Z]; reading a
      missing key gives [0] as in Go, and [++] wraps at 64 bits.
    - [int64] fields are [Z]; the function does no arithmetic on them.
    - Constants of package [common] are constructors of an enumeration, not
      their string values.
    - A call [v, err := f(...)] is an operation [W → (GoError + V) * W] on
      the world: every call may change the world, reads included.  Theorems
      that need more say so through [LawfulBackend].
    - Errors of collaborators are opaque ([ExternalError]); the one error
      the function builds (line 48) is the constructor [GetModuleError].

    ** Bounds and termination

    All loops range over finite slices.  In [Handler] every definition is a
    structural [Fixpoint] or a fold, no fuel is needed, and
    [HandleModuleSync] is a total function that evaluates by [vm_compute]
    on the sample worlds.  In [Machine] termination is a theorem: a step
    decreases the pair (statements of the function still ahead, elements
    the current loop has still to visit) in the lexicographic order, so
    [step] is strongly normalising.  [run] takes a number of steps; in
    [StepCount] the number that is always enough is [stepBound], eleven
    plus two per instance read plus three per resource listed, and the
    sample world needs that many; no other theorem depends on the number
    of steps.  Schedules
    of the pool are finite lists, or functions [nat → nat] of which the
    theorems take prefixes; liveness under the lock is by induction on the
    number of invocations of the business that have not returned.  The
    only machine arithmetic is the increment of a hit count; the theorems
    that read a count back assume fewer than [2^63] modules, which keeps it
    from wrapping (a Go slice cannot be longer).  The number of calls of a
    run is bounded by the number of instances read ([sync_call_budget]).

    ** What is not modelled

    The CMDB core service, the IAM service, the task dispatcher and the
    [blog] back end are not among the sources.  The first two appear as
    the operations of [Collaborators] and are given a contract and a
    reference implementation.  The dispatcher is modelled from the
    specification as far as it concerns this function: concurrent
    invocations on a shared world, interleaved between statements, a call
    to a collaborator being atomic, with and without a lock per business;
    its queues, retries and timing are not, and neither is the way the
    lock is implemented (it is a guard on the schedule).  A world that
    other parties change while a run is under way is not modelled in
    general: the theorems about one run take the world to change by the
    calls of that run only, those about the pool by the calls of its
    invocations, and [Recovery] gives one example of a change from
    outside.  The log is a list of [LogLine]s: a message is the
    constructor that names its line, with its arguments, its severity and
    its format string; the text it renders to and the sink it is written
    to are not modelled, and neither is [context.Background()].

    The body of the function, lines 32 to 165, is modelled completely,
    twice ([Handler], [Machine]); lines 1 to 31 are the licence, the
    package clause and the imports.  The packages the function imports
    ([authcenter], [extensions], [meta], [blog], the core service) are
    not among the sources, so their components stay partly modelled: what
    the function uses of them is modelled from the specification, and the
    theorems that depend on more than their signatures say so through a
    contract class. *)

From Stdlib Require Export ZArith Lia Ascii.
From stdpp Require Export base tactics option list gmap strings.

(** stdpp's solvers clear hypotheses that are already gone; the warning is
    of no interest here. *)
#[export] Set Warnings "-clear-no-such-hyp".

(** ** Notation scope of the development *)

Declare Scope sync_scope.
Delimit Scope sync_scope with sync.

(** ** Hint databases

    [sync] collects the resolution hints of the development; the rewrite
    database [sync_rw] the equations that normalise runs of the handler. *)

Create HintDb sync discriminated.
Create Rewrite HintDb sync_rw.

(** ** Go's machine integers *)

(** Go's [int] on the 64-bit platforms the server is built for. *)
Definition int64_min : Z := - 2 ^ 63.
Definition int64_max : Z := 2 ^ 63 - 1.

(** [wrap64 z] is the value a Go [int] holds after computing [z]:
    two's-complement wrap-around. *)
Definition wrap64 (z : Z) : Z := (z + 2 ^ 63) `mod` 2 ^ 64 - 2 ^ 63.

Definition in_int64 (z : Z) : Prop := (int64_min ≤ z ≤ int64_max)%Z.

#[export] Instance in_int64_dec z : Decision (in_int64 z).
Proof. unfold in_int64. apply _. Defined.

Lemma wrap64_in_range z : in_int64 (wrap64 z).
Proof.
  unfold in_int64, wrap64, int64_min, int64_max.
  pose proof (Z.mod_pos_bound (z + 2 ^ 63) (2 ^ 64)). lia.
Qed.

Lemma wrap64_id z : in_int64 z → wrap64 z = z.
Proof.
  unfold in_int64, wrap64, int64_min, int64_max. intros Hz.
  rewrite Z.mod_small; lia.
Qed.

Lemma wrap64_succ_nat (n : nat) :
  (Z.of_nat n < int64_max)%Z → wrap64 (Z.of_nat n + 1) = Z.of_nat (S n).
Proof.
  intros Hn. rewrite wrap64_id; [lia|].
  unfold in_int64, int64_min, int64_max in *. lia.
Qed.

(** Wrapping an intermediate result does not change the wrapped sum. *)
Lemma wrap64_add_l a b : wrap64 (wrap64 a + b) = wrap64 (a + b).
Proof.
  unfold wrap64. f_equal.
  replace ((a + 2 ^ 63) `mod` 2 ^ 64 - 2 ^ 63 + b + 2 ^ 63)%Z
    with ((a + 2 ^ 63) `mod` 2 ^ 64 + b)%Z by lia.
  rewrite Zplus_mod_idemp_l. f_equal. lia.
Qed.

Lemma wrap64_0 : wrap64 0 = 0%Z.
Proof. reflexivity. Qed.

(** Below [2 ^ 63] a count is [0] exactly when its machine value is. *)
Lemma wrap64_nat_eq_0 (n : nat) :
  (Z.of_nat n < 2 ^ 63)%Z → wrap64 (Z.of_nat n) = 0%Z ↔ n = 0.
Proof.
  intros Hn. rewrite wrap64_id; [lia|].
  unfold in_int64, int64_min, int64_max. lia.
Qed.

(** Go's [x + y] on [int]: addition that wraps at 64 bits. *)
Notation "x +64 y" := (wrap64 (Z.add x y))
  (at level 50, left associativity) : sync_scope.
Global Open Scope sync_scope.

#[export] Hint Resolve wrap64_in_range : sync.
#[export] Hint Rewrite wrap64_add_l wrap64_0 : sync_rw.

(** ** Lists *)

Section lists.
Context {A : Type}.
Implicit Types (l : list A) (f : A → bool).

Lemma forallb_Forall f l : forallb f l = true ↔ Forall (λ x, f x = true) l.
Proof.
  induction l as [|x l IH]; simpl; [by split|].
  rewrite andb_true_iff, Forall_cons, IH. done.
Qed.

Lemma existsb_Exists f l : existsb f l = true ↔ Exists (λ x, f x = true) l.
Proof.
  induction l as [|x l IH]; simpl; [by rewrite Exists_nil|].
  rewrite orb_true_iff, Exists_cons, IH. done.
Qed.

(** [filter] only looks at the elements of the list. *)
Lemma filter_ext_in (P Q : A → Prop) `{!∀ x, Decision (P x), !∀ x, Decision (Q x)} l :
  (∀ x, x ∈ l → P x ↔ Q x) → filter P l = filter Q l.
Proof.
  induction l as [|x l IH]; intros HPQ; [done|].
  rewrite !filter_cons, IH by (intros; apply HPQ; by right).
  destruct (HPQ x ltac:(by left)). repeat case_decide; naive_solver.
Qed.

Lemma filter_nil_iff (P : A → Prop) `{!∀ x, Decision (P x)} l :
  filter P l = [] ↔ Forall (λ x, ¬ P x) l.
Proof.
  induction l as [|x l IH]; [by split|].
  rewrite filter_cons, Forall_cons, <-IH. case_decide; naive_solver.
Qed.

Lemma filter_all (P : A → Prop) `{!∀ x, Decision (P x)} l :
  filter P l = l ↔ Forall P l.
Proof.
  induction l as [|x l IH]; [by split|].
  rewrite filter_cons, Forall_cons, <-IH. case_decide.
  - split; [by intros [= ->]|by intros [_ ->]].
  - split; [|by intros []]. intros Heq.
    pose proof (length_filter P l) as Hlen. rewrite Heq in Hlen. simpl in Hlen. lia.
Qed.

Lemma filter_length_0 (P : A → Prop) `{!∀ x, Decision (P x)} l :
  length (filter P l) = 0 ↔ ∀ x, x ∈ l → ¬ P x.
Proof. by rewrite length_zero_iff_nil, filter_nil_iff, Forall_forall. Qed.

End lists.

(** A filter that keeps less, and drops an element the other keeps, is
    shorter. *)
Section filters.
Context {A : Type} (P Q : A → Prop).
Context `{!∀ x, Decision (P x), !∀ x, Decision (Q x)}.
Context (HQP : ∀ x, Q x → P x).

Lemma filter_length_le l : length (filter Q l) ≤ length (filter P l).
Proof.
  induction l as [|y l IH]; [done|]. rewrite !filter_cons.
  repeat case_decide; simpl; try lia. naive_solver.
Qed.

Lemma filter_length_lt l x :
  x ∈ l → P x → ¬ Q x → length (filter Q l) < length (filter P l).
Proof.
  intros Hx HP HQ. induction l as [|y l IH]; [by apply elem_of_nil in Hx|].
  pose proof (filter_length_le l). rewrite !filter_cons.
  apply elem_of_cons in Hx as [<-|Hx].
  - rewrite (decide_True (P:=P x)), (decide_False (P:=Q x)) by done. simpl. lia.
  - specialize (IH Hx). repeat case_decide; simpl; try lia. naive_solver.
Qed.

End filters.
