(* ===== verification/GoString.v ===== *)
(** * GoString: the routines of Go's [strings] and [fmt] packages the
    handler relies on

    [strings.Contains] is called at line 89 of [module.go] to recognise a
    module resource; [strings.Join] and [fmt.Sprintf("%s:%s", ...)] build the
    resource keys.  Go strings are byte sequences, as [string] is here.  The
    definitions are executable; each comes with its specification in terms of
    concatenation, and the file ends with the unique-splitting lemmas that
    make keys injective. *)

From S2P Require Import Prelude.

(** ** Definitions *)

(** [strings.HasPrefix(s, prefix)]. *)
Fixpoint HasPrefix (s prefix : string) {struct prefix} : bool :=
  match prefix, s with
  | EmptyString, _ => true
  | String a p, String b s' => bool_decide (a = b) && HasPrefix s' p
  | String _ _, EmptyString => false
  end.

(** [strings.Contains(s, substr)]: [substr] occurs somewhere in [s]. *)
Fixpoint Contains (s substr : string) : bool :=
  HasPrefix s substr ||
  match s with
  | EmptyString => false
  | String _ s' => Contains s' substr
  end.

(** [strings.Join(elems, sep)]. *)
Fixpoint Join (elems : list string) (sep : string) : string :=
  match elems with
  | [] => ""
  | [a] => a
  | a :: rest => a +:+ sep +:+ Join rest sep
  end.

(** [fmt.Sprintf("%s:%s", a, b)]. *)
Definition SprintfColon (a b : string) : string := a +:+ ":" +:+ b.

(** [c] is one of the bytes of [s]. *)
Fixpoint has_char (c : ascii) (s : string) : bool :=
  match s with
  | EmptyString => false
  | String a s' => bool_decide (a = c) || has_char c s'
  end.

(** ** Concatenation *)

(** stdpp keeps [+:+] from unfolding under [simpl]; these two equations are
    its computation rules. *)
Lemma string_app_nil_l (s : string) : "" +:+ s = s.
Proof. reflexivity. Qed.

Lemma string_app_cons a (s t : string) : String a s +:+ t = String a (s +:+ t).
Proof. reflexivity. Qed.

Ltac sapp := rewrite ?string_app_cons, ?string_app_nil_l in *.

Lemma string_app_nil_r (s : string) : s +:+ "" = s.
Proof. induction s; sapp; congruence. Qed.

Lemma string_app_assoc (a b c : string) : (a +:+ b) +:+ c = a +:+ b +:+ c.
Proof. induction a; sapp; congruence. Qed.

Lemma has_char_app c a b : has_char c (a +:+ b) = has_char c a || has_char c b.
Proof. induction a as [|x a IH]; sapp; simpl; [done|]. by rewrite IH, orb_assoc. Qed.

Lemma has_char_cons_eq c s : has_char c (String c s) = true.
Proof. simpl. by rewrite bool_decide_eq_true_2. Qed.

#[export] Hint Rewrite string_app_nil_l string_app_cons string_app_nil_r
  string_app_assoc has_char_app has_char_cons_eq : sync_rw.

(** ** Specification of [HasPrefix] and [Contains] *)

Lemma HasPrefix_spec s p : HasPrefix s p = true ↔ ∃ r, s = p +:+ r.
Proof.
  revert s. induction p as [|a p IH]; intros s; simpl.
  - split; [by exists s|done].
  - destruct s as [|b s]; simpl.
    + split; [done|]. by intros [r ?].
    + rewrite andb_true_iff, bool_decide_eq_true, IH. split.
      * intros [-> [r ->]]. eauto.
      * intros [r [= -> ->]]. eauto.
Qed.

Lemma HasPrefix_app p r : HasPrefix (p +:+ r) p = true.
Proof. apply HasPrefix_spec. eauto. Qed.

Lemma Contains_cons b s sub :
  Contains (String b s) sub = HasPrefix (String b s) sub || Contains s sub.
Proof. reflexivity. Qed.

Lemma Contains_spec s sub :
  Contains s sub = true ↔ ∃ pre post, s = pre +:+ sub +:+ post.
Proof.
  induction s as [|b s IH].
  - simpl. rewrite orb_false_r, HasPrefix_spec. split.
    + intros [r Hr]. by exists "", r.
    + intros ([|??] & post & Hs); sapp; [eauto|done].
  - rewrite Contains_cons, orb_true_iff, IH, HasPrefix_spec. split.
    + intros [[r Hr]|(pre & post & ->)].
      * by exists "", r.
      * by exists (String b pre), post.
    + intros ([|c pre] & post & Hs); sapp.
      * left. eauto.
      * right. simplify_eq. eauto.
Qed.

Lemma Contains_self s : Contains s s = true.
Proof. apply Contains_spec. exists "", "". by rewrite string_app_nil_r. Qed.

Lemma Contains_app_l s t sub : Contains s sub = true → Contains (s +:+ t) sub = true.
Proof.
  rewrite !Contains_spec. intros (pre & post & ->). exists pre, (post +:+ t).
  by rewrite !string_app_assoc.
Qed.

Lemma Contains_app_r s t sub : Contains t sub = true → Contains (s +:+ t) sub = true.
Proof.
  rewrite !Contains_spec. intros (pre & post & ->). exists (s +:+ pre), post.
  by rewrite !string_app_assoc.
Qed.

Lemma Contains_empty s : Contains s "" = true.
Proof. destruct s; done. Qed.

#[export] Hint Resolve Contains_self Contains_app_l Contains_app_r Contains_empty
  HasPrefix_app : sync.

(** ** Splitting at a separator *)

(** A string is cut at the first occurrence of [c] in exactly one way. *)
Lemma split_at_char_inj c a a' r r' :
  has_char c a = false → has_char c a' = false →
  a +:+ String c r = a' +:+ String c r' → a = a' ∧ r = r'.
Proof.
  revert a'. induction a as [|x a IH]; intros [|x' a']; simpl;
    rewrite ?orb_false_iff, ?bool_decide_eq_false; intros Ha Ha' Heq; sapp;
    simplify_eq; naive_solver.
Qed.

(** A string without [c] is not a string that has [c] in it. *)
Lemma no_char_neq_split c a a' r :
  has_char c a = false → a ≠ a' +:+ String c r.
Proof.
  intros Ha ->. by rewrite has_char_app, has_char_cons_eq, orb_true_r in Ha.
Qed.

(** ** [SprintfColon] and [Join] *)

Lemma SprintfColon_inj a b a' b' :
  has_char ":" a = false → has_char ":" a' = false →
  SprintfColon a b = SprintfColon a' b' → a = a' ∧ b = b'.
Proof. unfold SprintfColon. apply split_at_char_inj. Qed.

Lemma SprintfColon_has_char c a b :
  has_char c (SprintfColon a b)
  = has_char c a || bool_decide (":"%char = c) || has_char c b.
Proof. unfold SprintfColon. rewrite has_char_app. simpl. by rewrite orb_assoc. Qed.

Lemma SprintfColon_nonempty a b : SprintfColon a b ≠ "".
Proof. unfold SprintfColon. by destruct a. Qed.

Lemma Join_cons a rest sep :
  rest ≠ [] → Join (a :: rest) sep = a +:+ sep +:+ Join rest sep.
Proof. by destruct rest. Qed.

Lemma Join_singleton a sep : Join [a] sep = a.
Proof. done. Qed.

(** [Join] with a one-byte separator is injective on lists of non-empty
    elements that do not contain the separator. *)
Lemma Join_inj c (l l' : list string) :
  Forall (λ s, s ≠ "" ∧ has_char c s = false) l →
  Forall (λ s, s ≠ "" ∧ has_char c s = false) l' →
  Join l (String c "") = Join l' (String c "") → l = l'.
Proof.
  intros Hl. revert l'. induction Hl as [|a l [Ha Hca] Hl IH];
    intros l' Hl' Heq; destruct Hl' as [|a' l' [Ha' Hca'] Hl']; [done|..].
  - destruct l'; simpl in Heq; [done|]. by destruct a'.
  - destruct l; simpl in Heq; [done|]. by destruct a.
  - destruct l as [|b l], l' as [|b' l'].
    + simpl in Heq. by subst.
    + rewrite Join_singleton, Join_cons in Heq by done.
      by apply no_char_neq_split in Heq.
    + rewrite Join_singleton, Join_cons in Heq by done.
      symmetry in Heq. by apply no_char_neq_split in Heq.
    + rewrite !Join_cons in Heq by done. sapp.
      apply split_at_char_inj in Heq as [-> Heq]; [|done..].
      f_equal. by apply IH.
Qed.
