(* ===== verification/Meta.v ===== *)
(** * Meta: the data the handler works on

    The Go types come from the packages [module.go] imports ([extensions],
    [authmeta], [authcenter], [metadata], [common], [meta]); each record
    keeps the fields [HandleModuleSync] and the key functions read or write.
    Where two Go structs share a field name the Rocq projection carries the
    struct's name as a prefix.  The constants of package [common] are the
    constructors of small enumerations ([common_BKAppIDField], ...): the
    handler only passes them on, so their spelling as strings is not part of
    the model.

    The file also fixes what a run can produce besides data: Go errors
    ([GoError]), run-time panics ([GoPanic]), the lines written to the log
    ([LogLine]) and the calls made to collaborators ([Call]). *)

From S2P Require Import Prelude.

(** ** Package [extensions]: simplified CMDB records *)

(** [extensions.BusinessSimplify]: the business a task is about. *)
Record BusinessSimplify := mkBusinessSimplify {
  BKAppIDField : Z;            (* int64 *)
}.

(** [extensions.ModuleSimplify]: what [Parse] extracts from a raw module
    instance. *)
Record ModuleSimplify := mkModuleSimplify {
  BKModuleIDField : Z;         (* int64 *)
  BKModuleNameField : string;
}.

(** ** Package [common] and [metadata]: the query for module instances *)

(** The field-name constants of package [common] the query mentions. *)
Inductive FieldName :=
  | common_BKAppIDField
  | common_BKModuleIDField
  | common_BKModuleNameField.

(** The object identifiers of package [common]; the handler reads
    [common.BKInnerObjIDModule]. *)
Inductive ObjID :=
  | common_BKInnerObjIDApp
  | common_BKInnerObjIDSet
  | common_BKInnerObjIDModule
  | common_BKInnerObjIDHost.

(** [metadata.SearchLimit.Limit]: [common.BKNoLimit] or a page size. *)
Inductive LimitValue :=
  | common_BKNoLimit
  | LimitOf (n : Z).

(** One clause of a [condition.Condition]: [cond.Field(f).Eq(v)]. *)
Inductive CondItem :=
  | FieldEq (f : FieldName) (v : Z).

(** [metadata.QueryCondition]. *)
Record QueryCondition := mkQueryCondition {
  Fields : list FieldName;
  Condition : list CondItem;
  Limit : LimitValue;
}.

(** A value stored in a [mapstr.MapStr] (Go's [interface{}]). *)
Inductive GoValue :=
  | VInt (z : Z)
  | VString (s : string)
  | VNil.

(** [mapstr.MapStr]: a raw instance as the core service returns it. *)
Abbreviation MapStr := (gmap string GoValue).

(** The header built by [utils.NewAPIHeaderByBusiness(&business)]. *)
Record APIHeader := NewAPIHeaderByBusiness {
  headerBusiness : BusinessSimplify;
}.

(** ** Package [authmeta]: resources as CMDB describes them *)

(** [authmeta.ResourceType]. *)
Inductive ResourceType :=
  | NoResourceType             (* the zero value *)
  | Business
  | ModelModule
  | ModelSet.

(** [authmeta.Basic]. *)
Record Basic := mkBasic {
  Type_ : ResourceType;
  Name : string;
  InstanceID : Z;              (* int64 *)
}.

(** [authmeta.Item], a layer of the topology above a resource. *)
Abbreviation Item := Basic.

(** [authmeta.ResourceAttribute]; the Go struct embeds [Basic]. *)
Record ResourceAttribute := mkResourceAttribute {
  RABasic : Basic;
  SupplierAccount : string;
  BusinessID : Z;              (* int64 *)
  Layers : list Item;
}.

(** [authmeta.BackendResourceLayer]: one segment of a resource as IAM
    stores it. *)
Record BackendResourceLayer := mkLayer {
  LayerResourceType : string;
  LayerResourceID : string;
  LayerResourceName : string;
}.

(** [authmeta.BackendResource]: the segments from the outermost layer to the
    resource itself. *)
Abbreviation BackendResource := (list BackendResourceLayer).

(** ** Package [authcenter]: what IAM answers *)

(** [authcenter.ScopeInfo]. *)
Record ScopeInfo := mkScopeInfo {
  ScopeType : string;
  ScopeID : string;
}.

(** [authcenter.RscTypeAndID]. *)
Record RscTypeAndID := mkRscTypeAndID {
  RscResourceType : string;
  RscResourceID : string;
}.

(** [authcenter.ResourceEntity]; the Go struct embeds [ScopeInfo]. *)
Record ResourceEntity := mkResourceEntity {
  EntityScope : ScopeInfo;
  EntityResourceName : string;
  EntityResourceID : list RscTypeAndID;
}.

(** [authcenter.RegisterInfo], the answer to a dry-run registration. *)
Record RegisterInfo := mkRegisterInfo {
  Resources : list ResourceEntity;
}.

(** ** Package [meta]: the task handed to the handler *)

(** The dynamic type of [WorkRequest.Data] (Go's [interface{}]). *)
Inductive TaskData :=
  | DataBusiness (b : BusinessSimplify)
  | DataOther.

(** [meta.WorkRequest]. *)
Record WorkRequest := mkWorkRequest {
  Data : TaskData;
}.

(** ** Errors and panics *)

(** A Go [error]: one a collaborator returned, or the one line 48 builds
    around it with [fmt.Errorf]. *)
Inductive GoError :=
  | ExternalError (msg : string)
  | GetModuleError (businessID : Z) (err : GoError).

(** The run-time panics the function can raise. *)
Inductive GoPanic :=
  | PanicTypeAssertion                       (* line 33 *)
  | PanicIndexOutOfRange (index : Z) (len : nat).   (* line 89 *)

(** ** Log lines and calls *)

(** One constructor per [blog] call of the function, in source order, with
    the arguments the call formats. *)
Inductive LogLine :=
  | LogGetModuleFailed (businessID : Z) (err : GoError)                (* 47 *)
  | LogNoInstances (businessID : Z)                                    (* 52 *)
  | LogParseFailed (instance : MapStr) (err : GoError)                 (* 62 *)
  | LogListModules (businessID : Z) (moduleArr : list ModuleSimplify)  (* 68 *)
  | LogListResourcesFailed (err : GoError)                             (* 83 *)
  | LogRealResources (realResources : list BackendResource)            (* 93 *)
  | LogDryRunFailed (err : GoError)                                    (* 120 *)
  | LogDryRunAnomaly (resource : ResourceAttribute)
      (targetResource : RegisterInfo)                                  (* 124 *)
  | LogKeyMap (iamResourceKeyMap : gmap string Z)                      (* 137 *)
  | LogNeedRegister (needRegister : list ResourceAttribute)            (* 138 *)
  | LogRegister (needRegister : list ResourceAttribute)                (* 140 *)
  | LogRegisterFailed (needRegister : list ResourceAttribute)
      (err : GoError)                                                  (* 143 *)
  | LogNeedDeregister (needDeregister : list BackendResource)          (* 155 *)
  | LogDeregister (needDeregister : list BackendResource)              (* 157 *)
  | LogDeregisterFailed (needDeregister : list BackendResource)
      (err : GoError).                                                 (* 160 *)

(** The calls the function makes to its collaborators. *)
Inductive Call :=
  | CallReadInstance (h : APIHeader) (obj : ObjID) (q : QueryCondition)
  | CallListResources (rs : ResourceAttribute)
  | CallDryRunRegisterResource (r : ResourceAttribute)
  | CallRegisterResource (rs : list ResourceAttribute)
  | CallRawDeregisterResource (scope : ScopeInfo) (rs : list BackendResource).

(** What a run leaves behind, in order. *)
Inductive Event :=
  | EvLog (l : LogLine)
  | EvCall (c : Call).

(** ** Decidable equality *)

#[export] Instance BusinessSimplify_eq_dec : EqDecision BusinessSimplify.
Proof. solve_decision. Defined.
#[export] Instance ModuleSimplify_eq_dec : EqDecision ModuleSimplify.
Proof. solve_decision. Defined.
#[export] Instance FieldName_eq_dec : EqDecision FieldName.
Proof. solve_decision. Defined.
#[export] Instance ObjID_eq_dec : EqDecision ObjID.
Proof. solve_decision. Defined.
#[export] Instance LimitValue_eq_dec : EqDecision LimitValue.
Proof. solve_decision. Defined.
#[export] Instance CondItem_eq_dec : EqDecision CondItem.
Proof. solve_decision. Defined.
#[export] Instance QueryCondition_eq_dec : EqDecision QueryCondition.
Proof. solve_decision. Defined.
#[export] Instance GoValue_eq_dec : EqDecision GoValue.
Proof. solve_decision. Defined.
#[export] Instance APIHeader_eq_dec : EqDecision APIHeader.
Proof. solve_decision. Defined.
#[export] Instance ResourceType_eq_dec : EqDecision ResourceType.
Proof. solve_decision. Defined.
#[export] Instance Basic_eq_dec : EqDecision Basic.
Proof. solve_decision. Defined.
#[export] Instance ResourceAttribute_eq_dec : EqDecision ResourceAttribute.
Proof. solve_decision. Defined.
#[export] Instance BackendResourceLayer_eq_dec : EqDecision BackendResourceLayer.
Proof. solve_decision. Defined.
#[export] Instance ScopeInfo_eq_dec : EqDecision ScopeInfo.
Proof. solve_decision. Defined.
#[export] Instance RscTypeAndID_eq_dec : EqDecision RscTypeAndID.
Proof. solve_decision. Defined.
#[export] Instance ResourceEntity_eq_dec : EqDecision ResourceEntity.
Proof. solve_decision. Defined.
#[export] Instance RegisterInfo_eq_dec : EqDecision RegisterInfo.
Proof. solve_decision. Defined.
#[export] Instance GoError_eq_dec : EqDecision GoError.
Proof. solve_decision. Defined.
#[export] Instance GoPanic_eq_dec : EqDecision GoPanic.
Proof. solve_decision. Defined.
#[export] Instance Call_eq_dec : EqDecision Call.
Proof. solve_decision. Defined.

(** ** Selecting events *)

(** The calls of a trace, in order. *)
Definition calls (tr : list Event) : list Call :=
  omap (λ e, match e with EvCall c => Some c | EvLog _ => None end) tr.

(** The log lines of a trace, in order. *)
Definition logs (tr : list Event) : list LogLine :=
  omap (λ e, match e with EvLog l => Some l | EvCall _ => None end) tr.

(** A call that changes what IAM stores. *)
Definition is_mutation (c : Call) : bool :=
  match c with
  | CallRegisterResource _ | CallRawDeregisterResource _ _ => true
  | _ => false
  end.

Lemma calls_app tr1 tr2 : calls (tr1 ++ tr2) = calls tr1 ++ calls tr2.
Proof. apply omap_app. Qed.

Lemma logs_app tr1 tr2 : logs (tr1 ++ tr2) = logs tr1 ++ logs tr2.
Proof. apply omap_app. Qed.

#[export] Hint Rewrite calls_app logs_app : sync_rw.
