(* ===== verification/Logging.v ===== *)
(** * Logging: the [blog] calls of the function

    Every [blog] call of [HandleModuleSync] is a constructor of [LogLine];
    here each gets what the source gives it: its severity ([blog.Errorf]
    and [blog.ErrorJSON] log errors, [blog.V(n).Infof] logs at verbosity
    [n]), its format string, and the kinds of the arguments the call
    passes.  [verbs] scans a format string as Go's [fmt] does, and [vet]
    checks a call the way [go vet] does: as many arguments as verbs, and
    [%d] only for integers.  All calls of the function pass but the one of
    line 47 ([vet_spec]). *)

From S2P Require Import Prelude GoString Meta.

(** ** Severity *)

Inductive Severity :=
  | SevError                 (* blog.Errorf, blog.ErrorJSON *)
  | SevInfo (v : nat).       (* blog.V(v).Infof; blog.InfoJSON is level 0 *)

Definition severity (l : LogLine) : Severity :=
  match l with
  | LogGetModuleFailed _ _ => SevError          (* 47 *)
  | LogNoInstances _ => SevInfo 2               (* 52 *)
  | LogParseFailed _ _ => SevError              (* 62 *)
  | LogListModules _ _ => SevInfo 4             (* 68 *)
  | LogListResourcesFailed _ => SevError        (* 83 *)
  | LogRealResources _ => SevInfo 0             (* 93 *)
  | LogDryRunFailed _ => SevError               (* 120 *)
  | LogDryRunAnomaly _ _ => SevError            (* 124 *)
  | LogKeyMap _ => SevInfo 5                    (* 137 *)
  | LogNeedRegister _ => SevInfo 5              (* 138 *)
  | LogRegister _ => SevInfo 2                  (* 140 *)
  | LogRegisterFailed _ _ => SevError           (* 143 *)
  | LogNeedDeregister _ => SevInfo 5            (* 155 *)
  | LogDeregister _ => SevInfo 2                (* 157 *)
  | LogDeregisterFailed _ _ => SevError         (* 160 *)
  end.

(** A line is written when the process runs at verbosity [v]. *)
Definition written (v : nat) (l : LogLine) : bool :=
  match severity l with
  | SevError => true
  | SevInfo n => n <=? v
  end.

(** ** Format strings and arguments *)

Definition formatString (l : LogLine) : string :=
  match l with
  | LogGetModuleFailed _ _ =>
      "get module:%+v by businessID:%d failed, err: %+v"
  | LogNoInstances _ =>
      "business: %d has no instances, skip synchronize modules."
  | LogParseFailed _ _ =>
      "parse module: %+v simplify infomation failed, err: %+v"
  | LogListModules _ _ => "list modules by business:%d result: %+v"
  | LogListResourcesFailed _ =>
      "synchronize module instance failed, ListResources failed, err: %+v"
  | LogRealResources _ => "realResources is: %s"
  | LogDryRunFailed _ =>
      "synchronize module instance failed, dry run register resource failed, err: %+v"
  | LogDryRunAnomaly _ _ =>
      "synchronize instance:%+v failed, dry run register result is: %+v"
  | LogKeyMap _ => "iamResourceKeyMap: %+v"
  | LogNeedRegister _ => "needRegister: %+v"
  | LogRegister _ =>
      "sychronizer register resource that only in cmdb, resources: %+v"
  | LogRegisterFailed _ _ =>
      "sychronizer register resource that only in cmdb failed, resources: %s, err: %+v"
  | LogNeedDeregister _ => "needDeregister: %+v"
  | LogDeregister _ =>
      "sychronizer deregister resource that only in iam, resources: %+v"
  | LogDeregisterFailed _ _ =>
      "sychronizer deregister resource that only in iam failed, resources: %s, err: %+v"
  end.

(** The kinds of Go values the calls format.  The [JSON] variants of [blog]
    marshal their arguments and hand [fmt] the text. *)
Inductive ArgKind := KInt | KError | KValue | KText.

Definition arguments (l : LogLine) : list ArgKind :=
  match l with
  | LogGetModuleFailed _ _ => [KInt; KError]
  | LogNoInstances _ => [KInt]
  | LogParseFailed _ _ => [KValue; KError]
  | LogListModules _ _ => [KInt; KValue]
  | LogListResourcesFailed _ => [KError]
  | LogRealResources _ => [KText]
  | LogDryRunFailed _ => [KError]
  | LogDryRunAnomaly _ _ => [KValue; KValue]
  | LogKeyMap _ => [KValue]
  | LogNeedRegister _ => [KValue]
  | LogRegister _ => [KValue]
  | LogRegisterFailed _ _ => [KText; KText]
  | LogNeedDeregister _ => [KValue]
  | LogDeregister _ => [KValue]
  | LogDeregisterFailed _ _ => [KText; KText]
  end.

(** Line 48, [fmt.Errorf]: the format and the arguments of the error the
    function builds. *)
Definition getModuleErrorFormat : string :=
  "get module by businessID:%d failed, err: %+v".

Definition getModuleErrorArguments : list ArgKind := [KInt; KError].

(** ** Verbs *)

Inductive Verb := VerbD | VerbS | VerbV | VerbPlusV | VerbBad.

(** The verbs of a format string, in order; [%%] is a percent sign. *)
Fixpoint verbs (format : string) : list Verb :=
  match format with
  | "" => []
  | String "%" rest =>
      match rest with
      | String "d" rest' => VerbD :: verbs rest'
      | String "s" rest' => VerbS :: verbs rest'
      | String "v" rest' => VerbV :: verbs rest'
      | String "+" (String "v" rest') => VerbPlusV :: verbs rest'
      | String "%" rest' => verbs rest'
      | String _ rest' => VerbBad :: verbs rest'
      | "" => [VerbBad]
      end
  | String _ rest => verbs rest
  end.

(** The verb formats an argument of the kind without a [%!] marker. *)
Definition accepts (v : Verb) (k : ArgKind) : bool :=
  match v, k with
  | VerbD, KInt => true
  | VerbD, _ => false
  | VerbS, (KText | KError) => true
  | VerbS, _ => false
  | (VerbV | VerbPlusV), _ => true
  | VerbBad, _ => false
  end.

(** Every verb has an argument it accepts and no argument is left over. *)
Fixpoint agreeArgs (vs : list Verb) (ks : list ArgKind) : bool :=
  match vs, ks with
  | [], [] => true
  | v :: vs', k :: ks' => accepts v k && agreeArgs vs' ks'
  | _, _ => false
  end.

Definition vet (l : LogLine) : bool := agreeArgs (verbs (formatString l)) (arguments l).

(** ** The calls of the function *)

#[export] Instance Severity_eq_dec : EqDecision Severity.
Proof. solve_decision. Defined.
#[export] Instance Verb_eq_dec : EqDecision Verb.
Proof. solve_decision. Defined.
#[export] Instance ArgKind_eq_dec : EqDecision ArgKind.
Proof. solve_decision. Defined.

(** Line 47 has three verbs for two arguments: the business id is printed
    as the module, the error under [%d], and the last verb has no
    argument. *)
Lemma vet_line_47 businessID err :
  verbs (formatString (LogGetModuleFailed businessID err))
  = [VerbPlusV; VerbD; VerbPlusV] ∧
  arguments (LogGetModuleFailed businessID err) = [KInt; KError] ∧
  accepts VerbD KError = false.
Proof. done. Qed.

(** The error of line 48 formats the same two arguments as it should. *)
Lemma vet_line_48 :
  agreeArgs (verbs getModuleErrorFormat) getModuleErrorArguments = true.
Proof. done. Qed.

(** C34 (type).  The [blog] calls of the function are well-formed, format
    string against arguments, with one exception: every call has as many
    arguments as its format has verbs, of kinds the verbs accept, except
    the call of line 47, which logs the failure of the read. *)
Theorem vet_spec l :
  vet l = true ↔ ∀ businessID err, l ≠ LogGetModuleFailed businessID err.
Proof.
  destruct l; split; try done; try (by intros _ ? ?).
  intros Hl. by destruct (Hl businessID err).
Qed.

(** A failure is logged as an error, whatever the verbosity. *)
Lemma error_lines_written v l : severity l = SevError → written v l = true.
Proof. unfold written. by intros ->. Qed.
