(* ===== verification/Codec.v ===== *)
(** * Codec: the resource keys

    [generateIAMResourceKey] and [generateCMDBResourceKey] turn a resource
    as IAM lists it, respectively as a dry-run registration resolves it, into
    the string the hit-count map is keyed by: one [type:id] segment per
    layer, the segments joined by [-].  The two Go functions are declared in
    another file of package [handler], which is not among the sources at
    hand: the specification asks of a key only that it be equal on both
    sides for the same entity, and the format is the model's choice.

    The theorems: both functions are the same function of the layers' types
    and identifiers ([key_sides_agree]), names do not enter the key, and on
    well-formed layers (no [:] or [-] in a type, no [-] in an identifier) equal
    keys mean equal layers ([keyOfSegments_inj]).  Without well-formedness
    the key is not injective ([key_collision]). *)

From S2P Require Import Prelude GoString Meta.

(** ** Definitions *)

(** The [(type, id)] pairs a key is built from. *)
Definition iamSegments (iamResource : BackendResource) : list (string * string) :=
  map (λ l, (LayerResourceType l, LayerResourceID l)) iamResource.

Definition cmdbSegments (resource : ResourceEntity) : list (string * string) :=
  map (λ r, (RscResourceType r, RscResourceID r)) (EntityResourceID resource).

(** The key of a list of segments. *)
Definition keyOfSegments (segs : list (string * string)) : string :=
  Join (map (λ s, SprintfColon s.1 s.2) segs) "-".

(** [generateIAMResourceKey(iamResource)]. *)
Definition generateIAMResourceKey (iamResource : BackendResource) : string :=
  Join (map (λ l, SprintfColon (LayerResourceType l) (LayerResourceID l))
            iamResource) "-".

(** [generateCMDBResourceKey(&resource)]. *)
Definition generateCMDBResourceKey (resource : ResourceEntity) : string :=
  Join (map (λ r, SprintfColon (RscResourceType r) (RscResourceID r))
            (EntityResourceID resource)) "-".

(** The resource IAM lists for an entity it has registered: the entity's
    identifier segments, each under the entity's name. *)
Definition backendOfEntity (e : ResourceEntity) : BackendResource :=
  map (λ r, mkLayer (RscResourceType r) (RscResourceID r) (EntityResourceName e))
      (EntityResourceID e).

(** A segment the key can be split at: no separator inside the type, no
    segment separator inside the identifier. *)
Definition wf_segment (s : string * string) : bool :=
  negb (has_char ":" s.1) && negb (has_char "-" s.1) && negb (has_char "-" s.2).

Definition wf_segments (segs : list (string * string)) : bool :=
  forallb wf_segment segs.

(** ** The two sides build the same key *)

Lemma generateIAMResourceKey_segments r :
  generateIAMResourceKey r = keyOfSegments (iamSegments r).
Proof.
  unfold generateIAMResourceKey, keyOfSegments, iamSegments.
  by rewrite map_map.
Qed.

Lemma generateCMDBResourceKey_segments e :
  generateCMDBResourceKey e = keyOfSegments (cmdbSegments e).
Proof.
  unfold generateCMDBResourceKey, keyOfSegments, cmdbSegments.
  by rewrite map_map.
Qed.

Lemma iamSegments_backendOfEntity e :
  iamSegments (backendOfEntity e) = cmdbSegments e.
Proof. unfold iamSegments, backendOfEntity, cmdbSegments. by rewrite map_map. Qed.

(** The key of an entity is the key of the resource IAM stores for it. *)
Lemma key_sides_agree e :
  generateIAMResourceKey (backendOfEntity e) = generateCMDBResourceKey e.
Proof.
  by rewrite generateIAMResourceKey_segments, generateCMDBResourceKey_segments,
    iamSegments_backendOfEntity.
Qed.

(** Names are not part of the key. *)
Lemma generateIAMResourceKey_name_irrelevant (r r' : BackendResource) :
  iamSegments r = iamSegments r' →
  generateIAMResourceKey r = generateIAMResourceKey r'.
Proof. rewrite !generateIAMResourceKey_segments. by intros ->. Qed.

Lemma generateCMDBResourceKey_name_irrelevant e name scope :
  generateCMDBResourceKey (mkResourceEntity scope name (EntityResourceID e))
  = generateCMDBResourceKey e.
Proof. done. Qed.

(** ** Injectivity on well-formed segments *)

Lemma wf_segment_elim s :
  wf_segment s = true →
  has_char ":" s.1 = false ∧ has_char "-" s.1 = false ∧ has_char "-" s.2 = false.
Proof.
  unfold wf_segment. rewrite !andb_true_iff, !negb_true_iff. naive_solver.
Qed.

Lemma wf_segment_joinable s :
  wf_segment s = true →
  SprintfColon s.1 s.2 ≠ "" ∧ has_char "-" (SprintfColon s.1 s.2) = false.
Proof.
  intros (_ & H1 & H2)%wf_segment_elim. split; [apply SprintfColon_nonempty|].
  rewrite SprintfColon_has_char, H1, H2. done.
Qed.

Lemma keyOfSegments_inj segs segs' :
  wf_segments segs = true → wf_segments segs' = true →
  keyOfSegments segs = keyOfSegments segs' → segs = segs'.
Proof.
  unfold wf_segments, keyOfSegments. rewrite !forallb_Forall.
  intros Hwf Hwf' Heq. apply Join_inj in Heq.
  - revert segs' Hwf' Heq. induction Hwf as [|[a b] segs Hs _ IH];
      intros [|[a' b'] segs'] Hwf' Heq; simplify_eq/=; [done|].
    apply Forall_cons in Hwf' as [Hs' Hwf'].
    apply wf_segment_elim in Hs as (?&_&_), Hs' as (?&_&_).
    apply SprintfColon_inj in H as [-> ->]; [|done..].
    f_equal. by apply IH.
  - apply Forall_fmap. eapply Forall_impl; [exact Hwf|].
    intros s Hs. by apply wf_segment_joinable.
  - apply Forall_fmap. eapply Forall_impl; [exact Hwf'|].
    intros s Hs. by apply wf_segment_joinable.
Qed.

(** On well-formed resources an entity and a listed resource have the same
    key exactly when they have the same segments. *)
Lemma key_match_iff e r :
  wf_segments (cmdbSegments e) = true → wf_segments (iamSegments r) = true →
  generateCMDBResourceKey e = generateIAMResourceKey r
  ↔ cmdbSegments e = iamSegments r.
Proof.
  rewrite generateCMDBResourceKey_segments, generateIAMResourceKey_segments.
  intros He Hr. split; [by apply keyOfSegments_inj|by intros ->].
Qed.

(** ** The key is not injective in general *)

(** A one-layer resource whose identifier contains [-] and [:] has the key
    of a two-layer resource. *)
Lemma key_collision :
  let one := [mkLayer "biz" "1-module:7" "a"] in
  let two := [mkLayer "biz" "1" "a"; mkLayer "module" "7" "a"] in
  iamSegments one ≠ iamSegments two ∧
  generateIAMResourceKey one = generateIAMResourceKey two.
Proof. split; [done|reflexivity]. Qed.

#[export] Hint Rewrite generateIAMResourceKey_segments
  generateCMDBResourceKey_segments iamSegments_backendOfEntity : sync_rw.
#[export] Hint Resolve key_sides_agree : sync.
