(* ===== verification/Effects.v ===== *)
(** * Effects: the monad of the handler and the interface of its collaborators

    A run of [HandleModuleSync] threads two things: the state of the outside
    world (what the CMDB and IAM hold), of an abstract type [W], and the
    trace of what the run did (log lines and calls).  A step either yields a
    value, leaves the function with [return err], or panics; [M W] is the
    corresponding state-and-exit monad, an instance of stdpp's [MRet] and
    [MBind], so that the handler is written with [x ← m; k] and [m;; k].

    The collaborators are the operations of the class [Collaborators].  A Go
    call [v, err := f(...)] is an operation that returns [GoError + V]; what
    the handler does with [err] is the handler's business.  Every operation
    may change the world, reads included: nothing here assumes that the CMDB
    or IAM stand still during a run.

    Computations are compared up to their runs ([m ≡ m'] when they agree on
    every state); the monad laws hold for [≡], and bind and [runBody] are
    [Proper], so that a body can be rewritten under its binds. *)

From S2P Require Import Prelude Meta.

(** ** State, results, the monad *)

(** The state a run threads. *)
Record St (W : Type) := mkSt {
  world : W;
  trace : list Event;
}.
Arguments mkSt {W} _ _.
Arguments world {W} _.
Arguments trace {W} _.

(** The result of a step of the function body. *)
Inductive Res (A : Type) :=
  | Val (a : A)                        (* falls through to the next statement *)
  | Return (err : option GoError)      (* [return err]; [None] is [nil] *)
  | Panic (p : GoPanic).
Arguments Val {A} _.
Arguments Return {A} _.
Arguments Panic {A} _.

Definition M (W A : Type) : Type := St W → Res A * St W.

(** What the caller of the handler observes. *)
Inductive Outcome :=
  | Returned (err : option GoError)
  | Panicked (p : GoPanic).

#[export] Instance Outcome_eq_dec : EqDecision Outcome.
Proof. solve_decision. Defined.

Section monad.
Context {W : Type}.

#[export] Instance M_ret : MRet (M W) := λ A a s, (Val a, s).

#[export] Instance M_bind : MBind (M W) := λ A B k m s,
  match m s with
  | (Val a, s') => k a s'
  | (Return e, s') => (Return e, s')
  | (Panic p, s') => (Panic p, s')
  end.

(** [return err]. *)
Definition returnGo {A} (err : option GoError) : M W A := λ s, (Return err, s).

(** A run-time panic. *)
Definition panicGo {A} (p : GoPanic) : M W A := λ s, (Panic p, s).

(** Appending an event to the trace. *)
Definition emit (e : Event) (s : St W) : St W :=
  mkSt (world s) (trace s ++ [e]).

(** Appending several events. *)
Definition emits (evs : list Event) (s : St W) : St W :=
  mkSt (world s) (trace s ++ evs).

(** A [blog] call. *)
Definition blog (l : LogLine) : M W unit := λ s, (Val tt, emit (EvLog l) s).

(** A call to a collaborator: the operation [op] runs on the world and the
    call is recorded. *)
Definition callOp {A} (c : Call) (op : W → A * W) : M W A := λ s,
  let '(a, w) := op (world s) in
  (Val a, mkSt w (trace s ++ [EvCall c])).

(** The answer of operation [op] in state [s], and the state after the call
    [c] of it. *)
Definition answer {A} (op : W → A * W) (s : St W) : A := (op (world s)).1.

Definition afterCall {A} (c : Call) (op : W → A * W) (s : St W) : St W :=
  mkSt (op (world s)).2 (trace s ++ [EvCall c]).

(** The body of a Go function whose last statement is [return]: a value that
    falls off the end is the value returned. *)
Definition runBody (body : M W (option GoError)) (s : St W) : Outcome * St W :=
  match body s with
  | (Val e, s') => (Returned e, s')
  | (Return e, s') => (Returned e, s')
  | (Panic p, s') => (Panicked p, s')
  end.

(** A loop [for _, x := range xs { body }] over a state [acc]. *)
Fixpoint forRange {A B} (body : B → A → M W B) (acc : B) (xs : list A) : M W B :=
  match xs with
  | [] => mret acc
  | x :: xs' => acc' ← body acc x; forRange body acc' xs'
  end.

End monad.

(** ** The collaborators *)

(** The operations [HandleModuleSync] calls on the core service
    ([ih.CoreAPI.CoreService().Instance()], [ModuleSimplify.Parse]) and on the
    authorizer ([ih.Authorizer]). *)
Class Collaborators (W : Type) := {
  ReadInstance :
    APIHeader → ObjID → QueryCondition → W → (GoError + list MapStr) * W;
  Parse : MapStr → GoError + ModuleSimplify;
  ListResources :
    ResourceAttribute → W → (GoError + list BackendResource) * W;
  DryRunRegisterResource :
    ResourceAttribute → W → (GoError + RegisterInfo) * W;
  RegisterResource : list ResourceAttribute → W → option GoError * W;
  RawDeregisterResource :
    ScopeInfo → list BackendResource → W → option GoError * W;
}.

(** ** Laws of the monad, stated on runs *)

Section laws.
Context {W : Type}.
Implicit Types (s : St W).

Lemma ret_run {A} (a : A) s : (mret a : M W A) s = (Val a, s).
Proof. done. Qed.

Lemma bind_ret_l {A B} (a : A) (k : A → M W B) s : (mret a ≫= k) s = k a s.
Proof. done. Qed.

Lemma bind_ret_r {A} (m : M W A) s : (m ≫= mret) s = m s.
Proof. unfold mbind, M_bind. by destruct (m s) as [[]]. Qed.

Lemma bind_assoc {A B C} (m : M W A) (k : A → M W B) (h : B → M W C) s :
  ((m ≫= k) ≫= h) s = (m ≫= λ a, k a ≫= h) s.
Proof. unfold mbind, M_bind. by destruct (m s) as [[]]. Qed.

(** A bind runs its first part, then the continuation on a value. *)
Lemma bind_run {A B} (m : M W A) (k : A → M W B) s :
  (m ≫= k) s =
  match m s with
  | (Val a, s') => k a s'
  | (Return e, s') => (Return e, s')
  | (Panic p, s') => (Panic p, s')
  end.
Proof. done. Qed.

Lemma bind_val {A B} (m : M W A) (k : A → M W B) s a s' :
  m s = (Val a, s') → (m ≫= k) s = k a s'.
Proof. intros Hm. by rewrite bind_run, Hm. Qed.

Lemma bind_return {A B} (m : M W A) (k : A → M W B) s e s' :
  m s = (Return e, s') → (m ≫= k) s = (Return e, s').
Proof. intros Hm. by rewrite bind_run, Hm. Qed.

Lemma bind_panic {A B} (m : M W A) (k : A → M W B) s p s' :
  m s = (Panic p, s') → (m ≫= k) s = (Panic p, s').
Proof. intros Hm. by rewrite bind_run, Hm. Qed.

(** A step known to yield a value, as a pair. *)
Lemma run_val_eta {A} (m : M W A) s a : (m s).1 = Val a → m s = (Val a, (m s).2).
Proof. by destruct (m s) as [r s']; simpl; intros ->. Qed.

Lemma bind_val_fst {A B} (m : M W A) (k : A → M W B) s a :
  (m s).1 = Val a → (m ≫= k) s = k a (m s).2.
Proof. intros Hm. by rewrite bind_run, (run_val_eta _ _ _ Hm). Qed.

Lemma blog_run l s : blog l s = (Val tt, emit (EvLog l) s).
Proof. done. Qed.

Lemma callOp_run {A} c (op : W → A * W) s :
  callOp c op s = (Val (answer op s), afterCall c op s).
Proof. unfold callOp, answer, afterCall. by destruct (op (world s)). Qed.

Lemma trace_emit e s : trace (emit e s) = trace s ++ [e].
Proof. done. Qed.

Lemma world_emit e s : world (emit e s) = world s.
Proof. done. Qed.

Lemma emits_nil s : emits [] s = s.
Proof. destruct s. unfold emits. simpl. by rewrite app_nil_r. Qed.

Lemma emits_emits evs1 evs2 s : emits evs2 (emits evs1 s) = emits (evs1 ++ evs2) s.
Proof. unfold emits. simpl. by rewrite app_assoc. Qed.

Lemma emit_emits e evs s : emit e (emits evs s) = emits (evs ++ [e]) s.
Proof. unfold emit, emits. simpl. by rewrite app_assoc. Qed.

Lemma emits_emit e evs s : emits evs (emit e s) = emits (e :: evs) s.
Proof. unfold emit, emits. simpl. by rewrite <-app_assoc. Qed.

Lemma emit_as_emits e s : emit e s = emits [e] s.
Proof. done. Qed.

Lemma trace_emits evs s : trace (emits evs s) = trace s ++ evs.
Proof. done. Qed.

Lemma world_emits evs s : world (emits evs s) = world s.
Proof. done. Qed.

Lemma answer_emit {A} (op : W → A * W) e s : answer op (emit e s) = answer op s.
Proof. done. Qed.

Lemma answer_emits {A} (op : W → A * W) evs s :
  answer op (emits evs s) = answer op s.
Proof. done. Qed.

Lemma trace_afterCall {A} c (op : W → A * W) s :
  trace (afterCall c op s) = trace s ++ [EvCall c].
Proof. done. Qed.

Lemma world_afterCall {A} c (op : W → A * W) s :
  world (afterCall c op s) = (op (world s)).2.
Proof. done. Qed.

Lemma forRange_nil {A B} (body : B → A → M W B) acc s :
  forRange body acc [] s = (Val acc, s).
Proof. done. Qed.

Lemma forRange_cons {A B} (body : B → A → M W B) acc x xs s :
  forRange body acc (x :: xs) s = (body acc x ≫= λ acc', forRange body acc' xs) s.
Proof. done. Qed.

Lemma forRange_app {A B} (body : B → A → M W B) acc xs ys s :
  forRange body acc (xs ++ ys) s
  = (forRange body acc xs ≫= λ acc', forRange body acc' ys) s.
Proof.
  revert acc s. induction xs as [|x xs IH]; intros acc s; [done|].
  simpl. rewrite !bind_run. destruct (body acc x s) as [[acc'| |] s']; [|done..].
  apply IH.
Qed.

(** ** Computations up to their runs

    Two computations are equivalent when they run alike in every state.
    Bind and [runBody] respect the equivalence, so the monad laws rewrite
    under binders. *)

#[export] Instance M_equiv {A} : Equiv (M W A) := λ m m', ∀ s, m s = m' s.

#[export] Instance M_equivalence {A} : Equivalence (≡@{M W A}).
Proof.
  split.
  - by intros m s.
  - by intros m m' Hm s.
  - intros m1 m2 m3 H12 H23 s. by rewrite H12.
Qed.

#[export] Instance mbind_proper {A B} :
  Proper (pointwise_relation A (≡) ==> (≡) ==> (≡)) (mbind (M := M W) (B := B)).
Proof.
  intros k k' Hk m m' Hm s. rewrite !bind_run, Hm.
  destruct (m' s) as [[a| |] s']; [apply Hk|done..].
Qed.

#[export] Instance runBody_proper :
  Proper ((≡) ==> (=) ==> (=)) (runBody (W := W)).
Proof. intros m m' Hm s ? <-. unfold runBody. by rewrite Hm. Qed.

Lemma runBody_bind {A} (m : M W A) (k : A → M W (option GoError)) s :
  runBody (m ≫= k) s
  = match m s with
    | (Val a, s') => runBody (k a) s'
    | (Return e, s') => (Returned e, s')
    | (Panic g, s') => (Panicked g, s')
    end.
Proof. unfold runBody. rewrite bind_run. by destruct (m s) as [[]]. Qed.

Lemma bind_assoc_equiv {A B C} (m : M W A) (k : A → M W B) (h : B → M W C) :
  (m ≫= k) ≫= h ≡ m ≫= (λ a, k a ≫= h).
Proof. intros s. apply bind_assoc. Qed.

Lemma bind_ret_l_equiv {A B} (a : A) (k : A → M W B) : mret a ≫= k ≡ k a.
Proof. done. Qed.

Lemma bind_ret_r_equiv {A} (m : M W A) : m ≫= mret ≡ m.
Proof. intros s. apply bind_ret_r. Qed.

Lemma bind_returnGo_equiv {A B} e (k : A → M W B) : returnGo e ≫= k ≡ returnGo e.
Proof. done. Qed.

Lemma bind_panicGo_equiv {A B} g (k : A → M W B) : panicGo g ≫= k ≡ panicGo g.
Proof. done. Qed.

(** ** What a computation adds to the trace *)

(** [s'] is [s] after some more events. *)
Definition extends (s s' : St W) : Prop := ∃ evs, trace s' = trace s ++ evs.

#[export] Instance extends_refl : Reflexive extends.
Proof. intros s. exists []. by rewrite app_nil_r. Qed.

#[export] Instance extends_trans : Transitive extends.
Proof.
  intros s1 s2 s3 [e1 H1] [e2 H2]. exists (e1 ++ e2).
  by rewrite H2, H1, app_assoc.
Qed.

(** [adds P m]: whatever the state and the exit, [m] leaves the trace it
    found in place and appends only events that satisfy [P]. *)
Definition adds {A} (P : Event → Prop) (m : M W A) : Prop :=
  ∀ s, ∃ evs, trace (m s).2 = trace s ++ evs ∧ Forall P evs.

Lemma adds_nothing {A} P (m : M W A) : (∀ s, (m s).2 = s) → adds P m.
Proof. intros Hm s. exists []. by rewrite Hm, app_nil_r. Qed.

Lemma adds_ret {A} P (a : A) : adds P (mret a : M W A).
Proof. by apply adds_nothing. Qed.

Lemma adds_returnGo {A} P e : adds P (returnGo e : M W A).
Proof. by apply adds_nothing. Qed.

Lemma adds_panicGo {A} P p : adds P (panicGo p : M W A).
Proof. by apply adds_nothing. Qed.

Lemma adds_blog (P : Event → Prop) l : P (EvLog l) → adds P (blog l).
Proof. intros HP s. exists [EvLog l]. by repeat constructor. Qed.

Lemma adds_callOp {A} (P : Event → Prop) c (op : W → A * W) :
  P (EvCall c) → adds P (callOp c op).
Proof. intros HP s. rewrite callOp_run. exists [EvCall c]. by repeat constructor. Qed.

Lemma adds_bind {A B} P (m : M W A) (k : A → M W B) :
  adds P m → (∀ a, adds P (k a)) → adds P (m ≫= k).
Proof.
  intros Hm Hk s. rewrite bind_run. destruct (Hm s) as (evs & Htr & Hevs).
  destruct (m s) as [[a| |] s1]; simpl in *; [|by eauto..].
  destruct (Hk a s1) as (evs' & Htr' & Hevs').
  exists (evs ++ evs'). rewrite Htr', Htr, app_assoc. split; [done|].
  by apply Forall_app.
Qed.

Lemma adds_forRange {A B} P (body : B → A → M W B) acc xs :
  (∀ b a, adds P (body b a)) → adds P (forRange body acc xs).
Proof.
  intros Hbody. revert acc. induction xs as [|x xs IH]; intros acc; simpl.
  - apply adds_ret.
  - apply adds_bind; auto.
Qed.

Lemma adds_weaken {A} (P Q : Event → Prop) (m : M W A) :
  (∀ e, P e → Q e) → adds P m → adds Q m.
Proof.
  intros HPQ Hm s. destruct (Hm s) as (evs & Htr & Hevs).
  exists evs. split; [done|]. by eapply Forall_impl.
Qed.

Lemma adds_extends {A} P (m : M W A) s : adds P m → extends s (m s).2.
Proof. intros Hm. destruct (Hm s) as (evs & Htr & _). by exists evs. Qed.

Lemma adds_runBody P (body : M W (option GoError)) s :
  adds P body →
  ∃ evs, trace (runBody body s).2 = trace s ++ evs ∧ Forall P evs.
Proof.
  intros Hm. unfold runBody. destruct (Hm s) as (evs & Htr & Hevs).
  exists evs. by destruct (body s) as [[]].
Qed.

(** ** Computations that leave the world alone *)

(** [keeps m]: whatever the state and the exit, [m] hands the world on as
    it found it. *)
Definition keeps {A} (m : M W A) : Prop := ∀ s, world (m s).2 = world s.

Lemma keeps_ret {A} (a : A) : keeps (mret a : M W A).
Proof. done. Qed.

Lemma keeps_returnGo {A} e : keeps (returnGo e : M W A).
Proof. done. Qed.

Lemma keeps_panicGo {A} p : keeps (panicGo p : M W A).
Proof. done. Qed.

Lemma keeps_blog l : keeps (blog l).
Proof. done. Qed.

Lemma keeps_callOp {A} c (op : W → A * W) :
  (∀ w, (op w).2 = w) → keeps (callOp c op).
Proof. intros Hop s. rewrite callOp_run. simpl. apply Hop. Qed.

Lemma keeps_bind {A B} (m : M W A) (k : A → M W B) :
  keeps m → (∀ a, keeps (k a)) → keeps (m ≫= k).
Proof.
  intros Hm Hk s. rewrite bind_run. specialize (Hm s).
  destruct (m s) as [[a| |] s1]; simpl in *; [|done..].
  by rewrite Hk.
Qed.

Lemma keeps_forRange {A B} (body : B → A → M W B) acc xs :
  (∀ b a, keeps (body b a)) → keeps (forRange body acc xs).
Proof.
  intros Hbody. revert acc. induction xs as [|x xs IH]; intros acc; simpl.
  - apply keeps_ret.
  - apply keeps_bind; auto.
Qed.

End laws.

(** [mstep] runs the leading binds, log lines and calls of a goal. *)
Ltac mstep :=
  repeat (first [rewrite bind_run | rewrite blog_run | rewrite callOp_run
                | rewrite ret_run];
          cbn beta iota).

(** [run_both] proves that two compositions of the same computations run
    alike, by running them side by side. *)
Ltac run_both :=
  repeat first
    [ rewrite bind_run | rewrite ret_run | progress cbn beta iota
    | match goal with
      | |- context [match ?m ?s with _ => _ end] =>
          is_var s; destruct (m s) as [[?| |] ?]
      end ];
  try done.

#[export] Hint Resolve adds_ret adds_returnGo adds_panicGo adds_blog adds_callOp
  adds_bind adds_forRange : sync.

(** [solve_adds] proves [adds P m] for a computation built from binds,
    matches and the primitives, given that [P] holds of each event by
    computation. *)
Ltac solve_adds :=
  repeat first
    [ apply adds_ret | apply adds_returnGo | apply adds_panicGo
    | apply adds_blog; done | apply adds_callOp; done
    | apply adds_bind; [|intros ?]
    | apply adds_forRange; intros ? ?; cbn beta
    | case_match | case_decide ].

(** [solve_keeps] proves [keeps m] the same way, given that each operation
    called leaves the world alone ([Hop] proves that of an operation). *)
Ltac solve_keeps Hop :=
  repeat first
    [ apply keeps_ret | apply keeps_returnGo | apply keeps_panicGo
    | apply keeps_blog | apply keeps_callOp; intros ?; Hop
    | apply keeps_bind; [|intros ?]
    | apply keeps_forRange; intros ? ?; cbn beta
    | case_match | case_decide ].

#[export] Hint Rewrite @bind_ret_l @blog_run @forRange_nil @trace_emit
  @world_emit @trace_afterCall @world_afterCall @emits_nil @emits_emits
  @emit_emits @emits_emit @trace_emits @world_emits @answer_emit
  @answer_emits : sync_rw.
