(* ===== verification/Handler.v ===== *)
(** * Handler: [IAMHandler.HandleModuleSync]

    The translation of the Go function, statement by statement.  Each
    definition models the lines named above it; local variables of the Go
    function are bound variables or fields of [DiffState]; the loops are
    [forRange] (when the body calls a collaborator, logs or panics) or
    [foldl] (when it only appends).  [HandleModuleSyncBody] composes the
    steps in the order of the source and [HandleModuleSync] is what the
    caller observes. *)

From S2P Require Import Prelude GoString Meta Codec Effects.

Section handler.
Context {W : Type} `{!Collaborators W}.

(** ** Step 1: the module instances of the business (lines 33-68) *)

(** Line 33: [businessSimplify := task.Data.(extensions.BusinessSimplify)].
    A single-value type assertion panics on another dynamic type. *)
Definition assertBusinessSimplify (task : WorkRequest) : M W BusinessSimplify :=
  match Data task with
  | DataBusiness businessSimplify => mret businessSimplify
  | DataOther => panicGo PanicTypeAssertion
  end.

(** Lines 38-44: the condition [bk_biz_id == business] and the query for the
    three module fields, without limit. *)
Definition moduleQuery (businessSimplify : BusinessSimplify) : QueryCondition :=
  {| Fields := [common_BKAppIDField; common_BKModuleIDField;
                common_BKModuleNameField];
     Condition := [FieldEq common_BKAppIDField (BKAppIDField businessSimplify)];
     Limit := common_BKNoLimit |}.

(** Lines 34 and 45-49: the read; its failure is logged and returned wrapped
    by [fmt.Errorf]. *)
Definition readInstances (businessSimplify : BusinessSimplify) : M W (list MapStr) :=
  let header := NewAPIHeaderByBusiness businessSimplify in
  let query := moduleQuery businessSimplify in
  r ← callOp (CallReadInstance header common_BKInnerObjIDModule query)
             (ReadInstance header common_BKInnerObjIDModule query);
  match r with
  | inl err =>
      blog (LogGetModuleFailed (BKAppIDField businessSimplify) err);;
      returnGo (Some (GetModuleError (BKAppIDField businessSimplify) err))
  | inr instances => mret instances
  end.

(** Lines 51-54: a business without instances is skipped. *)
Definition skipIfNoInstances (businessSimplify : BusinessSimplify)
    (instances : list MapStr) : M W unit :=
  if decide (length instances = 0) then
    blog (LogNoInstances (BKAppIDField businessSimplify));;
    returnGo None
  else mret tt.

(** Lines 59-65: the body of the extraction loop. *)
Definition extractModule (moduleArr : list ModuleSimplify) (instance : MapStr)
    : M W (list ModuleSimplify) :=
  match Parse instance with
  | inl err => blog (LogParseFailed instance err);; mret moduleArr
  | inr moduleSimplify => mret (moduleArr ++ [moduleSimplify])
  end.

(** Lines 57-68: the extraction loop and the log of its result. *)
Definition extractModules (businessSimplify : BusinessSimplify)
    (instances : list MapStr) : M W (list ModuleSimplify) :=
  moduleArr ← forRange extractModule [] instances;
  blog (LogListModules (BKAppIDField businessSimplify) moduleArr);;
  mret moduleArr.

(** ** Step 2: the module resources IAM holds (lines 71-93) *)

(** Lines 71-80: the resource type and business to list, without layers. *)
Definition listRequest (businessSimplify : BusinessSimplify) : ResourceAttribute :=
  {| RABasic := {| Type_ := ModelModule; Name := ""; InstanceID := 0 |};
     SupplierAccount := "";
     BusinessID := BKAppIDField businessSimplify;
     Layers := [] |}.

(** Lines 81-85: the listing; its failure is logged and returned as it is. *)
Definition listResources (businessSimplify : BusinessSimplify)
    : M W (list BackendResource) :=
  let rs := listRequest businessSimplify in
  r ← callOp (CallListResources rs) (ListResources rs);
  match r with
  | inl err => blog (LogListResourcesFailed err);; returnGo (Some err)
  | inr resultResources => mret resultResources
  end.

(** Line 89, [iamResources[len(iamResources)-1]]: the last layer; indexing an
    empty slice at [-1] panics. *)
Definition lastLayer (iamResources : BackendResource) : M W BackendResourceLayer :=
  match last iamResources with
  | Some layer => mret layer
  | None => panicGo (PanicIndexOutOfRange (-1) (length iamResources))
  end.

(** Lines 88-92: the body of the filter loop. *)
Definition filterStep (realResources : list BackendResource)
    (iamResources : BackendResource) : M W (list BackendResource) :=
  layer ← lastLayer iamResources;
  if Contains (LayerResourceID layer) "module"
  then mret (realResources ++ [iamResources])
  else mret realResources.

(** Lines 87-93: the filter loop and the log of its result. *)
Definition filterRealResources (resultResources : list BackendResource)
    : M W (list BackendResource) :=
  realResources ← forRange filterStep [] resultResources;
  blog (LogRealResources realResources);;
  mret realResources.

(** ** Steps 5 and 6: diff and registration (lines 96-145) *)

(** Lines 98-100: the body of the loop that fills the map. *)
Definition initKeyStep (iamResourceKeyMap : gmap string Z)
    (iamResource : BackendResource) : gmap string Z :=
  <[generateIAMResourceKey iamResource := 0%Z]> iamResourceKeyMap.

(** Lines 96-101: every listed key with hit count [0]. *)
Definition initKeyMap (realResources : list BackendResource) : gmap string Z :=
  foldl initKeyStep ∅ realResources.

(** The variables the diff loop updates (lines 96, 105, 106). *)
Record DiffState := mkDiffState {
  iamResourceKeyMap : gmap string Z;
  scope : ScopeInfo;
  needRegister : list ResourceAttribute;
}.

(** Line 105, [authcenter.ScopeInfo{}]: the zero value of the struct. *)
Definition zeroScope : ScopeInfo := {| ScopeType := ""; ScopeID := "" |}.

(** Lines 96-106: the state before the first module. *)
Definition initDiffState (realResources : list BackendResource) : DiffState :=
  {| iamResourceKeyMap := initKeyMap realResources;
     scope := zeroScope;
     needRegister := [] |}.

(** Lines 108-117: the resource of a CMDB module. *)
Definition moduleResource (businessSimplify : BusinessSimplify)
    (module : ModuleSimplify) : ResourceAttribute :=
  {| RABasic := {| Type_ := ModelModule;
                   Name := BKModuleNameField module;
                   InstanceID := BKModuleIDField module |};
     SupplierAccount := "";
     BusinessID := BKAppIDField businessSimplify;
     Layers := [] |}.

(** Lines 127-135: the scope of the resolved entity is kept; a key IAM lists
    is hit once more ([++] on a Go [int]), any other key means the module has
    to be registered. *)
Definition recordResolved (st : DiffState) (resource : ResourceAttribute)
    (target : ResourceEntity) : DiffState :=
  let scope' := {| ScopeType := ScopeType (EntityScope target);
                   ScopeID := ScopeID (EntityScope target) |} in
  let resourceKey := generateCMDBResourceKey target in
  match iamResourceKeyMap st !! resourceKey with
  | Some hits =>
      {| iamResourceKeyMap :=
           <[resourceKey := hits +64 1]> (iamResourceKeyMap st);
         scope := scope';
         needRegister := needRegister st |}
  | None =>
      {| iamResourceKeyMap := iamResourceKeyMap st;
         scope := scope';
         needRegister := needRegister st ++ [resource] |}
  end.

(** Lines 108-135: the body of the diff loop.  A failed dry run ends the
    function; an answer that is not exactly one entity skips the module. *)
Definition diffStep (businessSimplify : BusinessSimplify) (st : DiffState)
    (module : ModuleSimplify) : M W DiffState :=
  let resource := moduleResource businessSimplify module in
  r ← callOp (CallDryRunRegisterResource resource)
             (DryRunRegisterResource resource);
  match r with
  | inl err => blog (LogDryRunFailed err);; returnGo (Some err)
  | inr targetResource =>
      match Resources targetResource with
      | [target] => mret (recordResolved st resource target)
      | _ => blog (LogDryRunAnomaly resource targetResource);; mret st
      end
  end.

(** Lines 96-138: the diff loop over the modules and the two log lines. *)
Definition diffModules (businessSimplify : BusinessSimplify)
    (realResources : list BackendResource) (moduleArr : list ModuleSimplify)
    : M W DiffState :=
  st ← forRange (diffStep businessSimplify) (initDiffState realResources) moduleArr;
  blog (LogKeyMap (iamResourceKeyMap st));;
  blog (LogNeedRegister (needRegister st));;
  mret st.

(** Lines 139-145: the modules IAM does not know are registered in one call;
    a failure is logged and the function goes on. *)
Definition registerMissing (needRegister : list ResourceAttribute) : M W unit :=
  if decide (0 < length needRegister) then
    blog (LogRegister needRegister);;
    err ← callOp (CallRegisterResource needRegister) (RegisterResource needRegister);
    match err with
    | Some err => blog (LogRegisterFailed needRegister err)
    | None => mret tt
    end
  else mret tt.

(** ** Step 7: deregistration (lines 148-162) *)

(** Lines 150-153: the body of the collecting loop; reading a missing key
    gives [0]. *)
Definition collectStep (iamResourceKeyMap : gmap string Z)
    (needDeregister : list BackendResource) (iamResource : BackendResource)
    : list BackendResource :=
  if decide (default 0%Z (iamResourceKeyMap !! generateIAMResourceKey iamResource)
             = 0%Z)
  then needDeregister ++ [iamResource]
  else needDeregister.

(** Lines 148-154: the listed resources whose key was never hit. *)
Definition collectDeregister (iamResourceKeyMap : gmap string Z)
    (realResources : list BackendResource) : list BackendResource :=
  foldl (collectStep iamResourceKeyMap) [] realResources.

(** Lines 155-162: they are deregistered in one call under the scope the diff
    loop left; a failure is logged. *)
Definition deregisterStale (scope : ScopeInfo)
    (needDeregister : list BackendResource) : M W unit :=
  blog (LogNeedDeregister needDeregister);;
  if decide (length needDeregister ≠ 0) then
    blog (LogDeregister needDeregister);;
    err ← callOp (CallRawDeregisterResource scope needDeregister)
                 (RawDeregisterResource scope needDeregister);
    match err with
    | Some err => blog (LogDeregisterFailed needDeregister err)
    | None => mret tt
    end
  else mret tt.

(** ** The function *)

(** Lines 32-165. *)
Definition HandleModuleSyncBody (task : WorkRequest) : M W (option GoError) :=
  businessSimplify ← assertBusinessSimplify task;
  instances ← readInstances businessSimplify;
  skipIfNoInstances businessSimplify instances;;
  moduleArr ← extractModules businessSimplify instances;
  resultResources ← listResources businessSimplify;
  realResources ← filterRealResources resultResources;
  st ← diffModules businessSimplify realResources moduleArr;
  registerMissing (needRegister st);;
  deregisterStale (scope st)
    (collectDeregister (iamResourceKeyMap st) realResources);;
  mret None.

(** What a caller of [ih.HandleModuleSync(task)] observes. *)
Definition HandleModuleSync (task : WorkRequest) (s : St W) : Outcome * St W :=
  runBody (HandleModuleSyncBody task) s.

End handler.
