(* ===== verification/Backend.v ===== *)
(** * Backend: a reference core service and authorizer

    The CMDB core service and the authorization centre are outside the
    repository's [src/]; the handler sees them through [Collaborators].
    This file gives the interface one executable implementation, written from
    the specification's description of the collaborators: the CMDB holds raw
    module instances, IAM a registry of resources per business, a dry run
    answers with the entity a registration would store and changes nothing.
    Faults can be injected per operation.  The implementation serves as the
    concrete world in which the theorems of the development are witnessed
    and the scenarios evaluated; [BackendLaws] shows that it satisfies the
    contract the convergence theorems assume. *)

From stdpp Require Import pretty.
From S2P Require Import Prelude GoString Meta Codec Effects Handler.

(** ** The world *)

(** Which operations fail, and how. *)
Record Faults := mkFaults {
  readError : option GoError;
  listError : option GoError;
  dryRunErrorOn : list Z;         (* instance ids whose dry run fails *)
  unresolvedOn : list Z;          (* instance ids whose dry run is empty *)
  registerError : option GoError;
  deregisterError : option GoError;
}.

Definition noFaults : Faults :=
  {| readError := None; listError := None; dryRunErrorOn := [];
     unresolvedOn := []; registerError := None; deregisterError := None |}.

(** What the CMDB and IAM hold. *)
Record RefWorld := mkRefWorld {
  cmdbInstances : list MapStr;                 (* raw module instances *)
  iamRegistry : list (Z * BackendResource);    (* business, resource *)
  faults : Faults;
}.

(** ** The core service *)

(** The key under which a raw instance stores a field. *)
Definition fieldKey (f : FieldName) : string :=
  match f with
  | common_BKAppIDField => "bk_biz_id"
  | common_BKModuleIDField => "bk_module_id"
  | common_BKModuleNameField => "bk_module_name"
  end.

(** A raw module instance. *)
Definition rawModule (business id : Z) (name : string) : MapStr :=
  <[fieldKey common_BKAppIDField := VInt business]>
  (<[fieldKey common_BKModuleIDField := VInt id]>
  (<[fieldKey common_BKModuleNameField := VString name]> ∅)).

Definition satisfies (instance : MapStr) (c : CondItem) : bool :=
  match c with
  | FieldEq f v => bool_decide (instance !! fieldKey f = Some (VInt v))
  end.

Definition applyLimit {A} (limit : LimitValue) (l : list A) : list A :=
  match limit with
  | common_BKNoLimit => l
  | LimitOf n => take (Z.to_nat n) l
  end.

Definition refReadInstance (h : APIHeader) (obj : ObjID) (q : QueryCondition)
    (w : RefWorld) : (GoError + list MapStr) * RefWorld :=
  match readError (faults w) with
  | Some err => (inl err, w)
  | None =>
      if decide (obj = common_BKInnerObjIDModule) then
        (inr (applyLimit (Limit q)
                (filter (λ i, forallb (satisfies i) (Condition q) = true)
                        (cmdbInstances w))), w)
      else (inr [], w)
  end.

Definition refParse (instance : MapStr) : GoError + ModuleSimplify :=
  match instance !! fieldKey common_BKModuleIDField,
        instance !! fieldKey common_BKModuleNameField with
  | Some (VInt id), Some (VString name) => inr (mkModuleSimplify id name)
  | _, _ => inl (ExternalError "parse module failed")
  end.

(** ** The authorizer *)

(** The scope of a business. *)
Definition scopeOfBusiness (business : Z) : ScopeInfo :=
  {| ScopeType := "biz"; ScopeID := pretty business |}.

(** The entity a registration of [r] stores. *)
Definition canonicalEntity (r : ResourceAttribute) : ResourceEntity :=
  {| EntityScope := scopeOfBusiness (BusinessID r);
     EntityResourceName := Name (RABasic r);
     EntityResourceID :=
       [ {| RscResourceType := "module";
            RscResourceID := "module:" +:+ pretty (InstanceID (RABasic r)) |} ] |}.

Definition refListResources (rs : ResourceAttribute) (w : RefWorld)
    : (GoError + list BackendResource) * RefWorld :=
  match listError (faults w) with
  | Some err => (inl err, w)
  | None => (inr (filter (λ p, p.1 = BusinessID rs) (iamRegistry w)).*2, w)
  end.

Definition refDryRun (r : ResourceAttribute) (w : RefWorld)
    : (GoError + RegisterInfo) * RefWorld :=
  if decide (InstanceID (RABasic r) ∈ dryRunErrorOn (faults w)) then
    (inl (ExternalError "dry run failed"), w)
  else if decide (InstanceID (RABasic r) ∈ unresolvedOn (faults w)) then
    (inr {| Resources := [] |}, w)
  else (inr {| Resources := [canonicalEntity r] |}, w).

Definition refRegister (rs : list ResourceAttribute) (w : RefWorld)
    : option GoError * RefWorld :=
  match registerError (faults w) with
  | Some err => (Some err, w)
  | None =>
      (None,
       {| cmdbInstances := cmdbInstances w;
          iamRegistry :=
            iamRegistry w ++
            ((λ r, (BusinessID r, backendOfEntity (canonicalEntity r))) <$> rs);
          faults := faults w |})
  end.

Definition refDeregister (scope : ScopeInfo) (ds : list BackendResource)
    (w : RefWorld) : option GoError * RefWorld :=
  match deregisterError (faults w) with
  | Some err => (Some err, w)
  | None =>
      (None,
       {| cmdbInstances := cmdbInstances w;
          iamRegistry :=
            filter (λ p, ¬ (scopeOfBusiness p.1 = scope ∧ p.2 ∈ ds))
                   (iamRegistry w);
          faults := faults w |})
  end.

#[export] Instance refCollaborators : Collaborators RefWorld := {|
  ReadInstance := refReadInstance;
  Parse := refParse;
  ListResources := refListResources;
  DryRunRegisterResource := refDryRun;
  RegisterResource := refRegister;
  RawDeregisterResource := refDeregister;
|}.

(** ** A sample world

    Business 2 has the modules 1 ("app") and 2 ("db"); IAM knows module 1
    and a module 3 that the CMDB no longer has. *)

Definition exBusiness : BusinessSimplify := {| BKAppIDField := 2 |}.
Definition exTask : WorkRequest := {| Data := DataBusiness exBusiness |}.
Definition exModule1 : ModuleSimplify := mkModuleSimplify 1 "app".
Definition exModule2 : ModuleSimplify := mkModuleSimplify 2 "db".
Definition exModule3 : ModuleSimplify := mkModuleSimplify 3 "cache".

Definition exResource (m : ModuleSimplify) : ResourceAttribute :=
  moduleResource exBusiness m.

Definition exEntity (m : ModuleSimplify) : ResourceEntity :=
  canonicalEntity (exResource m).

Definition exBackend (m : ModuleSimplify) : BackendResource :=
  backendOfEntity (exEntity m).

Definition exWorld : RefWorld :=
  {| cmdbInstances := [rawModule 2 1 "app"; rawModule 2 2 "db"; rawModule 5 9 "x"];
     iamRegistry := [(2%Z, exBackend exModule1); (2%Z, exBackend exModule3)];
     faults := noFaults |}.

Definition initSt {W} (w : W) : St W := mkSt w [].

(** What IAM lists for business 2 in the sample world, and what the two
    modules of the CMDB resolve to. *)
Definition exReal : list BackendResource :=
  [exBackend exModule1; exBackend exModule3].

Definition exResolved : list (ResourceAttribute * ResourceEntity) :=
  [(exResource exModule1, exEntity exModule1);
   (exResource exModule2, exEntity exModule2)].

(** Variants of the sample world. *)
Definition withFaults (f : Faults) (w : RefWorld) : RefWorld :=
  {| cmdbInstances := cmdbInstances w; iamRegistry := iamRegistry w; faults := f |}.

Definition exInstances : list MapStr := [rawModule 2 1 "app"; rawModule 2 2 "db"].

Definition exReadError : GoError := ExternalError "read failed".
Definition exListError : GoError := ExternalError "list failed".
Definition exMutationError : GoError := ExternalError "mutation failed".

(** The read fails. *)
Definition exWorldReadFails : RefWorld :=
  withFaults {| readError := Some exReadError; listError := None;
                dryRunErrorOn := []; unresolvedOn := [];
                registerError := None; deregisterError := None |} exWorld.

(** The listing fails. *)
Definition exWorldListFails : RefWorld :=
  withFaults {| readError := None; listError := Some exListError;
                dryRunErrorOn := []; unresolvedOn := [];
                registerError := None; deregisterError := None |} exWorld.

(** The dry run of module 2 fails. *)
Definition exWorldDryRunFails : RefWorld :=
  withFaults {| readError := None; listError := None;
                dryRunErrorOn := [2%Z]; unresolvedOn := [];
                registerError := None; deregisterError := None |} exWorld.

(** Registration and deregistration both fail. *)
Definition exWorldMutationsFail : RefWorld :=
  withFaults {| readError := None; listError := None;
                dryRunErrorOn := []; unresolvedOn := [];
                registerError := Some exMutationError;
                deregisterError := Some exMutationError |} exWorld.

(** IAM lists a resource without layers. *)
Definition exWorldEmptyResource : RefWorld :=
  {| cmdbInstances := cmdbInstances exWorld;
     iamRegistry := (2%Z, []) :: iamRegistry exWorld;
     faults := noFaults |}.

(** A task for a business without modules, and a task of another kind. *)
Definition exTaskNoModules : WorkRequest :=
  {| Data := DataBusiness {| BKAppIDField := 7 |} |}.
Definition exTaskOther : WorkRequest := {| Data := DataOther |}.

(** No dry run resolves a module: every answer is empty. *)
Definition exWorldUnresolved : RefWorld :=
  withFaults {| readError := None; listError := None;
                dryRunErrorOn := []; unresolvedOn := [1%Z; 2%Z];
                registerError := None; deregisterError := None |} exWorld.

(** The worlds of the scenarios: what the CMDB holds for business 2, what
    IAM has registered for it, and the instance ids no dry run resolves. *)
Definition scenarioWorld (modules registered : list ModuleSimplify)
    (unresolved : list Z) : RefWorld :=
  {| cmdbInstances :=
       (λ m, rawModule 2 (BKModuleIDField m) (BKModuleNameField m)) <$> modules;
     iamRegistry := (λ m, (2%Z, exBackend m)) <$> registered;
     faults := {| readError := None; listError := None;
                  dryRunErrorOn := []; unresolvedOn := unresolved;
                  registerError := None; deregisterError := None |} |}.
