(* ===== verification/Steps.v ===== *)
(** * Steps: what each step of the handler does, on every branch

    One run equation per definition of [Handler]: the result and the state
    after the step as an explicit function of the state before it.  The
    three loops that do not call a collaborator are characterised by list
    functions: extraction is [parsedModules] with one log line per failure,
    the filter is [filter isModuleResource] unless a resource has no layer,
    in which case the function panics.  [extractModules_spec] and
    [filterRealResources_spec] say what the two list functions compute. *)

From S2P Require Import Prelude GoString Meta Codec Effects Handler.
From S2P Require Import Backend.

Section steps.
Context {W : Type} `{!Collaborators W}.
Implicit Types (s : St W) (biz : BusinessSimplify).

(** ** Reference definitions *)

(** The modules of the instances that parse, in order. *)
Definition parsedModules (instances : list MapStr) : list ModuleSimplify :=
  omap (λ i, match Parse i with inr m => Some m | inl _ => None end) instances.

(** The log lines of the instances that do not parse, in order. *)
Definition parseFailures (instances : list MapStr) : list Event :=
  omap (λ i, match Parse i with
             | inl err => Some (EvLog (LogParseFailed i err))
             | inr _ => None
             end) instances.

(** The filter of line 89 on a resource that has a last layer. *)
Definition isModuleResource (r : BackendResource) : bool :=
  match last r with
  | Some layer => Contains (LayerResourceID layer) "module"
  | None => false
  end.

(** The read and the listing of a run: the call and the operation. *)
Definition readCall biz : Call :=
  CallReadInstance (NewAPIHeaderByBusiness biz) common_BKInnerObjIDModule
    (moduleQuery biz).

Definition readOp biz : W → (GoError + list MapStr) * W :=
  ReadInstance (NewAPIHeaderByBusiness biz) common_BKInnerObjIDModule
    (moduleQuery biz).

Definition listCall biz : Call := CallListResources (listRequest biz).

Definition listOp biz : W → (GoError + list BackendResource) * W :=
  ListResources (listRequest biz).

(** ** Step 1 *)

Lemma assertBusinessSimplify_run task s :
  assertBusinessSimplify task s =
  match Data task with
  | DataBusiness biz => (Val biz, s)
  | DataOther => (Panic PanicTypeAssertion, s)
  end.
Proof. unfold assertBusinessSimplify. by destruct (Data task). Qed.

Lemma readInstances_run biz s :
  readInstances biz s =
  let s1 := afterCall (readCall biz) (readOp biz) s in
  match answer (readOp biz) s with
  | inl err =>
      (Return (Some (GetModuleError (BKAppIDField biz) err)),
       emit (EvLog (LogGetModuleFailed (BKAppIDField biz) err)) s1)
  | inr instances => (Val instances, s1)
  end.
Proof.
  unfold readInstances. rewrite bind_run, callOp_run. fold (readOp biz).
  by destruct (answer _ _).
Qed.

Lemma skipIfNoInstances_run biz instances s :
  skipIfNoInstances biz instances s =
  if decide (instances = [])
  then (Return None, emit (EvLog (LogNoInstances (BKAppIDField biz))) s)
  else (Val tt, s).
Proof.
  unfold skipIfNoInstances. destruct instances; by repeat case_decide.
Qed.

Lemma parsedModules_app l1 l2 :
  parsedModules (l1 ++ l2) = parsedModules l1 ++ parsedModules l2.
Proof. apply omap_app. Qed.

Lemma parseFailures_app l1 l2 :
  parseFailures (l1 ++ l2) = parseFailures l1 ++ parseFailures l2.
Proof. apply omap_app. Qed.

Lemma extractModule_run moduleArr instance s :
  extractModule moduleArr instance s =
  (Val (moduleArr ++ parsedModules [instance]), emits (parseFailures [instance]) s).
Proof.
  unfold extractModule, parsedModules, parseFailures. simpl.
  destruct (Parse instance); simpl; by rewrite ?app_nil_r, ?emits_nil.
Qed.

Lemma extractLoop_run moduleArr instances s :
  forRange extractModule moduleArr instances s =
  (Val (moduleArr ++ parsedModules instances), emits (parseFailures instances) s).
Proof.
  revert moduleArr s. induction instances as [|i instances IH]; intros acc s.
  - by rewrite forRange_nil, app_nil_r, emits_nil.
  - rewrite forRange_cons, bind_run, extractModule_run, IH, emits_emits.
    change (i :: instances) with ([i] ++ instances).
    by rewrite parsedModules_app, parseFailures_app, app_assoc.
Qed.

Lemma extractModules_run biz instances s :
  extractModules biz instances s =
  (Val (parsedModules instances),
   emits (parseFailures instances ++
          [EvLog (LogListModules (BKAppIDField biz) (parsedModules instances))]) s).
Proof.
  unfold extractModules. rewrite bind_run, extractLoop_run. simpl.
  by rewrite bind_run, blog_run, emit_emits.
Qed.

(** ** Step 2 *)

Lemma listResources_run biz s :
  listResources biz s =
  let s1 := afterCall (listCall biz) (listOp biz) s in
  match answer (listOp biz) s with
  | inl err => (Return (Some err), emit (EvLog (LogListResourcesFailed err)) s1)
  | inr resultResources => (Val resultResources, s1)
  end.
Proof.
  unfold listResources. rewrite bind_run, callOp_run. fold (listOp biz).
  by destruct (answer _ _).
Qed.

Lemma filterStep_run realResources (iamResources : BackendResource) s :
  filterStep realResources iamResources s =
  if decide (iamResources = [])
  then (Panic (PanicIndexOutOfRange (-1) 0), s)
  else (Val (realResources ++ filter isModuleResource [iamResources]), s).
Proof.
  unfold filterStep, lastLayer, isModuleResource. rewrite bind_run.
  rewrite filter_cons, filter_nil.
  destruct (last iamResources) as [layer|] eqn:Hlast.
  - rewrite decide_False by (by intros ->). simpl.
    destruct (Contains _ _); simpl; by rewrite ?app_nil_r.
  - apply last_None in Hlast as ->. done.
Qed.

Lemma filterLoop_run realResources (resultResources : list BackendResource) s :
  forRange filterStep realResources resultResources s =
  if decide (Forall (λ r, r ≠ []) resultResources)
  then (Val (realResources ++ filter isModuleResource resultResources), s)
  else (Panic (PanicIndexOutOfRange (-1) 0), s).
Proof.
  revert realResources. induction resultResources as [|r rs IH]; intros acc.
  - by rewrite forRange_nil, decide_True, app_nil_r.
  - rewrite forRange_cons, bind_run, filterStep_run.
    destruct (decide (r = [])) as [->|Hr].
    + rewrite decide_False; [done|]. by intros [? _]%Forall_cons.
    + rewrite IH, <-app_assoc, <-filter_app. simpl.
      destruct (decide (Forall _ rs)).
      * by rewrite decide_True by (by constructor).
      * rewrite decide_False; [done|]. by intros [_ ?]%Forall_cons.
Qed.

Lemma filterRealResources_run (resultResources : list BackendResource) s :
  filterRealResources resultResources s =
  if decide (Forall (λ r, r ≠ []) resultResources)
  then (Val (filter isModuleResource resultResources),
        emit (EvLog (LogRealResources (filter isModuleResource resultResources))) s)
  else (Panic (PanicIndexOutOfRange (-1) 0), s).
Proof.
  unfold filterRealResources. rewrite bind_run, filterLoop_run.
  by case_decide.
Qed.

(** ** Steps 6 and 7 *)

Lemma registerMissing_run (needRegister : list ResourceAttribute) s :
  registerMissing needRegister s =
  if decide (needRegister = []) then (Val tt, s) else
  let c := CallRegisterResource needRegister in
  let s1 := afterCall c (RegisterResource needRegister)
              (emit (EvLog (LogRegister needRegister)) s) in
  match answer (RegisterResource needRegister) s with
  | Some err => (Val tt, emit (EvLog (LogRegisterFailed needRegister err)) s1)
  | None => (Val tt, s1)
  end.
Proof.
  unfold registerMissing. destruct needRegister as [|r rs].
  - by rewrite decide_False by (simpl; lia).
  - rewrite decide_True by (simpl; lia). rewrite decide_False by done.
    mstep. rewrite !answer_emit. by destruct (answer _ _).
Qed.

Lemma deregisterStale_run scope (needDeregister : list BackendResource) s :
  deregisterStale scope needDeregister s =
  let s0 := emit (EvLog (LogNeedDeregister needDeregister)) s in
  if decide (needDeregister = []) then (Val tt, s0) else
  let c := CallRawDeregisterResource scope needDeregister in
  let s1 := afterCall c (RawDeregisterResource scope needDeregister)
              (emit (EvLog (LogDeregister needDeregister)) s0) in
  match answer (RawDeregisterResource scope needDeregister) s with
  | Some err => (Val tt, emit (EvLog (LogDeregisterFailed needDeregister err)) s1)
  | None => (Val tt, s1)
  end.
Proof.
  unfold deregisterStale. rewrite bind_run, blog_run.
  destruct needDeregister as [|r rs].
  - by rewrite decide_False by (simpl; lia).
  - rewrite decide_True by done. rewrite decide_False by done.
    mstep. rewrite !answer_emit. by destruct (answer _ _).
Qed.

(** ** What the two pure loops compute *)

Lemma elem_of_parsedModules (instances : list MapStr) m :
  m ∈ parsedModules instances ↔ ∃ i, i ∈ instances ∧ Parse i = inr m.
Proof.
  unfold parsedModules. rewrite list_elem_of_omap.
  split; intros (i & Hi & Hp); exists i; (split; [done|]);
    destruct (Parse i); naive_solver.
Qed.

Lemma elem_of_parseFailures (instances : list MapStr) e :
  e ∈ parseFailures instances
  ↔ ∃ i err, i ∈ instances ∧ Parse i = inl err ∧ e = EvLog (LogParseFailed i err).
Proof.
  unfold parseFailures. rewrite list_elem_of_omap. split.
  - intros (i & Hi & Hp). exists i. destruct (Parse i) as [err|]; naive_solver.
  - intros (i & err & Hi & Hp & ->). exists i. by rewrite Hp.
Qed.

Lemma parsed_or_failed (instances : list MapStr) :
  length (parsedModules instances) + length (parseFailures instances)
  = length instances.
Proof.
  unfold parsedModules, parseFailures.
  induction instances as [|i instances IH]; csimpl; [done|].
  destruct (Parse i); csimpl; lia.
Qed.

(** The extraction loop never fails: it returns the
    modules of the instances that parse, in the order of the instances,
    writes one log line per instance that does not parse and then the log
    line of the result, and calls no collaborator. *)
Theorem extractModules_spec biz instances s :
  ∃ moduleArr failures,
    extractModules biz instances s
    = (Val moduleArr,
       emits (failures ++ [EvLog (LogListModules (BKAppIDField biz) moduleArr)]) s) ∧
    (∀ m, m ∈ moduleArr ↔ ∃ i, i ∈ instances ∧ Parse i = inr m) ∧
    (∀ e, e ∈ failures
          ↔ ∃ i err, i ∈ instances ∧ Parse i = inl err ∧
                     e = EvLog (LogParseFailed i err)) ∧
    length moduleArr + length failures = length instances.
Proof.
  exists (parsedModules instances), (parseFailures instances).
  split_and!; [apply extractModules_run|intros m|intros e|].
  - apply elem_of_parsedModules.
  - apply elem_of_parseFailures.
  - apply parsed_or_failed.
Qed.

(** The last layer is the element at index [len - 1]. *)
Lemma isModuleResource_index (r : BackendResource) :
  isModuleResource r = true
  ↔ ∃ layer, r !! (length r - 1) = Some layer ∧
             Contains (LayerResourceID layer) "module" = true.
Proof.
  unfold isModuleResource. rewrite last_lookup, Nat.sub_1_r.
  destruct (r !! pred (length r)); naive_solver.
Qed.

(** When every listed resource has a layer, the filter
    loop returns, in the order of the listing, exactly the resources whose
    last layer has an identifier that contains [module]; it logs the result
    and calls no collaborator. *)
Theorem filterRealResources_spec (resultResources : list BackendResource) s :
  Forall (λ r, r ≠ []) resultResources →
  ∃ realResources,
    filterRealResources resultResources s
    = (Val realResources, emit (EvLog (LogRealResources realResources)) s) ∧
    realResources `sublist_of` resultResources ∧
    ∀ r, r ∈ realResources
         ↔ r ∈ resultResources ∧
           ∃ layer pre post, r !! (length r - 1) = Some layer ∧
             LayerResourceID layer = pre +:+ "module" +:+ post.
Proof.
  intros Hne. exists (filter isModuleResource resultResources).
  rewrite filterRealResources_run, decide_True by done.
  split_and!; [done|apply sublist_filter|]. intros r.
  rewrite list_elem_of_filter, Is_true_true, isModuleResource_index.
  setoid_rewrite Contains_spec. naive_solver.
Qed.

End steps.

(** ** In the sample world *)

Lemma filterRealResources_spec_witness :
  ∃ realResources,
    filterRealResources exReal (initSt exWorld)
    = (Val realResources,
       emit (EvLog (LogRealResources realResources)) (initSt exWorld)) ∧
    realResources `sublist_of` exReal ∧
    ∀ r, r ∈ realResources
         ↔ r ∈ exReal ∧
           ∃ layer pre post, r !! (length r - 1) = Some layer ∧
             LayerResourceID layer = pre +:+ "module" +:+ post.
Proof.
  apply (filterRealResources_spec exReal (initSt exWorld)).
  by repeat constructor.
Defined.

(** An instance without a module id does not parse: it is logged and
    skipped, and the loop goes on. *)
Example sample_extraction :
  let broken : MapStr := {[ "bk_module_name" := VString "x" ]} in
  extractModules exBusiness [rawModule 2 1 "app"; broken; rawModule 2 2 "db"]
    (initSt exWorld)
  = (Val [exModule1; exModule2],
     emits [EvLog (LogParseFailed broken (ExternalError "parse module failed"));
            EvLog (LogListModules 2 [exModule1; exModule2])] (initSt exWorld)).
Proof. vm_compute. reflexivity. Qed.

(** A resource of another kind at the same scope is filtered out. *)
Example sample_filter :
  let set7 : BackendResource := [mkLayer "set" "set:7" "s"] in
  (filterRealResources (set7 :: exReal) (initSt exWorld)).1 = Val exReal.
Proof. vm_compute. reflexivity. Qed.
