(* ===== verification/DiffEngine.v ===== *)
(** * DiffEngine: the hit-count map and what it computes

    The diff of the source is interleaved with the dry runs: every resolved
    module either increments the hit count of its key or is appended to
    [needRegister], and after the loop the resources with hit count [0] are
    collected.  This file states what that computes as a two-pass reference
    definition on the list of resolved modules ([toRegister],
    [toDeregister]) and proves that the loop state of the source refines
    it.  [diffPure] is the loop without its calls: the fold of
    [recordResolved] over the resolved modules.  From the refinement follow
    completeness of both batches, the absence of double counting, the exact
    value of the 64-bit hit counts and the independence of names. *)

From S2P Require Import Prelude GoString Meta Codec Effects Handler Backend.

(** ** Reference definitions *)

(** A module's resource together with the entity its dry run resolved to. *)
Abbreviation Resolved := (ResourceAttribute * ResourceEntity)%type.

(** The keys IAM lists. *)
Definition iamKeys (realResources : list BackendResource) : list string :=
  generateIAMResourceKey <$> realResources.

(** The keys the CMDB modules resolve to. *)
Definition cmdbKeys (resolved : list Resolved) : list string :=
  (λ p, generateCMDBResourceKey p.2) <$> resolved.

(** To register: the resolved modules whose key IAM does not list, in the
    order of the CMDB. *)
Definition toRegister (realResources : list BackendResource)
    (resolved : list Resolved) : list ResourceAttribute :=
  (filter (λ p, generateCMDBResourceKey p.2 ∉ iamKeys realResources) resolved).*1.

(** To deregister: the listed resources whose key no resolved module has, in
    the order of the listing. *)
Definition toDeregister (realResources : list BackendResource)
    (resolved : list Resolved) : list BackendResource :=
  filter (λ r, generateIAMResourceKey r ∉ cmdbKeys resolved) realResources.

(** The number of resolved modules with key [k]. *)
Definition hitsOf (k : string) (resolved : list Resolved) : nat :=
  length (filter (λ p, generateCMDBResourceKey p.2 = k) resolved).

(** The diff loop without its calls. *)
Definition diffPure (st : DiffState) (resolved : list Resolved) : DiffState :=
  foldl (λ st p, recordResolved st p.1 p.2) st resolved.

(** The hit-count map after the loop. *)
Definition hitMap (realResources : list BackendResource)
    (resolved : list Resolved) : gmap string Z :=
  iamResourceKeyMap (diffPure (initDiffState realResources) resolved).

(** The scope of the last resolved module, [scope0] when there is none. *)
Definition lastScope (scope0 : ScopeInfo) (resolved : list Resolved) : ScopeInfo :=
  match last resolved with
  | Some p => EntityScope p.2
  | None => scope0
  end.

(** ** The initial map *)

Lemma initKeyMap_snoc rs r :
  initKeyMap (rs ++ [r]) = <[generateIAMResourceKey r := 0%Z]> (initKeyMap rs).
Proof. unfold initKeyMap. by rewrite foldl_snoc. Qed.

Lemma initKeyMap_lookup rs k :
  initKeyMap rs !! k = if decide (k ∈ iamKeys rs) then Some 0%Z else None.
Proof.
  unfold iamKeys. induction rs as [|r rs IH] using rev_ind; [done|].
  rewrite initKeyMap_snoc, fmap_app, lookup_insert, IH. simpl.
  repeat case_decide; set_solver.
Qed.

Lemma initKeyMap_dom rs : dom (initKeyMap rs) = list_to_set (iamKeys rs).
Proof.
  apply set_eq. intros k.
  rewrite elem_of_dom, initKeyMap_lookup, elem_of_list_to_set.
  case_decide; [by split; eauto|]. split; [by intros []|done].
Qed.

Lemma initKeyMap_is_Some rs k : is_Some (initKeyMap rs !! k) ↔ k ∈ iamKeys rs.
Proof. by rewrite <-elem_of_dom, initKeyMap_dom, elem_of_list_to_set. Qed.

(** ** One resolved module *)

Lemma scope_of_entity (e : ResourceEntity) :
  {| ScopeType := ScopeType (EntityScope e); ScopeID := ScopeID (EntityScope e) |}
  = EntityScope e.
Proof. by destruct (EntityScope e). Qed.

Lemma recordResolved_scope st r e : scope (recordResolved st r e) = EntityScope e.
Proof.
  unfold recordResolved. destruct (_ !! _); simpl; apply scope_of_entity.
Qed.

Lemma recordResolved_dom st r e :
  dom (iamResourceKeyMap (recordResolved st r e)) = dom (iamResourceKeyMap st).
Proof.
  unfold recordResolved.
  destruct (iamResourceKeyMap st !! generateCMDBResourceKey e) eqn:Hk; simpl; [|done].
  rewrite dom_insert_L. apply elem_of_dom_2 in Hk. set_solver.
Qed.

Lemma recordResolved_lookup st r e k :
  iamResourceKeyMap (recordResolved st r e) !! k
  = if decide (generateCMDBResourceKey e = k)
    then (λ hits, wrap64 (hits + 1)) <$> iamResourceKeyMap st !! k
    else iamResourceKeyMap st !! k.
Proof.
  unfold recordResolved.
  destruct (iamResourceKeyMap st !! generateCMDBResourceKey e) eqn:Hk; simpl.
  - rewrite lookup_insert. case_decide; [subst; by rewrite Hk|done].
  - case_decide; [subst; by rewrite Hk|done].
Qed.

Lemma recordResolved_needRegister st r e :
  needRegister (recordResolved st r e)
  = if decide (generateCMDBResourceKey e ∈ dom (iamResourceKeyMap st))
    then needRegister st else needRegister st ++ [r].
Proof.
  unfold recordResolved.
  destruct (iamResourceKeyMap st !! generateCMDBResourceKey e) eqn:Hk; simpl.
  - rewrite decide_True; [done|by eapply elem_of_dom_2].
  - rewrite decide_False; [done|by apply not_elem_of_dom].
Qed.

(** ** The loop without its calls *)

Lemma diffPure_nil st : diffPure st [] = st.
Proof. done. Qed.

Lemma diffPure_snoc st resolved p :
  diffPure st (resolved ++ [p]) = recordResolved (diffPure st resolved) p.1 p.2.
Proof. unfold diffPure. by rewrite foldl_snoc. Qed.

Lemma diffPure_snoc_pair st resolved r e :
  diffPure st (resolved ++ [(r, e)]) = recordResolved (diffPure st resolved) r e.
Proof. apply diffPure_snoc. Qed.

Lemma diffPure_cons st p resolved :
  diffPure st (p :: resolved) = diffPure (recordResolved st p.1 p.2) resolved.
Proof. done. Qed.

(** The set of keys of the map never changes. *)
Lemma diffPure_dom st resolved :
  dom (iamResourceKeyMap (diffPure st resolved)) = dom (iamResourceKeyMap st).
Proof.
  induction resolved as [|p resolved IH] using rev_ind; [done|].
  by rewrite diffPure_snoc, recordResolved_dom.
Qed.

Lemma diffPure_scope st resolved :
  scope (diffPure st resolved) = lastScope (scope st) resolved.
Proof.
  unfold lastScope. destruct resolved as [|p resolved _] using rev_ind; [done|].
  by rewrite diffPure_snoc, recordResolved_scope, last_snoc.
Qed.

Lemma diffPure_needRegister st resolved :
  needRegister (diffPure st resolved)
  = needRegister st ++
    (filter (λ p, generateCMDBResourceKey p.2 ∉ dom (iamResourceKeyMap st))
            resolved).*1.
Proof.
  induction resolved as [|p resolved IH] using rev_ind.
  - by rewrite app_nil_r.
  - rewrite diffPure_snoc, recordResolved_needRegister, diffPure_dom, IH.
    rewrite filter_app, fmap_app, filter_cons, filter_nil.
    repeat case_decide; simpl; rewrite ?app_nil_r, ?app_assoc; done.
Qed.

(** ** The dry runs alone *)

(** The dry run of [resource]: the call and the operation. *)
Abbreviation dryRunAnswer resource s :=
  (answer (DryRunRegisterResource resource) s).
Abbreviation afterDryRun resource s :=
  (afterCall (CallDryRunRegisterResource resource)
             (DryRunRegisterResource resource) s).

Section resolve.
Context {W : Type} `{!Collaborators W}.

(** The body of the diff loop with the diff left out: the dry run, its two
    ways to fail, and the resolved pair appended. *)
Definition resolveStep (businessSimplify : BusinessSimplify)
    (resolved : list Resolved) (module : ModuleSimplify) : M W (list Resolved) :=
  let resource := moduleResource businessSimplify module in
  r ← callOp (CallDryRunRegisterResource resource)
             (DryRunRegisterResource resource);
  match r with
  | inl err => blog (LogDryRunFailed err);; returnGo (Some err)
  | inr targetResource =>
      match Resources targetResource with
      | [target] => mret (resolved ++ [(resource, target)])
      | _ => blog (LogDryRunAnomaly resource targetResource);; mret resolved
      end
  end.

(** All dry runs of a run, in the order of [moduleArr]. *)
Definition resolveModules (businessSimplify : BusinessSimplify)
    (moduleArr : list ModuleSimplify) : M W (list Resolved) :=
  forRange (resolveStep businessSimplify) [] moduleArr.

Lemma diffStep_run biz st module (s : St W) :
  diffStep biz st module s =
  let resource := moduleResource biz module in
  let s1 := afterDryRun resource s in
  match dryRunAnswer resource s with
  | inl err => (Return (Some err), emit (EvLog (LogDryRunFailed err)) s1)
  | inr targetResource =>
      match Resources targetResource with
      | [target] => (Val (recordResolved st resource target), s1)
      | _ => (Val st, emit (EvLog (LogDryRunAnomaly resource targetResource)) s1)
      end
  end.
Proof.
  unfold diffStep. rewrite bind_run, callOp_run.
  destruct (answer _ _) as [err|target]; [done|].
  by destruct (Resources target) as [|t [|??]].
Qed.

Lemma resolveStep_run biz acc module (s : St W) :
  resolveStep biz acc module s =
  let resource := moduleResource biz module in
  let s1 := afterDryRun resource s in
  match dryRunAnswer resource s with
  | inl err => (Return (Some err), emit (EvLog (LogDryRunFailed err)) s1)
  | inr targetResource =>
      match Resources targetResource with
      | [target] => (Val (acc ++ [(resource, target)]), s1)
      | _ => (Val acc, emit (EvLog (LogDryRunAnomaly resource targetResource)) s1)
      end
  end.
Proof.
  unfold resolveStep. rewrite bind_run, callOp_run.
  destruct (answer _ _) as [err|target]; [done|].
  by destruct (Resources target) as [|t [|??]].
Qed.

(** What one dry-run answer contributes to the loop: the pair it resolves
    to when it has exactly one entity, the log line of the anomaly
    otherwise. *)
Definition resolvedBy (resource : ResourceAttribute)
    (targetResource : RegisterInfo) : list Resolved :=
  match Resources targetResource with
  | [target] => [(resource, target)]
  | _ => []
  end.

Definition anomalyOf (resource : ResourceAttribute)
    (targetResource : RegisterInfo) : list Event :=
  match Resources targetResource with
  | [_] => []
  | _ => [EvLog (LogDryRunAnomaly resource targetResource)]
  end.

(** One turn of the dry-run loop. *)
Lemma resolveLoop_cons biz acc module moduleArr (s : St W) :
  forRange (resolveStep biz) acc (module :: moduleArr) s =
  let resource := moduleResource biz module in
  let s1 := afterDryRun resource s in
  match dryRunAnswer resource s with
  | inl err => (Return (Some err), emit (EvLog (LogDryRunFailed err)) s1)
  | inr targetResource =>
      forRange (resolveStep biz) (acc ++ resolvedBy resource targetResource)
        moduleArr (emits (anomalyOf resource targetResource) s1)
  end.
Proof.
  rewrite forRange_cons, bind_run, resolveStep_run. cbn zeta.
  unfold resolvedBy, anomalyOf. destruct (answer _ _) as [err|target]; [done|].
  destruct (Resources target) as [|t [|??]];
    by rewrite ?app_nil_r, ?emits_nil, <-?emit_as_emits.
Qed.

Lemma calls_anomalyOf resource targetResource :
  calls (anomalyOf resource targetResource) = [].
Proof. unfold anomalyOf. by destruct (Resources _) as [|? [|??]]. Qed.

Lemma resolvedBy_spec resource targetResource :
  Forall (λ p, p.1 = resource ∧ targetResource = {| Resources := [p.2] |})
         (resolvedBy resource targetResource).
Proof.
  unfold resolvedBy. destruct targetResource as [[|t [|??]]]; by repeat constructor.
Qed.

Lemma resolvedBy_sublist resource targetResource :
  (resolvedBy resource targetResource).*1 `sublist_of` [resource].
Proof.
  unfold resolvedBy. destruct (Resources _) as [|t [|??]]; simpl;
    by repeat constructor.
Qed.

(** The loop of the source is the dry runs followed by the pure diff. *)
Lemma diffLoop_fusion biz st0 acc moduleArr (s : St W) :
  forRange (diffStep biz) (diffPure st0 acc) moduleArr s
  = (forRange (resolveStep biz) acc moduleArr ≫= λ resolved,
       mret (diffPure st0 resolved)) s.
Proof.
  revert acc s. induction moduleArr as [|module moduleArr IH]; intros acc s.
  - done.
  - rewrite bind_run, !forRange_cons, !bind_run, diffStep_run, resolveStep_run.
    simpl. destruct (answer _ _) as [err|target]; [done|].
    destruct (Resources target) as [|t [|??]];
      rewrite <-?diffPure_snoc_pair, IH, bind_run; done.
Qed.

End resolve.

(** ** Hit counts *)

Lemma hitsOf_snoc k resolved p :
  hitsOf k (resolved ++ [p])
  = hitsOf k resolved + (if decide (generateCMDBResourceKey p.2 = k) then 1 else 0).
Proof.
  unfold hitsOf. rewrite filter_app, length_app, filter_cons, filter_nil.
  by case_decide.
Qed.

Lemma hitsOf_0 k resolved : hitsOf k resolved = 0 ↔ k ∉ cmdbKeys resolved.
Proof.
  unfold hitsOf, cmdbKeys. rewrite filter_length_0, list_elem_of_fmap.
  naive_solver.
Qed.

Lemma hitsOf_le k resolved : hitsOf k resolved ≤ length resolved.
Proof. apply length_filter. Qed.

(** After the loop the count of a listed key is the number of resolved
    modules with that key, as a machine integer; other keys are absent. *)
Lemma diffPure_lookup realResources resolved k :
  iamResourceKeyMap (diffPure (initDiffState realResources) resolved) !! k
  = if decide (k ∈ iamKeys realResources)
    then Some (wrap64 (Z.of_nat (hitsOf k resolved))) else None.
Proof.
  induction resolved as [|p resolved IH] using rev_ind.
  - by rewrite diffPure_nil; simpl; rewrite initKeyMap_lookup.
  - rewrite diffPure_snoc, recordResolved_lookup, IH, hitsOf_snoc.
    repeat case_decide; simpl; rewrite ?Nat.add_0_r; try done.
    by rewrite wrap64_add_l, Nat2Z.inj_add.
Qed.

(** ** Collecting the stale resources *)

Lemma collectDeregister_filter m (realResources : list BackendResource) :
  collectDeregister m realResources
  = filter (λ r, default 0%Z (m !! generateIAMResourceKey r) = 0%Z) realResources.
Proof.
  unfold collectDeregister.
  induction realResources as [|r rs IH] using rev_ind; [done|].
  rewrite foldl_snoc, IH, filter_app, filter_cons, filter_nil.
  unfold collectStep. case_decide; by rewrite ?app_nil_r.
Qed.

(** ** The loop refines the reference diff *)

Lemma diffPure_toRegister realResources resolved :
  needRegister (diffPure (initDiffState realResources) resolved)
  = toRegister realResources resolved.
Proof.
  rewrite diffPure_needRegister. simpl. unfold toRegister. f_equal.
  apply list_filter_iff. intros p.
  by rewrite initKeyMap_dom, elem_of_list_to_set.
Qed.

Lemma diffPure_toDeregister realResources resolved :
  (Z.of_nat (length resolved) < 2 ^ 63)%Z →
  collectDeregister
    (iamResourceKeyMap (diffPure (initDiffState realResources) resolved))
    realResources
  = toDeregister realResources resolved.
Proof.
  intros Hlen. rewrite collectDeregister_filter. unfold toDeregister.
  apply filter_ext_in. intros r Hr. rewrite diffPure_lookup.
  rewrite decide_True by (unfold iamKeys; set_solver). simpl.
  rewrite wrap64_nat_eq_0, hitsOf_0; [done|].
  pose proof (hitsOf_le (generateIAMResourceKey r) resolved). lia.
Qed.

(** C2 (refinement).  The state the diff loop reaches on the resolved
    modules holds the reference diff: [needRegister] is [toRegister], the
    resources collected for deregistration are [toDeregister], and the scope
    is that of the last resolved module.  The bound on the number of modules
    keeps the 64-bit hit counts from wrapping to [0]. *)
Theorem diff_refines_reference realResources resolved :
  (Z.of_nat (length resolved) < 2 ^ 63)%Z →
  let st := diffPure (initDiffState realResources) resolved in
  needRegister st = toRegister realResources resolved ∧
  collectDeregister (iamResourceKeyMap st) realResources
  = toDeregister realResources resolved ∧
  scope st = lastScope (scope (initDiffState realResources)) resolved.
Proof.
  intros Hlen. split_and!.
  - apply diffPure_toRegister.
  - by apply diffPure_toDeregister.
  - apply diffPure_scope.
Qed.

Section fusion.
Context {W : Type} `{!Collaborators W}.

(** C6 (equivalence).  The diff loop of the source, which resolves and
    diffs module by module, is the sequence of all dry runs followed by the
    pure diff of what they resolved: same result, same exits, same trace. *)
Theorem diffModules_fusion biz realResources moduleArr (s : St W) :
  diffModules biz realResources moduleArr s
  = (resolveModules biz moduleArr ≫= λ resolved,
       let st := diffPure (initDiffState realResources) resolved in
       blog (LogKeyMap (iamResourceKeyMap st));;
       blog (LogNeedRegister (needRegister st));;
       mret st) s.
Proof.
  unfold diffModules, resolveModules. rewrite !bind_run.
  rewrite (diffLoop_fusion biz (initDiffState realResources) [] moduleArr s).
  rewrite bind_run. by destruct (forRange _ _ _ _) as [[]].
Qed.

End fusion.

(** ** Completeness, exactly once, no double counting *)

Lemma not_elem_of_iamKeys k (realResources : list BackendResource) :
  k ∉ iamKeys realResources
  ↔ ∀ b, b ∈ realResources → k ≠ generateIAMResourceKey b.
Proof. unfold iamKeys. rewrite list_elem_of_fmap. naive_solver. Qed.

Lemma not_elem_of_cmdbKeys k (resolved : list Resolved) :
  k ∉ cmdbKeys resolved
  ↔ ∀ p, p ∈ resolved → generateCMDBResourceKey p.2 ≠ k.
Proof. unfold cmdbKeys. rewrite list_elem_of_fmap. naive_solver. Qed.

Lemma elem_of_toRegister realResources resolved r :
  r ∈ toRegister realResources resolved
  ↔ ∃ e, (r, e) ∈ resolved ∧
      ∀ b, b ∈ realResources → generateCMDBResourceKey e ≠ generateIAMResourceKey b.
Proof.
  unfold toRegister. rewrite list_elem_of_fmap. split.
  - intros ([r' e] & -> & [Hk Hin]%list_elem_of_filter).
    exists e. by rewrite <-not_elem_of_iamKeys.
  - intros (e & Hin & Hk). exists (r, e). split; [done|].
    apply list_elem_of_filter. by rewrite not_elem_of_iamKeys.
Qed.

Lemma elem_of_toDeregister realResources resolved b :
  b ∈ toDeregister realResources resolved
  ↔ b ∈ realResources ∧
    ∀ p, p ∈ resolved → generateCMDBResourceKey p.2 ≠ generateIAMResourceKey b.
Proof.
  unfold toDeregister. rewrite list_elem_of_filter, not_elem_of_cmdbKeys.
  naive_solver.
Qed.

Lemma NoDup_toRegister realResources resolved :
  NoDup resolved.*1 → NoDup (toRegister realResources resolved).
Proof.
  unfold toRegister. intros Hnd. eapply sublist_NoDup; [exact Hnd|].
  apply fmap_sublist, sublist_filter.
Qed.

(** C27 (functional).  Completeness of registration: a resource is in
    [needRegister] after the loop exactly when it is the resource of a
    resolved module whose key no listed resource has; when no module occurs
    twice, no resource is registered twice. *)
Theorem register_completeness realResources resolved :
  let st := diffPure (initDiffState realResources) resolved in
  (∀ r, r ∈ needRegister st
        ↔ ∃ e, (r, e) ∈ resolved ∧
            ∀ b, b ∈ realResources →
                 generateCMDBResourceKey e ≠ generateIAMResourceKey b) ∧
  (NoDup resolved.*1 → NoDup (needRegister st)).
Proof.
  cbn zeta. rewrite diffPure_toRegister. split.
  - apply elem_of_toRegister.
  - apply NoDup_toRegister.
Qed.

(** C28 (functional).  Completeness of deregistration: with fewer than 2^63
    modules, a listed resource is collected for deregistration exactly when
    no resolved module has its key; a resource listed once is collected at
    most once. *)
Theorem deregister_completeness realResources resolved :
  (Z.of_nat (length resolved) < 2 ^ 63)%Z →
  let needDeregister :=
    collectDeregister (hitMap realResources resolved) realResources in
  (∀ b, b ∈ needDeregister
        ↔ b ∈ realResources ∧
          ∀ p, p ∈ resolved →
               generateCMDBResourceKey p.2 ≠ generateIAMResourceKey b) ∧
  (NoDup realResources → NoDup needDeregister).
Proof.
  intros Hlen. cbn zeta. unfold hitMap. rewrite diffPure_toDeregister by done.
  split.
  - apply elem_of_toDeregister.
  - apply NoDup_filter.
Qed.

(** C29 (invariant).  No double counting: with fewer than 2^63 modules, a
    resolved module and a listed resource with the same key are left alone,
    the resource is not deregistered and the module is not registered.  The
    module's resource is meant: every resolution of it in this run has that
    key. *)
Theorem no_double_counting realResources resolved r e b :
  (Z.of_nat (length resolved) < 2 ^ 63)%Z →
  (r, e) ∈ resolved → b ∈ realResources →
  generateCMDBResourceKey e = generateIAMResourceKey b →
  (∀ e', (r, e') ∈ resolved →
         generateCMDBResourceKey e' = generateCMDBResourceKey e) →
  let st := diffPure (initDiffState realResources) resolved in
  (r ∉ needRegister st) ∧
  (b ∉ collectDeregister (iamResourceKeyMap st) realResources).
Proof.
  intros Hlen Hp Hb Hkey Hdet. cbn zeta.
  rewrite diffPure_toRegister, diffPure_toDeregister by done.
  rewrite elem_of_toRegister, elem_of_toDeregister. split.
  - intros (e' & Hin & Hk). apply (Hk b Hb). by rewrite <-Hkey, <-(Hdet e' Hin).
  - intros [_ Hk]. by apply (Hk (r, e)).
Qed.

(** ** Hit counts *)

(** C37 (bounds).  With fewer than 2^63 modules the 64-bit hit count of a
    listed key does not wrap: it is the number of resolved modules with that
    key. *)
Theorem hit_count_exact realResources resolved k :
  (Z.of_nat (length resolved) < 2 ^ 63)%Z →
  k ∈ iamKeys realResources →
  hitMap realResources resolved !! k = Some (Z.of_nat (hitsOf k resolved)).
Proof.
  intros Hlen Hk. unfold hitMap. rewrite diffPure_lookup, decide_True by done.
  f_equal. apply wrap64_id. pose proof (hitsOf_le k resolved).
  unfold in_int64, int64_min, int64_max. lia.
Qed.

(** The diff loop never adds or removes a key of the
    hit-count map, and every count it stores is a 64-bit integer: the map
    after the loop has exactly the keys of the listed resources. *)
Theorem hit_map_invariant realResources resolved :
  dom (hitMap realResources resolved) = list_to_set (iamKeys realResources) ∧
  map_Forall (λ _ hits, in_int64 hits) (hitMap realResources resolved).
Proof.
  unfold hitMap. split.
  - by rewrite diffPure_dom; simpl; rewrite initKeyMap_dom.
  - intros k hits. rewrite diffPure_lookup. case_decide; [|done].
    intros [= <-]. apply wrap64_in_range.
Qed.

(** ** Keys and segments *)

(** C38 (functional).  On well-formed identifiers a resolved module counts as
    known to IAM exactly when a listed resource has the same type and
    identifier in every layer: matching by key is matching by segments. *)
Theorem hit_iff_same_segments realResources r e :
  wf_segments (cmdbSegments e) = true →
  Forall (λ b, wf_segments (iamSegments b) = true) realResources →
  needRegister (recordResolved (initDiffState realResources) r e) = []
  ↔ ∃ b, b ∈ realResources ∧ iamSegments b = cmdbSegments e.
Proof.
  intros He Hreal. rewrite recordResolved_needRegister. simpl.
  rewrite initKeyMap_dom, Forall_forall in *.
  case_decide as Hk; rewrite elem_of_list_to_set in Hk; unfold iamKeys in Hk;
    rewrite list_elem_of_fmap in Hk.
  - split; [intros _|done]. destruct Hk as (b & Hkey & Hb).
    exists b. split; [done|]. symmetry. apply key_match_iff; auto.
  - split; [done|]. intros (b & Hb & Hseg). destruct Hk. exists b.
    split; [|done]. apply key_match_iff; auto.
Qed.

(** C31 (functional).  The key invariant at work: a module whose dry run
    resolves to an entity that IAM lists is found in the map, whatever name
    IAM stores for it; it is not registered and its key is hit once. *)
Theorem listed_entity_is_hit realResources r e b :
  b ∈ realResources → iamSegments b = cmdbSegments e →
  let st := recordResolved (initDiffState realResources) r e in
  needRegister st = [] ∧
  iamResourceKeyMap st !! generateIAMResourceKey b = Some 1%Z.
Proof.
  intros Hb Hseg. cbn zeta.
  assert (generateCMDBResourceKey e = generateIAMResourceKey b) as Hkey
    by (by rewrite generateCMDBResourceKey_segments,
          generateIAMResourceKey_segments, Hseg).
  assert (generateIAMResourceKey b ∈ iamKeys realResources) as Hin
    by (by apply list_elem_of_fmap_2).
  rewrite recordResolved_needRegister, recordResolved_lookup, Hkey. simpl.
  rewrite initKeyMap_dom, initKeyMap_lookup, !decide_True; [done..|].
  by apply elem_of_list_to_set.
Qed.

(** ** Names do not matter *)

Lemma hitsOf_cmdbKeys k resolved :
  hitsOf k resolved = length (filter (λ k', k' = k) (cmdbKeys resolved)).
Proof.
  unfold hitsOf, cmdbKeys. induction resolved as [|p resolved IH]; [done|].
  rewrite fmap_cons, !filter_cons. simpl. case_decide; simpl; by rewrite IH.
Qed.

(** The hit-count map depends on the keys alone: two
    listings with the same keys and two lists of resolved modules with the
    same keys give the same map.  A module that was renamed but kept its
    identifier is therefore left as it is in IAM. *)
Theorem hit_map_depends_on_keys realResources realResources' resolved resolved' :
  iamKeys realResources = iamKeys realResources' →
  cmdbKeys resolved = cmdbKeys resolved' →
  hitMap realResources resolved = hitMap realResources' resolved'.
Proof.
  intros Hiam Hcmdb. apply map_eq. intros k. unfold hitMap.
  by rewrite !diffPure_lookup, !hitsOf_cmdbKeys, Hiam, Hcmdb.
Qed.

(** ** The sample world *)

Lemma diff_refines_reference_witness :
  let st := diffPure (initDiffState exReal) exResolved in
  needRegister st = toRegister exReal exResolved ∧
  collectDeregister (iamResourceKeyMap st) exReal = toDeregister exReal exResolved ∧
  scope st = lastScope (scope (initDiffState exReal)) exResolved.
Proof. apply (diff_refines_reference exReal exResolved). simpl. lia. Defined.

(** Module 2 is missing in IAM and module 3 is stale. *)
Example sample_reference_diff :
  toRegister exReal exResolved = [exResource exModule2] ∧
  toDeregister exReal exResolved = [exBackend exModule3].
Proof. split; vm_compute; reflexivity. Qed.

Lemma deregister_completeness_witness :
  let needDeregister := collectDeregister (hitMap exReal exResolved) exReal in
  (∀ b, b ∈ needDeregister
        ↔ b ∈ exReal ∧
          ∀ p, p ∈ exResolved →
               generateCMDBResourceKey p.2 ≠ generateIAMResourceKey b) ∧
  (NoDup exReal → NoDup needDeregister).
Proof. apply (deregister_completeness exReal exResolved). simpl. lia. Defined.

Lemma no_double_counting_witness :
  let st := diffPure (initDiffState exReal) exResolved in
  (exResource exModule1 ∉ needRegister st) ∧
  (exBackend exModule1 ∉ collectDeregister (iamResourceKeyMap st) exReal).
Proof.
  apply (no_double_counting exReal exResolved
           (exResource exModule1) (exEntity exModule1) (exBackend exModule1)).
  - simpl. lia.
  - by left.
  - by left.
  - reflexivity.
  - intros e' He'. repeat (apply elem_of_cons in He' as [He'|He']; [by simplify_eq|]).
    by apply elem_of_nil in He'.
Defined.

Lemma hit_count_exact_witness :
  hitMap exReal exResolved !! generateIAMResourceKey (exBackend exModule1)
  = Some (Z.of_nat (hitsOf (generateIAMResourceKey (exBackend exModule1)) exResolved)).
Proof.
  apply (hit_count_exact exReal exResolved); [simpl; lia|by left].
Defined.

Lemma hit_iff_same_segments_witness :
  needRegister (recordResolved (initDiffState exReal) (exResource exModule1)
                               (exEntity exModule1)) = []
  ↔ ∃ b, b ∈ exReal ∧ iamSegments b = cmdbSegments (exEntity exModule1).
Proof.
  apply (hit_iff_same_segments exReal); [reflexivity|by repeat constructor].
Defined.

(** The counts of the sample world: module 1 is hit once, module 3 never. *)
Example sample_hit_counts :
  hitMap exReal exResolved !! generateIAMResourceKey (exBackend exModule1) = Some 1%Z ∧
  hitMap exReal exResolved !! generateIAMResourceKey (exBackend exModule3) = Some 0%Z.
Proof. split; vm_compute; reflexivity. Qed.

Lemma listed_entity_is_hit_witness :
  let st := recordResolved (initDiffState exReal) (exResource exModule1)
              (exEntity exModule1) in
  needRegister st = [] ∧
  iamResourceKeyMap st !! generateIAMResourceKey (exBackend exModule1) = Some 1%Z.
Proof.
  apply (listed_entity_is_hit exReal (exResource exModule1) (exEntity exModule1)
           (exBackend exModule1)); [by left|reflexivity].
Defined.

(** Module "app" renamed in the CMDB: the map is the same. *)
Lemma hit_map_depends_on_keys_witness :
  let renamed := mkModuleSimplify 1 "renamed" in
  hitMap exReal [(exResource renamed, exEntity renamed)]
  = hitMap exReal [(exResource exModule1, exEntity exModule1)].
Proof.
  apply (hit_map_depends_on_keys exReal exReal
           [(exResource (mkModuleSimplify 1 "renamed"),
             exEntity (mkModuleSimplify 1 "renamed"))]
           [(exResource exModule1, exEntity exModule1)]); reflexivity.
Defined.
