(* ===== verification/HandlerSpec.v ===== *)
(** * HandlerSpec: behaviour of a run of [HandleModuleSync]

    The run equation of the whole function ([HandleModuleSync_split],
    [fetchAndList_run], [reconcile_run]) and, derived from it, what a run
    does on each path:
    the failures that abort it, the business without instances, the panic on
    a resource without layers, the successful run with the calls it issues,
    and the safety property that a run which does not return [nil] has not
    asked IAM to change anything. *)

From S2P Require Import Prelude GoString Meta Codec Effects Handler.
From S2P Require Import Backend Steps DiffEngine.

Section spec.
Context {W : Type} `{!Collaborators W}.
Implicit Types (s : St W) (biz : BusinessSimplify).

(** ** The dry-run phase *)

(** The events of the dry-run phase: dry runs and their two log lines. *)
Definition dryRunEvent (e : Event) : Prop :=
  match e with
  | EvCall (CallDryRunRegisterResource _) => True
  | EvLog (LogDryRunFailed _) | EvLog (LogDryRunAnomaly _ _) => True
  | _ => False
  end.

Lemma adds_resolveStep biz acc module :
  adds dryRunEvent (resolveStep biz acc module : M W _).
Proof. unfold resolveStep. solve_adds. Qed.

Lemma adds_resolveModules biz moduleArr :
  adds dryRunEvent (resolveModules biz moduleArr : M W _).
Proof. apply adds_forRange. intros. apply adds_resolveStep. Qed.

(** The dry-run phase does not panic, and when it leaves the function it
    does so with the error of a dry run. *)
Lemma resolveLoop_exit biz acc moduleArr s :
  match (forRange (resolveStep biz) acc moduleArr s).1 with
  | Val _ => True
  | Return e => is_Some e
  | Panic _ => False
  end.
Proof.
  revert acc s. induction moduleArr as [|module moduleArr IH]; intros acc s; [done|].
  rewrite resolveLoop_cons. cbn zeta.
  destruct (answer _ _) as [err|target]; [by eexists|apply IH].
Qed.

(** When every dry run answers, the calls of the phase are the dry runs of
    all modules, in order. *)
Lemma resolveLoop_calls biz acc moduleArr s resolved s' :
  forRange (resolveStep biz) acc moduleArr s = (Val resolved, s') →
  ∃ evs, trace s' = trace s ++ evs ∧
    calls evs = CallDryRunRegisterResource <$> (moduleResource biz <$> moduleArr).
Proof.
  revert acc s. induction moduleArr as [|module moduleArr IH]; intros acc s.
  - intros [= <- <-]. exists []. by rewrite app_nil_r.
  - rewrite resolveLoop_cons. cbn zeta.
    destruct (answer _ _) as [err|target]; [done|]. intros (evs & -> & Hc)%IH.
    eexists. split; [by rewrite trace_emits, trace_afterCall, <-!app_assoc|].
    by rewrite !calls_app, calls_anomalyOf, Hc.
Qed.

(** The resolved pairs are pairs of a module's resource, in the order of the
    modules. *)
Lemma resolveLoop_sublist biz acc moduleArr s resolved s' :
  forRange (resolveStep biz) acc moduleArr s = (Val resolved, s') →
  ∃ new, resolved = acc ++ new ∧ new.*1 `sublist_of` (moduleResource biz <$> moduleArr).
Proof.
  revert acc s. induction moduleArr as [|module moduleArr IH]; intros acc s.
  - intros [= <- <-]. exists []. by rewrite app_nil_r.
  - rewrite resolveLoop_cons. cbn zeta.
    destruct (answer _ _) as [err|target]; [done|]. intros (new & -> & Hsub)%IH.
    eexists. split; [by rewrite <-app_assoc|]. rewrite fmap_app, fmap_cons.
    by apply (sublist_app _ [_]); [apply resolvedBy_sublist|].
Qed.

(** ** Registration and deregistration *)

(** Lines 96-164: the function from the diff on. *)
Definition reconcile biz (realResources : list BackendResource)
    (moduleArr : list ModuleSimplify) : M W (option GoError) :=
  st ← diffModules biz realResources moduleArr;
  registerMissing (needRegister st);;
  deregisterStale (scope st)
    (collectDeregister (iamResourceKeyMap st) realResources);;
  mret None.

(** The state after the two mutation steps. *)
Definition applyMutations (toReg : list ResourceAttribute) (sc : ScopeInfo)
    (toDereg : list BackendResource) s : St W :=
  (deregisterStale sc toDereg (registerMissing toReg s).2).2.

(** The calls the two mutation steps issue: one per non-empty batch. *)
Definition mutationCalls (toReg : list ResourceAttribute) (sc : ScopeInfo)
    (toDereg : list BackendResource) : list Call :=
  (if decide (toReg = []) then [] else [CallRegisterResource toReg]) ++
  (if decide (toDereg = []) then [] else [CallRawDeregisterResource sc toDereg]).

Lemma registerMissing_val toReg s : (registerMissing toReg s).1 = Val tt.
Proof.
  rewrite registerMissing_run. case_decide; [done|]. simpl.
  by destruct (answer _ _).
Qed.

Lemma deregisterStale_val sc toDereg s : (deregisterStale sc toDereg s).1 = Val tt.
Proof.
  rewrite deregisterStale_run. simpl. case_decide; [done|].
  by destruct (answer _ _).
Qed.

Lemma registerMissing_calls toReg s :
  ∃ evs, trace (registerMissing toReg s).2 = trace s ++ evs ∧
    calls evs = if decide (toReg = []) then [] else [CallRegisterResource toReg].
Proof.
  rewrite registerMissing_run. case_decide.
  - exists []. by rewrite app_nil_r.
  - simpl. destruct (answer _ _) as [err|];
      [exists [EvLog (LogRegister toReg); EvCall (CallRegisterResource toReg);
               EvLog (LogRegisterFailed toReg err)]
      |exists [EvLog (LogRegister toReg); EvCall (CallRegisterResource toReg)]];
      simpl; by rewrite <-!app_assoc.
Qed.

Lemma deregisterStale_calls sc toDereg s :
  ∃ evs, trace (deregisterStale sc toDereg s).2 = trace s ++ evs ∧
    calls evs
    = if decide (toDereg = []) then [] else [CallRawDeregisterResource sc toDereg].
Proof.
  rewrite deregisterStale_run. simpl. case_decide.
  - by exists [EvLog (LogNeedDeregister toDereg)].
  - destruct (answer _ _) as [err|];
      [exists [EvLog (LogNeedDeregister toDereg); EvLog (LogDeregister toDereg);
               EvCall (CallRawDeregisterResource sc toDereg);
               EvLog (LogDeregisterFailed toDereg err)]
      |exists [EvLog (LogNeedDeregister toDereg); EvLog (LogDeregister toDereg);
               EvCall (CallRawDeregisterResource sc toDereg)]];
      simpl; by rewrite <-!app_assoc.
Qed.

Lemma applyMutations_calls toReg sc toDereg s :
  ∃ evs, trace (applyMutations toReg sc toDereg s) = trace s ++ evs ∧
    calls evs = mutationCalls toReg sc toDereg.
Proof.
  unfold applyMutations, mutationCalls.
  destruct (registerMissing_calls toReg s) as (evs1 & Htr1 & Hc1).
  destruct (deregisterStale_calls sc toDereg (registerMissing toReg s).2)
    as (evs2 & Htr2 & Hc2).
  exists (evs1 ++ evs2). by rewrite Htr2, Htr1, app_assoc, calls_app, Hc1, Hc2.
Qed.

(** The run of the function from the diff on: the dry runs, then the
    mutations for the pure diff of what they resolved. *)
Lemma reconcile_run biz realResources moduleArr s :
  reconcile biz realResources moduleArr s =
  match resolveModules biz moduleArr s with
  | (Val resolved, s1) =>
      let st := diffPure (initDiffState realResources) resolved in
      (Val None,
       applyMutations (needRegister st) (scope st)
         (collectDeregister (iamResourceKeyMap st) realResources)
         (emits [EvLog (LogKeyMap (iamResourceKeyMap st));
                 EvLog (LogNeedRegister (needRegister st))] s1))
  | (Return e, s1) => (Return e, s1)
  | (Panic p, s1) => (Panic p, s1)
  end.
Proof.
  unfold reconcile, diffModules, resolveModules. rewrite !bind_run.
  rewrite (diffLoop_fusion biz (initDiffState realResources) [] moduleArr s).
  rewrite bind_run.
  destruct (forRange (resolveStep biz) [] moduleArr s) as [[resolved| |] s1];
    [|done..].
  mstep. rewrite !emit_as_emits, emits_emits. simpl.
  rewrite (run_val_eta _ _ _ (registerMissing_val _ _)). mstep.
  by rewrite (run_val_eta _ _ _ (deregisterStale_val _ _ _)).
Qed.

(** The same when every dry run answers, in terms of the reference diff. *)
Lemma reconcile_val biz realResources moduleArr s resolved s1 :
  resolveModules biz moduleArr s = (Val resolved, s1) →
  (Z.of_nat (length moduleArr) < 2 ^ 63)%Z →
  reconcile biz realResources moduleArr s
  = (Val None,
     applyMutations (toRegister realResources resolved)
       (lastScope zeroScope resolved) (toDeregister realResources resolved)
       (emits [EvLog (LogKeyMap (hitMap realResources resolved));
               EvLog (LogNeedRegister (toRegister realResources resolved))] s1)).
Proof.
  intros Hres Hlen. rewrite reconcile_run, Hres. cbn zeta. unfold hitMap.
  rewrite diffPure_toRegister, diffPure_scope, diffPure_toDeregister; [done|].
  apply resolveLoop_sublist in Hres as (new & -> & Hsub%sublist_length).
  rewrite !length_fmap in Hsub. simpl. lia.
Qed.

(** ** The function up to the diff *)

(** Lines 33-93: the business, its modules and the module resources of
    IAM. *)
Definition fetchAndList (task : WorkRequest)
    : M W (BusinessSimplify * list ModuleSimplify * list BackendResource) :=
  biz ← assertBusinessSimplify task;
  instances ← readInstances biz;
  skipIfNoInstances biz instances;;
  moduleArr ← extractModules biz instances;
  resultResources ← listResources biz;
  realResources ← filterRealResources resultResources;
  mret (biz, moduleArr, realResources).

(** The states of a run before the diff. *)
Definition afterRead biz s : St W := afterCall (readCall biz) (readOp biz) s.

Definition afterExtract biz (instances : list MapStr) s : St W :=
  emits (parseFailures instances ++
         [EvLog (LogListModules (BKAppIDField biz) (parsedModules instances))])
        (afterRead biz s).

Definition afterList biz instances s : St W :=
  afterCall (listCall biz) (listOp biz) (afterExtract biz instances s).

Definition afterFilter biz instances (resultResources : list BackendResource) s
    : St W :=
  emit (EvLog (LogRealResources (filter isModuleResource resultResources)))
       (afterList biz instances s).

Lemma HandleModuleSyncBody_split task s :
  HandleModuleSyncBody task s
  = (fetchAndList task ≫= λ '(biz, moduleArr, realResources),
       reconcile biz realResources moduleArr) s.
Proof.
  unfold HandleModuleSyncBody, fetchAndList, reconcile. run_both.
Qed.

Lemma fetchAndList_run task s :
  fetchAndList task s =
  match Data task with
  | DataOther => (Panic PanicTypeAssertion, s)
  | DataBusiness biz =>
    match answer (readOp biz) s with
    | inl err =>
        (Return (Some (GetModuleError (BKAppIDField biz) err)),
         emit (EvLog (LogGetModuleFailed (BKAppIDField biz) err)) (afterRead biz s))
    | inr instances =>
      if decide (instances = []) then
        (Return None,
         emit (EvLog (LogNoInstances (BKAppIDField biz))) (afterRead biz s))
      else
        match answer (listOp biz) (afterExtract biz instances s) with
        | inl err =>
            (Return (Some err),
             emit (EvLog (LogListResourcesFailed err)) (afterList biz instances s))
        | inr resultResources =>
            if decide (Forall (λ r, r ≠ []) resultResources) then
              (Val (biz, parsedModules instances,
                    filter isModuleResource resultResources),
               afterFilter biz instances resultResources s)
            else
              (Panic (PanicIndexOutOfRange (-1) 0), afterList biz instances s)
        end
    end
  end.
Proof.
  unfold fetchAndList. rewrite bind_run, assertBusinessSimplify_run.
  destruct (Data task) as [biz|]; [|done].
  rewrite bind_run, readInstances_run. cbn zeta.
  destruct (answer (readOp biz) s) as [err|instances]; [done|].
  rewrite bind_run, skipIfNoInstances_run. case_decide; [done|].
  rewrite bind_run, extractModules_run, bind_run, listResources_run. cbn zeta.
  fold (afterRead biz s). fold (afterExtract biz instances s).
  destruct (answer (listOp biz) _) as [err|resultResources]; [done|].
  rewrite bind_run, filterRealResources_run. by case_decide.
Qed.

(** ** The whole function, path by path *)

(** The read answered with at least one instance. *)
Definition Fetched (task : WorkRequest) s biz (instances : list MapStr) : Prop :=
  Data task = DataBusiness biz ∧
  answer (readOp biz) s = inr instances ∧
  instances ≠ [].

(** The read and the listing both answered. *)
Definition Listed (task : WorkRequest) s biz (instances : list MapStr)
    (resultResources : list BackendResource) : Prop :=
  Fetched task s biz instances ∧
  answer (listOp biz) (afterExtract biz instances s) = inr resultResources.

Lemma HandleModuleSync_split task s :
  HandleModuleSync task s
  = runBody (fetchAndList task ≫= λ '(biz, moduleArr, realResources),
               reconcile biz realResources moduleArr) s.
Proof. unfold HandleModuleSync, runBody. by rewrite HandleModuleSyncBody_split. Qed.

Lemma fetchAndList_Fetched task s biz instances :
  Fetched task s biz instances →
  fetchAndList task s =
  match answer (listOp biz) (afterExtract biz instances s) with
  | inl err =>
      (Return (Some err),
       emit (EvLog (LogListResourcesFailed err)) (afterList biz instances s))
  | inr resultResources =>
      if decide (Forall (λ r, r ≠ []) resultResources) then
        (Val (biz, parsedModules instances,
              filter isModuleResource resultResources),
         afterFilter biz instances resultResources s)
      else (Panic (PanicIndexOutOfRange (-1) 0), afterList biz instances s)
  end.
Proof.
  intros (Hd & Hr & Hne). rewrite fetchAndList_run, Hd, Hr.
  by rewrite decide_False.
Qed.

(** The function from the diff on, for a run that got that far. *)
Lemma HandleModuleSync_Listed task s biz instances resultResources :
  Listed task s biz instances resultResources →
  Forall (λ r, r ≠ []) resultResources →
  HandleModuleSync task s
  = runBody (reconcile biz (filter isModuleResource resultResources)
               (parsedModules instances))
            (afterFilter biz instances resultResources s).
Proof.
  intros [Hf Hl] Hne. rewrite HandleModuleSync_split. unfold runBody.
  rewrite bind_run, (fetchAndList_Fetched _ _ _ _ Hf), Hl.
  by rewrite decide_True.
Qed.

(** A task whose data is not a [BusinessSimplify] makes the
    function panic at its first statement: nothing is read, logged or
    changed. *)
Theorem sync_type_assertion_panics task s :
  Data task = DataOther →
  HandleModuleSync task s = (Panicked PanicTypeAssertion, s).
Proof.
  intros Hd. rewrite HandleModuleSync_split. unfold runBody.
  by rewrite bind_run, fetchAndList_run, Hd.
Qed.

(** When the read of the module instances fails, the function
    logs the failure and returns the error wrapped with the business id;
    the read is the only call of the run. *)
Theorem sync_read_failure task s biz err :
  Data task = DataBusiness biz →
  answer (readOp biz) s = inl err →
  HandleModuleSync task s
  = (Returned (Some (GetModuleError (BKAppIDField biz) err)),
     emit (EvLog (LogGetModuleFailed (BKAppIDField biz) err)) (afterRead biz s)).
Proof.
  intros Hd Hr. rewrite HandleModuleSync_split. unfold runBody.
  by rewrite bind_run, fetchAndList_run, Hd, Hr.
Qed.

(** C35 (functional).  A business for which the CMDB returns no instance is
    skipped: the function returns [nil] after the read and one log line, and
    calls neither the listing nor any mutation, whatever IAM holds. *)
Theorem sync_no_instances task s biz :
  Data task = DataBusiness biz →
  answer (readOp biz) s = inr [] →
  HandleModuleSync task s
  = (Returned None,
     emit (EvLog (LogNoInstances (BKAppIDField biz))) (afterRead biz s)).
Proof.
  intros Hd Hr. rewrite HandleModuleSync_split. unfold runBody.
  by rewrite bind_run, fetchAndList_run, Hd, Hr.
Qed.

(** When the listing of IAM's resources fails, the function
    logs the failure and returns the error as it is; no dry run and no
    mutation is issued. *)
Theorem sync_list_failure task s biz instances err :
  Fetched task s biz instances →
  answer (listOp biz) (afterExtract biz instances s) = inl err →
  HandleModuleSync task s
  = (Returned (Some err),
     emit (EvLog (LogListResourcesFailed err)) (afterList biz instances s)).
Proof.
  intros Hf Hl. rewrite HandleModuleSync_split. unfold runBody.
  by rewrite bind_run, (fetchAndList_Fetched _ _ _ _ Hf), Hl.
Qed.

(** C36 (error).  A listed resource without layers makes the function panic
    with an index out of range at line 89, right after the listing: the
    filter does not skip such a resource. *)
Theorem sync_panics_on_empty_resource task s biz instances resultResources :
  Listed task s biz instances resultResources →
  [] ∈ resultResources →
  HandleModuleSync task s
  = (Panicked (PanicIndexOutOfRange (-1) 0), afterList biz instances s).
Proof.
  intros [Hf Hl] Hin. rewrite HandleModuleSync_split. unfold runBody.
  rewrite bind_run, (fetchAndList_Fetched _ _ _ _ Hf), Hl.
  rewrite decide_False; [done|]. rewrite Forall_forall. naive_solver.
Qed.

(** The dry runs of the modules [pre] answer and the next one fails. *)
Lemma resolveModules_failure biz pre module post s resolved s1 err :
  resolveModules biz pre s = (Val resolved, s1) →
  dryRunAnswer (moduleResource biz module) s1 = inl err →
  resolveModules biz (pre ++ module :: post) s
  = (Return (Some err),
     emit (EvLog (LogDryRunFailed err)) (afterDryRun (moduleResource biz module) s1)).
Proof.
  unfold resolveModules. intros Hpre Herr.
  rewrite forRange_app, bind_run, Hpre, resolveLoop_cons. cbn zeta.
  by rewrite Herr.
Qed.

Lemma resolveModules_length biz moduleArr s resolved s1 :
  resolveModules biz moduleArr s = (Val resolved, s1) →
  length resolved ≤ length moduleArr.
Proof.
  intros (new & -> & Hsub%sublist_length)%resolveLoop_sublist.
  by rewrite !length_fmap in Hsub.
Qed.

Lemma parsedModules_length (instances : list MapStr) :
  length (parsedModules instances) ≤ length instances.
Proof.
  induction instances as [|i instances IH]; simpl; [done|].
  destruct (Parse i); simpl; lia.
Qed.

(** When the dry run of a module fails, the function logs the
    failure and returns the dry run's error at once: the modules found
    missing so far are not registered and nothing is deregistered. *)
Theorem sync_dry_run_failure task s biz instances resultResources
    pre module post resolved s1 err :
  Listed task s biz instances resultResources →
  Forall (λ r, r ≠ []) resultResources →
  parsedModules instances = pre ++ module :: post →
  resolveModules biz pre (afterFilter biz instances resultResources s)
  = (Val resolved, s1) →
  dryRunAnswer (moduleResource biz module) s1 = inl err →
  HandleModuleSync task s
  = (Returned (Some err),
     emit (EvLog (LogDryRunFailed err)) (afterDryRun (moduleResource biz module) s1)).
Proof.
  intros Hl Hne Hmods Hpre Herr.
  rewrite (HandleModuleSync_Listed _ _ _ _ _ Hl Hne). unfold runBody.
  by rewrite reconcile_run, Hmods, (resolveModules_failure _ _ _ _ _ _ _ _ Hpre Herr).
Qed.

(** C1 (functional).  When the read, the listing and every dry run answer,
    the function returns [nil] after one registration call for the resolved
    modules IAM does not list and one deregistration call, under the scope
    of the last resolved module, for the listed module resources no resolved
    module accounts for; each call is left out when its batch is empty, and
    neither call's answer changes the result. *)
Theorem sync_success task s biz instances resultResources resolved s1 :
  Listed task s biz instances resultResources →
  Forall (λ r, r ≠ []) resultResources →
  (Z.of_nat (length instances) < 2 ^ 63)%Z →
  let realResources := filter isModuleResource resultResources in
  resolveModules biz (parsedModules instances)
                 (afterFilter biz instances resultResources s)
  = (Val resolved, s1) →
  HandleModuleSync task s
  = (Returned None,
     applyMutations (toRegister realResources resolved)
       (lastScope zeroScope resolved) (toDeregister realResources resolved)
       (emits [EvLog (LogKeyMap (hitMap realResources resolved));
               EvLog (LogNeedRegister (toRegister realResources resolved))] s1)).
Proof.
  intros Hl Hne Hlen real Hres. subst real.
  rewrite (HandleModuleSync_Listed _ _ _ _ _ Hl Hne). unfold runBody.
  rewrite (reconcile_val _ _ _ _ _ _ Hres); [done|].
  pose proof (parsedModules_length instances). lia.
Qed.

(** ** Calls of a run *)

Lemma calls_parseFailures (instances : list MapStr) :
  calls (parseFailures instances) = [].
Proof.
  induction instances as [|i instances IH]; [done|].
  unfold parseFailures in *. simpl. by destruct (Parse i).
Qed.

Lemma trace_afterFilter biz instances resultResources s :
  trace (afterFilter biz instances resultResources s)
  = trace s ++
    [EvCall (readCall biz)] ++ parseFailures instances ++
    [EvLog (LogListModules (BKAppIDField biz) (parsedModules instances));
     EvCall (listCall biz);
     EvLog (LogRealResources (filter isModuleResource resultResources))].
Proof.
  unfold afterFilter, afterList, afterExtract, afterRead. simpl.
  by rewrite <-!app_assoc.
Qed.

(** The calls of a successful run, in order: the read, the
    listing, one dry run per parsed module, then the registration and the
    deregistration of the non-empty batches. *)
Theorem sync_success_calls task s biz instances resultResources resolved s1 :
  Listed task s biz instances resultResources →
  Forall (λ r, r ≠ []) resultResources →
  (Z.of_nat (length instances) < 2 ^ 63)%Z →
  let realResources := filter isModuleResource resultResources in
  resolveModules biz (parsedModules instances)
                 (afterFilter biz instances resultResources s)
  = (Val resolved, s1) →
  ∃ evs, trace (HandleModuleSync task s).2 = trace s ++ evs ∧
    calls evs
    = [readCall biz; listCall biz] ++
      (CallDryRunRegisterResource <$> (moduleResource biz <$> parsedModules instances)) ++
      mutationCalls (toRegister realResources resolved)
        (lastScope zeroScope resolved) (toDeregister realResources resolved).
Proof.
  intros Hl Hne Hlen real Hres. subst real.
  rewrite (HandleModuleSync_Listed _ _ _ _ _ Hl Hne). unfold runBody.
  rewrite (reconcile_val _ _ _ _ _ _ Hres)
    by (pose proof (parsedModules_length instances); lia).
  simpl. edestruct applyMutations_calls as (evs3 & Htr3 & Hc3). rewrite Htr3.
  apply resolveLoop_calls in Hres as (evs2 & Htr2 & Hc2).
  rewrite trace_emits, Htr2, trace_afterFilter. eexists.
  split; [by rewrite <-!app_assoc|].
  by rewrite !calls_app, calls_parseFailures, Hc2, Hc3.
Qed.

(** ** Safety *)

(** An event that does not change what IAM stores. *)
Definition notMutation (e : Event) : Prop :=
  match e with
  | EvCall c => is_mutation c = false
  | EvLog _ => True
  end.

Lemma adds_fetchAndList task : adds notMutation (fetchAndList task).
Proof.
  unfold fetchAndList, assertBusinessSimplify, readInstances, skipIfNoInstances,
    extractModules, extractModule, listResources, filterRealResources,
    filterStep, lastLayer.
  solve_adds.
Qed.

Lemma dryRunEvent_notMutation e : dryRunEvent e → notMutation e.
Proof. by destruct e as [[]|[]]. Qed.

(** C3 (safety).  A run that does not return [nil], because a call failed or
    because the function panicked, has issued neither a registration nor a
    deregistration: every event it added to the trace is a log line, a read,
    a listing or a dry run. *)
Theorem no_mutation_unless_nil task s :
  (HandleModuleSync task s).1 ≠ Returned None →
  ∃ evs, trace (HandleModuleSync task s).2 = trace s ++ evs ∧
    Forall notMutation evs.
Proof.
  rewrite HandleModuleSync_split. unfold runBody. rewrite bind_run.
  destruct (adds_fetchAndList task s) as (evs & Htr & Hevs).
  destruct (fetchAndList task s) as [[[[biz mods] real]|e|p] s1]; simpl in *;
    [|by eauto..].
  rewrite reconcile_run.
  destruct (adds_resolveModules biz mods s1) as (evs' & Htr' & Hevs').
  destruct (resolveModules biz mods s1) as [[resolved|e|p] s2]; simpl in *;
    [done|..]; intros _; exists (evs ++ evs');
    (split; [by rewrite Htr', Htr, app_assoc|]);
    apply Forall_app; (split; [done|]);
    eapply Forall_impl; eauto using dryRunEvent_notMutation.
Qed.

End spec.

(** ** The theorems in the sample world *)

Lemma sync_type_assertion_panics_witness :
  HandleModuleSync exTaskOther (initSt exWorld)
  = (Panicked PanicTypeAssertion, initSt exWorld).
Proof. apply (sync_type_assertion_panics exTaskOther (initSt exWorld)). reflexivity. Defined.

Lemma sync_read_failure_witness :
  HandleModuleSync exTask (initSt exWorldReadFails)
  = (Returned (Some (GetModuleError 2 exReadError)),
     emit (EvLog (LogGetModuleFailed 2 exReadError))
          (afterRead exBusiness (initSt exWorldReadFails))).
Proof.
  apply (sync_read_failure exTask (initSt exWorldReadFails) exBusiness exReadError);
    reflexivity.
Defined.

Lemma sync_no_instances_witness :
  HandleModuleSync exTaskNoModules (initSt exWorld)
  = (Returned None,
     emit (EvLog (LogNoInstances 7))
          (afterRead {| BKAppIDField := 7 |} (initSt exWorld))).
Proof.
  apply (sync_no_instances exTaskNoModules (initSt exWorld) {| BKAppIDField := 7 |});
    reflexivity.
Defined.

Lemma exWorld_Fetched (w : RefWorld) :
  cmdbInstances w = cmdbInstances exWorld → readError (faults w) = None →
  Fetched exTask (initSt w) exBusiness exInstances.
Proof.
  intros Hc Hf. split_and!; [done| |done].
  unfold answer, readOp. simpl. unfold refReadInstance. by rewrite Hf, Hc.
Qed.

Lemma sync_list_failure_witness :
  HandleModuleSync exTask (initSt exWorldListFails)
  = (Returned (Some exListError),
     emit (EvLog (LogListResourcesFailed exListError))
          (afterList exBusiness exInstances (initSt exWorldListFails))).
Proof.
  apply (sync_list_failure exTask (initSt exWorldListFails) exBusiness exInstances
           exListError); [by apply exWorld_Fetched|reflexivity].
Defined.

Lemma sync_panics_on_empty_resource_witness :
  HandleModuleSync exTask (initSt exWorldEmptyResource)
  = (Panicked (PanicIndexOutOfRange (-1) 0),
     afterList exBusiness exInstances (initSt exWorldEmptyResource)).
Proof.
  apply (sync_panics_on_empty_resource exTask (initSt exWorldEmptyResource)
           exBusiness exInstances ([] :: exReal)).
  - split; [by apply exWorld_Fetched|reflexivity].
  - by left.
Defined.

Lemma exWorld_Listed (w : RefWorld) :
  cmdbInstances w = cmdbInstances exWorld → iamRegistry w = iamRegistry exWorld →
  readError (faults w) = None → listError (faults w) = None →
  Listed exTask (initSt w) exBusiness exInstances exReal.
Proof.
  intros Hc Hi Hf Hl. split; [by apply exWorld_Fetched|].
  unfold answer, listOp, afterExtract, afterRead, afterCall, readOp. simpl.
  unfold refReadInstance. rewrite Hf. simpl.
  unfold refListResources. by rewrite Hl, Hi.
Qed.

Lemma exReal_nonempty : Forall (λ r : BackendResource, r ≠ []) exReal.
Proof. by repeat constructor. Qed.

Lemma sync_dry_run_failure_witness :
  let s0 := afterFilter exBusiness exInstances exReal (initSt exWorldDryRunFails) in
  let s1 := (resolveModules exBusiness [exModule1] s0).2 in
  HandleModuleSync exTask (initSt exWorldDryRunFails)
  = (Returned (Some (ExternalError "dry run failed")),
     emit (EvLog (LogDryRunFailed (ExternalError "dry run failed")))
          (afterDryRun (moduleResource exBusiness exModule2) s1)).
Proof.
  apply (sync_dry_run_failure exTask (initSt exWorldDryRunFails) exBusiness
           exInstances exReal [exModule1] exModule2 []
           [(exResource exModule1, exEntity exModule1)]).
  - by apply exWorld_Listed.
  - apply exReal_nonempty.
  - reflexivity.
  - reflexivity.
  - reflexivity.
Defined.

Lemma sync_success_witness :
  let s0 := afterFilter exBusiness exInstances exReal (initSt exWorld) in
  let s1 := (resolveModules exBusiness (parsedModules exInstances) s0).2 in
  HandleModuleSync exTask (initSt exWorld)
  = (Returned None,
     applyMutations (toRegister (filter isModuleResource exReal) exResolved)
       (lastScope zeroScope exResolved)
       (toDeregister (filter isModuleResource exReal) exResolved)
       (emits [EvLog (LogKeyMap (hitMap (filter isModuleResource exReal) exResolved));
               EvLog (LogNeedRegister
                        (toRegister (filter isModuleResource exReal) exResolved))]
              s1)).
Proof.
  apply (sync_success exTask (initSt exWorld) exBusiness exInstances exReal
           exResolved).
  - by apply exWorld_Listed.
  - apply exReal_nonempty.
  - simpl. lia.
  - reflexivity.
Defined.

Lemma sync_success_calls_witness :
  ∃ evs, trace (HandleModuleSync exTask (initSt exWorldMutationsFail)).2
         = trace (initSt exWorldMutationsFail) ++ evs ∧
    calls evs
    = [readCall exBusiness; listCall exBusiness] ++
      (CallDryRunRegisterResource <$>
         (moduleResource exBusiness <$> parsedModules exInstances)) ++
      mutationCalls (toRegister (filter isModuleResource exReal) exResolved)
        (lastScope zeroScope exResolved)
        (toDeregister (filter isModuleResource exReal) exResolved).
Proof.
  apply (sync_success_calls exTask (initSt exWorldMutationsFail) exBusiness
           exInstances exReal exResolved
           (resolveModules exBusiness (parsedModules exInstances)
              (afterFilter exBusiness exInstances exReal
                 (initSt exWorldMutationsFail))).2).
  - by apply exWorld_Listed.
  - apply exReal_nonempty.
  - simpl. lia.
  - reflexivity.
Defined.

Lemma no_mutation_unless_nil_witness :
  ∃ evs, trace (HandleModuleSync exTask (initSt exWorldDryRunFails)).2
         = trace (initSt exWorldDryRunFails) ++ evs ∧
    Forall notMutation evs.
Proof.
  apply (no_mutation_unless_nil exTask (initSt exWorldDryRunFails)).
  vm_compute. discriminate.
Defined.

(** The calls of the run in the sample world: module 2 is registered and
    the stale module 3 deregistered under the scope of business 2, also when
    both mutations answer with an error. *)
Example sample_run_calls :
  calls (trace (HandleModuleSync exTask (initSt exWorldMutationsFail)).2)
  = [readCall exBusiness; listCall exBusiness;
     CallDryRunRegisterResource (exResource exModule1);
     CallDryRunRegisterResource (exResource exModule2);
     CallRegisterResource [exResource exModule2];
     CallRawDeregisterResource (scopeOfBusiness 2) [exBackend exModule3]]
  ∧ (HandleModuleSync exTask (initSt exWorldMutationsFail)).1 = Returned None.
Proof. split; vm_compute; reflexivity. Qed.
