(* ===== verification/Protocol.v ===== *)
(** * Protocol: the order in which a run calls its collaborators

    The handler talks to the CMDB and to IAM in a fixed order: one read, one
    listing, one dry run per module, then at most one registration and at
    most one deregistration.  The order is a state machine over [Phase]s,
    given as a step relation ([callStep], [steps]) and as an executable
    acceptor ([next], [phaseAfter]).  A small program logic, [moves],
    follows the phases through the binds of a computation; with it the body
    of [HandleModuleSync] is shown to follow the protocol on every path,
    failures and panics included.  Rule induction on [steps] gives the shape
    of every accepted call sequence. *)

From S2P Require Import Prelude GoString Meta Codec Effects Handler.
From S2P Require Import Backend.

(** ** The state machine *)

(** How far a run has got. *)
Inductive Phase :=
  | PhStart          (* nothing called yet *)
  | PhRead           (* the module instances have been read *)
  | PhListed         (* IAM's resources have been listed; dry runs go on *)
  | PhRegistered     (* the missing modules have been registered *)
  | PhDeregistered.  (* the stale resources have been deregistered *)

#[export] Instance Phase_eq_dec : EqDecision Phase.
Proof. solve_decision. Defined.

(** The calls the protocol allows in each phase. *)
Inductive callStep : Phase → Call → Phase → Prop :=
  | step_read h obj query :
      callStep PhStart (CallReadInstance h obj query) PhRead
  | step_list rs :
      callStep PhRead (CallListResources rs) PhListed
  | step_dry_run r :
      callStep PhListed (CallDryRunRegisterResource r) PhListed
  | step_register rs :
      callStep PhListed (CallRegisterResource rs) PhRegistered
  | step_deregister sc ds :
      callStep PhListed (CallRawDeregisterResource sc ds) PhDeregistered
  | step_deregister_after sc ds :
      callStep PhRegistered (CallRawDeregisterResource sc ds) PhDeregistered.

Inductive steps : Phase → list Call → Phase → Prop :=
  | steps_nil p : steps p [] p
  | steps_cons p c q cs r : callStep p c q → steps q cs r → steps p (c :: cs) r.

(** The same as functions. *)
Definition next (p : Phase) (c : Call) : option Phase :=
  match p, c with
  | PhStart, CallReadInstance _ _ _ => Some PhRead
  | PhRead, CallListResources _ => Some PhListed
  | PhListed, CallDryRunRegisterResource _ => Some PhListed
  | PhListed, CallRegisterResource _ => Some PhRegistered
  | PhListed, CallRawDeregisterResource _ _ => Some PhDeregistered
  | PhRegistered, CallRawDeregisterResource _ _ => Some PhDeregistered
  | _, _ => None
  end.

Fixpoint phaseAfter (p : Phase) (cs : list Call) : option Phase :=
  match cs with
  | [] => Some p
  | c :: cs => q ← next p c; phaseAfter q cs
  end.

(** The mutation calls at the end of an accepted sequence: an optional
    registration followed by an optional deregistration. *)
Definition mutationTail (reg : option (list ResourceAttribute))
    (dereg : option (ScopeInfo * list BackendResource)) : list Call :=
  option_list (CallRegisterResource <$> reg) ++
  option_list (uncurry CallRawDeregisterResource <$> dereg).

#[export] Hint Constructors callStep steps : sync.

(** ** Relation and function agree *)

Lemma step_next p c q : callStep p c q ↔ next p c = Some q.
Proof.
  split.
  - by intros [].
  - destruct p, c; intros [= <-]; constructor.
Qed.

Lemma steps_phaseAfter p cs q : steps p cs q ↔ phaseAfter p cs = Some q.
Proof.
  split.
  - induction 1 as [|p c q cs r Hstep%step_next _ IH]; [done|].
    simpl. by rewrite Hstep.
  - revert p. induction cs as [|c cs IH]; simpl; intros p.
    + intros [= <-]. constructor.
    + destruct (next p c) as [q'|] eqn:Hn; [|done]. simpl.
      intros ?. econstructor; [by apply step_next|by apply IH].
Qed.

#[export] Instance steps_dec p cs q : Decision (steps p cs q).
Proof.
  refine (cast_if (decide (phaseAfter p cs = Some q)));
    by rewrite steps_phaseAfter.
Defined.

Lemma steps_app p cs q cs' r :
  steps p cs q → steps q cs' r → steps p (cs ++ cs') r.
Proof. induction 1; simpl; eauto with sync. Qed.

Lemma steps_app_inv p cs cs' r :
  steps p (cs ++ cs') r → ∃ q, steps p cs q ∧ steps q cs' r.
Proof.
  revert p. induction cs as [|c cs IH]; simpl; intros p.
  - eauto with sync.
  - inversion_clear 1 as [|????? Hstep Hsteps].
    apply IH in Hsteps as (q' & ? & ?). eauto with sync.
Qed.

Lemma steps_singleton p c q : steps p [c] q ↔ callStep p c q.
Proof.
  split; [|by eauto with sync].
  inversion_clear 1 as [|????? Hstep Hnil]. by inversion Hnil; subst.
Qed.

Lemma steps_snoc p cs c r :
  steps p (cs ++ [c]) r ↔ ∃ q, steps p cs q ∧ callStep q c r.
Proof.
  split.
  - intros (q & ? & ?%steps_singleton)%steps_app_inv. eauto.
  - intros (q & ? & ?%steps_singleton). by eapply steps_app.
Qed.

(** The protocol is deterministic. *)
Lemma steps_det p cs q q' : steps p cs q → steps p cs q' → q = q'.
Proof. rewrite !steps_phaseAfter. congruence. Qed.

(** ** The shape of an accepted sequence *)

Definition inspects (cs : list Call) : Prop :=
  Forall (λ c, is_mutation c = false) cs.

(** What has been called when phase [q] is reached from the start. *)
Definition shape (q : Phase) (cs : list Call) : Prop :=
  match q with
  | PhStart => cs = []
  | PhRead => ∃ h obj query, cs = [CallReadInstance h obj query]
  | PhListed =>
      ∃ h obj query rs rs',
        cs = CallReadInstance h obj query :: CallListResources rs ::
             (CallDryRunRegisterResource <$> rs')
  | PhRegistered =>
      ∃ pre rs, cs = pre ++ mutationTail (Some rs) None ∧ inspects pre
  | PhDeregistered =>
      ∃ pre reg sc ds, cs = pre ++ mutationTail reg (Some (sc, ds)) ∧ inspects pre
  end.

Lemma shape_inspects q cs :
  q ∈ [PhStart; PhRead; PhListed] → shape q cs → inspects cs.
Proof.
  unfold inspects. intros Hq Hs.
  repeat (apply elem_of_cons in Hq as [->|Hq]); [..|by apply elem_of_nil in Hq];
    simpl in Hs.
  - by subst.
  - destruct Hs as (?&?&?&->). by repeat constructor.
  - destruct Hs as (?&?&?&?&rs'&->). repeat constructor.
    by apply Forall_fmap, Forall_true.
Qed.

Lemma shape_tail q cs :
  shape q cs → ∃ pre reg dereg, cs = pre ++ mutationTail reg dereg ∧ inspects pre.
Proof.
  intros Hs.
  destruct (decide (q ∈ [PhStart; PhRead; PhListed])) as [Hq|Hq].
  - exists cs, None, None. rewrite app_nil_r. eauto using shape_inspects.
  - destruct q; simpl in Hs; [set_solver..| |].
    + destruct Hs as (pre & rs & ? & ?). by exists pre, (Some rs), None.
    + destruct Hs as (pre & reg & sc & ds & ? & ?).
      by exists pre, reg, (Some (sc, ds)).
Qed.

(** Rule induction, from the last call backwards: the invariant of the
    machine. *)
Lemma steps_shape cs q : steps PhStart cs q → shape q cs.
Proof.
  revert q. induction cs as [|c cs IH] using rev_ind; intros q.
  - by inversion 1.
  - intros (p & Hcs%IH & Hstep)%steps_snoc.
    destruct Hstep as [h obj query|rs|r|rs|sc ds|sc ds]; simpl in *.
    + subst. eauto.
    + destruct Hcs as (h&obj&query&->). by exists h, obj, query, rs, [].
    + destruct Hcs as (h&obj&query&rs&rs'&->).
      exists h, obj, query, rs, (rs' ++ [r]). by rewrite fmap_app.
    + exists cs, rs. split; [done|]. apply (shape_inspects PhListed); [set_solver|done].
    + exists cs, None, sc, ds. split; [done|].
      apply (shape_inspects PhListed); [set_solver|done].
    + destruct Hcs as (pre & rs & -> & Hpre).
      exists pre, (Some rs), sc, ds. by rewrite <-app_assoc.
Qed.

(** ** Following the phases through a computation *)

Section logic.
Context {W : Type}.
Implicit Types (p q : Phase) (Q : Phase → Prop).

(** [moves p m Q]: started in phase [p], the calls of [m] are allowed by the
    protocol, whatever the exit; when [m] falls through to the next
    statement, the phase it has reached satisfies [Q]. *)
Definition moves {A} p (m : M W A) Q : Prop :=
  ∀ s, ∃ evs q, trace (m s).2 = trace s ++ evs ∧ steps p (calls evs) q ∧
    ∀ a, (m s).1 = Val a → Q q.

Lemma moves_ret {A} p (a : A) : moves p (mret a : M W A) (eq p).
Proof. intros s. exists [], p. rewrite app_nil_r. by split_and!; [|constructor|]. Qed.

Lemma moves_returnGo {A} p e Q : moves p (returnGo e : M W A) Q.
Proof. intros s. exists [], p. rewrite app_nil_r. by split_and!; [|constructor|]. Qed.

Lemma moves_panicGo {A} p e Q : moves p (panicGo e : M W A) Q.
Proof. intros s. exists [], p. rewrite app_nil_r. by split_and!; [|constructor|]. Qed.

Lemma moves_blog p l : moves p (blog l : M W unit) (eq p).
Proof. intros s. exists [EvLog l], p. by split_and!; [|constructor|]. Qed.

Lemma moves_callOp {A} p c (op : W → A * W) q :
  callStep p c q → moves p (callOp c op) (eq q).
Proof.
  intros Hstep s. exists [EvCall c], q. rewrite callOp_run.
  split_and!; [done|by apply steps_singleton|done].
Qed.

Lemma moves_bind {A B} p (m : M W A) (k : A → M W B) Q R :
  moves p m Q → (∀ a q, Q q → moves q (k a) R) → moves p (m ≫= k) R.
Proof.
  intros Hm Hk s. rewrite bind_run.
  destruct (Hm s) as (evs & q & Htr & Hsteps & HQ).
  destruct (m s) as [[a| |] s1]; simpl in *; [|by exists evs, q..].
  destruct (Hk a q (HQ a eq_refl) s1) as (evs' & r & Htr' & Hsteps' & HR).
  exists (evs ++ evs'), r. rewrite Htr', Htr, app_assoc, calls_app.
  split_and!; [done|by eapply steps_app|done].
Qed.

Lemma moves_forRange {A B} p (body : B → A → M W B) acc xs :
  (∀ b a, moves p (body b a) (eq p)) → moves p (forRange body acc xs) (eq p).
Proof.
  intros Hbody. revert acc. induction xs as [|x xs IH]; intros acc; simpl.
  - apply moves_ret.
  - eapply moves_bind; [apply Hbody|]. by intros b q <-.
Qed.

Lemma moves_weaken {A} p (m : M W A) Q R :
  (∀ q, Q q → R q) → moves p m Q → moves p m R.
Proof.
  intros HQR Hm s. destruct (Hm s) as (evs & q & ? & ? & HQ).
  exists evs, q. eauto.
Qed.

Lemma moves_stay {A} p (m : M W A) Q : moves p m (eq p) → Q p → moves p m Q.
Proof. intros Hm HQ. eapply moves_weaken; [|done]. by intros q <-. Qed.

Lemma moves_runBody p (body : M W (option GoError)) Q s :
  moves p body Q →
  ∃ evs q, trace (runBody body s).2 = trace s ++ evs ∧ steps p (calls evs) q.
Proof.
  intros Hm. destruct (Hm s) as (evs & q & Htr & Hsteps & _).
  exists evs, q. unfold runBody. by destruct (body s) as [[]].
Qed.

End logic.

(** [solve_moves] follows a computation that stays in its phase: binds,
    matches, log lines, exits. *)
Ltac solve_moves :=
  first
    [ apply moves_ret | apply moves_returnGo | apply moves_panicGo
    | apply moves_blog
    | apply moves_forRange; intros ? ?; cbn beta; solve_moves
    | eapply moves_bind; [solve_moves|intros ? ? <-; solve_moves]
    | case_match; solve_moves
    | case_decide; solve_moves ].

(** ** The handler follows the protocol *)

Section handler.
Context {W : Type} `{!Collaborators W}.

Lemma moves_assertBusinessSimplify task :
  moves PhStart (assertBusinessSimplify task : M W _) (eq PhStart).
Proof. unfold assertBusinessSimplify. solve_moves. Qed.

Lemma moves_readInstances biz :
  moves PhStart (readInstances biz : M W _) (eq PhRead).
Proof.
  unfold readInstances.
  eapply moves_bind; [apply moves_callOp; constructor|intros ? ? <-].
  solve_moves.
Qed.

Lemma moves_skipIfNoInstances biz instances :
  moves PhRead (skipIfNoInstances biz instances : M W _) (eq PhRead).
Proof. unfold skipIfNoInstances. solve_moves. Qed.

Lemma moves_extractModules biz instances :
  moves PhRead (extractModules biz instances : M W _) (eq PhRead).
Proof. unfold extractModules, extractModule. solve_moves. Qed.

Lemma moves_listResources biz :
  moves PhRead (listResources biz : M W _) (eq PhListed).
Proof.
  unfold listResources.
  eapply moves_bind; [apply moves_callOp; constructor|intros ? ? <-].
  solve_moves.
Qed.

Lemma moves_filterRealResources resultResources :
  moves PhListed (filterRealResources resultResources : M W _) (eq PhListed).
Proof. unfold filterRealResources, filterStep, lastLayer. solve_moves. Qed.

Lemma moves_diffStep biz st module :
  moves PhListed (diffStep biz st module : M W _) (eq PhListed).
Proof.
  unfold diffStep.
  eapply moves_bind; [apply moves_callOp; constructor|intros ? ? <-].
  solve_moves.
Qed.

Lemma moves_diffModules biz realResources moduleArr :
  moves PhListed (diffModules biz realResources moduleArr : M W _) (eq PhListed).
Proof.
  unfold diffModules.
  eapply moves_bind; [apply moves_forRange, moves_diffStep|intros ? ? <-].
  solve_moves.
Qed.

Lemma moves_registerMissing needRegister :
  moves PhListed (registerMissing needRegister : M W _)
        (λ q, q = PhListed ∨ q = PhRegistered).
Proof.
  unfold registerMissing. case_decide; [|apply moves_stay; [apply moves_ret|by left]].
  eapply moves_bind; [apply moves_blog|intros ? ? <-].
  eapply moves_bind; [apply moves_callOp; constructor|intros ? ? <-].
  apply moves_stay; [solve_moves|by right].
Qed.

Lemma moves_deregisterStale p scope needDeregister :
  p = PhListed ∨ p = PhRegistered →
  moves p (deregisterStale scope needDeregister : M W _) (λ _, True).
Proof.
  intros Hp. unfold deregisterStale.
  eapply moves_bind; [apply moves_blog|intros ? ? <-].
  case_decide; [|apply moves_stay; [apply moves_ret|done]].
  eapply moves_bind; [apply moves_blog|intros ? ? <-].
  eapply moves_bind.
  - destruct Hp as [-> | ->]; apply moves_callOp; constructor.
  - intros ? ? <-. apply moves_stay; [solve_moves|done].
Qed.

Lemma moves_HandleModuleSyncBody task :
  moves PhStart (HandleModuleSyncBody task : M W _) (λ _, True).
Proof.
  unfold HandleModuleSyncBody.
  eapply moves_bind; [apply moves_assertBusinessSimplify|intros biz ? <-].
  eapply moves_bind; [apply moves_readInstances|intros instances ? <-].
  eapply moves_bind; [apply moves_skipIfNoInstances|intros ? ? <-].
  eapply moves_bind; [apply moves_extractModules|intros moduleArr ? <-].
  eapply moves_bind; [apply moves_listResources|intros resultResources ? <-].
  eapply moves_bind; [apply moves_filterRealResources|intros realResources ? <-].
  eapply moves_bind; [apply moves_diffModules|intros st ? <-].
  eapply moves_bind; [apply moves_registerMissing|intros ? q Hq].
  eapply moves_bind; [by apply moves_deregisterStale|intros].
  by eapply moves_weaken; [|apply moves_ret].
Qed.

(** The calls of a run, from the start. *)
Lemma HandleModuleSync_steps task (s : St W) :
  ∃ evs q, trace (HandleModuleSync task s).2 = trace s ++ evs ∧
    steps PhStart (calls evs) q.
Proof. eapply moves_runBody, moves_HandleModuleSyncBody. Qed.

(** C8 (safety).  Every run follows the protocol, whatever the collaborators
    answer and however the run ends: the calls it adds to the trace are one
    read, then one listing, then dry runs, then at most one registration and
    then at most one deregistration; the executable acceptor accepts them. *)
Theorem sync_follows_protocol task (s : St W) :
  ∃ evs, trace (HandleModuleSync task s).2 = trace s ++ evs ∧
    is_Some (phaseAfter PhStart (calls evs)).
Proof.
  destruct (HandleModuleSync_steps task s) as (evs & q & Htr & Hsteps).
  exists evs. split; [done|]. exists q. by apply steps_phaseAfter.
Qed.

(** In every run the mutations come last and at most once
    each: the calls of the run are calls that leave IAM as it is (the read,
    the listing, the dry runs), followed by at most one registration,
    followed by at most one deregistration. *)
Theorem sync_mutations_last task (s : St W) :
  ∃ evs pre reg dereg,
    trace (HandleModuleSync task s).2 = trace s ++ evs ∧
    calls evs = pre ++ mutationTail reg dereg ∧ inspects pre.
Proof.
  destruct (HandleModuleSync_steps task s) as (evs & q & Htr & Hshape%steps_shape).
  apply shape_tail in Hshape as (pre & reg & dereg & ? & ?).
  by exists evs, pre, reg, dereg.
Qed.

End handler.

(** The calls of the run in the sample world are accepted, and lead to the
    last phase. *)
Example sample_run_accepted :
  phaseAfter PhStart (calls (trace (HandleModuleSync exTask (initSt exWorld)).2))
  = Some PhDeregistered.
Proof. vm_compute. reflexivity. Qed.

(** A registration after the deregistration is not accepted, nor is a
    mutation before the listing. *)
Example sample_rejected :
  phaseAfter PhListed [CallRawDeregisterResource zeroScope [];
                       CallRegisterResource []] = None ∧
  phaseAfter PhStart [CallRegisterResource []] = None.
Proof. split; reflexivity. Qed.
