(* ===== verification/Mutations.v ===== *)
(** * Mutations: what a run asks IAM to change

    The two calls that change IAM, [RegisterResource] and
    [RawDeregisterResource], seen from every run at once: a run issues them
    only after all dry runs answered, with batches that come from what the
    run itself read and listed ([mutations_are_grounded]), and under the
    scope the loop left in [scope] ([deregistration_scope_last_wins],
    [sync_nothing_resolved]). *)

From S2P Require Import Prelude GoString Meta Codec Effects Handler.
From S2P Require Import Backend Steps DiffEngine HandlerSpec.

Section mutations.
Context {W : Type} `{!Collaborators W}.
Implicit Types (s : St W) (biz : BusinessSimplify).

(** A run in which the read, the listing and every dry run answered. *)
Definition Resolves (task : WorkRequest) s biz (instances : list MapStr)
    (resultResources : list BackendResource) (resolved : list Resolved)
    (s1 : St W) : Prop :=
  Listed task s biz instances resultResources ∧
  Forall (λ r, r ≠ []) resultResources ∧
  resolveModules biz (parsedModules instances)
    (afterFilter biz instances resultResources s) = (Val resolved, s1).

(** Such a run returns [nil], after the two mutation steps on the batches
    of the reference diff. *)
Lemma HandleModuleSync_Resolves task s biz instances resultResources resolved s1 :
  Resolves task s biz instances resultResources resolved s1 →
  (Z.of_nat (length instances) < 2 ^ 63)%Z →
  let realResources := filter isModuleResource resultResources in
  HandleModuleSync task s
  = (Returned None,
     applyMutations (toRegister realResources resolved)
       (lastScope zeroScope resolved) (toDeregister realResources resolved)
       (emits [EvLog (LogKeyMap (hitMap realResources resolved));
               EvLog (LogNeedRegister (toRegister realResources resolved))] s1)).
Proof.
  intros (Hl & Hne & Hr) Hlen. cbn zeta.
  rewrite (HandleModuleSync_Listed _ _ _ _ _ Hl Hne). unfold runBody.
  rewrite (reconcile_val _ _ _ _ _ _ Hr); [done|].
  pose proof (parsedModules_length instances). lia.
Qed.

(** ** Where the batches come from *)

Lemma fetchAndList_val task s biz moduleArr realResources s1 :
  fetchAndList task s = (Val (biz, moduleArr, realResources), s1) →
  ∃ instances resultResources,
    Listed task s biz instances resultResources ∧
    Forall (λ r, r ≠ []) resultResources ∧
    moduleArr = parsedModules instances ∧
    realResources = filter isModuleResource resultResources ∧
    s1 = afterFilter biz instances resultResources s.
Proof.
  rewrite fetchAndList_run. destruct (Data task) as [biz'|] eqn:Hd; [|done].
  destruct (answer (readOp biz') s) as [|instances] eqn:Hr; [done|].
  case_decide; [done|].
  destruct (answer (listOp biz') _) as [|resultResources] eqn:Hl; [done|].
  case_decide; [|done]. intros [= -> <- <- <-].
  by exists instances, resultResources.
Qed.

Lemma notMutation_calls evs c :
  Forall notMutation evs → c ∈ calls evs → is_mutation c = false.
Proof.
  rewrite Forall_forall. unfold calls. rewrite list_elem_of_omap.
  intros Hevs ([l|c'] & Hin & [= ->]). apply (Hevs _ Hin).
Qed.

(** A resolved pair is the resource of a module of the loop. *)
Lemma resolved_from_modules biz moduleArr s resolved s1 r e :
  resolveModules biz moduleArr s = (Val resolved, s1) →
  (r, e) ∈ resolved →
  ∃ module, module ∈ moduleArr ∧ r = moduleResource biz module.
Proof.
  intros (new & -> & Hsub)%resolveLoop_sublist Hin. simpl in Hin.
  apply (list_elem_of_fmap_2 fst), (λ H, elem_of_sublist _ _ _ H Hsub) in Hin.
  apply list_elem_of_fmap in Hin as (module & ? & ?). eauto.
Qed.

Lemma elem_of_collectDeregister m (realResources : list BackendResource) d :
  d ∈ collectDeregister m realResources → d ∈ realResources.
Proof. rewrite collectDeregister_filter. by intros [_ ?]%list_elem_of_filter. Qed.

Lemma elem_of_mutationCalls toReg sc toDereg c :
  c ∈ mutationCalls toReg sc toDereg →
  (c = CallRegisterResource toReg ∧ toReg ≠ []) ∨
  (c = CallRawDeregisterResource sc toDereg ∧ toDereg ≠ []).
Proof.
  unfold mutationCalls. rewrite elem_of_app.
  intros [Hc|Hc]; case_decide; set_solver.
Qed.

(** Every mutation of a run is one of the two calls after the diff, in a
    run that got that far. *)
Lemma run_mutations task s :
  ∃ evs, trace (HandleModuleSync task s).2 = trace s ++ evs ∧
    ∀ c, c ∈ calls evs → is_mutation c = true →
      ∃ biz instances resultResources resolved s1,
        Resolves task s biz instances resultResources resolved s1 ∧
        c ∈ mutationCalls
              (toRegister (filter isModuleResource resultResources) resolved)
              (lastScope zeroScope resolved)
              (collectDeregister
                 (hitMap (filter isModuleResource resultResources) resolved)
                 (filter isModuleResource resultResources)).
Proof.
  rewrite HandleModuleSync_split. unfold runBody. rewrite bind_run.
  destruct (adds_fetchAndList task s) as (evs & Htr & Hevs).
  destruct (fetchAndList task s) as [[[[biz mods] real]|e|p] s1] eqn:Hfetch;
    simpl in *;
    [|exists evs; split; [done|]; intros c Hc Hm;
      by rewrite (notMutation_calls evs c) in Hm..].
  apply fetchAndList_val in Hfetch as (instances & resultResources & Hl & Hne & -> & -> & ->).
  rewrite reconcile_run.
  destruct (adds_resolveModules biz (parsedModules instances)
              (afterFilter biz instances resultResources s)) as (evs' & Htr' & Hevs').
  pose proof (Forall_impl _ _ _ Hevs' dryRunEvent_notMutation) as Hevs''.
  destruct (resolveModules _ _ _) as [[resolved|e|p] s2] eqn:Hres; simpl in *;
    [|exists (evs ++ evs'); rewrite Htr', Htr, app_assoc; split; [done|];
      intros c Hc Hm; rewrite (notMutation_calls (evs ++ evs') c) in Hm;
      by try apply Forall_app..].
  edestruct applyMutations_calls as (evs3 & Htr3 & Hc3).
  eexists. split; [by rewrite Htr3, trace_emits, Htr', Htr, <-!app_assoc|].
  intros c Hc Hm. rewrite !calls_app, Hc3, !elem_of_app in Hc.
  destruct Hc as [Hc|[Hc|[Hc|Hc]]];
    [by rewrite (notMutation_calls _ c Hevs Hc) in Hm
    |by rewrite (notMutation_calls _ c Hevs'' Hc) in Hm
    |by apply elem_of_nil in Hc|].
  exists biz, instances, resultResources, resolved, s2. split; [done|].
  by rewrite diffPure_toRegister, diffPure_scope in Hc.
Qed.

(** C7 (safety).  Whatever the collaborators answer, a run registers only
    resources built from modules the CMDB returned in this run, and
    deregisters only resources that IAM listed in this run and whose last
    layer carries the module marker; neither call is made with an empty
    batch. *)
Theorem mutations_are_grounded task s :
  ∃ evs, trace (HandleModuleSync task s).2 = trace s ++ evs ∧
    ∀ c, c ∈ calls evs →
      match c with
      | CallRegisterResource rs =>
          ∃ biz instances, Fetched task s biz instances ∧ rs ≠ [] ∧
            ∀ r, r ∈ rs →
              ∃ module, module ∈ parsedModules instances ∧
                        r = moduleResource biz module
      | CallRawDeregisterResource sc ds =>
          ∃ biz instances resultResources,
            Listed task s biz instances resultResources ∧ ds ≠ [] ∧
            ∀ d, d ∈ ds → d ∈ resultResources ∧ isModuleResource d = true
      | _ => True
      end.
Proof.
  destruct (run_mutations task s) as (evs & Htr & Hmut).
  exists evs. split; [done|]. intros [| | |rs|sc ds] Hc; try done;
    destruct (Hmut _ Hc eq_refl)
      as (biz & instances & resultResources & resolved & s1 & (Hl & Hne & Hres) & Hin);
    apply elem_of_mutationCalls in Hin as [[[= ->] Hbatch]|[[= -> ->] Hbatch]].
  - exists biz, instances. split_and!; [apply Hl|done|].
    intros r (e & Hin & _)%elem_of_toRegister.
    by eapply resolved_from_modules.
  - exists biz, instances, resultResources. split_and!; [done..|].
    intros d Hd%elem_of_collectDeregister%list_elem_of_filter.
    destruct Hd as [Hd ?]. split; [done|]. by apply Is_true_true.
Qed.

(** ** The scope of the deregistration *)

(** The scope handed to the deregistration is the scope
    of the module that was resolved last: each resolved module overwrites
    the scope the modules before it left. *)
Theorem deregistration_scope_last_wins realResources resolved r e :
  scope (diffPure (initDiffState realResources) (resolved ++ [(r, e)]))
  = EntityScope e.
Proof. by rewrite diffPure_scope; unfold lastScope; rewrite last_snoc. Qed.

Lemma collectDeregister_initKeyMap (realResources : list BackendResource) :
  collectDeregister (initKeyMap realResources) realResources = realResources.
Proof.
  rewrite collectDeregister_filter. apply filter_all, Forall_forall. intros r Hr. rewrite initKeyMap_lookup.
  by rewrite decide_True by (unfold iamKeys; set_solver).
Qed.

(** C39 (functional).  When the business has instances but no module is
    resolved (no instance parses, or every dry run answers with no or
    several entities), the function registers nothing and asks IAM to
    deregister every module resource it listed, under the zero value of the
    scope. *)
Theorem sync_nothing_resolved task s biz instances resultResources s1 :
  Resolves task s biz instances resultResources [] s1 →
  let realResources := filter isModuleResource resultResources in
  HandleModuleSync task s
  = (Returned None,
     applyMutations [] zeroScope realResources
       (emits [EvLog (LogKeyMap (initKeyMap realResources));
               EvLog (LogNeedRegister [])] s1)).
Proof.
  intros (Hl & Hne & Hres). cbn zeta.
  rewrite (HandleModuleSync_Listed _ _ _ _ _ Hl Hne). unfold runBody.
  rewrite reconcile_run, Hres. cbn zeta.
  by rewrite diffPure_nil; simpl; rewrite collectDeregister_initKeyMap.
Qed.

End mutations.

(** ** In the sample world *)

Lemma sync_nothing_resolved_witness :
  let s0 := afterFilter exBusiness exInstances exReal (initSt exWorldUnresolved) in
  let s1 := (resolveModules exBusiness (parsedModules exInstances) s0).2 in
  HandleModuleSync exTask (initSt exWorldUnresolved)
  = (Returned None,
     applyMutations [] zeroScope (filter isModuleResource exReal)
       (emits [EvLog (LogKeyMap (initKeyMap (filter isModuleResource exReal)));
               EvLog (LogNeedRegister [])] s1)).
Proof.
  apply (sync_nothing_resolved exTask (initSt exWorldUnresolved) exBusiness
           exInstances exReal).
  split_and!; [by apply exWorld_Listed|apply exReal_nonempty|reflexivity].
Defined.

(** Two modules that resolve to different scopes: the deregistration would
    use the second scope, not the first. *)
Example sample_scope_last_wins :
  let e1 := mkResourceEntity {| ScopeType := "biz"; ScopeID := "1" |} "a" [] in
  let e2 := mkResourceEntity {| ScopeType := "biz"; ScopeID := "2" |} "b" [] in
  scope (diffPure (initDiffState [])
           [(exResource exModule1, e1); (exResource exModule2, e2)])
  = {| ScopeType := "biz"; ScopeID := "2" |}.
Proof. reflexivity. Qed.
