(* ===== verification/Budget.v ===== *)
(** * Budget: how many calls a run makes

    [HandleModuleSync] has two loops that call nothing (lines 58-68 and
    87-92) and one that makes one dry run per module (lines 107-136); the
    rest of the function is straight-line code with four call sites.  A
    small cost logic, [spends n m], counts the calls a computation adds to
    the trace on every path, exits included; with it the whole function is
    bounded by four calls plus one per instance the CMDB returned
    ([sync_call_budget]), and the sample world shows that the bound is
    reached. *)

From S2P Require Import Prelude GoString Meta Codec Effects Handler.
From S2P Require Import Backend Steps DiffEngine HandlerSpec Mutations.

Section logic.
Context {W : Type}.
Implicit Types (s : St W) (n k : nat).

(** [spends n m]: whatever the state and the exit, [m] makes at most [n]
    calls. *)
Definition spends {A} n (m : M W A) : Prop :=
  ∀ s, ∃ evs, trace (m s).2 = trace s ++ evs ∧ length (calls evs) ≤ n.

Lemma spends_silent {A} n (m : M W A) evs :
  calls evs = [] → (∀ s, trace (m s).2 = trace s ++ evs) → spends n m.
Proof. intros Hc Hm s. exists evs. rewrite Hc. split; [done|simpl; lia]. Qed.

Lemma spends_ret {A} n (a : A) : spends n (mret a : M W A).
Proof. apply (spends_silent _ _ []); [done|]. intros s. by rewrite app_nil_r. Qed.

Lemma spends_returnGo {A} n e : spends n (returnGo e : M W A).
Proof. apply (spends_silent _ _ []); [done|]. intros s. by rewrite app_nil_r. Qed.

Lemma spends_panicGo {A} n p : spends n (panicGo p : M W A).
Proof. apply (spends_silent _ _ []); [done|]. intros s. by rewrite app_nil_r. Qed.

Lemma spends_blog n l : spends n (blog l : M W unit).
Proof. by apply (spends_silent _ _ [EvLog l]). Qed.

Lemma spends_callOp {A} n c (op : W → A * W) : spends (S n) (callOp c op).
Proof. intros s. exists [EvCall c]. rewrite callOp_run. split; [done|simpl; lia]. Qed.

Lemma spends_weaken {A} n k (m : M W A) : n ≤ k → spends n m → spends k m.
Proof. intros Hnk Hm s. destruct (Hm s) as (evs & ? & ?). exists evs. split; [done|lia]. Qed.

Lemma spends_bind {A B} n k (m : M W A) (f : A → M W B) :
  spends n m → (∀ a, spends k (f a)) → spends (n + k) (m ≫= f).
Proof.
  intros Hm Hf s. rewrite bind_run. destruct (Hm s) as (evs & Htr & Hn).
  destruct (m s) as [[a| |] s1]; simpl in *; [|exists evs; split; [done|lia]..].
  destruct (Hf a s1) as (evs' & Htr' & Hk). exists (evs ++ evs').
  rewrite Htr', Htr, app_assoc, calls_app, length_app. split; [done|lia].
Qed.

(** A loop spends what its body spends, once per element. *)
Lemma spends_forRange {A B} n (body : B → A → M W B) acc xs :
  (∀ b a, spends n (body b a)) → spends (n * length xs) (forRange body acc xs).
Proof.
  intros Hbody. revert acc. induction xs as [|x xs IH]; intros acc; simpl.
  - apply spends_ret.
  - rewrite Nat.mul_succ_r, Nat.add_comm. by apply spends_bind.
Qed.

End logic.

Ltac head_of t :=
  lazymatch t with
  | ?f _ => head_of f
  | _ => t
  end.

(** [solve_spends] proves [spends n m] for code built from binds, matches,
    loops that call nothing and the steps of the handler: at a bind it tries
    to charge the first computation nothing, then one call. *)
Ltac solve_spends :=
  lazymatch goal with
  | |- spends _ (mret _) => apply spends_ret
  | |- spends _ (returnGo _) => apply spends_returnGo
  | |- spends _ (panicGo _) => apply spends_panicGo
  | |- spends _ (blog _) => apply spends_blog
  | |- spends _ (callOp _ _) => apply spends_callOp
  | |- spends ?n (_ ≫= _) =>
      first
        [ solve [apply (spends_bind 0 n); [|intros ?]; solve_spends]
        | lazymatch n with
          | S ?k => solve [apply (spends_bind 1 k); [|intros ?]; solve_spends]
          end ]
  | |- spends _ (forRange _ _ _) =>
      eapply spends_weaken; [|apply (spends_forRange 0); intros ? ?; solve_spends];
      simpl; lia
  | |- spends _ (match ?x with _ => _ end) => destruct x; solve_spends
  | |- spends _ ?m => let h := head_of m in unfold h; cbv zeta; solve_spends
  end.

Section budget.
Context {W : Type} `{!Collaborators W}.
Implicit Types (s : St W) (biz : BusinessSimplify).

(** The number of instances the read of line 42 returns in state [s], [0]
    when the function does not get that far. *)
Definition instancesRead (task : WorkRequest) s : nat :=
  match Data task with
  | DataBusiness biz =>
      match answer (readOp biz) s with
      | inr instances => length instances
      | inl _ => 0
      end
  | DataOther => 0
  end.

(** ** Step by step *)

(** Lines 33-93 call the CMDB once and IAM once. *)
Lemma spends_fetchAndList task : spends 2 (fetchAndList task).
Proof. solve_spends. Qed.

(** Lines 107-136 make one dry run per module. *)
Lemma spends_diffModules biz realResources moduleArr :
  spends (length moduleArr) (diffModules biz realResources moduleArr).
Proof.
  apply (spends_weaken (1 * length moduleArr + 0)); [lia|].
  apply spends_bind; [|intros st; solve_spends].
  apply spends_forRange. intros. solve_spends.
Qed.

Lemma spends_registerMissing needRegister : spends 1 (registerMissing needRegister).
Proof. solve_spends. Qed.

Lemma spends_deregisterStale sc needDeregister :
  spends 1 (deregisterStale sc needDeregister).
Proof. solve_spends. Qed.

(** Lines 96-164. *)
Lemma spends_reconcile biz realResources moduleArr :
  spends (length moduleArr + 2) (reconcile biz realResources moduleArr).
Proof.
  apply spends_bind; [apply spends_diffModules|]. intros st.
  apply (spends_bind 1 1); [apply spends_registerMissing|]. intros _.
  apply (spends_bind 1 0); [apply spends_deregisterStale|]. intros _.
  apply spends_ret.
Qed.

Lemma instancesRead_Fetched task s biz instances :
  Fetched task s biz instances → instancesRead task s = length instances.
Proof. intros (Hd & Hr & _). unfold instancesRead. by rewrite Hd, Hr. Qed.

(** C25 (bounds).  A run makes at most four calls more than the CMDB
    returned instances for the business: the read, the listing, one dry run
    for each instance that parses, one registration and one deregistration.
    This holds on every path, errors and panics included, so the run ends
    after boundedly many calls. *)
Theorem sync_call_budget task s :
  ∃ evs, trace (HandleModuleSync task s).2 = trace s ++ evs ∧
    length (calls evs) ≤ 4 + instancesRead task s.
Proof.
  rewrite HandleModuleSync_split. unfold runBody. rewrite bind_run.
  destruct (spends_fetchAndList task s) as (evs & Htr & Hn).
  destruct (fetchAndList task s) as [[[[biz mods] real]|e|p] s1] eqn:Hfetch;
    simpl in *; [|exists evs; split; [done|lia]..].
  apply fetchAndList_val in Hfetch as (instances & rs & [Hf _] & _ & -> & -> & ->).
  rewrite (instancesRead_Fetched _ _ _ _ Hf).
  destruct (spends_reconcile biz (filter isModuleResource rs)
              (parsedModules instances) (afterFilter biz instances rs s))
    as (evs' & Htr' & Hk).
  pose proof (parsedModules_length instances).
  exists (evs ++ evs'). rewrite calls_app, length_app, app_assoc, <-Htr.
  split; [by destruct (reconcile _ _ _ _) as [[]]|lia].
Qed.

End budget.

(** ** In the sample world *)

(** The bound is reached: the sample world has two instances, both parse
    and resolve, one module is registered and one resource deregistered. *)
Example sample_budget_reached :
  length (calls (trace (HandleModuleSync exTask (initSt exWorld)).2))
  = 4 + instancesRead exTask (initSt exWorld).
Proof. vm_compute. reflexivity. Qed.
