(* ===== verification/Outcomes.v ===== *)
(** * Outcomes: how a run ends, and why

    The outcome of [HandleModuleSync] as a function of what the
    collaborators answer ([outcomeOf]), and from it the converse of the
    path theorems of [HandlerSpec]: the function panics for exactly two
    reasons, returns an error for exactly three, and returns [nil] in every
    other run, whatever the two mutation calls answer. *)

From S2P Require Import Prelude GoString Meta Logging Codec Effects Handler.
From S2P Require Import Backend Steps DiffEngine HandlerSpec.

Section outcomes.
Context {W : Type} `{!Collaborators W}.
Implicit Types (s : St W) (biz : BusinessSimplify).

(** The outcome of the dry-run phase, when the run gets that far. *)
Definition resolveOutcome biz (instances : list MapStr)
    (resultResources : list BackendResource) s : Outcome :=
  match (resolveModules biz (parsedModules instances)
           (afterFilter biz instances resultResources s)).1 with
  | Val _ => Returned None
  | Return e => Returned e
  | Panic p => Panicked p
  end.

(** The outcome of a run, read off the answers. *)
Definition outcomeOf (task : WorkRequest) s : Outcome :=
  match Data task with
  | DataOther => Panicked PanicTypeAssertion
  | DataBusiness biz =>
    match answer (readOp biz) s with
    | inl err => Returned (Some (GetModuleError (BKAppIDField biz) err))
    | inr instances =>
      if decide (instances = []) then Returned None else
      match answer (listOp biz) (afterExtract biz instances s) with
      | inl err => Returned (Some err)
      | inr resultResources =>
        if decide (Forall (λ r, r ≠ []) resultResources)
        then resolveOutcome biz instances resultResources s
        else Panicked (PanicIndexOutOfRange (-1) 0)
      end
    end
  end.

Lemma HandleModuleSync_outcome task s :
  (HandleModuleSync task s).1 = outcomeOf task s.
Proof.
  rewrite HandleModuleSync_split. unfold runBody, outcomeOf.
  rewrite bind_run, fetchAndList_run.
  destruct (Data task) as [biz|]; [|done].
  destruct (answer (readOp biz) s) as [err|instances]; [done|].
  case_decide; [done|].
  destruct (answer (listOp biz) _) as [err|resultResources]; [done|].
  case_decide; [|done]. rewrite reconcile_run. unfold resolveOutcome.
  by destruct (resolveModules _ _ _) as [[]].
Qed.

(** ** The exits of the dry-run phase *)

(** The loop leaves the function only at a dry run that fails, after the
    dry runs before it answered. *)
Lemma resolveLoop_return biz acc moduleArr s e s' :
  forRange (resolveStep biz) acc moduleArr s = (Return e, s') →
  ∃ pre module post resolved s1 err,
    moduleArr = pre ++ module :: post ∧
    forRange (resolveStep biz) acc pre s = (Val resolved, s1) ∧
    dryRunAnswer (moduleResource biz module) s1 = inl err ∧ e = Some err.
Proof.
  revert acc s. induction moduleArr as [|module moduleArr IH]; intros acc s; [done|].
  rewrite resolveLoop_cons. cbn zeta.
  destruct (answer _ _) as [err|target] eqn:Hans.
  - intros [= <- <-]. by exists [], module, moduleArr, acc, s, err.
  - intros (pre & m & post & resolved & s1 & err & -> & Hpre & Herr & ->)%IH.
    exists (module :: pre), m, post, resolved, s1, err.
    split_and!; [done| |done..]. rewrite resolveLoop_cons. cbn zeta.
    by rewrite Hans.
Qed.

Lemma resolveOutcome_cases biz instances resultResources s :
  resolveOutcome biz instances resultResources s = Returned None ∨
  ∃ pre module post resolved s1 err,
    parsedModules instances = pre ++ module :: post ∧
    resolveModules biz pre (afterFilter biz instances resultResources s)
    = (Val resolved, s1) ∧
    dryRunAnswer (moduleResource biz module) s1 = inl err ∧
    resolveOutcome biz instances resultResources s = Returned (Some err).
Proof.
  unfold resolveOutcome, resolveModules.
  pose proof (resolveLoop_exit biz [] (parsedModules instances)
                (afterFilter biz instances resultResources s)) as Hexit.
  destruct (forRange _ _ _ _) as [[resolved|e|p] s'] eqn:Hloop; simpl in *;
    [by left| |done].
  apply resolveLoop_return in Hloop
    as (pre & module & post & resolved & s1 & err & ? & ? & ? & ->).
  right. by exists pre, module, post, resolved, s1, err.
Qed.

(** ** Why a run ends as it does *)

Lemma not_all_nonempty (resultResources : list BackendResource) :
  ¬ Forall (λ r, r ≠ []) resultResources ↔ [] ∈ resultResources.
Proof.
  rewrite Forall_forall. split; [|naive_solver].
  intros Hall. apply dec_stable. naive_solver.
Qed.

(** The answers a run got, as far as it asked. *)
Lemma Listed_inv task s biz biz' instances resultResources :
  Data task = DataBusiness biz →
  Listed task s biz' instances resultResources →
  biz' = biz ∧ answer (readOp biz) s = inr instances ∧ instances ≠ [] ∧
  answer (listOp biz) (afterExtract biz instances s) = inr resultResources.
Proof. intros Hd [(Hd' & ? & ?) ?]. rewrite Hd in Hd'. by injection Hd' as <-. Qed.

(** C10 (safety).  The function panics for exactly two reasons: the task
    does not carry a [BusinessSimplify] (line 33), or IAM lists a resource
    without layers (line 89).  No other statement panics: the first entity
    of a dry-run answer is read only when there is exactly one, and a key
    that is not in the map reads as [0]. *)
Theorem sync_panics_iff task s p :
  (HandleModuleSync task s).1 = Panicked p ↔
  (Data task = DataOther ∧ p = PanicTypeAssertion) ∨
  (∃ biz instances resultResources,
     Listed task s biz instances resultResources ∧ [] ∈ resultResources ∧
     p = PanicIndexOutOfRange (-1) 0).
Proof.
  rewrite HandleModuleSync_outcome. unfold outcomeOf.
  destruct (Data task) as [biz|] eqn:Hd.
  2: { split; [intros [= <-]; by left|].
       intros [[_ ->]|(?&?&?&[(Hd'&_) _]&_)]; [done|by rewrite Hd in Hd']. }
  split; [|intros [[? _]|H]; [done|revert H]].
  - destruct (answer (readOp biz) s) as [err|instances] eqn:Hr; [done|].
    case_decide; [done|].
    destruct (answer (listOp biz) _) as [err|resultResources] eqn:Hl; [done|].
    case_decide as Hne.
    + intros Hp. by destruct (resolveOutcome_cases biz instances resultResources s)
        as [Hout|(?&?&?&?&?&?&?&?&?&Hout)]; rewrite Hout in Hp.
    + intros [= <-]. right. exists biz, instances, resultResources.
      by rewrite <-not_all_nonempty.
  - intros (biz' & instances & resultResources & Hlisted & Hin & ->).
    apply (Listed_inv _ _ biz) in Hlisted as (-> & -> & ? & ->); [|done].
    rewrite decide_False by done. by rewrite decide_False by by apply not_all_nonempty.
Qed.

(** C9 (error).  The function returns an error for exactly three reasons:
    the read failed (the error is wrapped with the business id), the listing
    failed, or the dry run of a module failed after the dry runs before it
    answered (the error is returned as it is).  In every other run that does
    not panic it returns [nil]: a failure of the registration or of the
    deregistration never reaches the caller. *)
Theorem sync_error_iff task s err :
  (HandleModuleSync task s).1 = Returned (Some err) ↔
  (∃ biz e, Data task = DataBusiness biz ∧ answer (readOp biz) s = inl e ∧
     err = GetModuleError (BKAppIDField biz) e) ∨
  (∃ biz instances, Fetched task s biz instances ∧
     answer (listOp biz) (afterExtract biz instances s) = inl err) ∨
  (∃ biz instances resultResources pre module post resolved s1,
     Listed task s biz instances resultResources ∧
     Forall (λ r, r ≠ []) resultResources ∧
     parsedModules instances = pre ++ module :: post ∧
     resolveModules biz pre (afterFilter biz instances resultResources s)
     = (Val resolved, s1) ∧
     dryRunAnswer (moduleResource biz module) s1 = inl err).
Proof.
  rewrite HandleModuleSync_outcome. unfold outcomeOf. split.
  - destruct (Data task) as [biz|] eqn:Hd; [|done].
    destruct (answer (readOp biz) s) as [e|instances] eqn:Hr; [naive_solver|].
    case_decide; [done|].
    destruct (answer (listOp biz) _) as [e|resultResources] eqn:Hl.
    { intros [= ->]. right; left. by exists biz, instances. }
    case_decide as Hne; [|done]. intros Hout. right; right.
    destruct (resolveOutcome_cases biz instances resultResources s)
      as [Hnil|(pre & module & post & resolved & s1 & e & ? & ? & ? & Herr)];
      [by rewrite Hnil in Hout|].
    rewrite Herr in Hout. injection Hout as ->.
    by exists biz, instances, resultResources, pre, module, post, resolved, s1.
  - intros [(biz & e & -> & -> & ->)|[(biz & instances & (-> & -> & ?) & Hl)
            |(biz & instances & resultResources & pre & module & post & resolved
              & s1 & [(-> & -> & ?) ->] & Hne & Hmods & Hpre & Herr)]]; [done|..].
    + rewrite decide_False by done. by rewrite Hl.
    + rewrite decide_False by done. rewrite decide_True by done.
      unfold resolveOutcome. rewrite Hmods.
      by rewrite (resolveModules_failure _ _ _ _ _ _ _ _ Hpre Herr).
Qed.

(** ** Every error is logged *)

(** The log line that reports the failure behind the error [err]. *)
Definition reportsFailure (l : LogLine) (err : GoError) : Prop :=
  match l with
  | LogGetModuleFailed businessID e => err = GetModuleError businessID e
  | LogListResourcesFailed e | LogDryRunFailed e => err = e
  | _ => False
  end.

Lemma resolveLoop_return_log biz acc moduleArr s e s' :
  forRange (resolveStep biz) acc moduleArr s = (Return e, s') →
  ∃ err, e = Some err ∧ last (trace s') = Some (EvLog (LogDryRunFailed err)).
Proof.
  revert acc s. induction moduleArr as [|module moduleArr IH]; intros acc s; [done|].
  rewrite resolveLoop_cons. cbn zeta.
  destruct (answer _ _) as [err|target]; [|apply IH].
  intros [= <- <-]. exists err. by rewrite trace_emit, last_snoc.
Qed.

(** The log lines that report a failure are errors. *)
Lemma reportsFailure_severity l err : reportsFailure l err → severity l = SevError.
Proof. by destruct l. Qed.

Lemma error_exit_log task s err :
  (HandleModuleSync task s).1 = Returned (Some err) →
  ∃ l, last (trace (HandleModuleSync task s).2) = Some (EvLog l) ∧
       reportsFailure l err.
Proof.
  rewrite HandleModuleSync_split. unfold runBody.
  rewrite bind_run, fetchAndList_run.
  destruct (Data task) as [biz|]; [|done].
  destruct (answer (readOp biz) s) as [e|instances].
  { intros [= <-]. eexists. cbn [snd]. by rewrite trace_emit, last_snoc. }
  case_decide; [done|].
  destruct (answer (listOp biz) _) as [e|resultResources].
  { intros [= <-]. eexists. cbn [snd]. by rewrite trace_emit, last_snoc. }
  case_decide; [|done]. rewrite reconcile_run. unfold resolveModules.
  destruct (forRange _ _ _ _) as [[resolved|e|p] s'] eqn:Hloop; [done| |done].
  apply resolveLoop_return_log in Hloop as (err' & -> & Hlast).
  intros [= <-]. by eexists.
Qed.

(** C33 (error).  No error leaves the function unreported: when the function
    returns an error, the last thing it did was to write the log line of the
    failure behind that error, and the line is written whatever the
    verbosity the process runs at. *)
Theorem errors_are_logged task s err v :
  (HandleModuleSync task s).1 = Returned (Some err) →
  ∃ l, last (trace (HandleModuleSync task s).2) = Some (EvLog l) ∧
       reportsFailure l err ∧ written v l = true.
Proof.
  intros (l & Hlast & Hl)%error_exit_log. exists l. split_and!; [done..|].
  by eapply error_lines_written, reportsFailure_severity.
Qed.

End outcomes.

(** ** In the sample world *)

(** The outcomes of the runs in the sample worlds, read off the answers. *)
Example sample_outcomes :
  outcomeOf exTask (initSt exWorld) = Returned None ∧
  outcomeOf exTask (initSt exWorldMutationsFail) = Returned None ∧
  outcomeOf exTask (initSt exWorldReadFails)
  = Returned (Some (GetModuleError 2 exReadError)) ∧
  outcomeOf exTask (initSt exWorldListFails) = Returned (Some exListError) ∧
  outcomeOf exTask (initSt exWorldEmptyResource)
  = Panicked (PanicIndexOutOfRange (-1) 0) ∧
  outcomeOf exTaskOther (initSt exWorld) = Panicked PanicTypeAssertion.
Proof. repeat split; vm_compute; reflexivity. Qed.

Lemma sync_panics_iff_witness :
  (HandleModuleSync exTask (initSt exWorldEmptyResource)).1
  = Panicked (PanicIndexOutOfRange (-1) 0).
Proof.
  apply (sync_panics_iff exTask (initSt exWorldEmptyResource)). right.
  exists exBusiness, exInstances, ([] :: exReal).
  split_and!; [|by left|done].
  split; [by apply exWorld_Fetched|reflexivity].
Defined.

Lemma sync_error_iff_witness :
  (HandleModuleSync exTask (initSt exWorldDryRunFails)).1
  = Returned (Some (ExternalError "dry run failed")).
Proof.
  apply (sync_error_iff exTask (initSt exWorldDryRunFails)). right; right.
  exists exBusiness, exInstances, exReal, [exModule1], exModule2, [],
    [(exResource exModule1, exEntity exModule1)].
  eexists. split_and!; [by apply exWorld_Listed|apply exReal_nonempty|reflexivity..].
Defined.

Lemma errors_are_logged_witness :
  ∃ l, last (trace (HandleModuleSync exTask (initSt exWorldListFails)).2)
       = Some (EvLog l) ∧ reportsFailure l exListError ∧ written 0 l = true.
Proof.
  apply (errors_are_logged exTask (initSt exWorldListFails) exListError 0).
  reflexivity.
Defined.
