(* ===== verification/Scenarios.v ===== *)
(** * Scenarios: runs of the handler against the reference backend

    The scenarios of the specification, evaluated: each is a run of
    [HandleModuleSync] in a world of [Backend], and the statement gives the
    mutations the run asked for and what IAM holds afterwards.  The
    definitions of the development are executable, so every scenario is
    proved by computation. *)

From S2P Require Import Prelude GoString Meta Codec Effects Handler.
From S2P Require Import Backend.

(** The mutations of a trace, in order. *)
Definition mutations (tr : list Event) : list Call :=
  filter (λ c, is_mutation c) (calls tr).

(** The run of the task of business 2 in world [w]: the outcome, the
    mutations, and the resources IAM holds afterwards. *)
Definition runIn (w : RefWorld)
    : Outcome * list Call * list (Z * BackendResource) :=
  let r := HandleModuleSync exTask (initSt w) in
  (r.1, mutations (trace r.2), iamRegistry (world r.2)).

(** The modules "app" and "db" are in the CMDB and IAM knows "app" only:
    "db" is registered and nothing is deregistered. *)
Example scenario_register_missing :
  runIn (scenarioWorld [exModule1; exModule2] [exModule1] [])
  = (Returned None,
     [CallRegisterResource [exResource exModule2]],
     [(2%Z, exBackend exModule1); (2%Z, exBackend exModule2)]).
Proof. vm_compute. reflexivity. Qed.

(** Module "cache" was deleted from the CMDB and IAM still has it: it is
    deregistered under the scope of the business and nothing is
    registered. *)
Example scenario_deregister_stale :
  runIn (scenarioWorld [exModule1] [exModule1; exModule3] [])
  = (Returned None,
     [CallRawDeregisterResource (scopeOfBusiness 2) [exBackend exModule3]],
     [(2%Z, exBackend exModule1)]).
Proof. vm_compute. reflexivity. Qed.

(** Both at once, in the sample world. *)
Example scenario_register_and_deregister :
  runIn exWorld
  = (Returned None,
     [CallRegisterResource [exResource exModule2];
      CallRawDeregisterResource (scopeOfBusiness 2) [exBackend exModule3]],
     [(2%Z, exBackend exModule1); (2%Z, exBackend exModule2)]).
Proof. vm_compute. reflexivity. Qed.

(** The dry run of "db" answers with no entity and IAM does not know "db":
    the module is skipped, neither registered nor deregistered. *)
Example scenario_skipped_module :
  runIn (scenarioWorld [exModule1; exModule2] [exModule1] [2%Z])
  = (Returned None, [], [(2%Z, exBackend exModule1)]).
Proof. vm_compute. reflexivity. Qed.

(** CMDB and IAM agree: the run changes nothing. *)
Example scenario_in_sync :
  runIn (scenarioWorld [exModule1; exModule2] [exModule1; exModule2] [])
  = (Returned None, [],
     [(2%Z, exBackend exModule1); (2%Z, exBackend exModule2)]).
Proof. vm_compute. reflexivity. Qed.

(** A renamed module keeps its key: IAM is left as it is, whatever name it
    stores. *)
Example scenario_renamed_module :
  runIn (scenarioWorld [mkModuleSimplify 1 "renamed"] [exModule1] [])
  = (Returned None, [], [(2%Z, exBackend exModule1)]).
Proof. vm_compute. reflexivity. Qed.

(** A module the CMDB returns twice is registered twice in one batch. *)
Example scenario_duplicate_module :
  (runIn (scenarioWorld [exModule2; exModule2] [] [])).1.2
  = [CallRegisterResource [exResource exModule2; exResource exModule2]].
Proof. vm_compute. reflexivity. Qed.


(** No module of the business is resolved: the run asks IAM to deregister
    every module resource it listed, under the zero value of the scope. *)
Example scenario_nothing_resolved :
  (runIn exWorldUnresolved).1
  = (Returned None,
     [CallRawDeregisterResource zeroScope
        [exBackend exModule1; exBackend exModule3]]).
Proof. vm_compute. reflexivity. Qed.

(** In that case the reference backend removes nothing, since the zero
    scope is the scope of no business, and the next run asks again. *)
Example scenario_nothing_resolved_repeats :
  let w1 := world (HandleModuleSync exTask (initSt exWorldUnresolved)).2 in
  iamRegistry w1 = iamRegistry exWorldUnresolved ∧
  (runIn w1).1.2
  = [CallRawDeregisterResource zeroScope
       [exBackend exModule1; exBackend exModule3]].
Proof. split; vm_compute; reflexivity. Qed.
