(* ===== verification/BackendLaws.v ===== *)
(** * BackendLaws: what the handler needs of the CMDB and of IAM

    The handler is correct only against collaborators that behave: reads,
    listings and dry runs change nothing; a mutation of IAM changes neither
    what the CMDB returns nor what a dry run resolves to; a registration
    that succeeds makes IAM list the resources the dry runs announced, and
    those resources carry the module marker the filter of line 89 looks for;
    a deregistration that succeeds under the scope of the business removes
    exactly the given resources from the listing.  [LawfulBackend] states
    this contract over the operations of [Collaborators].  The convergence
    theorems are proved against it; the reference backend of [Backend]
    satisfies it, faults included. *)

From S2P Require Import Prelude GoString Meta Codec Effects Handler.
From S2P Require Import Backend Steps.

Section contract.
Context {W : Type} `{!Collaborators W}.

(** The worlds [w] and [w'] answer every read and every dry run alike: they
    differ at most in what IAM has registered. *)
Definition sameCMDB (w w' : W) : Prop :=
  (∀ h obj q, (ReadInstance h obj q w').1 = (ReadInstance h obj q w).1) ∧
  (∀ r, (DryRunRegisterResource r w').1 = (DryRunRegisterResource r w).1).

(** In world [w] the dry run of [r] resolves to the entity [e]. *)
Definition resolvesTo (w : W) (r : ResourceAttribute) (e : ResourceEntity) : Prop :=
  (DryRunRegisterResource r w).1 = inr {| Resources := [e] |}.

(** What IAM lists for the modules of a business. *)
Definition listing (businessSimplify : BusinessSimplify) (w : W)
    : GoError + list BackendResource :=
  (ListResources (listRequest businessSimplify) w).1.

(** A module resource of the business. *)
Definition moduleOf (businessSimplify : BusinessSimplify)
    (r : ResourceAttribute) : Prop :=
  BusinessID r = BKAppIDField businessSimplify ∧ Type_ (RABasic r) = ModelModule.

Class LawfulBackend : Prop := {
  (** Inspection changes nothing. *)
  ReadInstance_pure h obj q w : (ReadInstance h obj q w).2 = w;
  ListResources_pure rs w : (ListResources rs w).2 = w;
  DryRun_pure r w : (DryRunRegisterResource r w).2 = w;
  (** Mutations of IAM leave the CMDB and the resolution alone. *)
  Register_frame rs w : sameCMDB w (RegisterResource rs w).2;
  Deregister_frame sc ds w : sameCMDB w (RawDeregisterResource sc ds w).2;
  (** The identifier IAM assigns to a module carries the module marker. *)
  DryRun_marker biz module w e :
    resolvesTo w (moduleResource biz module) e →
    isModuleResource (backendOfEntity e) = true;
  (** A registration that succeeds adds what the dry runs announced. *)
  Register_lists biz w rs es l :
    Forall2 (λ r e, moduleOf biz r ∧ resolvesTo w r e) rs es →
    listing biz w = inr l →
    (RegisterResource rs w).1 = None →
    ∃ l', listing biz (RegisterResource rs w).2 = inr l' ∧
      ∀ b, b ∈ l' ↔ b ∈ l ∨ b ∈ backendOfEntity <$> es;
  (** A deregistration that succeeds under the scope of the business
      removes the given resources. *)
  Deregister_lists biz w sc ds l r e :
    moduleOf biz r → resolvesTo w r e → sc = EntityScope e →
    listing biz w = inr l →
    (RawDeregisterResource sc ds w).1 = None →
    ∃ l', listing biz (RawDeregisterResource sc ds w).2 = inr l' ∧
      ∀ b, b ∈ l' ↔ b ∈ l ∧ b ∉ ds;
}.

(** ** [sameCMDB] is an equivalence the resolution respects *)

#[export] Instance sameCMDB_equivalence : Equivalence sameCMDB.
Proof.
  split.
  - by intros w.
  - intros w w' [Hr Hd]. by split; intros; rewrite ?Hr, ?Hd.
  - intros w1 w2 w3 [Hr Hd] [Hr' Hd']. by split; intros; rewrite ?Hr', ?Hd', ?Hr, ?Hd.
Qed.

#[export] Instance resolvesTo_proper :
  Proper (sameCMDB ==> (=) ==> (=) ==> iff) resolvesTo.
Proof. intros w w' [_ Hd] r ? <- e ? <-. unfold resolvesTo. by rewrite Hd. Qed.

End contract.

Arguments LawfulBackend W {_}.

(** ** The reference backend is lawful *)

Section reference.
Implicit Types (w : RefWorld).

(** The resources the registry holds for a business. *)
Definition resourcesOf (biz : BusinessSimplify)
    (registry : list (Z * BackendResource)) : list BackendResource :=
  (filter (λ p, p.1 = BKAppIDField biz) registry).*2.

Lemma listing_ref biz w :
  listing biz w
  = match listError (faults w) with
    | Some err => inl err
    | None => inr (resourcesOf biz (iamRegistry w))
    end.
Proof. unfold listing. simpl. unfold refListResources. by destruct (listError _). Qed.

Lemma resourcesOf_app biz reg reg' :
  resourcesOf biz (reg ++ reg') = resourcesOf biz reg ++ resourcesOf biz reg'.
Proof. unfold resourcesOf. by rewrite filter_app, fmap_app. Qed.

Lemma resourcesOf_cons biz b x reg :
  resourcesOf biz ((b, x) :: reg)
  = if decide (b = BKAppIDField biz) then x :: resourcesOf biz reg
    else resourcesOf biz reg.
Proof. unfold resourcesOf. rewrite filter_cons. simpl. by case_decide. Qed.

Lemma refDryRun_resolves r w e :
  (refDryRun r w).1 = inr {| Resources := [e] |} → e = canonicalEntity r.
Proof. unfold refDryRun. repeat case_decide; naive_solver. Qed.

Lemma refRegister_None rs w :
  (refRegister rs w).1 = None →
  (refRegister rs w).2
  = {| cmdbInstances := cmdbInstances w;
       iamRegistry :=
         iamRegistry w ++
         ((λ r, (BusinessID r, backendOfEntity (canonicalEntity r))) <$> rs);
       faults := faults w |}.
Proof. unfold refRegister. by destruct (registerError _). Qed.

Lemma refDeregister_None sc ds w :
  (refDeregister sc ds w).1 = None →
  (refDeregister sc ds w).2
  = {| cmdbInstances := cmdbInstances w;
       iamRegistry :=
         filter (λ p, ¬ (scopeOfBusiness p.1 = sc ∧ p.2 ∈ ds)) (iamRegistry w);
       faults := faults w |}.
Proof. unfold refDeregister. by destruct (deregisterError _). Qed.

(** Worlds with the same CMDB and the same faults answer alike. *)
Lemma ref_sameCMDB w w' :
  cmdbInstances w' = cmdbInstances w → faults w' = faults w → sameCMDB w w'.
Proof.
  intros Hc Hf. split; intros; simpl.
  - unfold refReadInstance. rewrite Hc, Hf.
    destruct (readError _); [done|]. by case_decide.
  - unfold refDryRun. rewrite Hf. by repeat case_decide.
Qed.

Lemma refRegister_frame rs w : sameCMDB w (refRegister rs w).2.
Proof. unfold refRegister. destruct (registerError _); by apply ref_sameCMDB. Qed.

Lemma refDeregister_frame sc ds w : sameCMDB w (refDeregister sc ds w).2.
Proof. unfold refDeregister. destruct (deregisterError _); by apply ref_sameCMDB. Qed.

Lemma canonicalEntity_marker r :
  isModuleResource (backendOfEntity (canonicalEntity r)) = true.
Proof. reflexivity. Qed.

Lemma refRegister_lists biz w rs es l :
  Forall2 (λ r e, moduleOf biz r ∧ resolvesTo w r e) rs es →
  listing biz w = inr l →
  (refRegister rs w).1 = None →
  listing biz (refRegister rs w).2 = inr (l ++ (backendOfEntity <$> es)).
Proof.
  intros Hrs Hl Hreg. rewrite (refRegister_None _ _ Hreg).
  rewrite listing_ref in *. simpl. destruct (listError _); simplify_eq.
  rewrite resourcesOf_app. do 2 f_equal. clear Hreg.
  induction Hrs as [|r e rs es [[Hbiz _] He%refDryRun_resolves] _ IH]; [done|].
  by rewrite !fmap_cons, resourcesOf_cons, decide_True, IH, He.
Qed.

Lemma refDeregister_lists biz w sc ds l r e :
  moduleOf biz r → resolvesTo w r e → sc = EntityScope e →
  listing biz w = inr l →
  (refDeregister sc ds w).1 = None →
  listing biz (refDeregister sc ds w).2 = inr (filter (λ b, b ∉ ds) l).
Proof.
  intros [Hbiz _] ->%refDryRun_resolves -> Hl Hdereg.
  rewrite (refDeregister_None _ _ _ Hdereg).
  rewrite listing_ref in *. simpl. destruct (listError _); simplify_eq.
  f_equal. rewrite Hbiz.
  induction (iamRegistry w) as [|[b' x] reg IH]; [done|].
  rewrite filter_cons, resourcesOf_cons. simpl.
  destruct (decide (b' = BKAppIDField biz)) as [->|Hne].
  - rewrite filter_cons. destruct (decide (x ∈ ds)).
    + by rewrite !decide_False by naive_solver.
    + rewrite !decide_True by naive_solver.
      by rewrite resourcesOf_cons, decide_True, IH.
  - case_decide; [|done]. by rewrite resourcesOf_cons, decide_False.
Qed.

#[export] Instance refBackend_lawful : LawfulBackend RefWorld.
Proof.
  split.
  - intros. simpl. unfold refReadInstance.
    destruct (readError _); [done|]. by case_decide.
  - intros. simpl. unfold refListResources. by destruct (listError _).
  - intros. simpl. unfold refDryRun. by repeat case_decide.
  - apply refRegister_frame.
  - apply refDeregister_frame.
  - intros biz module w e ->%refDryRun_resolves. apply canonicalEntity_marker.
  - intros biz w rs es l Hrs Hl Hreg. eexists. split.
    + by apply (refRegister_lists biz w rs es l).
    + intros b. by rewrite elem_of_app.
  - intros biz w sc ds l r e Hr He Hsc Hl Hdereg. eexists. split.
    + by apply (refDeregister_lists biz w sc ds l r e).
    + intros b. rewrite list_elem_of_filter. naive_solver.
Qed.

End reference.
