(* ===== verification/Convergence.v ===== *)
(** * Convergence: a run makes IAM mirror the CMDB, and the next run is quiet

    Against a backend that satisfies [LawfulBackend]: after a run in which
    the read, the listing and every dry run answered and both mutations
    succeeded, the module resources IAM lists for the business have exactly
    the keys of the modules the CMDB holds ([sync_establishes_consistency]),
    and a second run on the state the first one left issues no mutation and
    changes nothing ([second_run_quiet]).  Both rest on a fact about the
    diff alone: it is empty exactly when the two sides have the same keys
    ([diff_quiet_iff_consistent]). *)

From S2P Require Import Prelude GoString Meta Codec Effects Handler.
From S2P Require Import Backend Steps DiffEngine HandlerSpec Mutations.
From S2P Require Import BackendLaws.

(** ** The fixed point of the diff *)

(** IAM and the CMDB agree: the listed resources and the resolved modules
    have the same keys. *)
Definition consistent (realResources : list BackendResource)
    (resolved : list Resolved) : Prop :=
  ∀ k, k ∈ iamKeys realResources ↔ k ∈ cmdbKeys resolved.

Lemma toRegister_nil_iff realResources resolved :
  toRegister realResources resolved = []
  ↔ ∀ k, k ∈ cmdbKeys resolved → k ∈ iamKeys realResources.
Proof.
  unfold toRegister, cmdbKeys.
  rewrite <-length_zero_iff_nil, length_fmap, filter_length_0.
  split.
  - intros H k (p & -> & Hp)%list_elem_of_fmap. by apply dec_stable, (H p).
  - intros H p Hp Hk. apply Hk, H, list_elem_of_fmap. eauto.
Qed.

Lemma toDeregister_nil_iff realResources resolved :
  toDeregister realResources resolved = []
  ↔ ∀ k, k ∈ iamKeys realResources → k ∈ cmdbKeys resolved.
Proof.
  unfold toDeregister, iamKeys. rewrite filter_nil_iff, Forall_forall. split.
  - intros H k (b & -> & Hb)%list_elem_of_fmap. by apply dec_stable, (H b).
  - intros H b Hb Hk. apply Hk, H, list_elem_of_fmap. eauto.
Qed.

Lemma consistent_quiet realResources resolved :
  consistent realResources resolved →
  toRegister realResources resolved = [] ∧
  toDeregister realResources resolved = [].
Proof.
  intros Hc. rewrite toRegister_nil_iff, toDeregister_nil_iff.
  split; intros k; apply Hc.
Qed.

(** The diff is at its fixed point exactly when IAM
    mirrors the CMDB: with fewer than 2^63 modules, the loop leaves nothing
    to register and nothing to deregister if and only if the listed
    resources and the resolved modules have the same keys. *)
Theorem diff_quiet_iff_consistent realResources resolved :
  (Z.of_nat (length resolved) < 2 ^ 63)%Z →
  let st := diffPure (initDiffState realResources) resolved in
  needRegister st = [] ∧
  collectDeregister (iamResourceKeyMap st) realResources = []
  ↔ consistent realResources resolved.
Proof.
  intros Hlen. cbn zeta.
  rewrite diffPure_toRegister, diffPure_toDeregister by done.
  rewrite toRegister_nil_iff, toDeregister_nil_iff. unfold consistent.
  naive_solver.
Qed.

(** ** The keys after a registration and a deregistration *)

(** The resolved modules the loop hands to the registration, with their
    entities. *)
Definition missingPairs (realResources : list BackendResource)
    (resolved : list Resolved) : list Resolved :=
  filter (λ p, generateCMDBResourceKey p.2 ∉ iamKeys realResources) resolved.

(** What IAM lists once the missing modules are registered and the stale
    resources deregistered. *)
Definition mirrors (l l' : list BackendResource) (resolved : list Resolved) : Prop :=
  ∀ b, b ∈ l' ↔
    (b ∈ l ∨
     b ∈ backendOfEntity <$> (missingPairs (filter isModuleResource l) resolved).*2) ∧
    b ∉ toDeregister (filter isModuleResource l) resolved.

Lemma elem_of_cmdbKeys (p : Resolved) resolved :
  p ∈ resolved → generateCMDBResourceKey p.2 ∈ cmdbKeys resolved.
Proof. intros Hp. unfold cmdbKeys. apply list_elem_of_fmap. eauto. Qed.

Lemma not_elem_of_toDeregister realResources resolved b :
  generateIAMResourceKey b ∈ cmdbKeys resolved →
  b ∉ toDeregister realResources resolved.
Proof. unfold toDeregister. rewrite list_elem_of_filter. naive_solver. Qed.

Lemma isModuleResource_nonempty (b : BackendResource) :
  isModuleResource b = true → b ≠ [].
Proof. by intros Hb ->. Qed.

Lemma mirrors_consistent l l' resolved :
  Forall (λ p, isModuleResource (backendOfEntity p.2) = true) resolved →
  mirrors l l' resolved →
  consistent (filter isModuleResource l') resolved.
Proof.
  rewrite Forall_forall. intros Hmark Hin k. split.
  - intros (b & -> & [Hmod [[Hb|Hb] Hnd]%Hin]%list_elem_of_filter)%list_elem_of_fmap.
    + apply dec_stable. intros Hk. apply Hnd, list_elem_of_filter.
      split; [done|]. by apply list_elem_of_filter.
    + apply list_elem_of_fmap in Hb as (e & -> & Hb).
      apply list_elem_of_fmap in Hb as (p & -> & [_ Hp]%list_elem_of_filter).
      rewrite key_sides_agree. by apply elem_of_cmdbKeys.
  - intros (p & -> & Hp)%list_elem_of_fmap. apply list_elem_of_fmap.
    destruct (decide (generateCMDBResourceKey p.2
                        ∈ iamKeys (filter isModuleResource l))) as [Hk|Hk].
    + apply list_elem_of_fmap in Hk as (b & Hkey & Hb). exists b. split; [done|].
      apply list_elem_of_filter in Hb as Hb'. destruct Hb' as [Hmod Hbl].
      apply list_elem_of_filter. split; [done|]. apply Hin. split; [by left|].
      apply not_elem_of_toDeregister. rewrite <-Hkey. by apply elem_of_cmdbKeys.
    + exists (backendOfEntity p.2). rewrite key_sides_agree. split; [done|].
      apply list_elem_of_filter. split; [by apply Is_true_true, Hmark|].
      apply Hin. split.
      * right. apply list_elem_of_fmap_2, list_elem_of_fmap_2.
        by apply list_elem_of_filter.
      * apply not_elem_of_toDeregister. rewrite key_sides_agree.
        by apply elem_of_cmdbKeys.
Qed.

Lemma mirrors_nonempty l l' resolved :
  Forall (λ p, isModuleResource (backendOfEntity p.2) = true) resolved →
  Forall (λ r, r ≠ []) l →
  mirrors l l' resolved →
  Forall (λ r, r ≠ []) l'.
Proof.
  rewrite !Forall_forall. intros Hmark Hne Hin b [[Hb|Hb] _]%Hin; [by apply Hne|].
  apply list_elem_of_fmap in Hb as (e & -> & Hb).
  apply list_elem_of_fmap in Hb as (p & -> & [_ Hp]%list_elem_of_filter).
  by apply isModuleResource_nonempty, Hmark.
Qed.

Section convergence.
Context {W : Type} `{!Collaborators W} `{!LawfulBackend W}.
Implicit Types (s : St W) (w : W) (biz : BusinessSimplify).

(** ** Inspection leaves the world alone *)

Lemma keeps_fetchAndList task : keeps (fetchAndList task : M W _).
Proof.
  unfold fetchAndList, assertBusinessSimplify, readInstances, skipIfNoInstances,
    extractModules, extractModule, listResources, filterRealResources,
    filterStep, lastLayer.
  solve_keeps ltac:(first [apply ReadInstance_pure|apply ListResources_pure]).
Qed.

Lemma keeps_resolveModules biz moduleArr :
  keeps (resolveModules biz moduleArr : M W _).
Proof.
  unfold resolveModules, resolveStep. solve_keeps ltac:(apply DryRun_pure).
Qed.

Lemma world_afterRead biz s : world (afterRead biz s) = world s.
Proof. unfold afterRead, readOp. rewrite world_afterCall. apply ReadInstance_pure. Qed.

Lemma world_afterExtract biz instances s :
  world (afterExtract biz instances s) = world s.
Proof. unfold afterExtract. by rewrite world_emits, world_afterRead. Qed.

Lemma world_afterFilter biz instances resultResources s :
  world (afterFilter biz instances resultResources s) = world s.
Proof.
  unfold afterFilter, afterList, listOp.
  by rewrite world_emit, world_afterCall, ListResources_pure, world_afterExtract.
Qed.

(** C22 (safety).  Against a lawful backend a run that does not return
    [nil] has no effect: whether a call failed or the function panicked,
    the CMDB and IAM are as the run found them. *)
Theorem failed_run_keeps_world task s :
  (HandleModuleSync task s).1 ≠ Returned None →
  world (HandleModuleSync task s).2 = world s.
Proof.
  rewrite HandleModuleSync_split. unfold runBody. rewrite bind_run.
  pose proof (keeps_fetchAndList task s) as Hfetch.
  destruct (fetchAndList task s) as [[[[biz mods] real]|e|p] s1]; [|done..].
  rewrite reconcile_run. pose proof (keeps_resolveModules biz mods s1) as Hres.
  destruct (resolveModules biz mods s1) as [[resolved|e|p] s2]; [done|..];
    simpl in *; congruence.
Qed.

(** ** The dry runs of a run *)

(** What the loop resolved: resources of modules of the loop, each with the
    entity its dry run answers with. *)
Lemma resolveLoop_lawful biz acc moduleArr s resolved s1 :
  forRange (resolveStep biz) acc moduleArr s = (Val resolved, s1) →
  ∃ new, resolved = acc ++ new ∧
    Forall (λ p, (∃ module, module ∈ moduleArr ∧ p.1 = moduleResource biz module) ∧
                 resolvesTo (world s) p.1 p.2) new.
Proof.
  revert acc s. induction moduleArr as [|module moduleArr IH]; intros acc s.
  - intros [= <- <-]. exists []. by rewrite app_nil_r.
  - rewrite resolveLoop_cons. cbn zeta.
    destruct (answer _ _) as [err|target] eqn:Hans; [done|].
    intros (new & -> & Hnew)%IH.
    rewrite world_emits, world_afterCall, DryRun_pure in Hnew.
    eexists. split; [by rewrite <-app_assoc|]. apply Forall_app. split.
    + eapply Forall_impl; [apply resolvedBy_spec|]. intros p [Hp Ht].
      split; [exists module; set_solver|].
      unfold resolvesTo. rewrite Hp, <-Ht. exact Hans.
    + eapply Forall_impl; [exact Hnew|]. set_solver.
Qed.

(** The loop resolves the same in worlds with the same CMDB. *)
Lemma resolveLoop_sameCMDB biz acc moduleArr s s' :
  sameCMDB (world s) (world s') →
  (forRange (resolveStep biz) acc moduleArr s').1
  = (forRange (resolveStep biz) acc moduleArr s).1.
Proof.
  revert acc s s'. induction moduleArr as [|module moduleArr IH];
    intros acc s s' Hsame; [done|].
  rewrite !resolveLoop_cons. cbn zeta. unfold answer. rewrite (proj2 Hsame).
  destruct (DryRunRegisterResource _ (world s)).1 as [err|target]; [done|].
  apply IH. by rewrite !world_emits, !world_afterCall, !DryRun_pure.
Qed.

(** ** The world a run leaves when its mutations succeed *)

(** The world after the two mutation steps. *)
Definition afterRegister w (toReg : list ResourceAttribute) : W :=
  if decide (toReg = []) then w else (RegisterResource toReg w).2.

Definition afterDeregister w (sc : ScopeInfo) (toDereg : list BackendResource) : W :=
  if decide (toDereg = []) then w else (RawDeregisterResource sc toDereg w).2.

Definition worldAfter w toReg sc toDereg : W :=
  afterDeregister (afterRegister w toReg) sc toDereg.

(** Both mutation calls, when made, answer without error. *)
Definition mutationsSucceed w toReg sc toDereg : Prop :=
  (toReg ≠ [] → (RegisterResource toReg w).1 = None) ∧
  (toDereg ≠ [] →
   (RawDeregisterResource sc toDereg (afterRegister w toReg)).1 = None).

Lemma world_registerMissing toReg s :
  world (registerMissing toReg s).2 = afterRegister (world s) toReg.
Proof.
  rewrite registerMissing_run. unfold afterRegister. case_decide; [done|].
  simpl. by destruct (answer _ _).
Qed.

Lemma world_deregisterStale sc toDereg s :
  world (deregisterStale sc toDereg s).2 = afterDeregister (world s) sc toDereg.
Proof.
  rewrite deregisterStale_run. unfold afterDeregister. simpl.
  case_decide; [done|]. by destruct (answer _ _).
Qed.

Lemma world_applyMutations toReg sc toDereg s :
  world (applyMutations toReg sc toDereg s) = worldAfter (world s) toReg sc toDereg.
Proof.
  unfold applyMutations, worldAfter.
  by rewrite world_deregisterStale, world_registerMissing.
Qed.

Lemma afterRegister_sameCMDB w toReg : sameCMDB w (afterRegister w toReg).
Proof. unfold afterRegister. case_decide; [done|apply Register_frame]. Qed.

Lemma afterDeregister_sameCMDB w sc toDereg :
  sameCMDB w (afterDeregister w sc toDereg).
Proof. unfold afterDeregister. case_decide; [done|apply Deregister_frame]. Qed.

Lemma worldAfter_sameCMDB w toReg sc toDereg :
  sameCMDB w (worldAfter w toReg sc toDereg).
Proof.
  unfold worldAfter. etrans; [apply afterRegister_sameCMDB|].
  apply afterDeregister_sameCMDB.
Qed.

(** The world after any run: untouched, or changed by the two mutation
    steps of a run that got past the dry runs. *)
Lemma run_world task s :
  world (HandleModuleSync task s).2 = world s ∨
  ∃ biz instances resultResources resolved s1,
    Resolves task s biz instances resultResources resolved s1 ∧
    world (HandleModuleSync task s).2
    = worldAfter (world s)
        (toRegister (filter isModuleResource resultResources) resolved)
        (lastScope zeroScope resolved)
        (collectDeregister
           (hitMap (filter isModuleResource resultResources) resolved)
           (filter isModuleResource resultResources)).
Proof.
  rewrite HandleModuleSync_split. unfold runBody. rewrite bind_run.
  pose proof (keeps_fetchAndList task s) as Hfetch.
  destruct (fetchAndList task s) as [[[[biz mods] real]|e|p] s1] eqn:Hf;
    [|by left..].
  apply fetchAndList_val in Hf as (instances & resultResources & Hl & Hne & -> & -> & ->).
  rewrite reconcile_run.
  pose proof (keeps_resolveModules biz (parsedModules instances)
                (afterFilter biz instances resultResources s)) as Hres.
  destruct (resolveModules _ _ _) as [[resolved|e|p] s2] eqn:Hr;
    [|left; simpl in *; congruence..].
  right. exists biz, instances, resultResources, resolved, s2. split; [done|].
  cbn [snd] in *. rewrite world_applyMutations, world_emits, Hres, Hfetch.
  by rewrite diffPure_toRegister, diffPure_scope.
Qed.

(** ** What IAM lists after the mutations *)

Lemma listing_afterRegister biz w l (pairs : list Resolved) :
  listing biz w = inr l →
  Forall (λ p, moduleOf biz p.1 ∧ resolvesTo w p.1 p.2) pairs →
  (pairs.*1 ≠ [] → (RegisterResource pairs.*1 w).1 = None) →
  ∃ l1, listing biz (afterRegister w pairs.*1) = inr l1 ∧
    ∀ b, b ∈ l1 ↔ b ∈ l ∨ b ∈ backendOfEntity <$> pairs.*2.
Proof.
  intros Hl Hpairs Hreg. unfold afterRegister. case_decide as Hnil.
  - apply fmap_nil_inv in Hnil as ->. exists l. set_solver.
  - apply Register_lists; [|done|by apply Hreg].
    apply Forall2_fmap, Forall_Forall2_diag. exact Hpairs.
Qed.

Lemma listing_afterDeregister biz w l sc ds r e :
  listing biz w = inr l →
  moduleOf biz r → resolvesTo w r e → sc = EntityScope e →
  (ds ≠ [] → (RawDeregisterResource sc ds w).1 = None) →
  ∃ l2, listing biz (afterDeregister w sc ds) = inr l2 ∧
    ∀ b, b ∈ l2 ↔ b ∈ l ∧ b ∉ ds.
Proof.
  intros Hl Hr He Hsc Hdereg. unfold afterDeregister. case_decide as Hnil.
  - subst ds. exists l. set_solver.
  - eapply Deregister_lists; eauto.
Qed.

(** ** A run from a world that answers alike *)

(** A run gets as far, and resolves the same modules, from every state
    whose world has the same CMDB and a listing without empty resources. *)
Lemma Resolves_sameCMDB task s s' biz instances l l' resolved s1 :
  Resolves task s biz instances l resolved s1 →
  sameCMDB (world s) (world s') →
  listing biz (world s') = inr l' → Forall (λ r, r ≠ []) l' →
  ∃ s2, Resolves task s' biz instances l' resolved s2.
Proof.
  intros ([(Hd & Hr & Hne0) Hl] & Hne & Hr1) Hsame Hl' Hne'.
  eexists. split_and!; [split; [split_and!; [done| |done]|]|done|].
  - unfold answer, readOp in *. by rewrite (proj1 Hsame).
  - unfold answer, listOp. by rewrite world_afterExtract.
  - apply run_val_eta. unfold resolveModules in *.
    rewrite (resolveLoop_sameCMDB biz [] _ (afterFilter biz instances l s)), Hr1;
      [done|].
    by rewrite !world_afterFilter.
Qed.

(** ** A run whose mutations succeed *)

Lemma mutationCalls_nil sc : mutationCalls [] sc [] = [].
Proof. reflexivity. Qed.

(** ** A run that finds IAM consistent *)

(** A run that finds IAM consistent with the modules it resolves returns
    [nil], calls no mutation and leaves the world as it is. *)
Lemma consistent_run_quiet task s biz instances l resolved s1 :
  Resolves task s biz instances l resolved s1 →
  consistent (filter isModuleResource l) resolved →
  (Z.of_nat (length instances) < 2 ^ 63)%Z →
  (HandleModuleSync task s).1 = Returned None ∧
  world (HandleModuleSync task s).2 = world s ∧
  ∃ evs, trace (HandleModuleSync task s).2 = trace s ++ evs ∧
    ∀ c, c ∈ calls evs → is_mutation c = false.
Proof.
  intros Hres [Hreg Hdereg]%consistent_quiet Hlen.
  rewrite (HandleModuleSync_Resolves _ _ _ _ _ _ _ Hres Hlen), Hreg, Hdereg.
  destruct Hres as (Hl & Hne & Hr).
  pose proof (keeps_resolveModules biz (parsedModules instances)
                (afterFilter biz instances l s)) as Hk.
  rewrite Hr in Hk. cbn [snd] in Hk. rewrite world_afterFilter in Hk.
  split_and!; [done|cbn [snd]; by rewrite world_applyMutations, world_emits, Hk|].
  edestruct applyMutations_calls as (evs3 & Htr3 & Hc3).
  destruct (adds_resolveModules biz (parsedModules instances)
              (afterFilter biz instances l s)) as (evs2 & Htr2 & Hevs2).
  rewrite Hr in Htr2. cbn [snd] in Htr2.
  eexists. split.
  { cbn [snd]. by rewrite Htr3, trace_emits, Htr2, trace_afterFilter, <-!app_assoc. }
  intros c. rewrite !calls_app, calls_parseFailures, Hc3, mutationCalls_nil.
  simpl. rewrite app_nil_r, !elem_of_cons. intros [->|[->|Hc]]; [done..|].
  eapply notMutation_calls; [|done].
  eapply Forall_impl; eauto using dryRunEvent_notMutation.
Qed.

Section first_run.
Context (task : WorkRequest) (s : St W) (biz : BusinessSimplify).
Context (instances : list MapStr) (resultResources : list BackendResource).
Context (resolved : list Resolved) (s1 : St W).

#[local] Abbreviation realResources := (filter isModuleResource resultResources).
#[local] Abbreviation toReg := (toRegister realResources resolved).
#[local] Abbreviation toDereg := (toDeregister realResources resolved).
#[local] Abbreviation sc := (lastScope zeroScope resolved).

Context (Hres : Resolves task s biz instances resultResources resolved s1).

Lemma first_run_resolved :
  Forall (λ p, (∃ module, p.1 = moduleResource biz module) ∧
               resolvesTo (world s) p.1 p.2) resolved.
Proof.
  destruct Hres as (_ & _ & (new & -> & Hnew)%resolveLoop_lawful).
  rewrite world_afterFilter in Hnew. simpl.
  eapply Forall_impl; [exact Hnew|]. naive_solver.
Qed.

Lemma first_run_marker :
  Forall (λ p, isModuleResource (backendOfEntity p.2) = true) resolved.
Proof.
  eapply Forall_impl; [exact first_run_resolved|].
  intros [r e] [[module ->] He]. by eapply DryRun_marker.
Qed.

Lemma first_run_listing : listing biz (world s) = inr resultResources.
Proof.
  destruct Hres as ([_ Hl] & _). unfold answer, listOp in Hl.
  by rewrite world_afterExtract in Hl.
Qed.

Context (Hsome : resolved ≠ []).
Context (Hlen : (Z.of_nat (length instances) < 2 ^ 63)%Z).

Lemma first_run_length : (Z.of_nat (length resolved) < 2 ^ 63)%Z.
Proof.
  destruct Hres as (_ & _ & Hlen'%resolveModules_length).
  pose proof (parsedModules_length instances). lia.
Qed.


Lemma first_run_world :
  world (HandleModuleSync task s).2 = worldAfter (world s) toReg sc toDereg.
Proof.
  rewrite (HandleModuleSync_Resolves _ _ _ _ _ _ _ Hres Hlen).
  cbn [snd]. rewrite world_applyMutations, world_emits.
  destruct Hres as (_ & _ & Hr).
  pose proof (keeps_resolveModules biz (parsedModules instances)
                (afterFilter biz instances resultResources s)) as Hk.
  rewrite Hr in Hk. cbn [snd] in Hk. by rewrite Hk, world_afterFilter.
Qed.

(** The modules IAM does not list are module resources of the business,
    each with what its dry run resolved to. *)
Lemma first_run_missing :
  Forall (λ p, moduleOf biz p.1 ∧ resolvesTo (world s) p.1 p.2)
    (missingPairs realResources resolved).
Proof.
  apply Forall_forall. intros p [_ Hp]%list_elem_of_filter.
  pose proof first_run_resolved as Hfacts. rewrite Forall_forall in Hfacts.
  destruct (Hfacts p Hp) as [[module ->] ?]. by split.
Qed.

(** The scope of the deregistration is the scope of a module of the
    business. *)
Lemma first_run_scope :
  ∃ p : Resolved, moduleOf biz p.1 ∧ resolvesTo (world s) p.1 p.2 ∧
    sc = EntityScope p.2.
Proof.
  destruct (last resolved) as [p|] eqn:Hlast; [|by apply last_None in Hlast].
  pose proof first_run_resolved as Hfacts. rewrite Forall_forall in Hfacts.
  destruct (Hfacts p) as [[module Hp] He]; [by eapply last_Some_elem_of|].
  exists p. split_and!; [by rewrite Hp|done|by unfold lastScope; rewrite Hlast].
Qed.

Context (Hmut : mutationsSucceed (world s) toReg sc toDereg).

(** What IAM lists after the run. *)
Lemma first_run_mirrors :
  ∃ l', listing biz (worldAfter (world s) toReg sc toDereg) = inr l' ∧
    mirrors resultResources l' resolved.
Proof.
  destruct (listing_afterRegister biz (world s) resultResources
              (missingPairs realResources resolved))
    as (l1 & Hl1 & Hin1); [apply first_run_listing|apply first_run_missing|apply Hmut|].
  destruct first_run_scope as (p & Hp & He & Hsc).
  destruct (listing_afterDeregister biz (afterRegister (world s) toReg) l1 sc
              toDereg p.1 p.2) as (l2 & Hl2 & Hin2);
    [done|done|by rewrite <-afterRegister_sameCMDB|done|apply Hmut|].
  exists l2. split; [done|]. intros b. by rewrite Hin2, Hin1.
Qed.

Lemma first_run_consistent :
  ∃ l', listing biz (world (HandleModuleSync task s).2) = inr l' ∧
    consistent (filter isModuleResource l') resolved.
Proof.
  rewrite first_run_world.
  destruct first_run_mirrors as (l' & Hl' & Hin). exists l'. split; [done|].
  eapply mirrors_consistent; [apply first_run_marker|done].
Qed.

(** C5 (functional).  After a run in which the read, the listing and every
    dry run answered, at least one module resolved and both mutations
    succeeded, IAM mirrors the CMDB: against a lawful backend, the module
    resources IAM then lists for the business have exactly the keys of the
    resolved modules, and the CMDB is as it was. *)
Theorem sync_establishes_consistency :
  let w' := world (HandleModuleSync task s).2 in
  sameCMDB (world s) w' ∧
  ∃ l', listing biz w' = inr l' ∧
    consistent (filter isModuleResource l') resolved.
Proof.
  cbn zeta. split; [|apply first_run_consistent].
  rewrite first_run_world. apply worldAfter_sameCMDB.
Qed.

(** The second run gets as far as the first, resolves the same modules and
    finds IAM consistent with them. *)
Lemma second_run_Resolves :
  let s' := (HandleModuleSync task s).2 in
  ∃ l' s2, Resolves task s' biz instances l' resolved s2 ∧
    consistent (filter isModuleResource l') resolved.
Proof.
  cbn zeta. pose proof first_run_world as Hw.
  destruct first_run_mirrors as (l' & Hl' & Hin). rewrite <-Hw in Hl'.
  destruct (Resolves_sameCMDB task s (HandleModuleSync task s).2 biz instances
              resultResources l' resolved s1) as [s2 Hres']; [done| |done| |].
  - rewrite Hw. apply worldAfter_sameCMDB.
  - eapply mirrors_nonempty; [apply first_run_marker|apply Hres|exact Hin].
  - exists l', s2. split; [done|].
    by eapply mirrors_consistent, Hin; apply first_run_marker.
Qed.

(** C4 (functional).  Idempotence: against a lawful backend, a second run
    on the state such a run has left returns [nil], makes no mutation call
    and leaves the world as the first run left it. *)
Theorem second_run_quiet :
  let s' := (HandleModuleSync task s).2 in
  (HandleModuleSync task s').1 = Returned None ∧
  world (HandleModuleSync task s').2 = world s' ∧
  ∃ evs, trace (HandleModuleSync task s').2 = trace s' ++ evs ∧
    ∀ c, c ∈ calls evs → is_mutation c = false.
Proof.
  cbn zeta. destruct second_run_Resolves as (l' & s2 & Hres' & Hcons).
  by eapply consistent_run_quiet.
Qed.

End first_run.

End convergence.

(** ** In the sample world *)

Lemma exWorld_Resolves :
  Resolves exTask (initSt exWorld) exBusiness exInstances exReal exResolved
    (resolveModules exBusiness (parsedModules exInstances)
       (afterFilter exBusiness exInstances exReal (initSt exWorld))).2.
Proof. split_and!; [by apply exWorld_Listed|apply exReal_nonempty|reflexivity]. Qed.

Lemma exWorld_mutationsSucceed :
  mutationsSucceed exWorld
    (toRegister (filter isModuleResource exReal) exResolved)
    (lastScope zeroScope exResolved)
    (toDeregister (filter isModuleResource exReal) exResolved).
Proof. split; intros _; reflexivity. Qed.

Lemma failed_run_keeps_world_witness :
  world (HandleModuleSync exTask (initSt exWorldDryRunFails)).2 = exWorldDryRunFails.
Proof.
  apply (failed_run_keeps_world exTask (initSt exWorldDryRunFails)).
  vm_compute. discriminate.
Defined.

Lemma diff_quiet_iff_consistent_witness :
  let st := diffPure (initDiffState exReal) exResolved in
  needRegister st = [] ∧ collectDeregister (iamResourceKeyMap st) exReal = []
  ↔ consistent exReal exResolved.
Proof. apply (diff_quiet_iff_consistent exReal exResolved). simpl. lia. Defined.

Lemma sync_establishes_consistency_witness :
  let w' := world (HandleModuleSync exTask (initSt exWorld)).2 in
  sameCMDB exWorld w' ∧
  ∃ l', listing exBusiness w' = inr l' ∧
    consistent (filter isModuleResource l') exResolved.
Proof.
  apply (sync_establishes_consistency exTask (initSt exWorld) exBusiness
           exInstances exReal exResolved _ exWorld_Resolves);
    [done|simpl; lia|apply exWorld_mutationsSucceed].
Defined.

Lemma second_run_quiet_witness :
  let s' := (HandleModuleSync exTask (initSt exWorld)).2 in
  (HandleModuleSync exTask s').1 = Returned None ∧
  world (HandleModuleSync exTask s').2 = world s' ∧
  ∃ evs, trace (HandleModuleSync exTask s').2 = trace s' ++ evs ∧
    ∀ c, c ∈ calls evs → is_mutation c = false.
Proof.
  apply (second_run_quiet exTask (initSt exWorld) exBusiness exInstances exReal
           exResolved _ exWorld_Resolves);
    [done|simpl; lia|apply exWorld_mutationsSucceed].
Defined.

(** The calls of the second run in the sample world: it reads, lists and
    resolves, and stops there. *)
Example sample_second_run :
  let s' := initSt (world (HandleModuleSync exTask (initSt exWorld)).2) in
  calls (trace (HandleModuleSync exTask s').2)
  = [readCall exBusiness; listCall exBusiness;
     CallDryRunRegisterResource (exResource exModule1);
     CallDryRunRegisterResource (exResource exModule2)].
Proof. vm_compute. reflexivity. Qed.

(** When the registration fails the first run leaves module "db" missing,
    and the second run asks for it again. *)
Example sample_retry_after_failure :
  let s' := initSt (world (HandleModuleSync exTask (initSt exWorldMutationsFail)).2) in
  filter (λ c, is_mutation c) (calls (trace (HandleModuleSync exTask s').2))
  = [CallRegisterResource [exResource exModule2];
     CallRawDeregisterResource (scopeOfBusiness 2) [exBackend exModule3]].
Proof. vm_compute. reflexivity. Qed.
