(* ===== verification/Isolation.v ===== *)
(** * Isolation: a run touches the resources of its own business only

    The function hands IAM resources of one business and the scope a dry
    run of that business resolved to.  Against a backend that keeps
    businesses apart ([ScopedBackend]: a registration lists under the
    business of the resource, a deregistration removes under its scope
    only, and every business has a scope of its own), what IAM lists for
    any other business is the same before and after any run
    ([sync_leaves_other_businesses]).  The reference backend keeps
    businesses apart. *)

From stdpp Require Import pretty.
From S2P Require Import Prelude GoString Meta Codec Effects Handler.
From S2P Require Import Backend Steps DiffEngine HandlerSpec Mutations.
From S2P Require Import BackendLaws Convergence.

Section scoped.
Context {W : Type} `{!Collaborators W}.

Class ScopedBackend := {
  (** The scope of a business, by its id. *)
  scopeOf : Z → ScopeInfo;
  scopeOf_inj b b' : scopeOf b = scopeOf b' → b = b';
  scopeOf_nonzero b : scopeOf b ≠ zeroScope;
  (** A dry run resolves to the scope of the resource's business. *)
  DryRun_scope w r e :
    resolvesTo w r e → EntityScope e = scopeOf (BusinessID r);
  (** Registering resources of other businesses changes nothing here. *)
  Register_other biz w rs :
    Forall (λ r, BusinessID r ≠ BKAppIDField biz) rs →
    listing biz (RegisterResource rs w).2 = listing biz w;
  (** Nor does deregistering under another scope. *)
  Deregister_other biz w sc ds :
    sc ≠ scopeOf (BKAppIDField biz) →
    listing biz (RawDeregisterResource sc ds w).2 = listing biz w;
}.

Context `{!LawfulBackend W} `{!ScopedBackend}.
Implicit Types (s : St W) (w : W) (biz : BusinessSimplify).

Lemma listing_afterRegister_other biz biz' w (toReg : list ResourceAttribute) :
  BKAppIDField biz' ≠ BKAppIDField biz →
  Forall (λ r, ∃ module, r = moduleResource biz module) toReg →
  listing biz' (afterRegister w toReg) = listing biz' w.
Proof.
  intros Hne HtoReg. unfold afterRegister. case_decide; [done|].
  apply Register_other. eapply Forall_impl; [exact HtoReg|].
  by intros r [module ->].
Qed.

Lemma listing_afterDeregister_other biz' w sc toDereg :
  sc ≠ scopeOf (BKAppIDField biz') →
  listing biz' (afterDeregister w sc toDereg) = listing biz' w.
Proof.
  intros Hsc. unfold afterDeregister. case_decide; [done|].
  by apply Deregister_other.
Qed.

(** The scope the loop leaves is the zero scope or the scope of the
    business. *)
Lemma lastScope_of_business biz biz' moduleArr s resolved s1 :
  BKAppIDField biz' ≠ BKAppIDField biz →
  resolveModules biz moduleArr s = (Val resolved, s1) →
  lastScope zeroScope resolved ≠ scopeOf (BKAppIDField biz').
Proof.
  intros Hne (new & -> & Hnew)%resolveLoop_lawful. simpl. unfold lastScope.
  destruct (last new) as [p|] eqn:Hlast; [|by intros ?%symmetry%scopeOf_nonzero].
  apply last_Some_elem_of in Hlast. rewrite Forall_forall in Hnew.
  destruct (Hnew p Hlast) as [(module & _ & Hp) ->%DryRun_scope].
  rewrite Hp. simpl. by intros ?%scopeOf_inj.
Qed.

(** C23 (safety).  Isolation of businesses: against a lawful backend that
    keeps businesses apart, a run for one business, however it ends, leaves
    what IAM lists for every other business as it was. *)
Theorem sync_leaves_other_businesses task s biz biz' :
  Data task = DataBusiness biz →
  BKAppIDField biz' ≠ BKAppIDField biz →
  listing biz' (world (HandleModuleSync task s).2) = listing biz' (world s).
Proof.
  intros Hd Hne.
  destruct (run_world task s)
    as [->|(biz0 & instances & resultResources & resolved & s1 & Hres & ->)];
    [done|].
  destruct Hres as ([(Hd' & _) _] & _ & Hr). rewrite Hd in Hd'. injection Hd' as <-.
  unfold worldAfter.
  rewrite listing_afterDeregister_other
    by (by eapply lastScope_of_business).
  apply (listing_afterRegister_other biz); [done|].
  apply Forall_forall. intros r (e & Hin & _)%elem_of_toRegister.
  destruct (resolved_from_modules _ _ _ _ _ _ _ Hr Hin) as (module & _ & ->).
  by exists module.
Qed.

End scoped.

Arguments ScopedBackend W {_}.

(** ** The reference backend keeps businesses apart *)

Lemma resourcesOf_other biz (rs : list ResourceAttribute) :
  Forall (λ r, BusinessID r ≠ BKAppIDField biz) rs →
  resourcesOf biz ((λ r, (BusinessID r, backendOfEntity (canonicalEntity r))) <$> rs)
  = [].
Proof.
  induction 1 as [|r rs Hr _ IH]; [done|].
  by rewrite fmap_cons, resourcesOf_cons, decide_False.
Qed.

Lemma resourcesOf_filter_scope biz sc (ds : list BackendResource)
    (registry : list (Z * BackendResource)) :
  sc ≠ scopeOfBusiness (BKAppIDField biz) →
  resourcesOf biz
    (filter (λ p, ¬ (scopeOfBusiness p.1 = sc ∧ p.2 ∈ ds)) registry)
  = resourcesOf biz registry.
Proof.
  intros Hsc. induction registry as [|[b x] registry IH]; [done|].
  rewrite filter_cons, !resourcesOf_cons. simpl.
  destruct (decide (b = BKAppIDField biz)) as [->|Hb].
  - rewrite decide_True by naive_solver.
    by rewrite resourcesOf_cons, decide_True, IH.
  - case_decide; [|done]. by rewrite resourcesOf_cons, decide_False.
Qed.

#[export] Instance refBackend_scoped : ScopedBackend RefWorld.
Proof.
  refine {| scopeOf := scopeOfBusiness |}.
  - intros b b' [= Hb]. by apply (inj pretty).
  - done.
  - by intros w r e ->%refDryRun_resolves.
  - intros biz w rs Hrs. rewrite !listing_ref. simpl. unfold refRegister.
    destruct (registerError _); [done|]. simpl.
    by rewrite resourcesOf_app, resourcesOf_other, app_nil_r.
  - intros biz w sc ds Hsc. rewrite !listing_ref. simpl. unfold refDeregister.
    destruct (deregisterError _); [done|]. simpl.
    by rewrite resourcesOf_filter_scope.
Defined.

(** ** In the sample world *)

Lemma sync_leaves_other_businesses_witness :
  listing {| BKAppIDField := 5 |} (world (HandleModuleSync exTask (initSt exWorld)).2)
  = listing {| BKAppIDField := 5 |} exWorld.
Proof.
  apply (sync_leaves_other_businesses exTask (initSt exWorld) exBusiness
           {| BKAppIDField := 5 |}); [reflexivity|done].
Defined.
