(* ===== verification/Machine.v ===== *)
(** * Machine: the function as a machine that runs statement by statement

    [Handler] gives the function as one computation.  Here the same code is
    a transition system: a [Point] is a program point of the Go function
    together with the local variables that are live there, the loops are
    entered at their head with the index of the next element, and [step]
    runs the statements from one point to the next.  The bodies of the
    statements are the definitions of [Handler]. *)

From Stdlib Require Import Relation_Operators Wellfounded Lexicographic_Product.
From stdpp Require Import relations well_founded.
From S2P Require Import Prelude GoString Meta Codec Effects Handler.

Section machine.
Context {W : Type} `{!Collaborators W}.

(** The program points of [HandleModuleSync] and the variables live at
    each.  The [i] of a loop head is the index of the element the next turn
    takes. *)
Inductive Point :=
  | AtAssert                                               (* line 33 *)
  | AtRead (businessSimplify : BusinessSimplify)           (* line 34 *)
  | AtSkip (businessSimplify : BusinessSimplify)
           (instances : list MapStr)                       (* line 51 *)
  | AtExtract (businessSimplify : BusinessSimplify)
              (instances : list MapStr) (i : nat)
              (moduleArr : list ModuleSimplify)            (* line 58 *)
  | AtList (businessSimplify : BusinessSimplify)
           (moduleArr : list ModuleSimplify)               (* line 71 *)
  | AtFilter (businessSimplify : BusinessSimplify)
             (moduleArr : list ModuleSimplify)
             (resultResources : list BackendResource) (i : nat)
             (realResources : list BackendResource)        (* line 88 *)
  | AtInit (businessSimplify : BusinessSimplify)
           (moduleArr : list ModuleSimplify)
           (realResources : list BackendResource) (i : nat)
           (iamResourceKeyMap : gmap string Z)             (* line 97 *)
  | AtDiff (businessSimplify : BusinessSimplify)
           (moduleArr : list ModuleSimplify)
           (realResources : list BackendResource) (i : nat)
           (st : DiffState)                                (* line 107 *)
  | AtRegister (realResources : list BackendResource)
               (st : DiffState)                            (* line 139 *)
  | AtCollect (realResources : list BackendResource)
              (st : DiffState) (i : nat)
              (needDeregister : list BackendResource)      (* line 149 *)
  | AtDeregister (scope : ScopeInfo)
                 (needDeregister : list BackendResource)   (* line 155 *)
  | Done (o : Outcome).                                    (* after return *)

(** The statements from one program point to the next. *)
Definition stmt (task : WorkRequest) (p : Point) : M W Point :=
  match p with
  | AtAssert =>
      businessSimplify ← assertBusinessSimplify task;
      mret (AtRead businessSimplify)
  | AtRead businessSimplify =>
      instances ← readInstances businessSimplify;
      mret (AtSkip businessSimplify instances)
  | AtSkip businessSimplify instances =>
      skipIfNoInstances businessSimplify instances;;
      mret (AtExtract businessSimplify instances 0 [])
  | AtExtract businessSimplify instances i moduleArr =>
      match instances !! i with
      | Some instance =>
          moduleArr' ← extractModule moduleArr instance;
          mret (AtExtract businessSimplify instances (S i) moduleArr')
      | None =>
          blog (LogListModules (BKAppIDField businessSimplify) moduleArr);;
          mret (AtList businessSimplify moduleArr)
      end
  | AtList businessSimplify moduleArr =>
      resultResources ← listResources businessSimplify;
      mret (AtFilter businessSimplify moduleArr resultResources 0 [])
  | AtFilter businessSimplify moduleArr resultResources i realResources =>
      match resultResources !! i with
      | Some iamResources =>
          realResources' ← filterStep realResources iamResources;
          mret (AtFilter businessSimplify moduleArr resultResources (S i)
                  realResources')
      | None =>
          blog (LogRealResources realResources);;
          mret (AtInit businessSimplify moduleArr realResources 0 ∅)
      end
  | AtInit businessSimplify moduleArr realResources i iamResourceKeyMap =>
      match realResources !! i with
      | Some iamResource =>
          mret (AtInit businessSimplify moduleArr realResources (S i)
                  (initKeyStep iamResourceKeyMap iamResource))
      | None =>
          mret (AtDiff businessSimplify moduleArr realResources 0
                  {| iamResourceKeyMap := iamResourceKeyMap;
                     scope := zeroScope;
                     needRegister := [] |})
      end
  | AtDiff businessSimplify moduleArr realResources i st =>
      match moduleArr !! i with
      | Some module =>
          st' ← diffStep businessSimplify st module;
          mret (AtDiff businessSimplify moduleArr realResources (S i) st')
      | None =>
          blog (LogKeyMap (iamResourceKeyMap st));;
          blog (LogNeedRegister (needRegister st));;
          mret (AtRegister realResources st)
      end
  | AtRegister realResources st =>
      registerMissing (needRegister st);;
      mret (AtCollect realResources st 0 [])
  | AtCollect realResources st i needDeregister =>
      match realResources !! i with
      | Some iamResource =>
          mret (AtCollect realResources st (S i)
                  (collectStep (iamResourceKeyMap st) needDeregister iamResource))
      | None => mret (AtDeregister (scope st) needDeregister)
      end
  | AtDeregister scope needDeregister =>
      deregisterStale scope needDeregister;;
      mret (Done (Returned None))
  | Done o => mret (Done o)
  end.

(** A configuration: where the run is and the state it threads. *)
Definition Config : Type := Point * St W.

(** A statement that returns or panics takes the run to [Done]. *)
Definition exec (task : WorkRequest) (c : Config) : Config :=
  match stmt task c.1 c.2 with
  | (Val p, s) => (p, s)
  | (Return e, s) => (Done (Returned e), s)
  | (Panic g, s) => (Done (Panicked g), s)
  end.

Definition final (c : Config) : bool :=
  match c.1 with Done _ => true | _ => false end.

(** One step of the machine; a run that is done does not step. *)
Definition step (task : WorkRequest) : relation Config :=
  λ c c', final c = false ∧ c' = exec task c.

(** The machine run for [n] steps. *)
Fixpoint run (task : WorkRequest) (n : nat) (c : Config) : Config :=
  match n with
  | 0 => c
  | S n' => if final c then c else run task n' (exec task c)
  end.

Definition start (s : St W) : Config := (AtAssert, s).

(** ** The machine is deterministic and stops exactly when the run is done *)

Lemma step_exec task c : final c = false → step task c (exec task c).
Proof. done. Qed.

Lemma step_deterministic task : deterministic (step task).
Proof. intros c c1 c2 [_ ->] [_ ->]. done. Qed.

Lemma nf_final task c : nf (step task) c ↔ final c = true.
Proof.
  split.
  - intros Hnf. destruct (final c) eqn:Hf; [done|].
    destruct Hnf. by exists (exec task c).
  - intros Hf [c' [Hf' _]]. congruence.
Qed.

#[export] Instance red_step_dec task c : Decision (red (step task) c).
Proof.
  refine (cast_if (decide (final c = false)));
    abstract (first [by exists (exec task c)|intros [c' [? _]]; congruence]).
Defined.

Lemma run_S task n c :
  run task (S n) c = if final c then c else run task n (exec task c).
Proof. done. Qed.

Lemma run_final task n c : final c = true → run task n c = c.
Proof. intros Hf. destruct n; simpl; by rewrite ?Hf. Qed.

(** A run that is done stays as it is, and leaves the world alone. *)
Lemma exec_final task c : final c = true → exec task c = c.
Proof. destruct c as [[] s]; done. Qed.

Lemma run_S_r task n c : run task (S n) c = exec task (run task n c).
Proof.
  revert c. induction n as [|n IH]; intros c.
  - simpl. destruct (final c) eqn:Hf; [by rewrite exec_final|done].
  - rewrite run_S. destruct (final c) eqn:Hf.
    + by rewrite run_final, exec_final.
    + rewrite IH. simpl. by rewrite Hf.
Qed.

Lemma run_rtc task n c : rtc (step task) c (run task n c).
Proof.
  revert c. induction n as [|n IH]; intros c; simpl; [done|].
  destruct (final c) eqn:Hf; [done|]. by eapply rtc_l; [apply step_exec|].
Qed.

Lemma nsteps_run task n c c' : nsteps (step task) n c c' → run task n c = c'.
Proof.
  induction 1 as [|n c c1 c2 [Hf ->] _ IH]; [done|]. simpl. by rewrite Hf.
Qed.

(** ** Termination

    Every step either moves to a later phase of the function or stays at
    the head of a loop with fewer elements left. *)

Definition phase (p : Point) : nat :=
  match p with
  | AtAssert => 11 | AtRead _ => 10 | AtSkip _ _ => 9 | AtExtract _ _ _ _ => 8
  | AtList _ _ => 7 | AtFilter _ _ _ _ _ => 6 | AtInit _ _ _ _ _ => 5
  | AtDiff _ _ _ _ _ => 4 | AtRegister _ _ => 3 | AtCollect _ _ _ _ => 2
  | AtDeregister _ _ => 1 | Done _ => 0
  end.

Definition remaining (p : Point) : nat :=
  match p with
  | AtExtract _ instances i _ => length instances - i
  | AtFilter _ _ resultResources i _ => length resultResources - i
  | AtInit _ _ realResources i _ => length realResources - i
  | AtDiff _ moduleArr _ i _ => length moduleArr - i
  | AtCollect realResources _ i _ => length realResources - i
  | _ => 0
  end.

(** The order in which the measure decreases. *)
Definition before (p' p : Point) : Prop :=
  phase p' < phase p ∨ (phase p' = phase p ∧ remaining p' < remaining p).

(** Where a statement of the machine lands. *)
Definition land (m : M W Point) (s : St W) : Config :=
  match m s with
  | (Val p, s') => (p, s')
  | (Return e, s') => (Done (Returned e), s')
  | (Panic g, s') => (Done (Panicked g), s')
  end.

Lemma land_bind {A} (m : M W A) (k : A → M W Point) (Q : Point → Prop) s :
  (∀ o, Q (Done o)) →
  (∀ a s', m s = (Val a, s') → Q (land (k a) s').1) →
  Q (land (m ≫= k) s).1.
Proof.
  intros Hd Hk. unfold land at 1. rewrite bind_run.
  destruct (m s) as [[a|e|g] s'] eqn:Hm; simpl; [|done..]. by eapply Hk.
Qed.

Lemma land_ret (p : Point) (Q : Point → Prop) s : Q p → Q (land (mret p) s).1.
Proof. done. Qed.

End machine.

Arguments Config W : clear implicits.

(** [land_cases] reduces a property of the point a statement lands on to
    the points it names and to [Done]. *)
Ltac land_cases :=
  repeat first
    [ apply land_bind; [intros ?|intros ? ? ?] | apply land_ret | case_match ].

Section termination.
Context {W : Type} `{!Collaborators W}.
Implicit Types (c : Config W) (p : Point).

Lemma exec_land task c : exec task c = land (stmt task c.1) c.2.
Proof. done. Qed.

Lemma exec_before task c : final c = false → before (exec task c).1 c.1.
Proof.
  destruct c as [p s]. rewrite exec_land. unfold final. cbn [fst snd].
  destruct p; try done; intros _; cbn [stmt]; land_cases;
    try (left; simpl; lia);
    right; simpl; (split; [done|]);
    match goal with H : _ !! _ = Some _ |- _ => apply lookup_lt_Some in H end; lia.
Qed.

Lemma before_wf : well_founded before.
Proof.
  apply (wf_projected (slexprod _ _ lt lt) (λ p, (phase p, remaining p)));
    [|apply wf_slexprod; apply lt_wf].
  intros p' p [Hlt|[Heq Hlt]]; [by apply left_slex|].
  rewrite Heq. by apply right_slex.
Qed.

Lemma step_wf task : well_founded (flip (step task)).
Proof.
  apply (wf_projected before fst); [|apply before_wf].
  intros c' c [Hf ->]. by apply exec_before.
Qed.

(** C13 (termination).  The machine has no infinite run, from whatever
    configuration it is started: each of the five loops of the function
    ends, and so does the function.  The measure is the pair of the phase
    of the function and the number of elements a loop has left, ordered
    lexicographically. *)
Theorem machine_terminates task c : sn (step task) c.
Proof. apply step_wf. Qed.

(** Hence every configuration runs to a final one. *)
Lemma machine_finishes task c : ∃ o s', rtc (step task) c (Done o, s').
Proof.
  destruct (sn_wn (R:=step task) c (step_wf task c)) as ([p s'] & Hc & Hnf).
  apply nf_final in Hnf. destruct p; try done. eauto.
Qed.

End termination.
