(* ===== verification/MachineSpec.v ===== *)
(** * MachineSpec: the machine computes the function

    For every program point, [rest] is what remains of the function body
    from there on, written with the loops of [Handler] over the elements
    still to come.  A step of the machine does not change what the run will
    return ([outcome_exec]); with termination, the machine started at the
    first statement stops in exactly the outcome and state of
    [HandleModuleSync] ([machine_refines_function]). *)

From stdpp Require Import relations.
From S2P Require Import Prelude GoString Meta Codec Effects Handler Machine.
From S2P Require Import Backend.

Section spec.
Context {W : Type} `{!Collaborators W}.
Implicit Types (s : St W) (c : Config W) (p : Point).

(** ** What remains of the body at each point *)

Definition fromDeregister (scope : ScopeInfo)
    (needDeregister : list BackendResource) : M W (option GoError) :=
  deregisterStale scope needDeregister;; mret None.

Definition fromCollect (realResources : list BackendResource) (st : DiffState)
    (i : nat) (needDeregister : list BackendResource) : M W (option GoError) :=
  fromDeregister (scope st)
    (foldl (collectStep (iamResourceKeyMap st)) needDeregister
       (drop i realResources)).

Definition fromRegister (realResources : list BackendResource) (st : DiffState)
    : M W (option GoError) :=
  registerMissing (needRegister st);; fromCollect realResources st 0 [].

Definition fromDiff (businessSimplify : BusinessSimplify)
    (moduleArr : list ModuleSimplify) (realResources : list BackendResource)
    (i : nat) (st : DiffState) : M W (option GoError) :=
  st' ← forRange (diffStep businessSimplify) st (drop i moduleArr);
  blog (LogKeyMap (iamResourceKeyMap st'));;
  blog (LogNeedRegister (needRegister st'));;
  fromRegister realResources st'.

Definition fromInit (businessSimplify : BusinessSimplify)
    (moduleArr : list ModuleSimplify) (realResources : list BackendResource)
    (i : nat) (iamResourceKeyMap : gmap string Z) : M W (option GoError) :=
  fromDiff businessSimplify moduleArr realResources 0
    {| iamResourceKeyMap := foldl initKeyStep iamResourceKeyMap (drop i realResources);
       scope := zeroScope;
       needRegister := [] |}.

Definition fromFilter (businessSimplify : BusinessSimplify)
    (moduleArr : list ModuleSimplify) (resultResources : list BackendResource)
    (i : nat) (realResources : list BackendResource) : M W (option GoError) :=
  realResources' ← forRange filterStep realResources (drop i resultResources);
  blog (LogRealResources realResources');;
  fromInit businessSimplify moduleArr realResources' 0 ∅.

Definition fromList (businessSimplify : BusinessSimplify)
    (moduleArr : list ModuleSimplify) : M W (option GoError) :=
  resultResources ← listResources businessSimplify;
  fromFilter businessSimplify moduleArr resultResources 0 [].

Definition fromExtract (businessSimplify : BusinessSimplify)
    (instances : list MapStr) (i : nat) (moduleArr : list ModuleSimplify)
    : M W (option GoError) :=
  moduleArr' ← forRange extractModule moduleArr (drop i instances);
  blog (LogListModules (BKAppIDField businessSimplify) moduleArr');;
  fromList businessSimplify moduleArr'.

Definition fromSkip (businessSimplify : BusinessSimplify)
    (instances : list MapStr) : M W (option GoError) :=
  skipIfNoInstances businessSimplify instances;;
  fromExtract businessSimplify instances 0 [].

Definition fromRead (businessSimplify : BusinessSimplify) : M W (option GoError) :=
  instances ← readInstances businessSimplify;
  fromSkip businessSimplify instances.

Definition fromAssert (task : WorkRequest) : M W (option GoError) :=
  businessSimplify ← assertBusinessSimplify task;
  fromRead businessSimplify.

Definition rest (task : WorkRequest) p : M W (option GoError) :=
  match p with
  | AtAssert => fromAssert task
  | AtRead biz => fromRead biz
  | AtSkip biz instances => fromSkip biz instances
  | AtExtract biz instances i moduleArr => fromExtract biz instances i moduleArr
  | AtList biz moduleArr => fromList biz moduleArr
  | AtFilter biz moduleArr resultResources i realResources =>
      fromFilter biz moduleArr resultResources i realResources
  | AtInit biz moduleArr realResources i m => fromInit biz moduleArr realResources i m
  | AtDiff biz moduleArr realResources i st => fromDiff biz moduleArr realResources i st
  | AtRegister realResources st => fromRegister realResources st
  | AtCollect realResources st i needDeregister =>
      fromCollect realResources st i needDeregister
  | AtDeregister scope needDeregister => fromDeregister scope needDeregister
  | Done (Returned e) => mret e
  | Done (Panicked g) => panicGo g
  end.

(** What the run of configuration [c] will return, and in which state. *)
Definition outcome (task : WorkRequest) c : Outcome * St W :=
  runBody (rest task c.1) c.2.

Lemma outcome_Done task o s : outcome task (Done o, s) = (o, s).
Proof. by destruct o. Qed.

(** ** A step keeps the outcome *)

Lemma drop_lookup_Some {A} (xs : list A) i x :
  xs !! i = Some x → drop i xs = x :: drop (S i) xs.
Proof. intros Hx. by rewrite (drop_S _ _ _ Hx). Qed.

Lemma drop_lookup_None {A} (xs : list A) i : xs !! i = None → drop i xs = [].
Proof. intros Hx%lookup_ge_None. by apply drop_ge. Qed.

(** The rest of the body at [p] is the statement at [p] followed by the
    rest at the point it leads to. *)
Lemma rest_unfold task p : rest task p ≡ (p' ← stmt task p; rest task p').
Proof.
  destruct p as [| | |? xs i ?| |? ? xs i ?|? ? xs i ?|? xs ? i ?| |xs ? i ?| |[]];
    cbn [stmt rest]; try done;
    unfold fromExtract, fromFilter, fromInit, fromDiff, fromCollect, fromDeregister;
    try (destruct (xs !! i) eqn:Hx;
         [rewrite (drop_lookup_Some _ _ _ Hx)|rewrite (drop_lookup_None _ _ Hx)];
         cbn [forRange foldl]).
  all: by rewrite ?bind_assoc_equiv.
Qed.

Lemma outcome_exec task c : outcome task (exec task c) = outcome task c.
Proof.
  unfold outcome at 2. rewrite (rest_unfold task c.1), runBody_bind.
  unfold exec. destruct (stmt task c.1 c.2) as [[p|e|g] s']; done.
Qed.

Lemma outcome_rtc task c c' :
  rtc (step task) c c' → outcome task c' = outcome task c.
Proof.
  induction 1 as [|c c1 c2 [_ ->] _ IH]; [done|]. by rewrite IH, outcome_exec.
Qed.

(** From any configuration the machine stops in the outcome of the rest of
    the body, and in no other. *)
Lemma machine_computes_rest task c o s' :
  rtc (step task) c (Done o, s') ↔ outcome task c = (o, s').
Proof.
  split.
  - intros Hc%outcome_rtc. by rewrite <-Hc, outcome_Done.
  - intros Ho. destruct (machine_finishes task c) as (o1 & s1 & Hc).
    pose proof (outcome_rtc _ _ _ Hc) as Ho1.
    rewrite outcome_Done, Ho in Ho1. by simplify_eq.
Qed.

(** The rest of the body at the first statement is the body. *)
Lemma rest_start task : fromAssert task ≡ HandleModuleSyncBody task.
Proof.
  intros s.
  unfold fromAssert, fromRead, fromSkip, fromExtract, fromList, fromFilter,
    fromInit, fromDiff, fromRegister, fromCollect, fromDeregister,
    HandleModuleSyncBody, extractModules, filterRealResources, diffModules,
    initDiffState, initKeyMap, collectDeregister.
  cbv [skipn]. run_both.
Qed.

Lemma outcome_start task s : outcome task (start s) = HandleModuleSync task s.
Proof. unfold outcome, HandleModuleSync. simpl. by rewrite (rest_start task). Qed.

Lemma machine_computes_start task s o s' :
  rtc (step task) (start s) (Done o, s') → HandleModuleSync task s = (o, s').
Proof. by rewrite machine_computes_rest, outcome_start. Qed.


End spec.

(** ** In the sample world *)

(** The run of the sample task takes 21 steps: eleven statements and loop
    exits, and ten loop turns (two instances, two listed resources in each
    of three loops, two modules). *)
Example sample_machine_run :
  let r := HandleModuleSync exTask (initSt exWorld) in
  run exTask 21 (start (initSt exWorld)) = (Done r.1, r.2) ∧
  final (run exTask 20 (start (initSt exWorld))) = false.
Proof. vm_compute. done. Qed.
