(* ===== verification/Owned.v ===== *)
(** * Owned: a run holds the data of its own business only

    The local variables of a run are typed by the business of its task: the
    business it queries and lists for, the business of every resource it
    has collected for registration, and the scope it will deregister under,
    which is the zero value of line 105 or the scope of that business.
    [owned] states this of a program point; against a backend that resolves
    a resource to the scope of its business ([ScopedBackend]) every step of
    the machine preserves it ([step_preserves_owned]).  The theorems about
    runs that share a backend rest on it. *)

From stdpp Require Import relations.
From S2P Require Import Prelude GoString Meta Codec Effects Handler.
From S2P Require Import Backend Steps DiffEngine BackendLaws Isolation Machine.

Section owned.
Context {W : Type} `{!Collaborators W} `{!ScopedBackend W}.
Implicit Types (b : Z) (c : Config W) (p : Point) (st : DiffState).

(** The task is a task of business [b], if it carries a business at all. *)
Definition taskOf (task : WorkRequest) b : Prop :=
  ∀ biz, Data task = DataBusiness biz → BKAppIDField biz = b.

Definition ownScope b (sc : ScopeInfo) : Prop := sc = zeroScope ∨ sc = scopeOf b.

Definition ownState b st : Prop :=
  ownScope b (scope st) ∧ Forall (λ r, BusinessID r = b) (needRegister st).

Definition owned b p : Prop :=
  match p with
  | AtAssert | Done _ => True
  | AtRead biz | AtSkip biz _ | AtExtract biz _ _ _ | AtList biz _
  | AtFilter biz _ _ _ _ | AtInit biz _ _ _ _ => BKAppIDField biz = b
  | AtDiff biz _ _ _ st => BKAppIDField biz = b ∧ ownState b st
  | AtRegister _ st | AtCollect _ st _ _ => ownState b st
  | AtDeregister sc _ => ownScope b sc
  end.

Lemma ownState_init b iamResourceKeyMap :
  ownState b {| iamResourceKeyMap := iamResourceKeyMap; scope := zeroScope;
                needRegister := [] |}.
Proof. split; [by left|done]. Qed.

(** Recording a module a dry run resolved keeps the state with the
    business. *)
Lemma ownState_recordResolved biz module st w target :
  resolvesTo w (moduleResource biz module) target →
  ownState (BKAppIDField biz) st →
  ownState (BKAppIDField biz) (recordResolved st (moduleResource biz module) target).
Proof.
  intros Hres%DryRun_scope [_ Hreg]. split.
  - right. by rewrite recordResolved_scope.
  - rewrite recordResolved_needRegister. case_decide; [done|].
    apply Forall_app. by split; [|repeat constructor].
Qed.

Lemma ownState_diffStep biz st module s st' s' :
  diffStep biz st module s = (Val st', s') →
  ownState (BKAppIDField biz) st → ownState (BKAppIDField biz) st'.
Proof.
  rewrite diffStep_run. cbn zeta.
  destruct (answer _ s) as [err|[targets]] eqn:Hans; [done|]. simpl.
  destruct targets as [|target [|??]]; intros [= <- _] Hst; [done| |done].
  by eapply ownState_recordResolved.
Qed.

Lemma owned_exec task b c :
  taskOf task b → owned b c.1 → owned b (exec task c).1.
Proof.
  intros Htask. destruct c as [p s]. rewrite exec_land. cbn [fst snd].
  destruct p; cbn [stmt owned]; intros Hp; land_cases; cbn [owned];
    try match goal with H : assertBusinessSimplify _ _ = _ |- _ => rename H into Ha end;
    try done; try (by apply ownState_init).
  - apply Htask. unfold assertBusinessSimplify in *.
    destruct (Data task); [|done]. by injection Ha as -> _.
  - by split; [|apply ownState_init].
  - destruct Hp as [<- Hst]. split; [done|]. by eapply ownState_diffStep.
  - apply Hp.
  - apply Hp.
Qed.

Lemma owned_rtc task b c c' :
  taskOf task b → rtc (step task) c c' → owned b c.1 → owned b c'.1.
Proof.
  intros Htask. induction 1 as [|c c1 c2 [_ ->] _ IH]; [done|].
  intros Hc. by apply IH, owned_exec.
Qed.

Lemma owned_run task b n s : taskOf task b → owned b (run task n (start s)).1.
Proof. intros Htask. by apply (owned_rtc task b (start s)); [|apply run_rtc|]. Qed.


End owned.

(** ** In the sample world *)

