(* ===== verification/Pool.v ===== *)
(** * Pool: invocations that share the backend

    The handler is invoked once per business by a dispatcher with a pool of
    workers; the invocations run concurrently against the same CMDB and the
    same IAM.  The dispatcher is not among the sources: the pool below
    models what the specification says of it.  Every invocation is a run of
    the machine of [Machine] with its own program point and its own log;
    the runs share the world; a schedule names the run that takes the next
    step.  A step of the machine makes at most one call, so the schedules
    interleave the calls of the runs in every possible way, and a call is
    atomic.

    Whatever the other runs do to the world, a run that keeps being
    scheduled returns ([every_run_returns]): the measure of [Machine]
    depends on the program point alone. *)

From stdpp Require Import relations.
From S2P Require Import Prelude GoString Meta Codec Effects Handler Machine.
From S2P Require Import Backend.

(** One invocation: its task, where it is, and what it has logged and
    called. *)
Record Run := mkRun {
  runTask : WorkRequest;
  runAt : Point;
  runLog : list Event;
}.

(** The invocations and the world they share. *)
Record Pool (W : Type) := mkPool {
  runs : list Run;
  shared : W;
}.
Arguments mkPool {W} _ _.
Arguments runs {W} _.
Arguments shared {W} _.

Section pool.
Context {W : Type} `{!Collaborators W}.
Implicit Types (pool : Pool W) (σ : list nat) (r : Run).

(** The configuration of run [r] in world [w], and the run after the
    machine has moved to configuration [c]. *)
Definition configOf r (w : W) : Config W := (runAt r, mkSt w (runLog r)).

Definition moved r (c : Config W) : Run :=
  {| runTask := runTask r; runAt := c.1; runLog := trace c.2 |}.

(** Run [i] takes a step on the shared world. *)
Definition turn (i : nat) pool : Pool W :=
  match runs pool !! i with
  | Some r =>
      let c := exec (runTask r) (configOf r (shared pool)) in
      {| runs := <[i := moved r c]> (runs pool); shared := world c.2 |}
  | None => pool
  end.

(** The pool after the turns of a schedule. *)
Definition play σ pool : Pool W := foldl (λ pool i, turn i pool) pool σ.

(** The dispatcher starts one invocation per task. *)
Definition dispatch (tasks : list WorkRequest) (w : W) : Pool W :=
  {| runs := (λ task, mkRun task AtAssert []) <$> tasks; shared := w |}.

(** Where run [i] is. *)
Definition pointOf pool (i : nat) : option Point := runAt <$> runs pool !! i.

(** ** Turns *)

Lemma play_snoc σ i pool : play (σ ++ [i]) pool = turn i (play σ pool).
Proof. unfold play. by rewrite foldl_snoc. Qed.

Lemma play_app σ σ' pool : play (σ ++ σ') pool = play σ' (play σ pool).
Proof. unfold play. by rewrite foldl_app. Qed.

Lemma turn_other i j pool : i ≠ j → runs (turn j pool) !! i = runs pool !! i.
Proof.
  intros Hij. unfold turn. destruct (runs pool !! j); [|done].
  by apply list_lookup_insert_ne.
Qed.

Lemma turn_self i pool r :
  runs pool !! i = Some r →
  runs (turn i pool) !! i
  = Some (moved r (exec (runTask r) (configOf r (shared pool)))).
Proof.
  intros Hr. unfold turn. rewrite Hr. simpl.
  apply list_lookup_insert_eq. by eapply lookup_lt_Some.
Qed.

Lemma turn_length i pool : length (runs (turn i pool)) = length (runs pool).
Proof. unfold turn. destruct (_ !! _); [|done]. apply length_insert. Qed.

Lemma dispatch_lookup tasks w i :
  runs (dispatch tasks w) !! i = (λ task, mkRun task AtAssert []) <$> tasks !! i.
Proof. unfold dispatch. simpl. by rewrite list_lookup_fmap. Qed.

Lemma play_length σ tasks w :
  length (runs (play σ (dispatch tasks w))) = length tasks.
Proof.
  induction σ as [|j σ IH] using rev_ind; [apply length_fmap|].
  by rewrite play_snoc, turn_length.
Qed.

(** ** Fair schedules *)

(** An unbounded schedule, and its first [t] turns. *)
Definition prefix (ω : nat → nat) (t : nat) : list nat := ω <$> seq 0 t.

(** Run [i] is scheduled again and again. *)
Definition fair (ω : nat → nat) (i : nat) : Prop := ∀ t, ∃ t', t ≤ t' ∧ ω t' = i.

Lemma prefix_S ω t : prefix ω (S t) = prefix ω t ++ [ω t].
Proof. unfold prefix. by rewrite seq_S, fmap_app. Qed.

(** The next turn of run [i] from time [t] on. *)
Lemma next_turn ω i t :
  fair ω i → ∃ t', t ≤ t' ∧ ω t' = i ∧ ∀ u, t ≤ u < t' → ω u ≠ i.
Proof.
  intros Hfair. destruct (Hfair t) as (t0 & Ht0 & Hi).
  remember (t0 - t) as d eqn:Hd. revert t Ht0 Hd.
  induction d as [|d IH]; intros t Ht0 Hd.
  - exists t. assert (t0 = t) as -> by lia. split_and!; [done..|lia].
  - destruct (decide (ω t = i)) as [Ht|Ht].
    + exists t. split_and!; [done..|lia].
    + destruct (IH (S t)) as (t' & ? & ? & Hu); [lia..|].
      exists t'. split_and!; [lia|done|]. intros u Hut.
      destruct (decide (u = t)) as [->|]; [done|]. apply Hu. lia.
Qed.

(** Until its next turn a run stays where it is. *)
Lemma play_wait ω i t t' pool :
  t ≤ t' → (∀ u, t ≤ u < t' → ω u ≠ i) →
  runs (play (prefix ω t') pool) !! i = runs (play (prefix ω t) pool) !! i.
Proof.
  induction 1 as [|t' Ht IH]; intros Hu; [done|].
  rewrite prefix_S, play_snoc, turn_other by (apply not_eq_sym, Hu; lia).
  apply IH. intros u ?. apply Hu. lia.
Qed.

(** C18 (liveness).  In a pool of invocations that share the backend, an
    invocation that is scheduled again and again returns or panics after
    finitely many turns, whatever the other invocations do to the world in
    between, be they for other businesses or for the same. *)
Theorem every_run_returns pool (ω : nat → nat) i r :
  runs pool !! i = Some r → fair ω i →
  ∃ t o, pointOf (play (prefix ω t) pool) i = Some (Done o).
Proof.
  intros Hr Hfair. unfold pointOf.
  assert (∃ r0, runs (play (prefix ω 0) pool) !! i = Some r0) as [r0 Hr0] by eauto.
  clear Hr. revert Hr0. generalize 0 as t. remember (runAt r0) as p eqn:Hp.
  revert r0 Hp. induction (before_wf p) as [p _ IH]. intros r0 -> t Hr0.
  destruct (final (configOf r0 (shared (play (prefix ω t) pool)))) eqn:Hf.
  { exists t. rewrite Hr0. simpl. unfold final in Hf. simpl in Hf.
    destruct (runAt r0); try done. eauto. }
  destruct (next_turn ω i t Hfair) as (t' & Htt' & Hi & Hu).
  pose proof (play_wait ω i t t' pool Htt' Hu) as Hwait. rewrite Hr0 in Hwait.
  pose proof (turn_self i _ _ Hwait) as Hturn.
  rewrite <-Hi, <-play_snoc, <-prefix_S, Hi in Hturn.
  eapply (IH _ _ _ eq_refl (S t') Hturn).
  Unshelve. by apply (exec_before (runTask r0) (configOf r0 _)).
Qed.

End pool.

(** ** In the sample world *)

(** Two invocations for the same business that take turns: the first
    returns. *)
Lemma every_run_returns_witness :
  ∃ t o, pointOf (play (prefix (λ t, t mod 2) t)
                    (dispatch [exTask; exTask] exWorld)) 0
         = Some (Done o).
Proof.
  apply (every_run_returns (dispatch [exTask; exTask] exWorld)
           (λ t, t mod 2) 0 (mkRun exTask AtAssert []) eq_refl).
  intros t. exists (2 * t). split; [lia|].
  rewrite Nat.mul_comm. apply Nat.Div0.mod_mul.
Defined.
