(* ===== verification/Partition.v ===== *)
(** * Partition: the backend keeps one part per business

    What concurrent invocations need of the collaborators, beyond
    [LawfulBackend] and [ScopedBackend]: the world has a part for every
    business, an operation issued for a business answers by that part and
    changes that part only.  [agree b w w'] says that the worlds [w] and
    [w'] hold the same for business [b].  The reference backend is
    partitioned: the part of a business is the CMDB, the faults and the
    entries of the registry under that business. *)

From S2P Require Import Prelude GoString Meta Codec Effects Handler.
From S2P Require Import Backend Steps BackendLaws Isolation.

Section partition.
Context {W : Type} `{!Collaborators W} `{!ScopedBackend W}.

Class PartitionedBackend := {
  (** The two worlds hold the same for the business. *)
  agree : Z → relation W;
  agree_equivalence b :: Equivalence (agree b);
  (** An operation issued for a business answers alike in worlds that agree
      on the business ... *)
  ReadInstance_agree biz w w' :
    agree (BKAppIDField biz) w w' →
    (ReadInstance (NewAPIHeaderByBusiness biz) common_BKInnerObjIDModule
       (moduleQuery biz) w).1
    = (ReadInstance (NewAPIHeaderByBusiness biz) common_BKInnerObjIDModule
         (moduleQuery biz) w').1;
  ListResources_agree rs w w' :
    agree (BusinessID rs) w w' → (ListResources rs w).1 = (ListResources rs w').1;
  DryRun_agree r w w' :
    agree (BusinessID r) w w' →
    (DryRunRegisterResource r w).1 = (DryRunRegisterResource r w').1;
  (** ... and a mutation leaves them agreeing on it. *)
  Register_agree b rs w w' :
    Forall (λ r, BusinessID r = b) rs → agree b w w' →
    (RegisterResource rs w).1 = (RegisterResource rs w').1 ∧
    agree b (RegisterResource rs w).2 (RegisterResource rs w').2;
  Deregister_agree b sc ds w w' :
    agree b w w' →
    (RawDeregisterResource sc ds w).1 = (RawDeregisterResource sc ds w').1 ∧
    agree b (RawDeregisterResource sc ds w).2 (RawDeregisterResource sc ds w').2;
  (** A mutation issued for another business leaves the part of this one
      as it is. *)
  Register_apart b rs w :
    Forall (λ r, BusinessID r ≠ b) rs → agree b w (RegisterResource rs w).2;
  Deregister_apart b sc ds w :
    sc ≠ scopeOf b → agree b w (RawDeregisterResource sc ds w).2;
}.

(** Worlds that agree on a business list the same for it. *)
Lemma agree_listing `{!PartitionedBackend} biz w w' :
  agree (BKAppIDField biz) w w' → listing biz w = listing biz w'.
Proof. intros Hw. unfold listing. by apply ListResources_agree. Qed.

End partition.

Arguments PartitionedBackend W {_ _}.

(** ** The reference backend is partitioned *)

Section reference.
Implicit Types (w : RefWorld) (b : Z).

(** The part of business [b]. *)
Definition refAgree b : relation RefWorld := λ w w',
  cmdbInstances w = cmdbInstances w' ∧ faults w = faults w' ∧
  resourcesOf {| BKAppIDField := b |} (iamRegistry w)
  = resourcesOf {| BKAppIDField := b |} (iamRegistry w').

#[local] Instance refAgree_equivalence b : Equivalence (refAgree b).
Proof.
  split.
  - by intros w.
  - intros w w' (? & ? & ?). by split_and!.
  - intros w1 w2 w3 (? & ? & ?) (? & ? & ?). split_and!; congruence.
Qed.

Lemma resourcesOf_own biz (rs : list ResourceAttribute) :
  Forall (λ r, BusinessID r = BKAppIDField biz) rs →
  resourcesOf biz ((λ r, (BusinessID r, backendOfEntity (canonicalEntity r))) <$> rs)
  = (λ r, backendOfEntity (canonicalEntity r)) <$> rs.
Proof.
  induction 1 as [|r rs Hr _ IH]; [done|].
  by rewrite !fmap_cons, resourcesOf_cons, decide_True, IH.
Qed.

(** Deregistration acts on the part of a business by its resources. *)
Lemma resourcesOf_filter biz sc (ds : list BackendResource)
    (registry : list (Z * BackendResource)) :
  resourcesOf biz
    (filter (λ p, ¬ (scopeOfBusiness p.1 = sc ∧ p.2 ∈ ds)) registry)
  = filter (λ x, ¬ (scopeOfBusiness (BKAppIDField biz) = sc ∧ x ∈ ds))
           (resourcesOf biz registry).
Proof.
  induction registry as [|[b x] registry IH]; [done|].
  rewrite filter_cons, !resourcesOf_cons. simpl.
  destruct (decide (b = BKAppIDField biz)) as [->|Hb].
  - rewrite (filter_cons _ x). simpl.
    destruct (decide (¬ (scopeOfBusiness (BKAppIDField biz) = sc ∧ x ∈ ds)));
      by rewrite ?resourcesOf_cons, ?decide_True, ?IH.
  - destruct (decide (¬ (scopeOfBusiness b = sc ∧ x ∈ ds))); [|done].
    by rewrite resourcesOf_cons, decide_False.
Qed.

#[export] Instance refBackend_partitioned : PartitionedBackend RefWorld.
Proof.
  refine {| agree := refAgree |}.
  - intros biz w w' (Hc & Hf & _). simpl. unfold refReadInstance.
    rewrite Hc, Hf. destruct (readError _); [done|]. by case_decide.
  - intros rs w w' (_ & Hf & Hr). simpl. unfold refListResources.
    rewrite Hf. destruct (listError _); [done|]. simpl. f_equal. apply Hr.
  - intros r w w' (_ & Hf & _). simpl. unfold refDryRun. rewrite Hf.
    by repeat case_decide.
  - intros b rs w w' Hrs (Hc & Hf & Hr). simpl. unfold refRegister.
    rewrite Hf. destruct (registerError _); [done|]. simpl.
    split; [done|]. split_and!; [done..|]. simpl.
    by rewrite !resourcesOf_app, Hr.
  - intros b sc ds w w' (Hc & Hf & Hr). simpl. unfold refDeregister.
    rewrite Hf. destruct (deregisterError _); [done|]. simpl.
    split; [done|]. split_and!; [done..|]. simpl.
    by rewrite !resourcesOf_filter, Hr.
  - intros b rs w Hrs. simpl. unfold refRegister.
    destruct (registerError _); [done|]. split_and!; [done..|]. simpl.
    by rewrite resourcesOf_app, resourcesOf_other, app_nil_r.
  - intros b sc ds w Hsc. simpl. unfold refDeregister.
    destruct (deregisterError _); [done|]. split_and!; [done..|]. simpl.
    by rewrite resourcesOf_filter_scope.
Defined.

End reference.
