(* ===== verification/Parallel.v ===== *)
(** * Parallel: invocations for different businesses do not interfere

    In a pool of invocations for pairwise different businesses, against a
    lawful, scoped and partitioned backend, every invocation goes through
    the program points and writes the log of the same invocation running
    alone from the initial world, and the shared world holds for its
    business what the world of the lone run holds
    ([parallel_runs_independent]).  The proof is an unwinding argument: a
    step of a run respects agreement on its own business, and keeps
    agreement on every other one.  Two invocations for the same business
    do interfere ([sample_race_double_registration]). *)

From stdpp Require Import relations.
From S2P Require Import Prelude GoString Meta Codec Effects Handler.
From S2P Require Import Backend Steps DiffEngine BackendLaws Isolation.
From S2P Require Import HandlerSpec Mutations Convergence.
From S2P Require Import Machine MachineSpec Owned Pool Partition.

(** ** Two logics for steps on related worlds *)

Section logics.
Context {W : Type} (R : relation W).
Implicit Types (s : St W).

(** The states have the same trace and related worlds. *)
Definition alike s s' : Prop := trace s = trace s' ∧ R (world s) (world s').

(** [respects m]: run in alike states, [m] ends alike. *)
Definition respects {A} (m : M W A) : Prop :=
  ∀ s s', alike s s' → (m s).1 = (m s').1 ∧ alike (m s).2 (m s').2.

Lemma respects_ret {A} (a : A) : respects (mret a : M W A).
Proof. by intros s s' Hs. Qed.

Lemma respects_returnGo {A} e : respects (returnGo e : M W A).
Proof. by intros s s' Hs. Qed.

Lemma respects_panicGo {A} g : respects (panicGo g : M W A).
Proof. by intros s s' Hs. Qed.

Lemma respects_blog l : respects (blog l : M W unit).
Proof. intros s s' [Ht Hw]. split; [done|]. split; [|done]. simpl. by rewrite Ht. Qed.

Lemma respects_callOp {A} c (op : W → A * W) :
  (∀ w w', R w w' → (op w).1 = (op w').1 ∧ R (op w).2 (op w').2) →
  respects (callOp c op).
Proof.
  intros Hop s s' [Ht Hw]. rewrite !callOp_run.
  destruct (Hop _ _ Hw) as [Ha Hw']. unfold answer, afterCall, alike. simpl.
  by rewrite Ha, Ht.
Qed.

Lemma respects_bind {A B} (m : M W A) (k : A → M W B) :
  respects m → (∀ a, respects (k a)) → respects (m ≫= k).
Proof.
  intros Hm Hk s s' Hs. rewrite !bind_run. destruct (Hm s s' Hs) as [Ha Hs'].
  destruct (m s) as [[a| |] s1], (m s') as [[a'| |] s1']; simplify_eq/=; try done.
  by apply Hk.
Qed.

(** [stays m]: [m] takes the world to a related one. *)
Definition stays {A} (m : M W A) : Prop := ∀ s, R (world s) (world (m s).2).

Context `{!PreOrder R}.

Lemma stays_ret {A} (a : A) : stays (mret a : M W A).
Proof. by intros s. Qed.

Lemma stays_returnGo {A} e : stays (returnGo e : M W A).
Proof. by intros s. Qed.

Lemma stays_panicGo {A} g : stays (panicGo g : M W A).
Proof. by intros s. Qed.

Lemma stays_blog l : stays (blog l : M W unit).
Proof. by intros s. Qed.

Lemma stays_callOp {A} c (op : W → A * W) :
  (∀ w, R w (op w).2) → stays (callOp c op).
Proof. intros Hop s. rewrite callOp_run. apply Hop. Qed.

Lemma stays_bind {A B} (m : M W A) (k : A → M W B) :
  stays m → (∀ a, stays (k a)) → stays (m ≫= k).
Proof.
  intros Hm Hk s. rewrite bind_run. specialize (Hm s).
  destruct (m s) as [[a| |] s1]; simpl in *; [|done..].
  by etrans; [|apply Hk].
Qed.

End logics.

(** [solve_respects] and [solve_stays] go through the binds and matches of
    a statement; [tac] proves the steps that are not to be opened. *)
Ltac solve_respects_with tac :=
  repeat first
    [ tac
    | apply respects_ret | apply respects_returnGo | apply respects_panicGo
    | apply respects_blog | apply respects_bind; [|intros ?]
    | case_match | case_decide ].

Ltac solve_respects := solve_respects_with fail.

Ltac solve_stays_with tac :=
  repeat first
    [ tac
    | apply stays_ret; apply _ | apply stays_returnGo; apply _
    | apply stays_panicGo; apply _ | apply stays_blog; apply _
    | apply stays_bind; [apply _| |intros ?]
    | case_match | case_decide ].

Ltac solve_stays := solve_stays_with fail.

Section unwinding.
Context {W : Type} `{!Collaborators W} `{!LawfulBackend W} `{!ScopedBackend W}.
Context `{!PartitionedBackend W}.
Implicit Types (b : Z) (c : Config W) (p : Point) (w : W).

(** ** The calls of a run, on worlds that agree on its business *)

Lemma respects_inspection {A} (R : relation W) call (op : W → A * W) :
  (∀ w, (op w).2 = w) → (∀ w w', R w w' → (op w).1 = (op w').1) →
  respects R (callOp call op).
Proof.
  intros Hpure Hop. apply respects_callOp. intros w w' Hw.
  rewrite !Hpure. auto.
Qed.

Lemma respects_readInstances biz :
  respects (agree (BKAppIDField biz)) (readInstances biz).
Proof.
  unfold readInstances. cbn zeta. solve_respects.
  all: apply respects_inspection; [apply ReadInstance_pure|apply ReadInstance_agree].
Qed.

Lemma respects_listResources biz :
  respects (agree (BKAppIDField biz)) (listResources biz).
Proof.
  unfold listResources. cbn zeta. solve_respects.
  all: apply respects_inspection; [apply ListResources_pure|].
  all: intros w w'; apply (ListResources_agree (listRequest biz)).
Qed.

Lemma respects_diffStep biz st module :
  respects (agree (BKAppIDField biz)) (diffStep biz st module).
Proof.
  unfold diffStep. cbn zeta. solve_respects.
  all: apply respects_inspection; [apply DryRun_pure|].
  all: intros w w'; apply (DryRun_agree (moduleResource biz module)).
Qed.

Lemma respects_registerMissing b (needRegister : list ResourceAttribute) :
  Forall (λ r, BusinessID r = b) needRegister →
  respects (agree b) (registerMissing needRegister).
Proof.
  intros Hreg. unfold registerMissing. solve_respects.
  all: apply respects_callOp; intros w w'; by apply Register_agree.
Qed.

Lemma respects_deregisterStale b sc (needDeregister : list BackendResource) :
  respects (agree b) (deregisterStale sc needDeregister).
Proof.
  unfold deregisterStale. solve_respects.
  all: apply respects_callOp; intros w w'; by apply Deregister_agree.
Qed.

(** A statement of a run owned by [b] respects agreement on [b]. *)
Lemma respects_stmt task b p : owned b p → respects (agree b) (stmt task p).
Proof.
  destruct p; cbn [stmt owned]; intros Hp;
    try match type of Hp with _ ∧ _ => destruct Hp as [? Hp] end; subst;
    unfold assertBusinessSimplify, skipIfNoInstances, extractModule,
      filterStep, lastLayer;
    solve_respects_with
      ltac:(first [ apply respects_readInstances | apply respects_listResources
                  | apply respects_diffStep | apply respects_deregisterStale
                  | apply respects_registerMissing, Hp ]).
Qed.

(** ** The calls of a run, seen from another business *)

Section other.
Context (b b' : Z) (Hbb' : b ≠ b').

Lemma stays_inspection {A} call (op : W → A * W) :
  (∀ w, (op w).2 = w) → stays (agree b) (callOp call op).
Proof. intros Hpure. apply stays_callOp. intros w. by rewrite Hpure. Qed.

Lemma stays_registerMissing (needRegister : list ResourceAttribute) :
  Forall (λ r, BusinessID r = b') needRegister →
  stays (agree b) (registerMissing needRegister).
Proof.
  intros Hreg. unfold registerMissing. solve_stays.
  all: apply stays_callOp; intros w; apply Register_apart.
  all: eapply Forall_impl; [exact Hreg|]; by intros r ->.
Qed.

Lemma stays_deregisterStale sc (needDeregister : list BackendResource) :
  ownScope b' sc → stays (agree b) (deregisterStale sc needDeregister).
Proof.
  intros Hsc. unfold deregisterStale. solve_stays.
  all: apply stays_callOp; intros w; apply Deregister_apart.
  all: destruct Hsc as [->| ->]; [apply not_eq_sym, scopeOf_nonzero|].
  all: by intros ?%scopeOf_inj.
Qed.

(** A statement of a run owned by another business keeps agreement on
    [b]. *)
Lemma stays_stmt task p : owned b' p → stays (agree b) (stmt task p).
Proof.
  destruct p; cbn [stmt owned]; intros Hp;
    unfold assertBusinessSimplify, readInstances, skipIfNoInstances,
      extractModule, listResources, filterStep, lastLayer, diffStep;
    cbn zeta;
    solve_stays_with
      ltac:(first [ apply stays_inspection;
                      first [ apply ReadInstance_pure | apply ListResources_pure
                            | apply DryRun_pure ]
                  | by apply stays_deregisterStale
                  | apply stays_registerMissing, Hp ]).
Qed.

End other.

(** ** Steps of the machine *)

Lemma exec_respects task b c c' :
  owned b c.1 → c.1 = c'.1 → alike (agree b) c.2 c'.2 →
  (exec task c).1 = (exec task c').1 ∧
  alike (agree b) (exec task c).2 (exec task c').2.
Proof.
  intros Hp Hpp' Hs. rewrite !exec_land, <-Hpp'. unfold land.
  destruct (respects_stmt task b c.1 Hp c.2 c'.2 Hs) as [Hv Hs'].
  destruct (stmt task c.1 c.2) as [[p|e|g] s1],
    (stmt task c.1 c'.2) as [[p'|e'|g'] s1']; by simplify_eq/=.
Qed.

Lemma exec_stays task b b' c :
  b ≠ b' → owned b' c.1 → agree b (world c.2) (world (exec task c).2).
Proof.
  intros Hbb' Hp. rewrite exec_land. unfold land.
  pose proof (stays_stmt b b' Hbb' task c.1 Hp c.2) as Hs.
  by destruct (stmt task c.1 c.2) as [[p|e|g] s1].
Qed.

(** ** The pool *)

(** The run of [task] alone from world [w], after [n] steps. *)
Definition solo (task : WorkRequest) (n : nat) w : Config W :=
  run task n (start (initSt w)).

(** The turns run [i] has in schedule [σ]. *)
Definition turnsOf (i : nat) (σ : list nat) : nat := length (filter (λ j, j = i) σ).

(** Run [r] in world [w] is where the lone run [c] is. *)
Definition tracks b (r : Run) w c : Prop :=
  runAt r = c.1 ∧ runLog r = trace c.2 ∧ agree b w (world c.2).

Lemma turnsOf_snoc i σ j :
  turnsOf i (σ ++ [j]) = if decide (j = i) then S (turnsOf i σ) else turnsOf i σ.
Proof.
  unfold turnsOf. rewrite filter_app, length_app, filter_cons, filter_nil.
  case_decide; simpl; lia.
Qed.

Section tasks.
Context (tasks : list WorkRequest) (bs : list Z) (w : W).
Context (Hbs : NoDup bs) (Htasks : Forall2 taskOf tasks bs).

(** Every run of the pool is where it would be alone. *)
Lemma pool_tracks σ i task b :
  tasks !! i = Some task → bs !! i = Some b →
  ∃ r, runs (play σ (dispatch tasks w)) !! i = Some r ∧ runTask r = task ∧
       tracks b r (shared (play σ (dispatch tasks w))) (solo task (turnsOf i σ) w).
Proof.
  revert i task b. induction σ as [|j σ IH] using rev_ind; intros i task b Hi Hb.
  { exists (mkRun task AtAssert []).
    change (play [] (dispatch tasks w)) with (dispatch tasks w).
    rewrite dispatch_lookup, Hi. by split_and!. }
  rewrite play_snoc, turnsOf_snoc. set (pool := play σ (dispatch tasks w)) in *.
  destruct (IH i task b Hi Hb) as (r & Hr & Htask & Hat & Hlog & Hw).
  destruct (runs pool !! j) as [rj|] eqn:Hrj; cycle 1.
  { unfold turn. rewrite Hrj. rewrite decide_False by congruence.
    exists r. by split_and!. }
  destruct (lookup_lt_is_Some_2 tasks j) as [tj Htj].
  { rewrite <-(play_length σ tasks w). by eapply lookup_lt_Some. }
  destruct (Forall2_lookup_l _ _ _ _ _ Htasks Htj) as (bj & Hbj & Htjbj).
  destruct (IH j tj bj Htj Hbj) as (rj' & Hrj' & Htaskj & Hatj & Hlogj & Hwj).
  fold pool in Hrj'. rewrite Hrj in Hrj'. injection Hrj' as Heq. subst rj'.
  assert (owned bj (runAt rj)) as Hown.
  { rewrite Hatj. by apply owned_run. }
  destruct (decide (j = i)) as [->|Hji].
  - assert (rj = r) as -> by congruence. assert (tj = task) as -> by congruence.
    assert (bj = b) as -> by congruence. subst task.
    exists (moved r (exec (runTask r) (configOf r (shared pool)))).
    split; [by apply turn_self|]. split; [done|].
    unfold solo. rewrite run_S_r. fold (solo (runTask r) (turnsOf i σ) w).
    destruct (exec_respects (runTask r) b (configOf r (shared pool))
                (solo (runTask r) (turnsOf i σ) w)) as [Hp [Ht Hw']]; [done..|].
    unfold tracks, turn. rewrite Hrj. by simpl.
  - exists r. rewrite turn_other by done. unfold tracks. split_and!; [done..|].
    unfold turn. rewrite Hrj. simpl. etrans; [|exact Hw]. symmetry.
    apply (exec_stays (runTask rj) b bj (configOf rj (shared pool))); [|done].
    intros ->. apply Hji. by eapply NoDup_lookup.
Qed.

(** A run of the pool that is done has the outcome and the log of the
    lone run, and the shared world agrees with the world the lone run
    leaves. *)
Lemma pool_done σ i task b r o :
  tasks !! i = Some task → bs !! i = Some b →
  runs (play σ (dispatch tasks w)) !! i = Some r → runAt r = Done o →
  ∃ s', HandleModuleSync task (initSt w) = (o, s') ∧ trace s' = runLog r ∧
        agree b (shared (play σ (dispatch tasks w))) (world s').
Proof.
  intros Hi Hb Hr Ho.
  destruct (pool_tracks σ i task b Hi Hb) as (r' & Hr' & _ & Hat & Hlog & Hw).
  assert (r' = r) as -> by congruence.
  destruct (solo task (turnsOf i σ) w) as [p s'] eqn:Hsolo. simpl in *.
  exists s'. split_and!; [|done..].
  apply machine_computes_start. rewrite <-Ho, Hat, <-Hsolo. apply run_rtc.
Qed.

End tasks.

(** C12 (safety).  Invocations for pairwise different businesses that run
    concurrently on a lawful, scoped and partitioned backend do not
    interfere: under every schedule, an invocation that is done has
    returned what [HandleModuleSync] returns when it runs alone from the
    initial world, has logged and called the same, and IAM lists for its
    business what it lists after the lone run. *)
Theorem parallel_runs_independent tasks bs w σ i task biz r o :
  NoDup bs → Forall2 taskOf tasks bs →
  tasks !! i = Some task → bs !! i = Some (BKAppIDField biz) →
  runs (play σ (dispatch tasks w)) !! i = Some r → runAt r = Done o →
  let alone := HandleModuleSync task (initSt w) in
  alone.1 = o ∧ trace alone.2 = runLog r ∧
  listing biz (shared (play σ (dispatch tasks w))) = listing biz (world alone.2).
Proof.
  intros Hbs Htasks Hi Hb Hr Ho.
  destruct (pool_done tasks bs w Hbs Htasks σ i task _ r o Hi Hb Hr Ho)
    as (s' & -> & Hlog & Hw).
  split_and!; [done..|]. by apply agree_listing.
Qed.

(** C17 (functional).  Consistency under concurrency: in a pool of
    invocations for pairwise different businesses, a business whose
    invocation would make IAM mirror the CMDB when run alone (the read, the
    listing and the dry runs answer, a module resolves, the mutations
    succeed) has IAM mirror the CMDB once its invocation is done, whatever
    the schedule and whatever the other invocations did. *)
Theorem parallel_sync_consistent tasks bs w σ i task biz instances
    resultResources resolved s1 r o :
  NoDup bs → Forall2 taskOf tasks bs →
  tasks !! i = Some task → bs !! i = Some (BKAppIDField biz) →
  Resolves task (initSt w) biz instances resultResources resolved s1 →
  resolved ≠ [] → (Z.of_nat (length instances) < 2 ^ 63)%Z →
  mutationsSucceed w
    (toRegister (filter isModuleResource resultResources) resolved)
    (lastScope zeroScope resolved)
    (toDeregister (filter isModuleResource resultResources) resolved) →
  runs (play σ (dispatch tasks w)) !! i = Some r → runAt r = Done o →
  ∃ l', listing biz (shared (play σ (dispatch tasks w))) = inr l' ∧
    consistent (filter isModuleResource l') resolved.
Proof.
  intros Hbs Htasks Hi Hb Hres Hsome Hlen Hmut Hr Ho.
  destruct (pool_done tasks bs w Hbs Htasks σ i task _ r o Hi Hb Hr Ho)
    as (s' & Hrun & _ & Hw).
  rewrite (agree_listing _ _ _ Hw).
  replace s' with (HandleModuleSync task (initSt w)).2 by by rewrite Hrun.
  by eapply first_run_consistent.
Qed.

End unwinding.

(** ** In the sample world *)

Definition exTask5 : WorkRequest :=
  {| Data := DataBusiness {| BKAppIDField := 5 |} |}.

(** The two runs take turns. *)
Definition lockstep (n : nat) : list nat := prefix (λ t, t mod 2) n.

(** The sample pool after sixty turns, and its first invocation. *)
Abbreviation exPool :=
  (play (lockstep 60) (dispatch [exTask; exTask5] exWorld)).

Definition exRun : Run := default (mkRun exTask AtAssert []) (runs exPool !! 0).

Lemma exPool_tasks : Forall2 taskOf [exTask; exTask5] [2%Z; 5%Z].
Proof. repeat constructor; by intros biz [= <-]. Qed.

Lemma exPool_businesses : NoDup [2%Z; 5%Z].
Proof. apply NoDup_cons. split; [set_solver|]. apply NoDup_singleton. Qed.

Lemma exPool_run : runs exPool !! 0 = Some exRun.
Proof. vm_compute. reflexivity. Qed.

Lemma exPool_done : runAt exRun = Done (Returned None).
Proof. vm_compute. reflexivity. Qed.

Lemma parallel_runs_independent_witness :
  let alone := HandleModuleSync exTask (initSt exWorld) in
  alone.1 = Returned None ∧ trace alone.2 = runLog exRun ∧
  listing exBusiness (shared exPool) = listing exBusiness (world alone.2).
Proof.
  apply (parallel_runs_independent [exTask; exTask5] [2%Z; 5%Z] exWorld
           (lockstep 60) 0 exTask exBusiness exRun (Returned None)
           exPool_businesses exPool_tasks eq_refl eq_refl exPool_run exPool_done).
Defined.

Lemma parallel_sync_consistent_witness :
  ∃ l', listing exBusiness (shared exPool) = inr l' ∧
    consistent (filter isModuleResource l') exResolved.
Proof.
  apply (parallel_sync_consistent [exTask; exTask5] [2%Z; 5%Z] exWorld
           (lockstep 60) 0 exTask exBusiness exInstances exReal exResolved _
           exRun (Returned None) exPool_businesses exPool_tasks eq_refl eq_refl
           exWorld_Resolves);
    [done|simpl; lia|apply exWorld_mutationsSucceed|apply exPool_run
    |apply exPool_done].
Defined.

(** Businesses 2 and 5 in lockstep: each gets what it gets alone. *)
Example sample_parallel_businesses :
  pointOf exPool 0 = Some (Done (Returned None)) ∧
  pointOf exPool 1 = Some (Done (Returned None)) ∧
  iamRegistry (shared exPool)
  = [(2%Z, exBackend exModule1); (5%Z, exBackend (mkModuleSimplify 9 "x"));
     (2%Z, exBackend exModule2)].
Proof. vm_compute. done. Qed.

(** Two invocations for business 2 in lockstep: both list IAM before either
    registers, both find "db" missing, and "db" is registered twice.  One
    after the other they register it once. *)
Example sample_race_double_registration :
  iamRegistry (shared (play (lockstep 60) (dispatch [exTask; exTask] exWorld)))
  = [(2%Z, exBackend exModule1); (2%Z, exBackend exModule2);
     (2%Z, exBackend exModule2)] ∧
  iamRegistry (shared (play (replicate 30 0 ++ replicate 30 1)
                         (dispatch [exTask; exTask] exWorld)))
  = [(2%Z, exBackend exModule1); (2%Z, exBackend exModule2)].
Proof. vm_compute. done. Qed.
