(* ===== verification/Fetch.v ===== *)
(** * Fetch: what is stored in the CMDB is what the function extracts

    The first step of the function queries the CMDB for the instances of
    the business (lines 38-45) and parses each into a module (lines 58-66).
    Against the reference backend this inverts the way the CMDB stores
    modules: from a CMDB that stores modules of several businesses, the
    function extracts the modules of its business, all of them, as stored
    and in order ([fetch_roundtrip]). *)

From S2P Require Import Prelude GoString Meta Codec Effects Handler.
From S2P Require Import Backend Steps.

(** The raw instance the CMDB stores for a module of a business. *)
Definition storedModule (business : Z) (module : ModuleSimplify) : MapStr :=
  rawModule business (BKModuleIDField module) (BKModuleNameField module).

(** The CMDB that stores the given modules, business by business. *)
Definition storeModules (stored : list (Z * ModuleSimplify)) : list MapStr :=
  (λ p, storedModule p.1 p.2) <$> stored.

(** The modules stored for a business. *)
Definition modulesOf (business : Z) (stored : list (Z * ModuleSimplify))
    : list ModuleSimplify :=
  (filter (λ p, p.1 = business) stored).*2.

(** Parsing inverts storing. *)
Lemma refParse_storedModule business module :
  refParse (storedModule business module) = inr module.
Proof. by destruct module. Qed.

(** The query of lines 38-44 selects the instances of the business. *)
Lemma moduleQuery_selects biz business module :
  forallb (satisfies (storedModule business module)) (Condition (moduleQuery biz))
  = bool_decide (business = BKAppIDField biz).
Proof.
  simpl. rewrite andb_true_r. apply bool_decide_ext.
  unfold storedModule, rawModule. rewrite lookup_insert. naive_solver.
Qed.

Lemma parsedModules_stored (stored : list (Z * ModuleSimplify)) :
  parsedModules (storeModules stored) = stored.*2.
Proof.
  induction stored as [|[b m] stored IH]; [done|].
  change (storeModules ((b, m) :: stored))
    with ([storedModule b m] ++ storeModules stored).
  rewrite parsedModules_app, IH. unfold parsedModules. csimpl.
  by rewrite refParse_storedModule.
Qed.

Lemma filter_storeModules biz (stored : list (Z * ModuleSimplify)) :
  filter (λ i, forallb (satisfies i) (Condition (moduleQuery biz)) = true)
         (storeModules stored)
  = storeModules (filter (λ p, p.1 = BKAppIDField biz) stored).
Proof.
  induction stored as [|[b m] stored IH]; [done|].
  change (storeModules ((b, m) :: stored))
    with (storedModule b m :: storeModules stored).
  rewrite !filter_cons, IH. cbn [fst snd].
  destruct (decide (b = BKAppIDField biz)) as [->|Hb].
  - by rewrite decide_True
      by (by rewrite moduleQuery_selects, bool_decide_eq_true_2).
  - by rewrite decide_False
      by (by rewrite moduleQuery_selects, bool_decide_eq_false_2).
Qed.

(** C32 (roundtrip).  Fetching inverts storing: from a CMDB that stores the
    modules [stored], each under its business, and answers the read, the
    function reads and extracts for a business exactly the modules stored
    under it, as they were stored and in their order; modules of other
    businesses do not get in, and none of the business is lost. *)
Theorem fetch_roundtrip biz (w : RefWorld) stored (s : St RefWorld) :
  world s = w → readError (faults w) = None →
  cmdbInstances w = storeModules stored →
  ((instances ← readInstances biz; extractModules biz instances) s).1
  = Val (modulesOf (BKAppIDField biz) stored).
Proof.
  intros Hw Hread Hstored. rewrite bind_run, readInstances_run. cbn zeta.
  unfold answer, readOp. rewrite Hw. simpl. unfold refReadInstance.
  rewrite Hread, decide_True by done. cbn [fst snd].
  rewrite extractModules_run, Hstored. unfold applyLimit. cbn [Limit moduleQuery fst].
  rewrite filter_storeModules. apply f_equal, parsedModules_stored.
Qed.

(** ** In the sample world *)

Lemma fetch_roundtrip_witness :
  ((instances ← readInstances exBusiness; extractModules exBusiness instances)
     (initSt exWorld)).1
  = Val (modulesOf 2 [(2%Z, exModule1); (2%Z, exModule2);
                      (5%Z, mkModuleSimplify 9 "x")]).
Proof.
  by apply (fetch_roundtrip exBusiness exWorld
              [(2%Z, exModule1); (2%Z, exModule2); (5%Z, mkModuleSimplify 9 "x")]
              (initSt exWorld)).
Defined.
