(* ===== verification/Healing.v ===== *)
(** * Healing: a later run makes up for the mutations that failed

    [HandleModuleSync] logs a failure of [RegisterResource] or
    [RawDeregisterResource] and goes on (lines 142-144, 159-161): nothing
    is retried within the run.  The function keeps no state between runs,
    so the next run starts from what IAM lists then.  Against a backend in
    which a failed mutation has changed nothing IAM lists
    ([AtomicBackend]), the first run leaves a listing the next run can work
    with, whatever its two mutations answered, and a next run whose
    mutations succeed makes IAM consistent with the CMDB
    ([failed_mutations_heal]). *)

From S2P Require Import Prelude GoString Meta Codec Effects Handler.
From S2P Require Import Backend Steps DiffEngine HandlerSpec Mutations.
From S2P Require Import BackendLaws Convergence.

Section contract.
Context {W : Type} `{!Collaborators W}.

(** A mutation that answers with an error has changed nothing of what IAM
    lists. *)
Class AtomicBackend : Prop := {
  Register_fails biz rs w err :
    (RegisterResource rs w).1 = Some err →
    listing biz (RegisterResource rs w).2 = listing biz w;
  Deregister_fails biz sc ds w err :
    (RawDeregisterResource sc ds w).1 = Some err →
    listing biz (RawDeregisterResource sc ds w).2 = listing biz w;
}.

End contract.

Arguments AtomicBackend W {_}.

Section healing.
Context {W : Type} `{!Collaborators W} `{!LawfulBackend W} `{!AtomicBackend W}.
Implicit Types (s : St W) (w : W) (biz : BusinessSimplify).

(** ** What IAM lists after a mutation step, failed or not *)

Lemma listing_afterRegister_any biz w l (pairs : list Resolved) :
  listing biz w = inr l →
  Forall (λ p, moduleOf biz p.1 ∧ resolvesTo w p.1 p.2) pairs →
  ∃ l1, listing biz (afterRegister w pairs.*1) = inr l1 ∧
    ∀ b, b ∈ l1 → b ∈ l ∨ b ∈ backendOfEntity <$> pairs.*2.
Proof.
  intros Hl Hpairs. destruct (RegisterResource pairs.*1 w).1 as [err|] eqn:Hreg.
  - exists l. split; [|by left]. unfold afterRegister.
    case_decide; [done|]. by rewrite (Register_fails _ _ _ err).
  - destruct (listing_afterRegister biz w l pairs) as (l1 & ? & Hin); [done..|].
    exists l1. split; [done|]. intros b. by rewrite Hin.
Qed.

Lemma listing_afterDeregister_any biz w l sc ds r e :
  listing biz w = inr l →
  moduleOf biz r → resolvesTo w r e → sc = EntityScope e →
  ∃ l2, listing biz (afterDeregister w sc ds) = inr l2 ∧ ∀ b, b ∈ l2 → b ∈ l.
Proof.
  intros Hl Hr He Hsc. destruct (RawDeregisterResource sc ds w).1 as [err|] eqn:Hd.
  - exists l. split; [|done]. unfold afterDeregister.
    case_decide; [done|]. by rewrite (Deregister_fails _ _ _ _ err).
  - destruct (listing_afterDeregister biz w l sc ds r e) as (l2 & ? & Hin);
      [done..|].
    exists l2. split; [done|]. intros b. rewrite Hin. tauto.
Qed.

(** ** The world a run leaves, whatever its mutations answered *)

Section first_run.
Context (task : WorkRequest) (s : St W) (biz : BusinessSimplify).
Context (instances : list MapStr) (resultResources : list BackendResource).
Context (resolved : list Resolved) (s1 : St W).
Context (Hres : Resolves task s biz instances resultResources resolved s1).
Context (Hsome : resolved ≠ []).
Context (Hlen : (Z.of_nat (length instances) < 2 ^ 63)%Z).

(** IAM answers the next listing, with resources it listed before or that
    the run registered; none of them is without layers. *)
Lemma run_leaves_listing :
  ∃ l', listing biz (world (HandleModuleSync task s).2) = inr l' ∧
    Forall (λ r, r ≠ []) l'.
Proof.
  rewrite (first_run_world _ _ _ _ _ _ _ Hres Hlen). unfold worldAfter.
  destruct (listing_afterRegister_any biz (world s) resultResources
              (missingPairs (filter isModuleResource resultResources) resolved))
    as (l1 & Hl1 & Hin1); [by eapply first_run_listing|by eapply first_run_missing|].
  destruct (first_run_scope _ _ _ _ _ _ _ Hres Hsome) as (p & Hp & He & Hsc).
  edestruct (listing_afterDeregister_any biz) as (l2 & Hl2 & Hin2);
    [exact Hl1|exact Hp|by rewrite <-afterRegister_sameCMDB|exact Hsc|].
  exists l2. split; [exact Hl2|].
  pose proof (first_run_marker _ _ _ _ _ _ _ Hres) as Hmark.
  rewrite Forall_forall in Hmark. destruct Hres as (_ & Hne & _).
  rewrite Forall_forall in Hne. apply Forall_forall.
  intros b [Hb|Hb]%Hin2%Hin1; [by apply Hne|].
  apply list_elem_of_fmap in Hb as (e & -> & Hb).
  apply list_elem_of_fmap in Hb as (q & -> & [_ Hq]%list_elem_of_filter).
  by apply isModuleResource_nonempty, Hmark.
Qed.

(** The CMDB is as the run found it. *)
Lemma run_leaves_CMDB : sameCMDB (world s) (world (HandleModuleSync task s).2).
Proof.
  rewrite (first_run_world _ _ _ _ _ _ _ Hres Hlen). apply worldAfter_sameCMDB.
Qed.

(** A run heals whatever left the CMDB as the first run found it and a
    listing without empty resources. *)
Lemma heals_from w1 s2 :
  sameCMDB (world s) w1 →
  (∃ l', listing biz w1 = inr l' ∧ Forall (λ r, r ≠ []) l') →
  sameCMDB w1 (world s2) → listing biz (world s2) = listing biz w1 →
  (∀ l', listing biz (world s2) = inr l' →
     mutationsSucceed (world s2)
       (toRegister (filter isModuleResource l') resolved)
       (lastScope zeroScope resolved)
       (toDeregister (filter isModuleResource l') resolved)) →
  (HandleModuleSync task s2).1 = Returned None ∧
  ∃ l'', listing biz (world (HandleModuleSync task s2).2) = inr l'' ∧
    consistent (filter isModuleResource l'') resolved.
Proof.
  intros Hsame1 (l' & Hl' & Hne') Hsame Hlist Hmut. rewrite <-Hlist in Hl'.
  destruct (Resolves_sameCMDB task s s2 biz instances resultResources l'
              resolved s1) as [s3 Hres2]; [done|by etrans|done..|].
  split.
  - by rewrite (HandleModuleSync_Resolves _ _ _ _ _ _ _ Hres2 Hlen).
  - eapply first_run_consistent; eauto.
Qed.

(** C20 (functional).  Self-healing: the mutations of a run may fail, one
    or both, and the run only logs it.  Against a lawful backend in which
    a failed mutation changes nothing IAM lists, a later run for the same
    business that finds the CMDB and the listing as the first run left
    them, and whose own mutations succeed, returns [nil] and leaves the
    module resources of IAM with exactly the keys of the resolved CMDB
    modules. *)
Theorem failed_mutations_heal s2 :
  let w1 := world (HandleModuleSync task s).2 in
  sameCMDB w1 (world s2) → listing biz (world s2) = listing biz w1 →
  (∀ l', listing biz (world s2) = inr l' →
     mutationsSucceed (world s2)
       (toRegister (filter isModuleResource l') resolved)
       (lastScope zeroScope resolved)
       (toDeregister (filter isModuleResource l') resolved)) →
  (HandleModuleSync task s2).1 = Returned None ∧
  ∃ l'', listing biz (world (HandleModuleSync task s2).2) = inr l'' ∧
    consistent (filter isModuleResource l'') resolved.
Proof.
  cbn zeta. apply heals_from; [apply run_leaves_CMDB|apply run_leaves_listing].
Qed.

End first_run.

End healing.

(** ** The reference backend *)

#[export] Instance refBackend_atomic : AtomicBackend RefWorld.
Proof.
  split.
  - intros biz rs w err. simpl. unfold refRegister.
    by destruct (registerError (faults w)).
  - intros biz sc ds w err. simpl. unfold refDeregister.
    by destruct (deregisterError (faults w)).
Qed.

(** Worlds of the reference backend with the same instances and the same
    faults of the read and of the dry runs have the same CMDB. *)
Lemma refWorld_sameCMDB (w w' : RefWorld) :
  cmdbInstances w' = cmdbInstances w →
  readError (faults w') = readError (faults w) →
  dryRunErrorOn (faults w') = dryRunErrorOn (faults w) →
  unresolvedOn (faults w') = unresolvedOn (faults w) →
  sameCMDB w w'.
Proof.
  intros Hc Hr Hd Hu. split; intros; simpl.
  - unfold refReadInstance. rewrite Hc, Hr.
    destruct (readError (faults w)); [done|by case_decide].
  - unfold refDryRun. rewrite Hd, Hu. by repeat case_decide.
Qed.

(** Without faults of the mutations, the mutations succeed. *)
Lemma refWorld_mutationsSucceed (w : RefWorld) toReg sc toDereg :
  registerError (faults w) = None → deregisterError (faults w) = None →
  mutationsSucceed w toReg sc toDereg.
Proof.
  intros Hr Hd. split; intros _; simpl.
  - unfold refRegister. by rewrite Hr.
  - unfold refDeregister, afterRegister. case_decide; [by rewrite Hd|].
    simpl. unfold refRegister. rewrite Hr. simpl. by rewrite Hd.
Qed.

(** ** In the sample world *)

(** The registration succeeds and the deregistration fails. *)
Definition exWorldDeregisterFails : RefWorld :=
  withFaults {| readError := None; listError := None;
                dryRunErrorOn := []; unresolvedOn := [];
                registerError := None;
                deregisterError := Some exMutationError |} exWorld.

(** The world the first run leaves, once the fault is gone. *)
Definition exWorldHealed : RefWorld :=
  withFaults noFaults
    (world (HandleModuleSync exTask (initSt exWorldDeregisterFails)).2).

Lemma exWorldDeregisterFails_Resolves :
  Resolves exTask (initSt exWorldDeregisterFails) exBusiness exInstances exReal
    exResolved
    (resolveModules exBusiness (parsedModules exInstances)
       (afterFilter exBusiness exInstances exReal
          (initSt exWorldDeregisterFails))).2.
Proof. split_and!; [by apply exWorld_Listed|apply exReal_nonempty|reflexivity]. Qed.

Lemma failed_mutations_heal_witness :
  (HandleModuleSync exTask (initSt exWorldHealed)).1 = Returned None ∧
  ∃ l'', listing exBusiness (world (HandleModuleSync exTask (initSt exWorldHealed)).2)
         = inr l'' ∧
    consistent (filter isModuleResource l'') exResolved.
Proof.
  apply (failed_mutations_heal exTask (initSt exWorldDeregisterFails) exBusiness
           exInstances exReal exResolved _ exWorldDeregisterFails_Resolves);
    [done|simpl; lia|by apply refWorld_sameCMDB|reflexivity|].
  intros l' _. by apply refWorld_mutationsSucceed.
Defined.

(** The first run registers "db" and fails to deregister "cache"; the run
    in the healed world registers nothing and deregisters "cache". *)
Example sample_heal_after_failed_deregistration :
  iamRegistry (world (HandleModuleSync exTask (initSt exWorldDeregisterFails)).2)
  = [(2%Z, exBackend exModule1); (2%Z, exBackend exModule3);
     (2%Z, exBackend exModule2)] ∧
  filter (λ c, is_mutation c)
    (calls (trace (HandleModuleSync exTask (initSt exWorldHealed)).2))
  = [CallRawDeregisterResource (scopeOfBusiness 2) [exBackend exModule3]] ∧
  iamRegistry (world (HandleModuleSync exTask (initSt exWorldHealed)).2)
  = [(2%Z, exBackend exModule1); (2%Z, exBackend exModule2)].
Proof. vm_compute. done. Qed.
