(* ===== verification/Order.v ===== *)
(** * Order: the diff up to the order of its inputs

    Neither the CMDB nor IAM promises an order of what it returns.  The
    batches [HandleModuleSync] computes are lists, in the order of the read
    and of the listing; as sets they do not depend on either order.  The
    reference diff is [Proper] for permutation of its inputs, and through
    the refinement of [DiffEngine] so is the state of the loop of lines
    96-154, the hit-count map even up to equality
    ([diff_order_independent]).  The scope of the deregistration is the
    exception: it is the scope of the module resolved last. *)

From S2P Require Import Prelude GoString Meta Codec Effects Handler Backend.
From S2P Require Import DiffEngine Convergence.

Implicit Types (realResources : list BackendResource) (resolved : list Resolved).

(** ** The reference diff *)

#[export] Instance iamKeys_perm : Proper ((≡ₚ) ==> (≡ₚ)) iamKeys.
Proof. intros l l' Hl. unfold iamKeys. by rewrite Hl. Qed.

#[export] Instance cmdbKeys_perm : Proper ((≡ₚ) ==> (≡ₚ)) cmdbKeys.
Proof. intros l l' Hl. unfold cmdbKeys. by rewrite Hl. Qed.

(** Another order of the listing: the same registrations, in the same
    order. *)
#[export] Instance toRegister_proper : Proper ((≡ₚ) ==> (=) ==> (=)) toRegister.
Proof.
  intros l l' Hl resolved ? <-. unfold toRegister. f_equal.
  apply list_filter_iff. intros p. by rewrite Hl.
Qed.

#[export] Instance toRegister_perm : Proper ((≡ₚ) ==> (≡ₚ) ==> (≡ₚ)) toRegister.
Proof.
  intros l l' Hl resolved resolved' Hr.
  rewrite (toRegister_proper _ _ Hl _ _ eq_refl). unfold toRegister. by rewrite Hr.
Qed.

(** Another order of the modules: the same deregistrations, in the same
    order. *)
#[export] Instance toDeregister_proper :
  Proper ((=) ==> (≡ₚ) ==> (=)) toDeregister.
Proof.
  intros l ? <- resolved resolved' Hr. unfold toDeregister.
  apply list_filter_iff. intros b. by rewrite Hr.
Qed.

#[export] Instance toDeregister_perm :
  Proper ((≡ₚ) ==> (≡ₚ) ==> (≡ₚ)) toDeregister.
Proof.
  intros l l' Hl resolved resolved' Hr.
  rewrite (toDeregister_proper _ _ eq_refl _ _ Hr). unfold toDeregister. by rewrite Hl.
Qed.

#[export] Instance hitsOf_perm k : Proper ((≡ₚ) ==> (=)) (hitsOf k).
Proof. intros resolved resolved' Hr. unfold hitsOf. by rewrite Hr. Qed.

#[export] Instance hitMap_perm : Proper ((≡ₚ) ==> (≡ₚ) ==> (=)) hitMap.
Proof.
  intros l l' Hl resolved resolved' Hr. apply map_eq. intros k. unfold hitMap.
  rewrite !diffPure_lookup. rewrite (hitsOf_perm k _ _ Hr).
  apply decide_ext. by rewrite Hl.
Qed.

#[export] Instance consistent_perm : Proper ((≡ₚ) ==> (≡ₚ) ==> iff) consistent.
Proof.
  intros l l' Hl resolved resolved' Hr. unfold consistent.
  by setoid_rewrite Hl; setoid_rewrite Hr.
Qed.

(** Consistency can be computed. *)
#[export] Instance consistent_dec realResources resolved :
  Decision (consistent realResources resolved).
Proof.
  refine (cast_if (decide (iamKeys realResources ⊆ cmdbKeys resolved ∧
                           cmdbKeys resolved ⊆ iamKeys realResources)));
    unfold consistent; set_solver.
Defined.

(** ** The loop of the source *)

(** C30 (equivalence).  The diff does not depend on the order in which the
    CMDB returned the modules and IAM listed the resources: with fewer than
    2^63 modules, the loop of lines 96-154 run on permuted inputs reaches
    the same hit-count map and, up to permutation, the same [needRegister]
    and the same resources to deregister. *)
Theorem diff_order_independent realResources realResources' resolved resolved' :
  realResources ≡ₚ realResources' → resolved ≡ₚ resolved' →
  (Z.of_nat (length resolved) < 2 ^ 63)%Z →
  let st := diffPure (initDiffState realResources) resolved in
  let st' := diffPure (initDiffState realResources') resolved' in
  iamResourceKeyMap st = iamResourceKeyMap st' ∧
  needRegister st ≡ₚ needRegister st' ∧
  collectDeregister (iamResourceKeyMap st) realResources
  ≡ₚ collectDeregister (iamResourceKeyMap st') realResources'.
Proof.
  intros Hl Hr Hlen. cbn zeta.
  rewrite !diffPure_toRegister, !diffPure_toDeregister by by rewrite <-?Hr.
  split_and!; [apply (hitMap_perm _ _ Hl _ _ Hr)|by rewrite Hl, Hr..].
Qed.

(** ** In the sample world *)

Lemma diff_order_independent_witness :
  let st := diffPure (initDiffState exReal) exResolved in
  let st' := diffPure (initDiffState (reverse exReal)) (reverse exResolved) in
  iamResourceKeyMap st = iamResourceKeyMap st' ∧
  needRegister st ≡ₚ needRegister st' ∧
  collectDeregister (iamResourceKeyMap st) exReal
  ≡ₚ collectDeregister (iamResourceKeyMap st') (reverse exReal).
Proof.
  apply (diff_order_independent exReal (reverse exReal) exResolved
           (reverse exResolved));
    [by rewrite reverse_Permutation..|simpl; lia].
Defined.

(** The scope does depend on the order: it is the scope of the module that
    comes last. *)
Example sample_scope_depends_on_order (e1 e2 : ResourceEntity) r1 r2 :
  scope (diffPure (initDiffState []) [(r1, e1); (r2, e2)]) = EntityScope e2 ∧
  scope (diffPure (initDiffState []) [(r2, e2); (r1, e1)]) = EntityScope e1.
Proof. by rewrite !diffPure_scope. Qed.

(** After the sample run IAM is consistent with the CMDB, by evaluation. *)
Example sample_consistent_by_decide :
  consistent
    (iamRegistry (world (HandleModuleSync exTask (initSt exWorld)).2)).*2
    exResolved.
Proof. apply (bool_decide_unpack _). vm_compute. exact I. Qed.
