(* ===== verification/SingleFlight.v ===== *)
(** * SingleFlight: at most one invocation per business at a time

    Two invocations of [HandleModuleSync] for the same business that
    overlap race on IAM ([Parallel.sample_race_double_registration]); the
    specification asks the dispatcher to prevent it, by a lock per business
    or a single-flight key.  This file models that dispatcher: every
    invocation has a key, the business of its task, and an invocation takes
    a step only while no other invocation with its key is in flight
    ([allowed], [flightTurn]); a turn that is not allowed leaves the pool as
    it is.

    Under this discipline the invocations of a business run as if one after
    another: in every schedule, the invocations of a business that have
    started have, in the order in which they started, the outcomes and logs
    of [HandleModuleSync] run sequentially from the initial world, and IAM
    lists for the business what it lists after those sequential runs
    ([single_flight_serial]).  Invocations of other businesses may
    interleave freely. *)

From stdpp Require Import relations.
From S2P Require Import Prelude GoString Meta Codec Effects Handler.
From S2P Require Import Backend Steps DiffEngine BackendLaws Isolation.
From S2P Require Import HandlerSpec Mutations Convergence.
From S2P Require Import Machine MachineSpec Owned Pool Partition Parallel.

Section flight.
Context {W : Type} `{!Collaborators W}.
Context (keys : list Z).
Implicit Types (pool : Pool W) (σ : list nat) (r : Run) (i j k : nat).

(** ** The dispatcher with a lock per key *)

(** An invocation is in flight from its first step until it returns. *)
Definition busy r : bool :=
  match runAt r with
  | AtAssert | Done _ => false
  | _ => true
  end.

(** Run [i] may take a step: no other run with its key is in flight. *)
Definition allowed pool i : Prop :=
  Forall (λ jr : nat * Run, keys !! jr.1 = keys !! i → jr.1 ≠ i → busy jr.2 = false)
         (imap pair (runs pool)).

#[export] Instance allowed_dec pool i : Decision (allowed pool i).
Proof. unfold allowed. apply _. Defined.

Lemma allowed_spec pool i :
  allowed pool i ↔
  ∀ j r, runs pool !! j = Some r → keys !! j = keys !! i → j ≠ i → busy r = false.
Proof.
  unfold allowed. rewrite Forall_forall. split.
  - intros H j r Hr. apply (H (j, r)), elem_of_lookup_imap. eauto.
  - intros H [j r] (j' & r' & [= -> ->] & Hr)%elem_of_lookup_imap. by apply H.
Qed.

(** A turn under the lock: a run that is not allowed to step waits. *)
Definition flightTurn (i : nat) pool : Pool W :=
  if decide (allowed pool i) then turn i pool else pool.

(** The pool after the turns of a schedule. *)
Definition fly σ pool : Pool W := foldl (λ pool i, flightTurn i pool) pool σ.

(** The outcome and the log of run [k], once it has returned. *)
Definition resultOf pool k : option (Outcome * list Event) :=
  r ← runs pool !! k;
  match runAt r with
  | Done o => Some (o, runLog r)
  | _ => None
  end.

(** ** Invocations one after another *)

(** The world after the tasks have been handled one after another. *)
Definition serialWorld (ts : list WorkRequest) (w : W) : W :=
  foldl (λ w task, world (HandleModuleSync task (initSt w)).2) w ts.

(** Their outcomes and logs. *)
Fixpoint serialResults (ts : list WorkRequest) (w : W)
    : list (Outcome * list Event) :=
  match ts with
  | [] => []
  | task :: ts =>
      let x := HandleModuleSync task (initSt w) in
      (x.1, trace x.2) :: serialResults ts (world x.2)
  end.

Lemma serialWorld_snoc ts task w :
  serialWorld (ts ++ [task]) w
  = world (HandleModuleSync task (initSt (serialWorld ts w))).2.
Proof. unfold serialWorld. by rewrite foldl_snoc. Qed.

Lemma serialResults_snoc ts task w :
  serialResults (ts ++ [task]) w
  = serialResults ts w
    ++ [((HandleModuleSync task (initSt (serialWorld ts w))).1,
         trace (HandleModuleSync task (initSt (serialWorld ts w))).2)].
Proof. revert w. induction ts as [|t ts IH]; intros w; simpl; [done|]. by rewrite IH. Qed.

(** ** Turns *)

Lemma fly_snoc σ i pool : fly (σ ++ [i]) pool = flightTurn i (fly σ pool).
Proof. unfold fly. by rewrite foldl_snoc. Qed.

(** A run that has returned does not move, and moves nothing. *)
Lemma turn_done i pool r o :
  runs pool !! i = Some r → runAt r = Done o → turn i pool = pool.
Proof.
  intros Hr Ho. unfold turn. rewrite Hr. cbn zeta.
  rewrite exec_final by (unfold final; simpl; by rewrite Ho).
  destruct pool as [rs w], r as [task p log]. simpl in *. f_equal.
  by apply list_insert_id.
Qed.

(** No step leads back to the entry of the function. *)
Lemma exec_leaves_entry task (c : Config W) : final c = false → (exec task c).1 ≠ AtAssert.
Proof.
  intros Hf Hp. pose proof (exec_before task c Hf) as Hb. rewrite Hp in Hb.
  destruct c.1; unfold before in Hb; simpl in Hb; lia.
Qed.

Lemma flightTurn_cases i pool :
  flightTurn i pool = pool ∨ (allowed pool i ∧ flightTurn i pool = turn i pool).
Proof. unfold flightTurn. case_decide; auto. Qed.

Lemma flightTurn_other i j pool :
  i ≠ j → runs (flightTurn j pool) !! i = runs pool !! i.
Proof. intros Hij. unfold flightTurn. case_decide; [by apply turn_other|done]. Qed.

Lemma flightTurn_length i pool :
  length (runs (flightTurn i pool)) = length (runs pool).
Proof. unfold flightTurn. case_decide; [apply turn_length|done]. Qed.

Lemma fly_length σ pool : length (runs (fly σ pool)) = length (runs pool).
Proof.
  induction σ as [|j σ IH] using rev_ind; [done|].
  by rewrite fly_snoc, flightTurn_length.
Qed.

(** A wait that is refused is refused because of an invocation in
    flight. *)
Lemma refused_busy pool i :
  ¬ allowed pool i →
  ∃ j r, runs pool !! j = Some r ∧ keys !! j = keys !! i ∧ j ≠ i ∧ busy r = true.
Proof.
  intros Hno. apply not_Forall_Exists, Exists_exists in Hno; [|apply _].
  destruct Hno as ([j0 r0] & (j & r & [= -> ->] & Hr)%elem_of_lookup_imap & Hjr).
  simpl in Hjr. exists j, r. split; [done|].
  destruct (decide (keys !! j = keys !! i)), (decide (j = i)),
    (busy r) eqn:Hb; naive_solver.
Qed.

(** Every run keeps its task. *)
Lemma fly_task σ tasks w i r :
  runs (fly σ (dispatch tasks w)) !! i = Some r → tasks !! i = Some (runTask r).
Proof.
  revert r. induction σ as [|j σ IH] using rev_ind; intros r.
  { change (fly [] (dispatch tasks w)) with (dispatch tasks w).
    rewrite dispatch_lookup. by intros (task & -> & ->)%fmap_Some. }
  rewrite fly_snoc. destruct (decide (i = j)) as [->|Hij];
    [|rewrite flightTurn_other by done; apply IH].
  destruct (flightTurn_cases j (fly σ (dispatch tasks w))) as [->|[_ ->]];
    [apply IH|].
  destruct (runs (fly σ (dispatch tasks w)) !! j) as [rj|] eqn:Hrj.
  - rewrite (turn_self _ _ _ Hrj). intros [= <-]. simpl. by apply IH.
  - unfold turn. by rewrite Hrj, Hrj.
Qed.

End flight.

(** ** The runs of a business, in the order in which they started *)

Section serial.
Context {W : Type} `{!Collaborators W} `{!LawfulBackend W} `{!ScopedBackend W}.
Context `{!PartitionedBackend W}.
Context (tasks : list WorkRequest) (keys : list Z) (w0 : W).
Context (Htasks : Forall2 taskOf tasks keys).
Implicit Types (pool : Pool W) (σ : list nat) (r : Run) (b : Z).
Implicit Types (done : list nat) (active : option nat).

(** The tasks of the runs [order]. *)
Definition tasksAt (order : list nat) : list WorkRequest := omap (tasks !!.) order.

(** Run [j] has not taken a step. *)
Definition unstarted pool j : Prop :=
  runs pool !! j = (λ task, mkRun task AtAssert []) <$> tasks !! j.

(** The run that started last is where it would be alone, had it started
    in world [base]; without such a run the shared world is [base] for the
    business. *)
Definition holder b pool (base : W) active : Prop :=
  match active with
  | None => agree b (shared pool) base
  | Some k =>
      ∃ r n, runs pool !! k = Some r ∧ tasks !! k = Some (runTask r) ∧
             keys !! k = Some b ∧ 0 < n ∧
             tracks b r (shared pool) (solo (runTask r) n base)
  end.

(** The runs [done] of business [b] have returned, in this order, what
    they return one after another; [active] started after them; no other
    run of the business has started. *)
Definition flown b pool done active : Prop :=
  NoDup (done ++ option_list active) ∧
  Forall (λ k, keys !! k = Some b) done ∧
  (∀ j, keys !! j = Some b → j ∉ done ++ option_list active → unstarted pool j) ∧
  Forall2 (λ k res, resultOf pool k = Some res) done
          (serialResults (tasksAt done) w0) ∧
  holder b pool (serialWorld (tasksAt done) w0) active.

Lemma tasksAt_snoc order k task :
  tasks !! k = Some task → tasksAt (order ++ [k]) = tasksAt order ++ [task].
Proof. intros Hk. unfold tasksAt. rewrite omap_app. simpl. by rewrite Hk. Qed.

Lemma key_taskOf k b task :
  keys !! k = Some b → tasks !! k = Some task → taskOf task b.
Proof.
  intros Hk Ht. destruct (Forall2_lookup_l _ _ _ _ _ Htasks Ht) as (b' & Hb' & ?).
  by assert (b' = b) as <- by congruence.
Qed.

Lemma flown_init b : flown b (dispatch tasks w0) [] None.
Proof.
  split_and!; [apply NoDup_nil_2|done| |apply Forall2_nil_2|simpl; reflexivity].
  intros j _ _. apply dispatch_lookup.
Qed.

(** A run that has taken a step is no longer at the entry of the
    function. *)
Lemma solo_started task n w : 0 < n → (solo task n w).1 ≠ AtAssert.
Proof.
  destruct n as [|n]; [lia|]. intros _. unfold solo. rewrite run_S_r.
  destruct (final (run task n (start (initSt w)))) eqn:Hf.
  - rewrite exec_final by done. intros Hp. unfold final in Hf. by rewrite Hp in Hf.
  - by apply exec_leaves_entry.
Qed.

Lemma resultOf_Some pool k res :
  resultOf pool k = Some res ↔
  ∃ r, runs pool !! k = Some r ∧ runAt r = Done res.1 ∧ runLog r = res.2.
Proof.
  unfold resultOf. split.
  - intros Hres. destruct (runs pool !! k) as [r|]; simpl in Hres; [|done].
    exists r. destruct (runAt r); try done. by injection Hres as <-.
  - intros (r & -> & Ho & Hl). simpl. rewrite Ho, Hl. by destruct res.
Qed.

(** The result of a run that has returned is final. *)
Lemma resultOf_turn pool j k res :
  resultOf pool k = Some res → resultOf (turn j pool) k = Some res.
Proof.
  intros Hres. destruct (decide (k = j)) as [->|Hkj].
  - apply resultOf_Some in Hres as Hr. destruct Hr as (r & Hr & Ho & _).
    by rewrite (turn_done _ _ _ _ Hr Ho).
  - unfold resultOf. by rewrite turn_other.
Qed.

(** Where the runs of a business are. *)
Lemma flown_run b pool done active j r :
  flown b pool done active → keys !! j = Some b → runs pool !! j = Some r →
  (j ∈ done ∧ (∃ o, runAt r = Done o)) ∨
  (active = Some j ∧ runAt r ≠ AtAssert ∧ owned b (runAt r)) ∨
  ((j ∉ done ++ option_list active) ∧ runAt r = AtAssert).
Proof.
  intros (_ & _ & Hun & Hdone & Hact) Hj Hr.
  destruct (decide (j ∈ done)) as [Hin|Hnin].
  { left. split; [done|]. apply list_elem_of_lookup in Hin as [pos Hpos].
    destruct (Forall2_lookup_l _ _ _ _ _ Hdone Hpos) as (res & _ & Hres).
    apply resultOf_Some in Hres as (r' & Hr' & Ho & _). exists res.1. congruence. }
  destruct (decide (active = Some j)) as [->|Hne].
  { right; left. destruct Hact as (r' & n & Hr' & Ht & _ & Hn & Hat & _).
    assert (r' = r) as -> by congruence. rewrite Hat.
    split_and!; [done|by apply solo_started|].
    apply owned_run. by eapply key_taskOf. }
  right; right. assert (j ∉ done ++ option_list active) as Hout.
  { rewrite elem_of_app. destruct active; set_solver. }
  split; [done|]. specialize (Hun j Hj Hout). unfold unstarted in Hun.
  rewrite Hr in Hun. by destruct (tasks !! j); simplify_eq/=.
Qed.

Lemma flown_owned b pool done active j r :
  flown b pool done active → keys !! j = Some b → runs pool !! j = Some r →
  owned b (runAt r).
Proof.
  intros Hfl Hj Hr.
  destruct (flown_run _ _ _ _ _ _ Hfl Hj Hr) as [[_ [o ->]]|[(_ & _ & ?)|[_ ->]]];
    done.
Qed.

(** ** What a turn does to the runs of a business *)

(** A step of a run of another business. *)
Lemma flown_other b pool done active j rj bj :
  runs pool !! j = Some rj → keys !! j = Some bj → bj ≠ b →
  owned bj (runAt rj) →
  flown b pool done active → flown b (turn j pool) done active.
Proof.
  intros Hrj Hj Hbj Hown (Hnd & Hkeys & Hun & Hdone & Hact).
  assert (agree b (shared (turn j pool)) (shared pool)) as Hw.
  { unfold turn. rewrite Hrj. simpl. symmetry.
    by apply (exec_stays (runTask rj) b bj (configOf rj (shared pool))). }
  assert (∀ k, keys !! k = Some b → runs (turn j pool) !! k = runs pool !! k) as Hk.
  { intros k Hkb. apply turn_other. congruence. }
  split_and!; [done..| | |].
  - intros k Hkb Hout. unfold unstarted. rewrite Hk by done. by apply Hun.
  - eapply Forall2_impl; [exact Hdone|]. intros k res. apply resultOf_turn.
  - destruct active as [k|]; simpl in *; [|by etrans].
    destruct Hact as (r & n & Hr & Ht & Hkb & Hn & Hat & Hlog & Hag).
    exists r, n. rewrite Hk by done. unfold tracks. split_and!; [done..|by etrans].
Qed.

(** The run that started last has returned: it joins the runs that are
    done, and the world it leaves is the next base. *)
Lemma flown_retire b pool done k :
  flown b pool done (Some k) →
  (∀ r, runs pool !! k = Some r → busy r = false) →
  flown b pool (done ++ [k]) None.
Proof.
  intros (Hnd & Hkeys & Hun & Hdone & r & n & Hr & Ht & Hkb & Hn & Hat & Hlog & Hag) Hidle.
  specialize (Hidle r Hr). unfold busy in Hidle.
  pose proof (solo_started (runTask r) n (serialWorld (tasksAt done) w0) Hn) as Hst.
  destruct (solo (runTask r) n (serialWorld (tasksAt done) w0)) as [p s'] eqn:Hsolo.
  simpl in *. rewrite Hat in Hidle. destruct p as [| | | | | | | | | | |o]; try done.
  assert (HandleModuleSync (runTask r) (initSt (serialWorld (tasksAt done) w0))
          = (o, s')) as Hrun.
  { apply machine_computes_start. rewrite <-Hsolo. apply run_rtc. }
  unfold flown, holder.
  rewrite (tasksAt_snoc _ _ _ Ht), serialResults_snoc, serialWorld_snoc, Hrun.
  split_and!; [by rewrite app_nil_r|by apply Forall_app; split; [|constructor]
              |by rewrite app_nil_r| |done].
  apply Forall2_app; [done|]. constructor; [|constructor].
  apply resultOf_Some. exists r. by split_and!.
Qed.

(** A run that had not started takes its first step. *)
Lemma flown_start b pool done j rj :
  flown b pool done None → keys !! j = Some b → j ∉ done →
  runs pool !! j = Some rj →
  flown b (turn j pool) done (Some j).
Proof.
  intros (Hnd & Hkeys & Hun & Hdone & Hag) Hj Hout Hrj. simpl in *.
  rewrite app_nil_r in *. pose proof (Hun j Hj Hout) as Hu. unfold unstarted in Hu.
  rewrite Hrj in Hu. destruct (tasks !! j) as [task|] eqn:Htask; [|done].
  injection Hu as ->.
  split_and!; [|done| | |].
  - apply NoDup_app. split_and!; [done|set_solver|apply NoDup_singleton].
  - intros k Hkb [Hk1 Hk2%not_elem_of_cons]%not_elem_of_app. unfold unstarted.
    rewrite turn_other by naive_solver. by apply Hun.
  - eapply Forall2_impl; [exact Hdone|]. intros k res. apply resultOf_turn.
  - eexists _, 1. rewrite (turn_self _ _ _ Hrj). split_and!; [done..|lia|].
    change (solo task 1 (serialWorld (tasksAt done) w0))
      with (exec task (start (initSt (serialWorld (tasksAt done) w0)))).
    unfold turn. rewrite Hrj. cbn [shared runTask].
    destruct (exec_respects task b
                (configOf (mkRun task AtAssert []) (shared pool))
                (start (initSt (serialWorld (tasksAt done) w0))))
      as [Hp [Hl Hw]]; by unfold tracks.
Qed.

(** The run that started last takes another step. *)
Lemma flown_step b pool done j :
  flown b pool done (Some j) → flown b (turn j pool) done (Some j).
Proof.
  intros (Hnd & Hkeys & Hun & Hdone & r & n & Hr & Ht & Hkb & Hn & Hat & Hlog & Hag).
  split_and!; [done..| | |].
  - intros k Hk Hout. unfold unstarted.
    rewrite turn_other by (intros ->; apply Hout; set_solver). by apply Hun.
  - eapply Forall2_impl; [exact Hdone|]. intros k res. apply resultOf_turn.
  - eexists _, (S n). rewrite (turn_self _ _ _ Hr). split_and!; [done..|lia|].
    cbn [runTask moved]. unfold solo. rewrite run_S_r.
    fold (solo (runTask r) n (serialWorld (tasksAt done) w0)).
    unfold turn. rewrite Hr. cbn [shared].
    destruct (exec_respects (runTask r) b (configOf r (shared pool))
                (solo (runTask r) n (serialWorld (tasksAt done) w0)))
      as [Hp [Hl Hw]]; [|done|done|by unfold tracks].
    simpl. rewrite Hat. apply owned_run. by eapply key_taskOf.
Qed.

(** Once the run that started last has returned, all runs that started are
    done. *)
Lemma flown_settle b pool done active :
  flown b pool done active →
  (∀ k r, active = Some k → runs pool !! k = Some r → busy r = false) →
  flown b pool (done ++ option_list active) None.
Proof.
  intros Hfl Hidle. destruct active as [k|]; simpl; [|by rewrite app_nil_r].
  apply flown_retire; [done|]. intros r. by apply Hidle.
Qed.

(** A step of a run of the business, which the lock allows. *)
Lemma flown_same b pool done active j rj :
  flown b pool done active → keys !! j = Some b → runs pool !! j = Some rj →
  allowed keys pool j →
  ∃ done' active', flown b (turn j pool) done' active'.
Proof.
  intros Hfl Hj Hrj Hallow.
  destruct (flown_run _ _ _ _ _ _ Hfl Hj Hrj) as [[_ [o Ho]]|[(-> & _)|[Hout _]]].
  - rewrite (turn_done _ _ _ _ Hrj Ho). eauto.
  - eauto using flown_step.
  - exists (done ++ option_list active), (Some j).
    apply (flown_start _ _ _ _ rj); [|done..]. apply flown_settle; [done|].
    intros k r -> Hr. destruct Hfl as (_ & _ & _ & _ & _ & _ & _ & _ & Hk & _).
    eapply allowed_spec; [done|done|congruence|]. intros ->. apply Hout. set_solver.
Qed.

(** The invariant of the pool under the lock. *)
Lemma fly_flown σ b :
  ∃ done active, flown b (fly keys σ (dispatch tasks w0)) done active.
Proof.
  revert b. induction σ as [|j σ IH] using rev_ind; intros b.
  { exists [], None. apply flown_init. }
  rewrite fly_snoc. set (pool := fly keys σ (dispatch tasks w0)) in *.
  destruct (IH b) as (done & active & Hfl).
  destruct (flightTurn_cases keys j pool) as [->|[Hallow ->]]; [eauto|].
  destruct (runs pool !! j) as [rj|] eqn:Hrj; [|unfold turn; rewrite Hrj; eauto].
  destruct (lookup_lt_is_Some_2 keys j) as [bj Hbj].
  { rewrite <-(Forall2_length _ _ _ Htasks). apply lookup_lt_Some in Hrj.
    unfold pool in Hrj. rewrite fly_length in Hrj. simpl in Hrj.
    by rewrite length_fmap in Hrj. }
  destruct (decide (bj = b)) as [->|Hne]; [by eapply flown_same|].
  destruct (IH bj) as (dj & aj & Hflj). exists done, active.
  eapply flown_other; eauto using flown_owned.
Qed.

(** The runs that are done are the runs of the business that have
    returned. *)
Lemma flown_order b pool done active j :
  flown b pool done active →
  (∀ k r, active = Some k → runs pool !! k = Some r → busy r = true) →
  j ∈ done ↔ keys !! j = Some b ∧ ∃ r o, runs pool !! j = Some r ∧ runAt r = Done o.
Proof.
  intros Hfl Hbusy. split.
  - intros Hin. destruct Hfl as (_ & Hkeys & _ & Hdone & _).
    rewrite Forall_forall in Hkeys. split; [by apply Hkeys|].
    apply list_elem_of_lookup in Hin as [pos Hpos].
    destruct (Forall2_lookup_l _ _ _ _ _ Hdone Hpos) as (res & _ & Hres).
    apply resultOf_Some in Hres as (r & Hr & Ho & _). eauto.
  - intros (Hj & r & o & Hr & Ho).
    destruct (flown_run _ _ _ _ _ _ Hfl Hj Hr) as [[? _]|[[Ha _]|[_ Hat]]];
      [done| |congruence].
    specialize (Hbusy j r Ha Hr). unfold busy in Hbusy. by rewrite Ho in Hbusy.
Qed.

(** The runs of a business that have returned, in the order in which they
    started. *)
Lemma fly_returned σ b :
  let pool := fly keys σ (dispatch tasks w0) in
  ∃ order, NoDup order ∧
    (∀ j, j ∈ order ↔
          keys !! j = Some b ∧ ∃ r o, runs pool !! j = Some r ∧ runAt r = Done o) ∧
    Forall2 (λ k res, resultOf pool k = Some res) order
            (serialResults (tasksAt order) w0) ∧
    ((∀ j r, keys !! j = Some b → runs pool !! j = Some r → busy r = false) →
     agree b (shared pool) (serialWorld (tasksAt order) w0)).
Proof.
  cbn zeta. destruct (fly_flown σ b) as (done & [k|] & Hfl); cycle 1.
  { exists done. pose proof Hfl as (Hnd & _ & _ & Hdone & Hag).
    rewrite app_nil_r in Hnd. split_and!; [done| |done..].
    intros j. by apply (flown_order _ _ _ _ _ Hfl). }
  pose proof Hfl as (Hnd & _ & _ & Hdone & r & _ & Hr & _ & Hk & _).
  destruct (busy r) eqn:Hb.
  - exists done. apply NoDup_app in Hnd as (Hnd & _).
    split_and!; [done| |done|].
    + intros j. apply (flown_order _ _ _ _ _ Hfl). intros ? ? [= <-]. congruence.
    + intros Hquiet. by rewrite (Hquiet k r) in Hb.
  - apply flown_settle in Hfl as Hfl'; [|intros ? ? [= <-]; congruence].
    exists (done ++ [k]). pose proof Hfl' as (Hnd' & _ & _ & Hdone' & Hag).
    rewrite app_nil_r in Hnd'. split_and!; [done| |done..].
    intros j. by apply (flown_order _ _ _ _ _ Hfl').
Qed.

(** C15 (safety).  Single flight makes the invocations of a business
    serial.  In a pool in which an invocation steps only while no other
    invocation for its business is in flight, under every schedule and
    whatever the invocations for other businesses do, the invocations of
    business [b] that have returned have, in the order in which they
    started, the outcomes and the logs of [HandleModuleSync] run one after
    another from the initial world; and when none is in flight, IAM lists
    for the business what it lists after those runs. *)
Theorem single_flight_serial σ b :
  let pool := fly keys σ (dispatch tasks w0) in
  ∃ order, NoDup order ∧
    (∀ j, j ∈ order ↔
          keys !! j = Some b ∧ ∃ r o, runs pool !! j = Some r ∧ runAt r = Done o) ∧
    Forall2 (λ k res, resultOf pool k = Some res) order
            (serialResults (tasksAt order) w0) ∧
    ((∀ j r, keys !! j = Some b → runs pool !! j = Some r → busy r = false) →
     ∀ biz, BKAppIDField biz = b →
       listing biz (shared pool) = listing biz (serialWorld (tasksAt order) w0)).
Proof.
  cbn zeta. destruct (fly_returned σ b) as (order & Hnd & Hin & Hres & Hag).
  exists order. split_and!; [done..|]. intros Hquiet biz <-.
  by apply agree_listing, Hag.
Qed.

End serial.

(** ** In the sample world *)

(** Two invocations for business 2 under the lock, scheduled in turns. *)
Abbreviation exFlight :=
  (fly [2%Z; 2%Z] (lockstep 100) (dispatch [exTask; exTask] exWorld)).

Lemma exFlight_tasks : Forall2 taskOf [exTask; exTask] [2%Z; 2%Z].
Proof. repeat constructor; by intros biz [= <-]. Qed.

Lemma single_flight_serial_witness :
  ∃ order, NoDup order ∧
    (∀ j, j ∈ order ↔
          [2%Z; 2%Z] !! j = Some 2%Z ∧
          ∃ r o, runs exFlight !! j = Some r ∧ runAt r = Done o) ∧
    Forall2 (λ k res, resultOf exFlight k = Some res) order
            (serialResults (tasksAt [exTask; exTask] order) exWorld) ∧
    ((∀ j r, [2%Z; 2%Z] !! j = Some 2%Z → runs exFlight !! j = Some r →
             busy r = false) →
     ∀ biz, BKAppIDField biz = 2%Z →
       listing biz (shared exFlight)
       = listing biz (serialWorld (tasksAt [exTask; exTask] order) exWorld)).
Proof.
  apply (single_flight_serial [exTask; exTask] [2%Z; 2%Z] exWorld exFlight_tasks
           (lockstep 100) 2%Z).
Defined.

(** Under the lock the schedule that made the two invocations race
    registers "db" once: the second invocation waits for the first, and
    finds IAM consistent. *)
Example sample_single_flight :
  pointOf exFlight 0 = Some (Done (Returned None)) ∧
  pointOf exFlight 1 = Some (Done (Returned None)) ∧
  iamRegistry (shared exFlight)
  = [(2%Z, exBackend exModule1); (2%Z, exBackend exModule2)].
Proof. vm_compute. done. Qed.
