(* ===== verification/FlightLiveness.v ===== *)
(** * FlightLiveness: under the lock every invocation returns

    With a lock per business a turn may be refused, so the liveness of
    [Pool.every_run_returns] is no longer immediate: an invocation that
    keeps being scheduled could wait for ever.  It does not.  At most one
    invocation per business is in flight ([exclusive]); the one in flight
    is never refused and returns, by the measure of [Machine]
    ([started_returns]); and every refusal of a waiting invocation is
    followed by the return of another invocation of its business, of which
    there are finitely many.  So under a schedule that is fair to the
    invocations of a business, each of them returns
    ([single_flight_returns]): the lock neither deadlocks nor starves.
    The lock has no lease, so the fairness is needed: an invocation in
    flight that gets no more turns keeps the others of its business
    waiting ([stalled_holder_blocks]). *)

From stdpp Require Import relations.
From S2P Require Import Prelude GoString Meta Codec Effects Handler Machine.
From S2P Require Import Backend Pool SingleFlight.


Section live.
Context {W : Type} `{!Collaborators W}.
Context (keys : list Z).
Implicit Types (pool : Pool W) (σ : list nat) (r : Run) (i j k : nat) (b : Z).
Implicit Types (ω : nat → nat).

(** ** At most one invocation per key is in flight *)

Definition exclusive pool : Prop :=
  ∀ i j ri rj, runs pool !! i = Some ri → runs pool !! j = Some rj →
    keys !! i = keys !! j → busy ri = true → busy rj = true → i = j.

Lemma exclusive_dispatch tasks w : exclusive (dispatch tasks w).
Proof.
  intros i j ri rj Hi _ _ Hb. rewrite dispatch_lookup in Hi.
  by apply fmap_Some in Hi as (task & _ & ->).
Qed.

Lemma exclusive_flightTurn k pool :
  exclusive pool → exclusive (flightTurn keys k pool).
Proof.
  intros Hex. destruct (flightTurn_cases keys k pool) as [->|[Hallow ->]]; [done|].
  rewrite allowed_spec in Hallow. intros i j ri rj Hi Hj Hk Hbi Hbj.
  destruct (decide (i = k)) as [->|Hik], (decide (j = k)) as [->|Hjk]; [done|..].
  - rewrite turn_other in Hj by done. by rewrite (Hallow j rj) in Hbj.
  - rewrite turn_other in Hi by done. by rewrite (Hallow i ri) in Hbi.
  - rewrite turn_other in Hi, Hj by done. by eapply Hex.
Qed.

Lemma exclusive_fly σ pool : exclusive pool → exclusive (fly keys σ pool).
Proof.
  intros Hex. induction σ as [|k σ IH] using rev_ind; [done|].
  rewrite fly_snoc. by apply exclusive_flightTurn.
Qed.

(** The invocation in flight is never refused. *)
Lemma busy_allowed pool i r :
  exclusive pool → runs pool !! i = Some r → busy r = true → allowed keys pool i.
Proof.
  intros Hex Hr Hb. apply allowed_spec. intros j rj Hrj Hk Hji.
  destruct (busy rj) eqn:Hbj; [|done]. destruct Hji. by eapply Hex.
Qed.

(** ** Waiting *)

Lemma fly_wait ω i t t' pool :
  t ≤ t' → (∀ u, t ≤ u < t' → ω u ≠ i) →
  runs (fly keys (prefix ω t') pool) !! i = runs (fly keys (prefix ω t) pool) !! i.
Proof.
  induction 1 as [|t' Ht IH]; intros Hu; [done|].
  rewrite prefix_S, fly_snoc, flightTurn_other by (apply not_eq_sym, Hu; lia).
  apply IH. intros u ?. apply Hu. lia.
Qed.

(** A run that has returned stays as it is. *)
Lemma flightTurn_done k pool i r o :
  runs pool !! i = Some r → runAt r = Done o →
  runs (flightTurn keys k pool) !! i = Some r.
Proof.
  intros Hr Ho. destruct (decide (i = k)) as [->|Hik];
    [|by rewrite flightTurn_other].
  destruct (flightTurn_cases keys k pool) as [->|[_ ->]]; [done|].
  by rewrite (turn_done _ _ _ _ Hr Ho).
Qed.

Lemma fly_done ω i t t' pool r o :
  t ≤ t' → runs (fly keys (prefix ω t) pool) !! i = Some r → runAt r = Done o →
  runs (fly keys (prefix ω t') pool) !! i = Some r.
Proof.
  intros Htt' Hr Ho. induction Htt' as [|t' Ht IH]; [done|].
  rewrite prefix_S, fly_snoc. by eapply flightTurn_done.
Qed.

(** ** The invocation in flight returns *)

Lemma started_returns pool ω i :
  exclusive pool → fair ω i →
  ∀ t r, runs (fly keys (prefix ω t) pool) !! i = Some r → runAt r ≠ AtAssert →
  ∃ t' r' o, t ≤ t' ∧ runs (fly keys (prefix ω t') pool) !! i = Some r' ∧
             runAt r' = Done o.
Proof.
  intros Hex Hfair t r. remember (runAt r) as p eqn:Hp. revert t r Hp.
  induction (before_wf p) as [p _ IH]. intros t r -> Hr Hst.
  destruct (busy r) eqn:Hb; cycle 1.
  { exists t, r. unfold busy in Hb. destruct (runAt r); try done. eauto. }
  destruct (next_turn ω i t Hfair) as (t' & Htt' & Hi & Hu).
  pose proof (fly_wait ω i t t' pool Htt' Hu) as Hwait. rewrite Hr in Hwait.
  pose proof (busy_allowed _ _ _ (exclusive_fly _ _ Hex) Hwait Hb) as Hallow.
  pose proof (turn_self i _ _ Hwait) as Hturn.
  assert (final (configOf r (shared (fly keys (prefix ω t') pool))) = false) as Hf.
  { unfold final, busy in *. simpl. by destruct (runAt r). }
  destruct (IH _ (exec_before (runTask r) _ Hf) (S t')
              (moved r (exec (runTask r) (configOf r _))) eq_refl)
    as (t'' & r'' & o & ? & ? & ?).
  - rewrite prefix_S, fly_snoc, Hi. unfold flightTurn. by rewrite decide_True.
  - by apply exec_leaves_entry.
  - exists t'', r'', o. split_and!; [lia|done..].
Qed.

(** ** Invocations that wait *)

Definition returned r : bool :=
  match runAt r with Done _ => true | _ => false end.

(** Run [j] is a run of business [b] that has not returned. *)
Definition pendingAt b pool j : bool :=
  bool_decide (keys !! j = Some b) &&
  match runs pool !! j with
  | Some r => negb (returned r)
  | None => false
  end.

(** How many of the first [n] runs are. *)
Definition pending b n pool : nat :=
  length (filter (λ j, pendingAt b pool j = true) (seq 0 n)).

Lemma pendingAt_true b pool j :
  pendingAt b pool j = true ↔
  keys !! j = Some b ∧ ∃ r, runs pool !! j = Some r ∧ returned r = false.
Proof.
  unfold pendingAt. rewrite andb_true_iff, bool_decide_eq_true.
  destruct (runs pool !! j) as [r|]; [|naive_solver].
  rewrite negb_true_iff. naive_solver.
Qed.

(** A turn makes no run pending. *)
Lemma pendingAt_flightTurn b k pool j :
  pendingAt b (flightTurn keys k pool) j = true → pendingAt b pool j = true.
Proof.
  rewrite !pendingAt_true. intros (Hj & r' & Hr' & Hret). split; [done|].
  destruct (runs pool !! j) as [r|] eqn:Hr.
  - exists r. split; [done|]. destruct (returned r) eqn:Hd; [|done].
    unfold returned in Hd. destruct (runAt r) eqn:Ho; try done.
    rewrite (flightTurn_done _ _ _ _ _ Hr Ho) in Hr'. injection Hr' as <-.
    unfold returned in Hret. by rewrite Ho in Hret.
  - apply lookup_ge_None in Hr. apply lookup_lt_Some in Hr'.
    rewrite flightTurn_length in Hr'. lia.
Qed.

Lemma pendingAt_fly b ω t t' pool j :
  t ≤ t' → pendingAt b (fly keys (prefix ω t') pool) j = true →
  pendingAt b (fly keys (prefix ω t) pool) j = true.
Proof.
  induction 1 as [|t' Ht IH]; [done|]. rewrite prefix_S, fly_snoc.
  intros Hp%pendingAt_flightTurn. by apply IH.
Qed.

(** When a pending run returns, fewer runs are pending. *)
Lemma pending_lt b n ω t t' pool j :
  t ≤ t' → j < n → pendingAt b (fly keys (prefix ω t) pool) j = true →
  pendingAt b (fly keys (prefix ω t') pool) j ≠ true →
  pending b n (fly keys (prefix ω t') pool) < pending b n (fly keys (prefix ω t) pool).
Proof.
  intros Htt' Hj Hp Hp'. unfold pending.
  apply (filter_length_lt _ _ (λ j, pendingAt_fly b ω t t' pool j Htt') _ j);
    [|done..].
  apply elem_of_seq. lia.
Qed.

(** Every run of a business returns, by induction on the number of runs of
    the business that have not. *)
Lemma waiting_returns pool ω b :
  exclusive pool → (∀ j, keys !! j = Some b → fair ω j) →
  ∀ m t i r, pending b (length (runs pool)) (fly keys (prefix ω t) pool) = m →
    keys !! i = Some b → runs (fly keys (prefix ω t) pool) !! i = Some r →
    ∃ t' r' o, t ≤ t' ∧ runs (fly keys (prefix ω t') pool) !! i = Some r' ∧
               runAt r' = Done o.
Proof.
  intros Hex Hfair m. induction (lt_wf m) as [m _ IH]. intros t i r Hm Hi Hr.
  assert (runAt r = AtAssert ∨ runAt r ≠ AtAssert) as [Hat|Hst]
    by (destruct (runAt r); auto); [|by eapply started_returns; eauto].
  destruct (next_turn ω i t (Hfair i Hi)) as (t1 & Htt1 & Hω & Hu).
  pose proof (fly_wait ω i t t1 pool Htt1 Hu) as Hwait. rewrite Hr in Hwait.
  destruct (decide (allowed keys (fly keys (prefix ω t1) pool) i)) as [Hgo|Hno].
  - destruct (started_returns pool ω i Hex (Hfair i Hi) (S t1)
                (moved r (exec (runTask r)
                            (configOf r (shared (fly keys (prefix ω t1) pool))))))
      as (t' & r' & o & ? & ? & ?).
    + rewrite prefix_S, fly_snoc, Hω. unfold flightTurn.
      rewrite decide_True by done. by apply turn_self.
    + apply exec_leaves_entry. unfold final. simpl. by rewrite Hat.
    + exists t', r', o. split_and!; [lia|done..].
  - destruct (refused_busy keys _ _ Hno) as (j & rj & Hrj & Hk & Hji & Hb).
    rewrite Hi in Hk.
    destruct (started_returns pool ω j Hex (Hfair j Hk) t1 rj Hrj)
      as (t2 & rj' & o & Ht12 & Hrj' & Ho); [by intros Hp; unfold busy in Hb; rewrite Hp in Hb|].
    destruct (lookup_lt_is_Some_2 (runs (fly keys (prefix ω t2) pool)) i)
      as [r2 Hr2].
    { rewrite fly_length. rewrite <-(fly_length keys (prefix ω t) pool).
      by eapply lookup_lt_Some. }
    destruct (IH (pending b (length (runs pool)) (fly keys (prefix ω t2) pool)))
      with (t := t2) (i := i) (r := r2) as (t' & r' & o' & ? & ? & ?); [|done..|].
    + subst m. apply (pending_lt b _ ω t t2 pool j); [lia| | |].
      * apply lookup_lt_Some in Hrj. by rewrite fly_length in Hrj.
      * apply (pendingAt_fly b ω t t1); [done|]. apply pendingAt_true.
        split; [done|]. exists rj. split; [done|]. unfold returned, busy in *.
        by destruct (runAt rj).
      * rewrite pendingAt_true. intros (_ & r' & Hr' & Hret).
        assert (r' = rj') as -> by congruence. unfold returned in Hret.
        by rewrite Ho in Hret.
    + exists t', r', o'. split_and!; [lia|done..].
Qed.

(** C19 (liveness).  Under the lock no invocation waits for ever: when the
    schedule is fair to the invocations of a business, each of them
    returns or panics after finitely many turns, although its turns are
    refused while another invocation of the business is in flight. *)
Theorem single_flight_returns tasks w ω b i :
  (∀ j, keys !! j = Some b → fair ω j) →
  keys !! i = Some b → i < length tasks →
  ∃ t o, pointOf (fly keys (prefix ω t) (dispatch tasks w)) i = Some (Done o).
Proof.
  intros Hfair Hi Hlt.
  destruct (lookup_lt_is_Some_2 (runs (fly keys (prefix ω 0) (dispatch tasks w))) i)
    as [r Hr]; [simpl; by rewrite length_fmap|].
  destruct (waiting_returns (dispatch tasks w) ω b (exclusive_dispatch tasks w)
              Hfair _ 0 i r eq_refl Hi Hr) as (t & r' & o & _ & Hr' & Ho).
  exists t, o. unfold pointOf. by rewrite Hr', <-Ho.
Qed.

(** ** Fairness is needed

    The lock has no lease: while the invocation in flight gets no turn,
    the other invocations of its business are refused, whatever turns they
    get. *)
Lemma stalled_holder_blocks pool ω t0 i j ri :
  runs (fly keys (prefix ω t0) pool) !! i = Some ri → busy ri = true →
  keys !! i = keys !! j → i ≠ j →
  (∀ t, t0 ≤ t → ω t ≠ i) →
  ∀ t, t0 ≤ t →
    runs (fly keys (prefix ω t) pool) !! j = runs (fly keys (prefix ω t0) pool) !! j.
Proof.
  intros Hri Hbusy Hkey Hij Hstall t. induction 1 as [|t Ht IH]; [done|].
  rewrite <-IH, prefix_S, fly_snoc.
  destruct (decide (ω t = j)) as [Hj|Hj]; [|by apply flightTurn_other].
  destruct (flightTurn_cases keys (ω t) (fly keys (prefix ω t) pool))
    as [->|[Hallow _]]; [done|].
  rewrite allowed_spec, Hj in Hallow.
  rewrite (Hallow i ri) in Hbusy; [done| |done..].
  rewrite (fly_wait ω i t0 t) by (intros; try apply Hstall; lia). done.
Qed.

(** Mutual exclusion: under the lock, whatever the
    schedule, at most one invocation per business is in flight, that is,
    past its entry and not yet returned.  This is what the specification
    asks of the caller (at most one concurrent reconciliation per business);
    without the lock the pool does not have it. *)
Theorem single_flight_exclusive tasks w σ :
  exclusive (fly keys σ (dispatch tasks w)).
Proof. apply exclusive_fly, exclusive_dispatch. Qed.

End live.

(** ** In the sample world *)

(** Two invocations for business 2 that are scheduled in turns: the
    second, which has to wait for the first, returns. *)
Lemma single_flight_returns_witness :
  ∃ t o, pointOf (fly [2%Z; 2%Z] (prefix (λ t, t mod 2) t)
                    (dispatch [exTask; exTask] exWorld)) 1
         = Some (Done o).
Proof.
  apply (single_flight_returns [2%Z; 2%Z] [exTask; exTask] exWorld
           (λ t, t mod 2) 2%Z 1); [|done|simpl; lia].
  intros j Hj%lookup_lt_Some t. simpl in Hj. exists (2 * t + j). split; [lia|].
  rewrite Nat.add_comm, Nat.mul_comm, Nat.Div0.mod_add. apply Nat.mod_small. lia.
Defined.

(** Without the lock two invocations for business 2 are in flight after
    one turn each. *)
Example sample_unlocked_not_exclusive :
  ¬ exclusive [2%Z; 2%Z] (play [0; 1] (dispatch [exTask; exTask] exWorld)).
Proof.
  intros Hex.
  by specialize (Hex 0 1 _ _ eq_refl eq_refl eq_refl eq_refl eq_refl).
Qed.

(** Under the lock an invocation that starts and then gets no turn keeps
    the other invocation of its business at its entry for ever. *)
Example sample_stalled_holder t :
  1 ≤ t →
  pointOf (fly [2%Z; 2%Z] (prefix (λ u, if decide (u = 0) then 0 else 1) t)
             (dispatch [exTask; exTask] exWorld)) 1
  = Some AtAssert.
Proof.
  intros Ht. unfold pointOf.
  rewrite (stalled_holder_blocks [2%Z; 2%Z] (dispatch [exTask; exTask] exWorld)
             (λ u, if decide (u = 0) then 0 else 1) 1 0 1
             (mkRun exTask (AtRead exBusiness) [])); try done.
  intros u Hu. by rewrite decide_False by lia.
Qed.
