(* ===== verification/ExactlyOnce.v ===== *)
(** * ExactlyOnce: the lock and idempotence together

    The dispatcher may start several invocations for the same business,
    say one per tick of a timer, before the first has returned.  Without a
    lock they race and register a missing module more than once
    ([Parallel.sample_race_double_registration]).  With the lock of
    [SingleFlight] they run one after another, and by the idempotence of
    [Convergence] all but the first find IAM consistent: among any number
    of invocations of one task, at most one calls [RegisterResource] or
    [RawDeregisterResource], and once they have returned IAM is consistent
    with the CMDB ([single_flight_once]). *)

From stdpp Require Import relations.
From S2P Require Import Prelude GoString Meta Codec Effects Handler.
From S2P Require Import Backend Steps DiffEngine BackendLaws Isolation.
From S2P Require Import HandlerSpec Mutations Convergence.
From S2P Require Import Machine MachineSpec Owned Pool Partition Parallel.
From S2P Require Import SingleFlight.

Section once.
Context {W : Type} `{!Collaborators W} `{!LawfulBackend W} `{!ScopedBackend W}.
Context `{!PartitionedBackend W}.
Implicit Types (w : W) (task : WorkRequest) (log : list Event).

(** A log without a call that changes IAM. *)
Definition quietLog log : Prop := ∀ c, c ∈ calls log → is_mutation c = false.

(** In world [w] a run of [task] resolves the modules [resolved] and finds
    IAM consistent with them. *)
Definition steady task w (biz : BusinessSimplify) (resolved : list Resolved) : Prop :=
  ∃ instances l s1,
    Resolves task (initSt w) biz instances l resolved s1 ∧
    consistent (filter isModuleResource l) resolved ∧
    (Z.of_nat (length instances) < 2 ^ 63)%Z.

(** A run in a steady world is quiet and leaves the world as it is. *)
Lemma steady_run task w biz resolved :
  steady task w biz resolved →
  world (HandleModuleSync task (initSt w)).2 = w ∧
  quietLog (trace (HandleModuleSync task (initSt w)).2).
Proof.
  intros (instances & l & s1 & Hres & Hcons & Hlen).
  destruct (consistent_run_quiet _ _ _ _ _ _ _ Hres Hcons Hlen)
    as (_ & Hw & evs & Htr & Hq).
  split; [done|]. by rewrite Htr.
Qed.

(** So are any number of runs, one after another. *)
Lemma steady_serial task w biz resolved m :
  steady task w biz resolved →
  serialWorld (replicate m task) w = w ∧
  Forall (λ res, quietLog res.2) (serialResults (replicate m task) w).
Proof.
  intros Hst. destruct (steady_run _ _ _ _ Hst) as [Hw Hq].
  induction m as [|m [IHw IHq]]; [done|]. simpl. rewrite Hw. split; [done|].
  by constructor.
Qed.

(** A steady world lists for the business resources consistent with the
    modules. *)
Lemma steady_listing task w biz resolved :
  steady task w biz resolved →
  ∃ l, listing biz w = inr l ∧ consistent (filter isModuleResource l) resolved.
Proof.
  intros (instances & l & s1 & Hres & Hcons & _). exists l. split; [|done].
  apply (first_run_listing _ _ _ _ _ _ _ Hres).
Qed.

Section first_run.
Context (task : WorkRequest) (w0 : W) (biz : BusinessSimplify).
Context (instances : list MapStr) (resultResources : list BackendResource).
Context (resolved : list Resolved) (s1 : St W).
Context (Hres : Resolves task (initSt w0) biz instances resultResources resolved s1).
Context (Hsome : resolved ≠ []).
Context (Hlen : (Z.of_nat (length instances) < 2 ^ 63)%Z).
Context (Hmut : mutationsSucceed w0
                  (toRegister (filter isModuleResource resultResources) resolved)
                  (lastScope zeroScope resolved)
                  (toDeregister (filter isModuleResource resultResources) resolved)).

(** The first run leaves a steady world. *)
Lemma first_run_steady :
  steady task (world (HandleModuleSync task (initSt w0)).2) biz resolved.
Proof.
  destruct (second_run_Resolves _ _ _ _ _ _ _ Hres Hsome Hlen Hmut)
    as (l' & s2 & Hres' & Hcons).
  destruct (Resolves_sameCMDB task _
              (initSt (world (HandleModuleSync task (initSt w0)).2))
              _ _ _ l' _ _ Hres') as [s3 Hres3];
    [done|apply (first_run_listing _ _ _ _ _ _ _ Hres')
    |by destruct Hres' as (_ & ? & _)|].
  by exists instances, l', s3.
Qed.

(** The runs after the first are quiet, and the world stays as the first
    run left it. *)
Lemma serial_after_first m :
  serialWorld (replicate (S m) task) w0
  = world (HandleModuleSync task (initSt w0)).2 ∧
  Forall (λ res, quietLog res.2)
         (tail (serialResults (replicate (S m) task) w0)).
Proof.
  destruct (steady_serial _ _ _ _ m first_run_steady) as [Hw Hq]. split; [|done].
  change (replicate (S m) task) with ([task] ++ replicate m task).
  unfold serialWorld in *. by rewrite foldl_app.
Qed.

Lemma Resolves_taskOf : taskOf task (BKAppIDField biz).
Proof. destruct Hres as ([(Hd & _) _] & _). intros biz' Hd'. congruence. Qed.

Context (n : nat).

#[local] Abbreviation b := (BKAppIDField biz).
#[local] Abbreviation pool σ :=
  (fly (replicate n b) σ (dispatch (replicate n task) w0)).

Lemma once_tasks : Forall2 taskOf (replicate n task) (replicate n b).
Proof. apply Forall2_replicate. apply Resolves_taskOf. Qed.

Lemma once_key σ j r : runs (pool σ) !! j = Some r → replicate n b !! j = Some b.
Proof.
  intros Hr%lookup_lt_Some. rewrite fly_length in Hr. simpl in Hr.
  rewrite length_fmap, length_replicate in Hr. by apply lookup_replicate_2.
Qed.

Lemma once_tasksAt (order : list nat) :
  Forall (λ j, j < n) order →
  tasksAt (replicate n task) order = replicate (length order) task.
Proof.
  induction 1 as [|j order Hj _ IH]; [done|]. unfold tasksAt in *. csimpl.
  rewrite lookup_replicate_2 by done. csimpl. by rewrite IH.
Qed.

(** C16 (safety).  At most once: however many invocations of one task
    the dispatcher starts, and however they are scheduled, under the lock
    at most one of them calls [RegisterResource] or
    [RawDeregisterResource], provided the first to run resolves a module
    and its mutations succeed; and when all that started have returned, IAM
    is consistent with the CMDB. *)
Theorem single_flight_once σ :
  ∃ k, (∀ j r o, j ≠ k → runs (pool σ) !! j = Some r → runAt r = Done o →
                 quietLog (runLog r)) ∧
       ((∀ j r, runs (pool σ) !! j = Some r → busy r = false) →
        (∃ r o, runs (pool σ) !! k = Some r ∧ runAt r = Done o) →
        ∃ l, listing biz (shared (pool σ)) = inr l ∧
             consistent (filter isModuleResource l) resolved).
Proof.
  destruct (fly_returned _ _ w0 once_tasks σ b) as (order & Hnd & Hin & Hdone & Hag).
  assert (∀ j r o, runs (pool σ) !! j = Some r → runAt r = Done o → j ∈ order)
    as Hret by (intros j r o Hr Ho; apply Hin; split; [by eapply once_key|eauto]).
  destruct order as [|k rest].
  { exists 0. split; [intros j r o _ Hr Ho|intros _ (r & o & Hr & Ho)];
      by apply (Hret _ _ _ Hr), elem_of_nil in Ho. }
  assert (Forall (λ j, j < n) (k :: rest)) as Hlt.
  { apply Forall_forall. intros j [Hj _]%Hin. apply lookup_lt_Some in Hj.
    by rewrite length_replicate in Hj. }
  rewrite once_tasksAt in Hdone, Hag by done. cbn [length] in Hdone, Hag.
  destruct (serial_after_first (length rest)) as [Hw Hq].
  exists k. split.
  - intros j r o Hjk Hr Ho. apply (Hret _ _ _ Hr) in Ho as Hj.
    apply elem_of_cons in Hj as [?|Hj]; [done|].
    apply list_elem_of_lookup in Hj as [pos Hpos].
    destruct (Forall2_lookup_l _ _ _ (S pos) j Hdone Hpos) as (res & Hres' & Hj).
    apply resultOf_Some in Hj as (r' & Hr' & _ & Hlog).
    assert (r' = r) as -> by congruence. rewrite Hlog.
    rewrite Forall_lookup in Hq. apply (Hq pos). by rewrite lookup_tail.
  - intros Hquiet _.
    rewrite (agree_listing biz _ _ (Hag (λ j r _, Hquiet j r))), Hw.
    by eapply first_run_consistent.
Qed.

End first_run.

End once.

(** ** In the sample world *)

(** Three invocations of the sample task, scheduled in turns. *)
Abbreviation exThrice :=
  (fly (replicate 3 (BKAppIDField exBusiness)) (prefix (λ t, t mod 3) 200)
       (dispatch (replicate 3 exTask) exWorld)).

Lemma single_flight_once_witness :
  ∃ k, (∀ j r o, j ≠ k → runs exThrice !! j = Some r → runAt r = Done o →
                 quietLog (runLog r)) ∧
       ((∀ j r, runs exThrice !! j = Some r → busy r = false) →
        (∃ r o, runs exThrice !! k = Some r ∧ runAt r = Done o) →
        ∃ l, listing exBusiness (shared exThrice) = inr l ∧
             consistent (filter isModuleResource l) exResolved).
Proof.
  apply (single_flight_once exTask exWorld exBusiness exInstances exReal
           exResolved _ exWorld_Resolves);
    [done|simpl; lia|apply exWorld_mutationsSucceed].
Defined.

(** Three invocations under the lock: one registration, one
    deregistration. *)
Example sample_thrice :
  filter (λ c, is_mutation c)
    (concat ((λ r, calls (runLog r)) <$> runs exThrice))
  = [CallRegisterResource [exResource exModule2];
     CallRawDeregisterResource (scopeOfBusiness 2) [exBackend exModule3]].
Proof. vm_compute. reflexivity. Qed.
