(* ===== verification/StepCount.v ===== *)
(** * StepCount: how many steps the machine takes

    [Machine.machine_terminates] says that the machine stops.  Here is
    after how many steps: each loop of the function visits every element
    of its slice once, so a run takes at most eleven steps for the
    straight-line statements and the exits of the loops, two for each
    instance the CMDB returned (lines 58 and 107) and three for each
    resource IAM listed (lines 88, 97 and 149).  [fuel] is that number for
    a run that has got to some program point; a step uses up at least one
    unit of it ([exec_fuel]), and so the machine run for [stepBound] steps
    has returned what [HandleModuleSync] returns ([machine_step_bound]). *)

From S2P Require Import Prelude GoString Meta Codec Effects Handler.
From S2P Require Import Backend Steps DiffEngine HandlerSpec Mutations Budget.
From S2P Require Import BackendLaws Isolation Machine MachineSpec Owned.
From S2P Require Import Pool Partition Parallel.

Section count.
Context {W : Type} `{!Collaborators W}.
Implicit Types (s : St W) (c : Config W) (biz : BusinessSimplify).

(** The number of resources the listing of line 81 answers in state [s]. *)
Definition listed biz s : nat :=
  match answer (listOp biz) s with
  | inr resultResources => length resultResources
  | inl _ => 0
  end.

(** The same for a run that starts in [s]: the listing comes after the
    read; [0] when the function does not get that far. *)
Definition resourcesListed (task : WorkRequest) s : nat :=
  match Data task with
  | DataBusiness biz =>
      match answer (readOp biz) s with
      | inr _ => listed biz (afterRead biz s)
      | inl _ => 0
      end
  | DataOther => 0
  end.

(** The steps that are enough for a run from the entry of the function. *)
Definition stepBound (task : WorkRequest) s : nat :=
  11 + 2 * instancesRead task s + 3 * resourcesListed task s.

(** The steps that are enough from a configuration: the statements ahead,
    and for every loop ahead the elements it has still to visit.  The
    filter loop may add each resource it visits to [realResources], which
    two later loops range over. *)
Definition fuel (task : WorkRequest) c : nat :=
  match c.1 with
  | AtAssert => stepBound task c.2
  | AtRead biz =>
      10 + match answer (readOp biz) c.2 with
           | inr instances =>
               2 * length instances + 3 * listed biz (afterRead biz c.2)
           | inl _ => 0
           end
  | AtSkip biz instances => 9 + 2 * length instances + 3 * listed biz c.2
  | AtExtract biz instances i moduleArr =>
      8 + 2 * (length instances - i) + length moduleArr + 3 * listed biz c.2
  | AtList biz moduleArr => 7 + length moduleArr + 3 * listed biz c.2
  | AtFilter _ moduleArr resultResources i realResources =>
      6 + length moduleArr + 3 * (length resultResources - i)
        + 2 * length realResources
  | AtInit _ moduleArr realResources i _ =>
      5 + length moduleArr + (length realResources - i) + length realResources
  | AtDiff _ moduleArr realResources i _ =>
      4 + (length moduleArr - i) + length realResources
  | AtRegister realResources _ => 3 + length realResources
  | AtCollect realResources _ i _ => 2 + (length realResources - i)
  | AtDeregister _ _ => 1
  | Done _ => 0
  end.

(** ** A log line does not change what the listing answers *)

Lemma listed_emit biz e s : listed biz (emit e s) = listed biz s.
Proof. unfold listed. by rewrite answer_emit. Qed.

Lemma listed_emits biz evs s : listed biz (emits evs s) = listed biz s.
Proof. unfold listed. by rewrite answer_emits. Qed.

Lemma fuel_start task s : fuel task (start s) = stepBound task s.
Proof. done. Qed.

Lemma fuel_final task c : fuel task c = 0 → final c = true.
Proof.
  destruct c as [[] s]; unfold fuel, final, stepBound; cbn [fst snd];
    first [done|lia].
Qed.

(** ** A step uses up fuel *)

(** The statements before the loops over IAM resources. *)
Lemma exec_fuel_fetch task c :
  6 < phase c.1 → fuel task (exec task c) < fuel task c.
Proof.
  destruct c as [[] s]; cbn [phase fst]; try lia; intros _;
    unfold exec; cbn [stmt fst snd].
  - rewrite bind_run, assertBusinessSimplify_run.
    unfold fuel, stepBound, instancesRead, resourcesListed. cbn [fst snd].
    destruct (Data task); simpl; [destruct (answer _ _)|]; lia.
  - rewrite bind_run, readInstances_run. unfold fuel. cbn [fst snd].
    destruct (answer (readOp _) _); simpl; [lia|]. unfold afterRead. lia.
  - rewrite bind_run, skipIfNoInstances_run. unfold fuel.
    case_decide; simpl; lia.
  - unfold fuel. destruct (_ !! _) as [instance|] eqn:Hi; cbn [fst snd].
    + apply lookup_lt_Some in Hi. unfold extractModule.
      destruct (Parse instance); simpl; rewrite ?length_app, ?listed_emit;
        simpl; lia.
    + simpl. rewrite listed_emit. lia.
  - rewrite bind_run, listResources_run. unfold fuel, listed. cbn [fst snd].
    destruct (answer (listOp _) _); simpl; lia.
Qed.

(** The loops over IAM resources and modules, and the mutations. *)
Lemma exec_fuel_reconcile task c :
  0 < phase c.1 ≤ 6 → fuel task (exec task c) < fuel task c.
Proof.
  destruct c as [[] s]; cbn [phase fst]; try lia; intros _;
    unfold exec, fuel; cbn [stmt fst snd];
    try (destruct (_ !! _) as [x|] eqn:Hx; cbn [fst snd];
         [apply lookup_lt_Some in Hx|]);
    rewrite ?bind_run, ?blog_run; cbn [fst snd]; try (simpl; lia).
  - rewrite filterStep_run. case_decide; cbn [fst snd mret M_ret]; [lia|].
    rewrite length_app. pose proof (length_filter isModuleResource [x]).
    simpl in *. lia.
  - destruct (diffStep _ _ _ _) as [[]]; simpl; lia.
  - destruct (registerMissing _ _) as [[]]; simpl; lia.
  - destruct (deregisterStale _ _ _) as [[]]; simpl; lia.
Qed.

Lemma exec_fuel task c :
  final c = false → fuel task (exec task c) < fuel task c.
Proof.
  intros Hf. destruct (decide (6 < phase c.1)); [by apply exec_fuel_fetch|].
  apply exec_fuel_reconcile. destruct c as [[] s]; cbn [phase fst] in *; try lia.
  done.
Qed.

(** With the fuel of a configuration the machine runs to the end. *)
Lemma run_fuel task n c : fuel task c ≤ n → final (run task n c) = true.
Proof.
  revert c. induction n as [|n IH]; intros c Hn.
  - simpl. apply (fuel_final task). lia.
  - rewrite run_S. destruct (final c) eqn:Hf; [done|]. apply IH.
    pose proof (exec_fuel task c Hf). lia.
Qed.

(** With the steps of [stepBound] the machine has run the function. *)
Lemma run_enough task s n :
  stepBound task s ≤ n →
  run task n (start s)
  = (Done (HandleModuleSync task s).1, (HandleModuleSync task s).2).
Proof.
  intros Hn. pose proof (run_fuel task n (start s) Hn) as Hf.
  destruct (run task n (start s)) as [[] s'] eqn:Hrun; try done.
  by rewrite (machine_computes_start task s o s')
    by (rewrite <-Hrun; apply run_rtc).
Qed.

(** C26 (bounds).  The machine started at the entry of the function has
    returned after at most [11 + 2 * instances + 3 * resources] steps, where
    [instances] is the number of instances the CMDB returns for the
    business and [resources] the number of resources IAM lists for it, and
    it has returned what [HandleModuleSync] returns: every loop of the
    function is linear in its slice, and the function in the answers of
    the two reads. *)
Theorem machine_step_bound task s n :
  stepBound task s ≤ n →
  run task n (start s)
  = (Done (HandleModuleSync task s).1, (HandleModuleSync task s).2).
Proof. apply run_enough. Qed.

End count.

(** ** In the pool *)

Section pool.
Context {W : Type} `{!Collaborators W} `{!LawfulBackend W} `{!ScopedBackend W}.
Context `{!PartitionedBackend W}.

(** An invocation among invocations for other businesses has returned as
    soon as the schedule has given it the turns it needs alone, however
    the turns of the others come between its own: no fairness is needed
    beyond that many turns. *)
Corollary pool_run_bounded tasks bs (w : W) σ i task b :
  NoDup bs → Forall2 taskOf tasks bs →
  tasks !! i = Some task → bs !! i = Some b →
  stepBound task (initSt w) ≤ turnsOf i σ →
  ∃ r, runs (play σ (dispatch tasks w)) !! i = Some r ∧
       runAt r = Done (HandleModuleSync task (initSt w)).1 ∧
       runLog r = trace (HandleModuleSync task (initSt w)).2.
Proof.
  intros Hbs Htasks Hi Hb Hn.
  destruct (pool_tracks tasks bs w Hbs Htasks σ i task b Hi Hb)
    as (r & Hr & _ & Hat & Hlog & _).
  unfold solo in *. rewrite (run_enough _ _ _ Hn) in Hat, Hlog. by exists r.
Qed.

End pool.

(** ** In the sample world *)

Lemma machine_step_bound_witness :
  run exTask 21 (start (initSt exWorld))
  = (Done (HandleModuleSync exTask (initSt exWorld)).1,
     (HandleModuleSync exTask (initSt exWorld)).2).
Proof. apply machine_step_bound. vm_compute. lia. Defined.

(** The bound is reached: two instances that parse, two resources that are
    module resources, and the run is not done one step earlier. *)
Example sample_step_bound_reached :
  stepBound exTask (initSt exWorld) = 21 ∧
  final (run exTask 20 (start (initSt exWorld))) = false ∧
  final (run exTask 21 (start (initSt exWorld))) = true.
Proof. vm_compute. done. Qed.

(** In the pool of businesses 2 and 5 the first invocation has its
    twenty-one turns after forty-two of the pool. *)
Example sample_pool_bound :
  turnsOf 0 (lockstep 42) = stepBound exTask (initSt exWorld) ∧
  pointOf (play (lockstep 42) (dispatch [exTask; exTask5] exWorld)) 0
  = Some (Done (Returned None)) ∧
  pointOf (play (lockstep 40) (dispatch [exTask; exTask5] exWorld)) 0
  ≠ Some (Done (Returned None)).
Proof. vm_compute. by split_and!. Qed.
