(* ===== verification/Assertions.v ===== *)
(** * Assertions: what holds at every program point

    The assertions of a proof of [HandleModuleSync] in the style of Floyd,
    one for each [Point] of the machine.  Against a lawful backend they
    say where the world is and what the local variables hold:

    - up to the registration of line 141 the world is the world the run
      started in, since the run has only inspected it; after it the world
      is that world with [needRegister] registered, and after the
      deregistration of line 158 with [needDeregister] deregistered as
      well;
    - at the head of a loop the variable the loop builds is the value of
      the reference function on the elements visited so far
      ([parsedModules], the filter by [isModuleResource], [initKeyMap],
      [diffPure], [collectDeregister]);
    - the modules the diff has taken in were resolved by dry runs for
      module resources of the business of the task.

    [sound] is the assertion of a configuration; a step preserves it
    ([sound_exec]) and so it holds of every configuration a run reaches
    ([reachable_sound]). *)

From stdpp Require Import relations.
From S2P Require Import Prelude GoString Meta Codec Effects Handler.
From S2P Require Import Backend Steps DiffEngine HandlerSpec BackendLaws.
From S2P Require Import Convergence Machine.

Section assertions.
Context {W : Type} `{!Collaborators W} `{!LawfulBackend W}.
Context (task : WorkRequest) (biz : BusinessSimplify) (w0 : W).
Implicit Types (c : Config W) (s : St W) (st : DiffState).

(** The pairs a run has resolved: resources of modules of the business,
    each with the entity the dry run answered with in the initial world. *)
Definition grounded (resolved : list Resolved) : Prop :=
  Forall (λ p, (∃ module, p.1 = moduleResource biz module) ∧
               resolvesTo w0 p.1 p.2) resolved.

(** The state of the diff loop is the diff of pairs the run has resolved. *)
Definition diffed (realResources : list BackendResource) st : Prop :=
  ∃ resolved, grounded resolved ∧
    st = diffPure (initDiffState realResources) resolved.

(** The assertion at the point of a configuration. *)
Definition sound c : Prop :=
  match c.1 with
  | AtAssert => world c.2 = w0
  | AtRead biz' | AtSkip biz' _ | AtList biz' _ => biz' = biz ∧ world c.2 = w0
  | AtExtract biz' instances i moduleArr =>
      biz' = biz ∧ world c.2 = w0 ∧
      moduleArr = parsedModules (take i instances)
  | AtFilter biz' _ resultResources i realResources =>
      biz' = biz ∧ world c.2 = w0 ∧
      Forall (λ r, r ≠ []) (take i resultResources) ∧
      realResources = filter isModuleResource (take i resultResources)
  | AtInit biz' _ realResources i iamResourceKeyMap =>
      biz' = biz ∧ world c.2 = w0 ∧
      iamResourceKeyMap = initKeyMap (take i realResources)
  | AtDiff biz' _ realResources _ st =>
      biz' = biz ∧ world c.2 = w0 ∧ diffed realResources st
  | AtRegister realResources st => world c.2 = w0 ∧ diffed realResources st
  | AtCollect realResources st i needDeregister =>
      world c.2 = afterRegister w0 (needRegister st) ∧
      diffed realResources st ∧
      needDeregister
      = collectDeregister (iamResourceKeyMap st) (take i realResources)
  | AtDeregister sc needDeregister =>
      ∃ realResources st,
        world c.2 = afterRegister w0 (needRegister st) ∧
        diffed realResources st ∧ sc = scope st ∧
        needDeregister = collectDeregister (iamResourceKeyMap st) realResources
  | Done o =>
      world c.2 = w0 ∨
      o = Returned None ∧
      ∃ realResources st,
        diffed realResources st ∧
        world c.2
        = worldAfter w0 (needRegister st) (scope st)
            (collectDeregister (iamResourceKeyMap st) realResources)
  end.

(** ** The loops, one more element *)

Lemma initKeyMap_take realResources i (r : BackendResource) :
  realResources !! i = Some r →
  initKeyStep (initKeyMap (take i realResources)) r
  = initKeyMap (take (S i) realResources).
Proof. intros Hi. by rewrite (take_S_r _ _ _ Hi), initKeyMap_snoc. Qed.

Lemma collectDeregister_take m realResources i (r : BackendResource) :
  realResources !! i = Some r →
  collectStep m (collectDeregister m (take i realResources)) r
  = collectDeregister m (take (S i) realResources).
Proof.
  intros Hi. unfold collectDeregister. by rewrite (take_S_r _ _ _ Hi), foldl_snoc.
Qed.

Lemma take_all {A} (l : list A) i : l !! i = None → take i l = l.
Proof. intros Hi%lookup_ge_None. by apply take_ge. Qed.

Lemma diffed_init realResources : diffed realResources (initDiffState realResources).
Proof. exists []. by split; [constructor|]. Qed.

(** A dry run that resolves adds a grounded pair to the diff. *)
Lemma diffed_recordResolved realResources st module target :
  resolvesTo w0 (moduleResource biz module) target →
  diffed realResources st →
  diffed realResources (recordResolved st (moduleResource biz module) target).
Proof.
  intros Ht (resolved & Hg & ->).
  exists (resolved ++ [(moduleResource biz module, target)]). split.
  - apply Forall_app. split; [done|]. repeat constructor; [by exists module|done].
  - by rewrite diffPure_snoc_pair.
Qed.

(** ** A step preserves the assertions *)

(** The world of the states the statements of inspection leave. *)
Ltac same_world :=
  repeat first
    [ rewrite world_emit | rewrite world_emits | rewrite world_afterCall
    | rewrite ReadInstance_pure | rewrite ListResources_pure
    | rewrite DryRun_pure ].

(** The assertion before a step, and after it once the statement has run. *)
Ltac at_entry := unfold sound at 1, exec; cbn [stmt fst snd].
Ltac at_exit := simpl; unfold sound, readOp, listOp; simpl; same_world.

Context (Htask : Data task = DataBusiness biz).

(** Lines 33-85: the read, the parse loop and the listing. *)
Lemma sound_fetch c : 6 < phase c.1 → sound c → sound (exec task c).
Proof.
  destruct c as [[] s]; cbn [phase fst]; try lia; intros _; at_entry.
  - intros Hw. rewrite bind_run, assertBusinessSimplify_run, Htask. by at_exit.
  - intros [-> Hw]. rewrite bind_run, readInstances_run. cbn zeta.
    destruct (answer _ _); at_exit; auto.
  - intros [-> Hw]. rewrite bind_run, skipIfNoInstances_run.
    case_decide; at_exit; auto.
  - intros (-> & Hw & ->). destruct (_ !! _) as [instance|] eqn:Hi.
    + rewrite bind_run, extractModule_run. at_exit.
      by rewrite (take_S_r _ _ _ Hi), parsedModules_app.
    + by at_exit.
  - intros [-> Hw]. rewrite bind_run, listResources_run. cbn zeta.
    destruct (answer _ _); at_exit; auto.
Qed.

(** Lines 87-138: the filter, the map and the diff loop. *)
Lemma sound_diff c : 3 < phase c.1 ≤ 6 → sound c → sound (exec task c).
Proof.
  destruct c as [[] s]; cbn [phase fst]; try lia; intros _; at_entry.
  - intros (-> & Hw & Hne & ->). destruct (_ !! _) as [r|] eqn:Hi.
    + rewrite bind_run, filterStep_run. case_decide; at_exit; [by left|].
      rewrite (take_S_r _ _ _ Hi), filter_app, Forall_app. split_and!; try done.
      by repeat constructor.
    + by at_exit.
  - intros (-> & Hw & ->). destruct (_ !! _) as [r|] eqn:Hi; at_exit.
    + by rewrite initKeyMap_take.
    + split_and!; [done..|]. rewrite (take_all _ _ Hi). apply diffed_init.
  - intros (-> & Hw & Hst). destruct (_ !! _) as [module|] eqn:Hi.
    + rewrite bind_run, diffStep_run. cbn zeta.
      destruct (answer _ s) as [err|[targets]] eqn:Hans; [at_exit; auto|].
      destruct targets as [|target [|??]]; at_exit; split_and!; try done.
      apply diffed_recordResolved; [|done]. unfold resolvesTo. by rewrite <-Hw.
    + by at_exit.
Qed.

(** Lines 139-164: the two mutations. *)
Lemma sound_mutate c : 0 < phase c.1 ≤ 3 → sound c → sound (exec task c).
Proof.
  destruct c as [[] s]; cbn [phase fst]; try lia; intros _; at_entry.
  - intros [Hw Hst]. rewrite bind_run.
    rewrite (run_val_eta _ _ _ (registerMissing_val _ s)). at_exit.
    by rewrite world_registerMissing, Hw.
  - intros (Hw & Hst & ->). destruct (_ !! _) as [r|] eqn:Hi; at_exit.
    + by rewrite collectDeregister_take.
    + exists realResources, st. by rewrite (take_all _ _ Hi).
  - intros (realResources & st & Hw & Hst & -> & ->). rewrite bind_run.
    rewrite (run_val_eta _ _ _ (deregisterStale_val _ _ s)). at_exit.
    right. split; [done|]. exists realResources, st. split; [done|].
    by rewrite world_deregisterStale, Hw.
Qed.

Lemma sound_exec c : sound c → sound (exec task c).
Proof.
  destruct (final c) eqn:Hf; [by rewrite exec_final|].
  destruct (decide (6 < phase c.1)); [by apply sound_fetch|].
  destruct (decide (3 < phase c.1)); [apply sound_diff; lia|].
  apply sound_mutate. destruct c as [[] s]; cbn [phase fst] in *; try lia. done.
Qed.

Lemma sound_rtc c c' : rtc (step task) c c' → sound c → sound c'.
Proof.
  induction 1 as [|c c1 c2 [_ ->] _ IH]; [done|]. intros Hc. by apply IH, sound_exec.
Qed.

Lemma sound_start s : world s = w0 → sound (start s).
Proof. done. Qed.

End assertions.

Section reachable.
Context {W : Type} `{!Collaborators W} `{!LawfulBackend W}.

(** C14 (invariant).  Against a lawful backend the assertions hold at every
    configuration a run reaches: the world is the initial world until the
    registration, that world with [needRegister] registered until the
    deregistration, and with [needDeregister] deregistered after it; at
    the head of every loop the variable the loop builds is the value of
    its reference function on the elements visited so far; and the state
    of the diff is the diff of pairs that dry runs for modules of the
    business resolved. *)
Theorem reachable_sound task biz (s : St W) c :
  Data task = DataBusiness biz →
  rtc (step task) (start s) c → sound biz (world s) c.
Proof. intros Htask Hc. by apply (sound_rtc task biz (world s) Htask (start s)). Qed.

End reachable.

(** ** In the sample world *)

Lemma reachable_sound_witness :
  sound exBusiness exWorld (run exTask 18 (start (initSt exWorld))).
Proof.
  apply (reachable_sound exTask exBusiness (initSt exWorld));
    [reflexivity|apply run_rtc].
Defined.

(** After eighteen steps the sample run is in the collecting loop, with
    the module "db" registered and nothing collected yet. *)
Example sample_assertion_collect :
  ∃ realResources st needDeregister s,
    run exTask 18 (start (initSt exWorld))
    = (AtCollect realResources st 1 needDeregister, s) ∧
    needRegister st = [exResource exModule2] ∧ needDeregister = [].
Proof. vm_compute. by eexists _, _, _, _. Qed.
