(* ===== verification/Recovery.v ===== *)
(** * Recovery: a run that is cut short

    The function has no cancellation path of its own, but a worker may die
    or be stopped between two statements.  What it leaves is the world of
    some configuration of the machine: by the assertions of [Assertions]
    the initial world, or that world with the missing modules registered
    and the stale resources still listed.  Either way the CMDB is as it
    was and IAM answers the next listing, so the next complete run whose
    mutations succeed makes IAM consistent with the CMDB
    ([interrupted_run_heals]): the function needs no cleanup after an
    interrupted run, only another run. *)

From stdpp Require Import relations.
From S2P Require Import Prelude GoString Meta Codec Effects Handler.
From S2P Require Import Backend Steps DiffEngine HandlerSpec Mutations.
From S2P Require Import BackendLaws Convergence Healing.
From S2P Require Import Machine MachineSpec Assertions.

Section recovery.
Context {W : Type} `{!Collaborators W} `{!LawfulBackend W} `{!AtomicBackend W}.
Implicit Types (s : St W) (w : W) (biz : BusinessSimplify) (st : DiffState).

(** ** The world with the missing modules registered *)

Lemma grounded_missing biz w0 realResources resolved :
  grounded biz w0 resolved →
  Forall (λ p, moduleOf biz p.1 ∧ resolvesTo w0 p.1 p.2)
    (missingPairs realResources resolved).
Proof.
  unfold grounded. rewrite !Forall_forall.
  intros Hg [r e] [_ Hp]%list_elem_of_filter. by destruct (Hg _ Hp) as [[module ->] He].
Qed.

Lemma grounded_marker biz w0 resolved :
  grounded biz w0 resolved →
  Forall (λ p, isModuleResource (backendOfEntity p.2) = true) resolved.
Proof.
  intros Hg. eapply Forall_impl; [exact Hg|].
  intros [r e] [[module ->] He]. by eapply DryRun_marker.
Qed.

(** IAM answers the listing after the registration of a diff, failed or
    not, and lists no resource without layers. *)
Lemma listing_diffed biz w0 l realResources st :
  listing biz w0 = inr l → Forall (λ r, r ≠ []) l →
  diffed biz w0 realResources st →
  ∃ l1, listing biz (afterRegister w0 (needRegister st)) = inr l1 ∧
    Forall (λ r, r ≠ []) l1.
Proof.
  intros Hl Hne (resolved & Hg & ->). rewrite diffPure_toRegister.
  destruct (listing_afterRegister_any biz w0 l
              (missingPairs realResources resolved))
    as (l1 & Hl1 & Hin); [done|by apply grounded_missing|].
  exists l1. split; [done|]. pose proof (grounded_marker _ _ _ Hg) as Hmark.
  rewrite Forall_forall in Hne. rewrite Forall_forall in Hmark.
  apply Forall_forall.
  intros b [Hb|Hb]%Hin; [by apply Hne|].
  apply list_elem_of_fmap in Hb as (e & -> & Hb).
  apply list_elem_of_fmap in Hb as (q & -> & [_ Hq]%list_elem_of_filter).
  by apply isModuleResource_nonempty, Hmark.
Qed.

(** The world of a configuration that satisfies its assertion and is not
    final: the CMDB is as in the initial world, and IAM answers the
    listing. *)
Lemma sound_world biz w0 l (c : Config W) :
  listing biz w0 = inr l → Forall (λ r, r ≠ []) l →
  sound biz w0 c → final c = false →
  sameCMDB w0 (world c.2) ∧
  ∃ l1, listing biz (world c.2) = inr l1 ∧ Forall (λ r, r ≠ []) l1.
Proof.
  intros Hl Hne Hc Hf. destruct c as [p s]. unfold sound in Hc.
  destruct p; cbn [fst snd] in *; try done;
    try (assert (world s = w0) as -> by naive_solver; split; [done|by eauto]).
  - destruct Hc as (-> & Hst & _).
    split; [apply afterRegister_sameCMDB|by eapply listing_diffed].
  - destruct Hc as (realResources & st & -> & Hst & _).
    split; [apply afterRegister_sameCMDB|by eapply listing_diffed].
Qed.

(** ** A run cut short after [n] steps *)

Section first_run.
Context (task : WorkRequest) (s : St W) (biz : BusinessSimplify).
Context (instances : list MapStr) (resultResources : list BackendResource).
Context (resolved : list Resolved) (s1 : St W).
Context (Hres : Resolves task s biz instances resultResources resolved s1).
Context (Hsome : resolved ≠ []).
Context (Hlen : (Z.of_nat (length instances) < 2 ^ 63)%Z).

Lemma partial_run_world n :
  let w1 := world (run task n (start s)).2 in
  sameCMDB (world s) w1 ∧
  ∃ l', listing biz w1 = inr l' ∧ Forall (λ r, r ≠ []) l'.
Proof.
  cbn zeta. destruct (final (run task n (start s))) eqn:Hf.
  - destruct (run task n (start s)) as [[] s'] eqn:Hrun; try done.
    replace s' with (HandleModuleSync task s).2
      by (by rewrite (machine_computes_start task s o s')
            by (rewrite <-Hrun; apply run_rtc)).
    split; [by eapply run_leaves_CMDB|by eapply run_leaves_listing].
  - eapply sound_world;
      [by eapply first_run_listing|by destruct Hres as (_ & ? & _)| |done].
    destruct Hres as ([(Hd & _) _] & _).
    by apply (sound_rtc task _ _ Hd (start s)); [apply run_rtc|].
Qed.

(** C21 (safety).  A run stopped after any number of steps, between two
    statements, needs no cleanup: against a lawful backend in which a
    failed mutation changes nothing IAM lists, a later run for the same
    business that finds the CMDB and the listing as the stopped run left
    them, and whose own mutations succeed, returns [nil] and leaves the
    module resources of IAM with exactly the keys of the resolved CMDB
    modules. *)
Theorem interrupted_run_heals n s2 :
  let w1 := world (run task n (start s)).2 in
  sameCMDB w1 (world s2) → listing biz (world s2) = listing biz w1 →
  (∀ l', listing biz (world s2) = inr l' →
     mutationsSucceed (world s2)
       (toRegister (filter isModuleResource l') resolved)
       (lastScope zeroScope resolved)
       (toDeregister (filter isModuleResource l') resolved)) →
  (HandleModuleSync task s2).1 = Returned None ∧
  ∃ l'', listing biz (world (HandleModuleSync task s2).2) = inr l'' ∧
    consistent (filter isModuleResource l'') resolved.
Proof.
  cbn zeta. destruct (partial_run_world n) as [Hsame Hl].
  by eapply heals_from.
Qed.

End first_run.

End recovery.

(** ** In the sample world *)

(** The world the sample run leaves when it is stopped after eighteen
    steps, in the collecting loop: "db" is registered, "cache" is still
    listed. *)
Definition exWorldStopped : RefWorld :=
  world (run exTask 18 (start (initSt exWorld))).2.

Lemma interrupted_run_heals_witness :
  (HandleModuleSync exTask (initSt exWorldStopped)).1 = Returned None ∧
  ∃ l'', listing exBusiness
           (world (HandleModuleSync exTask (initSt exWorldStopped)).2) = inr l'' ∧
    consistent (filter isModuleResource l'') exResolved.
Proof.
  apply (interrupted_run_heals exTask (initSt exWorld) exBusiness exInstances
           exReal exResolved _ exWorld_Resolves ltac:(done) ltac:(simpl; lia) 18);
    [done|reflexivity|].
  intros l' _. by apply refWorld_mutationsSucceed.
Defined.

Example sample_stopped_run :
  iamRegistry exWorldStopped
  = [(2%Z, exBackend exModule1); (2%Z, exBackend exModule3);
     (2%Z, exBackend exModule2)] ∧
  filter (λ c, is_mutation c)
    (calls (trace (HandleModuleSync exTask (initSt exWorldStopped)).2))
  = [CallRawDeregisterResource (scopeOfBusiness 2) [exBackend exModule3]] ∧
  iamRegistry (world (HandleModuleSync exTask (initSt exWorldStopped)).2)
  = [(2%Z, exBackend exModule1); (2%Z, exBackend exModule2)].
Proof. vm_compute. done. Qed.

(** ** A world that changes during a run

    The run reads the CMDB at line 42 and lists IAM at line 81.  A module
    that is created in between, and registered with IAM by whoever created
    it, is in the listing and not among the modules the run has read: the
    run takes it for stale and deregisters it.  The next run registers it
    again. *)

(** Module 4 ("web") is created and registered. *)
Definition exModule4 : ModuleSimplify := mkModuleSimplify 4 "web".

Definition withModule4 (w : RefWorld) : RefWorld :=
  {| cmdbInstances := cmdbInstances w ++ [rawModule 2 4 "web"];
     iamRegistry := iamRegistry w ++ [(2%Z, exBackend exModule4)];
     faults := faults w |}.

(** The sample run up to the listing, the creation of the module, and the
    rest of the run. *)
Definition exRunAcrossCreation : Config RefWorld :=
  let c := run exTask 6 (start (initSt exWorld)) in
  run exTask 30 (c.1, mkSt (withModule4 (world c.2)) (trace c.2)).

Example sample_stale_snapshot :
  (run exTask 6 (start (initSt exWorld))).1
  = AtList exBusiness [exModule1; exModule2] ∧
  exRunAcrossCreation.1 = Done (Returned None) ∧
  last (cmdbInstances (world exRunAcrossCreation.2))
  = Some (rawModule 2 4 "web") ∧
  iamRegistry (world exRunAcrossCreation.2)
  = [(2%Z, exBackend exModule1); (2%Z, exBackend exModule2)] ∧
  iamRegistry (world (HandleModuleSync exTask
                        (initSt (world exRunAcrossCreation.2))).2)
  = [(2%Z, exBackend exModule1); (2%Z, exBackend exModule2);
     (2%Z, exBackend exModule4)].
Proof. split_and!; vm_compute; reflexivity. Qed.
