(* ===== verification/KeySets.v ===== *)
(** * KeySets: the reconciliation as an operation on sets of keys

    Seen from far, [HandleModuleSync] makes one set equal to another: the
    keys of the module resources IAM lists and the keys of the modules of
    the CMDB.  [plan] is that specification, on finite sets: register the
    keys the CMDB has and IAM lacks, deregister the keys IAM has and the
    CMDB lacks; [carry] applies a plan.  A plan carried out leaves the
    keys of the CMDB ([carry_plan]), plans nothing twice
    ([plan_disjoint]) and is empty on equal sets ([plan_quiet]).

    The diff of the source computes this plan ([diff_refines_plan]), and
    a run whose mutations succeed carries it out ([sync_refines_carry]). *)

From stdpp Require Import gmap.
From S2P Require Import Prelude GoString Meta Codec Effects Handler.
From S2P Require Import Backend Steps DiffEngine HandlerSpec Mutations.
From S2P Require Import BackendLaws Convergence.

(** ** The specification *)

Record Plan := mkPlan {
  toAdd : gset string;
  toDrop : gset string;
}.

Definition plan (cmdb iam : gset string) : Plan :=
  {| toAdd := cmdb ∖ iam; toDrop := iam ∖ cmdb |}.

Definition carry (p : Plan) (iam : gset string) : gset string :=
  (iam ∪ toAdd p) ∖ toDrop p.

Lemma carry_plan cmdb iam : carry (plan cmdb iam) iam = cmdb.
Proof.
  apply set_eq. intros k. unfold carry, plan. simpl.
  destruct (decide (k ∈ iam)), (decide (k ∈ cmdb)); set_solver.
Qed.

Lemma plan_disjoint cmdb iam : toAdd (plan cmdb iam) ## toDrop (plan cmdb iam).
Proof. unfold plan. simpl. set_solver. Qed.

Lemma plan_quiet cmdb : plan cmdb cmdb = {| toAdd := ∅; toDrop := ∅ |}.
Proof. unfold plan. f_equal; set_solver. Qed.

(** ** The sets of a run *)

(** The keys IAM lists, and the keys of the modules the dry runs resolved. *)
Definition iamSet (realResources : list BackendResource) : gset string :=
  list_to_set (iamKeys realResources).

Definition cmdbSet (resolved : list Resolved) : gset string :=
  list_to_set (cmdbKeys resolved).

Lemma consistent_sets realResources resolved :
  consistent realResources resolved ↔ iamSet realResources = cmdbSet resolved.
Proof.
  unfold consistent, iamSet, cmdbSet. rewrite set_eq.
  by setoid_rewrite elem_of_list_to_set.
Qed.

Lemma cmdbSet_missing realResources resolved :
  cmdbSet (missingPairs realResources resolved)
  = cmdbSet resolved ∖ iamSet realResources.
Proof.
  apply set_eq. intros k. unfold cmdbSet, iamSet, cmdbKeys, missingPairs.
  rewrite elem_of_difference, !elem_of_list_to_set, !list_elem_of_fmap.
  setoid_rewrite list_elem_of_filter. naive_solver.
Qed.

Lemma iamSet_toDeregister realResources resolved :
  iamSet (toDeregister realResources resolved)
  = iamSet realResources ∖ cmdbSet resolved.
Proof.
  apply set_eq. intros k. unfold cmdbSet, iamSet, iamKeys, toDeregister.
  rewrite elem_of_difference, !elem_of_list_to_set, !list_elem_of_fmap.
  setoid_rewrite list_elem_of_filter. naive_solver.
Qed.

(** The diff loop of the source computes the plan: the pairs whose
    resources it collects in [needRegister] have the keys to add, the
    resources it collects for deregistration the keys to drop. *)
Theorem diff_refines_plan realResources resolved :
  (Z.of_nat (length resolved) < 2 ^ 63)%Z →
  let st := diffPure (initDiffState realResources) resolved in
  let p := plan (cmdbSet resolved) (iamSet realResources) in
  needRegister st = (missingPairs realResources resolved).*1 ∧
  cmdbSet (missingPairs realResources resolved) = toAdd p ∧
  iamSet (collectDeregister (iamResourceKeyMap st) realResources) = toDrop p.
Proof.
  intros Hlen. cbn zeta. split_and!.
  - apply diffPure_toRegister.
  - apply cmdbSet_missing.
  - rewrite diffPure_toDeregister by done. apply iamSet_toDeregister.
Qed.

(** ** A run carries out the plan *)

Section run.
Context {W : Type} `{!Collaborators W} `{!LawfulBackend W}.
Context (task : WorkRequest) (s : St W) (biz : BusinessSimplify).
Context (instances : list MapStr) (resultResources : list BackendResource).
Context (resolved : list Resolved) (s1 : St W).
Context (Hres : Resolves task s biz instances resultResources resolved s1).
Context (Hsome : resolved ≠ []).
Context (Hlen : (Z.of_nat (length instances) < 2 ^ 63)%Z).
Context (Hmut : mutationsSucceed (world s)
                  (toRegister (filter isModuleResource resultResources) resolved)
                  (lastScope zeroScope resolved)
                  (toDeregister (filter isModuleResource resultResources) resolved)).

(** The keys of the module resources IAM lists after the run are the keys
    it listed before with the plan carried out. *)
Theorem sync_refines_carry :
  let iam := iamSet (filter isModuleResource resultResources) in
  ∃ l', listing biz (world (HandleModuleSync task s).2) = inr l' ∧
    iamSet (filter isModuleResource l') = carry (plan (cmdbSet resolved) iam) iam.
Proof.
  cbn zeta. destruct (first_run_consistent _ _ _ _ _ _ _ Hres Hsome Hlen Hmut)
    as (l' & Hl' & Hcons).
  exists l'. split; [done|]. rewrite carry_plan. by apply consistent_sets.
Qed.

End run.

(** ** In the sample world *)

(** The sample run adds the key of "db" and drops the key of "cache". *)
Example sample_plan :
  cmdbKeys (missingPairs exReal exResolved)
  = [generateCMDBResourceKey (exEntity exModule2)] ∧
  iamKeys (toDeregister exReal exResolved)
  = [generateIAMResourceKey (exBackend exModule3)].
Proof. split; vm_compute; reflexivity. Qed.
